(* ===== verification/_CoqProject ===== *)
-Q . S2P
Prelude.v
Ctype.v
CString.v
Numeric.v
Vsprintf.v
Malloc.v
CMem.v
Md5Ref.v
Md5.v
Prom.v
Client.v
Disk.v
Cfg.v
Cmdline.v
Devpath.v
Partition.v
Fs.v
Iso.v
Paths.v
Xfs.v
Reiserfs.v
ReiserfsFile.v
Ext2.v
Elf.v
Boot.v
Params.v
Main.v
System.v
Addnote.v
Elfextract.v
