(* ===== verification/Prelude.v ===== *)
(** * Yaboot: a verification development

    Yaboot is the second stage boot loader of PowerPC Linux machines.  Open Firmware
    starts it; it finds its configuration file on the boot device, lets the user choose a
    label at the prompt, loads the kernel of the label and starts it.  This library models
    the code of [src/second], [src/lib] and [src/util] and proves what makes its parts correct.

    ** The program and the files

    From the bottom up, each file requires the ones it uses:

    - [Prelude]: machine integers as [Z] with their wrap-around ([u8] ... [s64]), bytes and
      big-endian words, slices and stores of buffers, C strings as lists of characters
      without the terminator ([cstr_ok]), the three-way [result], the state monad [stm] of
      stateful operations that fail, tactics.
    - [Ctype] (lib/ctype.c, ctype.h), [CString] (lib/string.S, lib/strstr.c), [Numeric]
      (lib/strtol.c and the number readers of lib/vsprintf.c), [Vsprintf] (the formatter),
      [Malloc] (lib/malloc.c, the bump allocator), [CMem] (the memory routines of
      lib/string.S), [Md5] (second/md5.c and the password check): the C library of the
      program.  [Md5Ref] is MD5 and MD5-crypt from their descriptions, apart from the code,
      with test vectors.
    - [Prom] (second/prom.c): the client of Open Firmware.  The firmware is the type class
      [Firmware]; [script] and [Disk.image] are two firmwares to run the model on.
    - [Client] (second/prom.c, first part, lib/nonstd.c): the calls below, through the entry
      of the firmware ([Entry]), which are the operations of [Firmware] when the entry
      answers as documented ([serve]); the start [prom_init].
    - [Disk]: the interfaces [BlockDevice] and [SeekDevice], what readers of disks rely on,
      and disk images.
    - [Cfg] (second/cfg.c): the lexer and the parser of yaboot.conf, its tables and their
      lookup.
    - [Devpath] (second/file.c, first half): device paths, network boot arguments, DHCP
      options.
    - [Partition] (second/partition.c, swab.h): Macintosh, PC, CD-ROM and Amiga partition
      tables.
    - [Fs] (second/fs.c, fs_of.c, fs_swap.c, fs_iso.c, second half of file.c): the file
      layer; [Iso] (iso_util.c).
    - [Elf] (second/yaboot.c): the ELF loader.
    - [Paths]: the cursor on a path that the readers of file systems share.
    - [Xfs] (second/fs_xfs.c, xfs.h): the XFS reader, and volumes as an abstract tree of
      directories and files.
    - [Reiserfs] (second/fs_reiserfs.c, reiserfs.h): the ReiserFS reader with its journal and
      node cache, and the tree on the disk as a specification ([tree_ok], [in_tree],
      [items]); [ReiserfsFile]: the files and directories that the items of the tree make
      up, the lookup in them ([resolve]) and what the reader reads of them.
    - [Ext2] (second/fs_ext2.c): the Ext2 reader over libext2fs, which is the class
      [Libext2], and its I/O manager for devices of the firmware.
    - [Cmdline] (second/cmdline.c, [check_password] of yaboot.c): the line editor and the
      password prompt.
    - [Boot], [Params], [Main] (second/yaboot.c): the variables of the program and the
      configuration loaded, the prompt ([get_params]), and the start, the main loop and the
      entry of the kernel.
    - [System]: the whole program.  The parts above take the file systems as arguments;
      here are their tables of operations ([fs_t]), the calls through the table of an open
      file, one state for the static variables of all readers, and [program], which starts
      at the entry of the firmware.
    - [Addnote], [Elfextract] (util/addnote.c, util/elfextract.c): the host tools that add
      notes to the boot image and extract its segments; they share nothing with the loader.

    The calls go down this list from the end: [System.program] sets up the client
    of the firmware and calls [Main.yaboot_start], which prepares the heap and loads the
    configuration ([Boot], which calls [Devpath], [Fs] and [Cfg]); [Main.text_ui] asks [Params.get_params] what to boot,
    loads it with [Elf] and the file operations, and enters it.

    ** Correspondence

    A C function is the definition of the same name; a loop is a [Fixpoint] named after its
    function; a structure is a [Record] with the fields of the structure.  A static or
    global variable is a field of the state its functions thread ([cfg], [heap], [pstate],
    [fstate], [xst], [rst], [est],
    [ystate]); an out-parameter is a component of the result.  Where the
    code moves pointers through a buffer that others write, the model has the buffer and
    the offset ([Boot.cptr], [Paths.path]).  Error codes are the
    integers of errors.h; a [longjmp] of the parser is [Err] with its message; what C
    leaves undefined (an access outside an object, a NULL pointer, a division by zero, a
    use of a variable without a value) is
    [Err] of a [fault], so that a theorem with an [Ok] result also says that none occurs.
    There is one exception, the definitions with a parameter [low]: the code reads strings
    through NULL in the ordinary course (a device without a file name, a path parsed without
    a default device), the machine has memory at address 0, and [low] is the string that
    lies there.  A store through NULL is a fault there as well.
    [Fuel] marks a loop that was not given enough fuel.

    ** What the theorems show

    - functional behaviour against a reference: the parsed configuration against the list
      of its options, MD5 over chunks against the digest of the whole message, the password
      check against MD5-crypt over the MD5 of RFC 1321 ([Md5Ref]), copies by
      words in place against a copy of all the bytes at once, numbers and addresses against
      their values, partition tables against their entries, segments of
      a kernel in memory against the file, the notes of a boot image against a reader of
      notes;
    - round trips: printing and reading numbers and addresses, making and checking
      password hashes;
    - bounds: tokens, input lines, paths and copies fit the buffers they are put in;
    - safety and invariants: after any calls of the allocator, failures and moving
      [realloc]s included, live blocks lie in the pool, never overlap and keep their
      contents, and a block that is moved takes its bytes along; a guarded label is not
      booted without the password;
    - refinement: the line editor over its buffer implements the editing of a line; opening
      and reading a file of an XFS volume implements the lookup in the abstract volume; the
      cached search and the cursor of ReiserFS implement lookup in the tree on the disk and
      the order of its items, from any state in which the cache agrees with the disk, which
      the mount establishes and every step keeps, and on top of them opening and reading a
      file of a ReiserFS volume implements the lookup in the objects the items make up; the
      ranges of blocks that the Ext2 reader
      collects are the bytes of the blocks of the file;
    - composition: a configuration from the file to the queries, a kernel from the file to
      its entry, and a kernel from an XFS volume on a partitioned disk through the tables of
      operations to its entry;
    - termination: the parser on every input, the walk over an Amiga table on every disk,
      the search for memory to claim, the formatter; a pause ends when the clock advances.

    The [Example]s evaluate the definitions where the code does not do what it means to;
    each says what it shows.

    ** Fuel and bounds

    The parser takes its fuel from the length of the file ([token_fuel]), the memory search
    from its range ([claim_fuel]), the formatter from its format; theorems show that this
    is enough.  The walk over a partition map, the console's busy wait, the prompt and the
    readers of file systems take fuel as an argument, and the theorems say how much is
    enough.

    ** Not modelled

    - the effect of the Forth definitions that [Client.prom_init] hands to the firmware;
    - the kernel, which [Main.jump] hands over to, and the flush of the instruction cache
      before it;
    - libext2fs, which is not in the repository: the class [Ext2.Libext2] with the laws
      the reader relies on; the slow reader of fs_ext2.c, which is not compiled
      ([FAST_VERSION] is defined);
    - allocation failure of the blocks strings are copied to (the heap itself is
      [Malloc]; where the size of a block comes from a disk, its failure is modelled);
    - the frees of blocks whose address the model does not keep, where a string or a list
      stands for the block: the names in [params.kernel.file] and [params.rd.file] and the
      one [load_my_config_file] replaces.  The heap of the model then keeps the block, which
      the bump allocator of the program does as well unless it is the last one;
    - the blocks of the nodes of a partition list, which is a value: they are neither
      allocated nor freed in the heap of the model ([add_new_partition], [file_block_open]);
    - what [strncpy] copies into the name of a partition from a NULL string: the name is
      [None], and only [get_part_type] reads it, behind a type that fills its array, which
      the tables with such names do not have;
    - start-up and cache assembly (crt0.S, cache.S, setjmp.S, whose effect on the parser is
      the error result of [Cfg]);
    - the vendored headers of ext2fs, and the scripts (ybin, ofpath, yabootconfig,
      first/ofboot), which are not C. *)
From Stdlib Require Export ZArith Lia.
From stdpp Require Export base tactics numbers sets list list_numbers strings option gmap.

Global Open Scope Z_scope.

(** ** Machine integers

    The target is 32-bit big-endian PowerPC: [char] is signed
    ([-fsigned-char]), [int], [long] and pointers are 32 bits wide and
    [long long] is 64 bits wide.  An integer of a given width is a [Z] and the
    conversion to the width is written out. *)

Definition u8 (z : Z) : Z := z `mod` 256.
Definition u16 (z : Z) : Z := z `mod` 65536.
Definition u32 (z : Z) : Z := z `mod` 4294967296.
Definition u64 (z : Z) : Z := z `mod` 18446744073709551616.

(** conversion to a signed type of the same width: two's complement *)
Definition s8 (z : Z) : Z :=
  let w := u8 z in if w <? 128 then w else w - 256.
Definition s16 (z : Z) : Z := let w := u16 z in if w <? 32768 then w else w - 65536.
Definition s32 (z : Z) : Z :=
  let w := u32 z in if w <? 2147483648 then w else w - 4294967296.
Definition s64 (z : Z) : Z :=
  let w := u64 z in if w <? 9223372036854775808 then w else w - 18446744073709551616.

Definition INT_MAX : Z := 2147483647.
Definition INT_MIN : Z := -2147483648.

Ltac words := unfold s8, s32, s64, u8, u16, u32, u64, INT_MAX, INT_MIN in *; cbv zeta in *.

Lemma u8_range z : 0 <= u8 z < 256.
Proof. words. apply Z.mod_pos_bound. lia. Qed.
Lemma u16_range z : 0 <= u16 z < 65536.
Proof. words. apply Z.mod_pos_bound. lia. Qed.
Lemma u32_range z : 0 <= u32 z < 4294967296.
Proof. words. apply Z.mod_pos_bound. lia. Qed.
Lemma u64_range z : 0 <= u64 z < 18446744073709551616.
Proof. words. apply Z.mod_pos_bound. lia. Qed.
Lemma u8_small z : 0 <= z < 256 → u8 z = z.
Proof. words. apply Z.mod_small. Qed.
Lemma u16_small z : 0 <= z < 65536 → u16 z = z.
Proof. words. apply Z.mod_small. Qed.
Lemma u32_small z : 0 <= z < 4294967296 → u32 z = z.
Proof. words. apply Z.mod_small. Qed.
Lemma u64_small z : 0 <= z < 18446744073709551616 → u64 z = z.
Proof. words. apply Z.mod_small. Qed.
Lemma s8_range z : -128 <= s8 z < 128.
Proof. unfold s8. pose proof (u8_range z). case_match; lia. Qed.
Lemma s32_range z : INT_MIN <= s32 z <= INT_MAX.
Proof. unfold s32, INT_MIN, INT_MAX. pose proof (u32_range z). case_match; lia. Qed.
Lemma s32_small z : INT_MIN <= z <= INT_MAX → s32 z = z.
Proof.
  words. intros H. destruct (Z.ltb_spec (z `mod` 4294967296) 2147483648);
    Z.div_mod_to_equations; lia.
Qed.
Lemma s32_u32 z : s32 (u32 z) = s32 z.
Proof. words. by rewrite Z.mod_mod. Qed.
Lemma u32_s32 z : u32 (s32 z) = u32 z.
Proof.
  words. destruct (Z.ltb_spec (z `mod` 4294967296) 2147483648).
  - by rewrite Z.mod_mod.
  - Z.div_mod_to_equations; lia.
Qed.
Lemma u32_u32 z : u32 (u32 z) = u32 z.
Proof. words. by rewrite Z.mod_mod. Qed.
Lemma u64_u64 z : u64 (u64 z) = u64 z.
Proof. words. by rewrite Z.mod_mod. Qed.

Lemma u32_add_l a b : u32 (u32 a + b) = u32 (a + b).
Proof. words. by rewrite Zplus_mod_idemp_l. Qed.
Lemma u32_add_r a b : u32 (a + u32 b) = u32 (a + b).
Proof. words. by rewrite Zplus_mod_idemp_r. Qed.
Lemma u32_mul_l a b : u32 (u32 a * b) = u32 (a * b).
Proof. words. by rewrite Zmult_mod_idemp_l. Qed.
Lemma u32_mul_r a b : u32 (a * u32 b) = u32 (a * b).
Proof. words. by rewrite Zmult_mod_idemp_r. Qed.

Create HintDb word.
Create Rewrite HintDb word_rw.
#[export] Hint Resolve u8_range u16_range u32_range u64_range s8_range s32_range : word.
#[export] Hint Rewrite u32_u32 u64_u64 s32_u32 u32_s32 u32_add_l u32_add_r u32_mul_l : word_rw.

(** masks of low bits are remainders *)
Lemma land_255 z : Z.land z 255 = z `mod` 256.
Proof. change 255 with (Z.ones 8). by rewrite Z.land_ones. Qed.
Lemma land_63 z : Z.land z 63 = z `mod` 64.
Proof. change 63 with (Z.ones 6). by rewrite Z.land_ones. Qed.
Lemma land_1 z : Z.land z 1 = z `mod` 2.
Proof. change 1 with (Z.ones 1) at 1. by rewrite Z.land_ones. Qed.

(** the byte at bit [k] *)
Lemma land_field x k : 0 <= k → Z.land x (255 * 2 ^ k) = (x / 2 ^ k) `mod` 256 * 2 ^ k.
Proof.
  intros Hk. change 255 with (Z.ones 8). change 256 with (2 ^ 8).
  rewrite <- !Z.shiftl_mul_pow2, <- Z.land_ones, <- Z.shiftr_div_pow2 by lia.
  apply Z.bits_inj_iff'. intros i Hi. rewrite Z.land_spec, !Z.shiftl_spec, Z.land_spec by lia.
  destruct (decide (i < k)).
  - rewrite (Z.testbit_neg_r (Z.ones 8)) by lia. by rewrite !andb_false_r.
  - rewrite Z.shiftr_spec by lia. by replace (i - k + k) with i by lia.
Qed.

(** disjoint bits: [lor] is addition *)
Lemma lor_shiftl_add a b n : 0 <= n → 0 <= b < 2 ^ n → Z.lor (Z.shiftl a n) b = a * 2 ^ n + b.
Proof.
  intros Hn Hb. rewrite <- Z.shiftl_mul_pow2 by lia. symmetry. rewrite Z.add_nocarry_lxor.
  - apply Z.bits_inj_iff'. intros i Hi. rewrite Z.lxor_spec, Z.lor_spec, Z.shiftl_spec by lia.
    destruct (decide (i < n)).
    + rewrite (Z.testbit_neg_r a) by lia. by destruct (Z.testbit b i).
    + rewrite <- (Z.mod_small b (2 ^ n)) by lia. rewrite Z.mod_pow2_bits_high by lia.
      by destruct (Z.testbit a (i - n)).
  - apply Z.bits_inj_iff'. intros i Hi. rewrite Z.land_spec, Z.shiftl_spec, Z.bits_0 by lia.
    destruct (decide (i < n)).
    + by rewrite (Z.testbit_neg_r a) by lia.
    + rewrite <- (Z.mod_small b (2 ^ n)) by lia. rewrite Z.mod_pow2_bits_high by lia.
      by rewrite andb_false_r.
Qed.

(** ** Bytes, loads and stores

    A byte is a [Z] in [0, 256); a region of memory is a list of bytes.  The
    machine is big-endian, so a plain load is [be16], [be32] or [be64]. *)

Definition is_byte (b : Z) : Prop := 0 <= b < 256.
Definition are_bytes (l : list Z) : Prop := Forall is_byte l.

#[export] Instance is_byte_dec b : Decision (is_byte b).
Proof. unfold is_byte. apply _. Defined.
#[export] Instance are_bytes_dec l : Decision (are_bytes l).
Proof. unfold are_bytes. apply _. Defined.

(** byte [i] of a region; a read past the end is not defined in C, and the
    development either proves that it does not happen or names it *)
Definition byte_at (l : list Z) (i : Z) : Z :=
  if i <? 0 then 0 else nth (Z.to_nat i) l 0.

Definition be16 (l : list Z) (i : Z) : Z := byte_at l i * 256 + byte_at l (i + 1).
Definition be32 (l : list Z) (i : Z) : Z :=
  byte_at l i * 16777216 + byte_at l (i + 1) * 65536 +
  byte_at l (i + 2) * 256 + byte_at l (i + 3).
Definition be64 (l : list Z) (i : Z) : Z := be32 l i * 4294967296 + be32 l (i + 4).

(** the bytes a big-endian store of [z] writes *)
Definition put_be16 (z : Z) : list Z := [u8 (z / 256); u8 z].
Definition put_be32 (z : Z) : list Z :=
  [u8 (z / 16777216); u8 (z / 65536); u8 (z / 256); u8 z].
Definition put_le32 (z : Z) : list Z := rev (put_be32 z).

(** [slice l i n] are the [n] bytes of [l] from offset [i] *)
Definition slice (l : list Z) (i n : Z) : list Z := take (Z.to_nat n) (drop (Z.to_nat i) l).

(** [l] with the bytes of [v] stored at offset [i] *)
Definition store (l : list Z) (i : Z) (v : list Z) : list Z :=
  take (Z.to_nat i) l ++ v ++ drop (Z.to_nat i + length v) l.

Lemma byte_at_range l i : are_bytes l → is_byte (byte_at l i).
Proof.
  intros H. unfold byte_at. case_match; [unfold is_byte; lia|].
  destruct (nth_in_or_default (Z.to_nat i) l 0) as [Hin| ->].
  - by eapply (proj1 (List.Forall_forall _ l)) in H; [exact H|].
  - unfold is_byte. lia.
Qed.

Lemma be16_range l i : are_bytes l → 0 <= be16 l i < 65536.
Proof.
  intros H. unfold be16.
  pose proof (byte_at_range l i H). pose proof (byte_at_range l (i + 1) H).
  unfold is_byte in *. lia.
Qed.

Lemma byte_at_app (pre l : list Z) i :
  0 <= i → byte_at (pre ++ l) (Z.of_nat (length pre) + i) = byte_at l i.
Proof.
  intros Hi. unfold byte_at.
  destruct (Z.ltb_spec (Z.of_nat (length pre) + i) 0), (Z.ltb_spec i 0); try lia.
  rewrite app_nth2 by lia. f_equal. lia.
Qed.

Lemma byte_at_store buf v i : 0 <= i < Z.of_nat (length v) → byte_at (store buf 0 v) i = byte_at v i.
Proof.
  intros Hi. unfold store, byte_at. simpl. destruct (Z.ltb_spec i 0); [lia|]. apply app_nth1. lia.
Qed.

Lemma slice_store buf v i n : 0 <= i → 0 <= n → i + n <= Z.of_nat (length v) →
  slice (store buf 0 v) i n = slice v i n.
Proof.
  intros. unfold store, slice. simpl. rewrite drop_app_le, take_app_le by (rewrite ?length_drop; lia). done.
Qed.

Lemma be16_store buf v i : 0 <= i → i + 2 <= Z.of_nat (length v) → be16 (store buf 0 v) i = be16 v i.
Proof. intros. unfold be16. by rewrite !byte_at_store by lia. Qed.

Lemma be32_store buf v i : 0 <= i → i + 4 <= Z.of_nat (length v) → be32 (store buf 0 v) i = be32 v i.
Proof. intros. unfold be32. by rewrite !byte_at_store by lia. Qed.

Lemma be32_range l i : are_bytes l → 0 <= be32 l i < 4294967296.
Proof.
  intros H. unfold be32.
  pose proof (byte_at_range l i H). pose proof (byte_at_range l (i + 1) H).
  pose proof (byte_at_range l (i + 2) H). pose proof (byte_at_range l (i + 3) H).
  unfold is_byte in *. lia.
Qed.

Lemma be32_put z rest : 0 <= z < 4294967296 → be32 (put_be32 z ++ rest) 0 = z.
Proof.
  intros H. unfold be32, put_be32, byte_at. simpl. words.
  Z.div_mod_to_equations. lia.
Qed.

Lemma length_slice l i n :
  0 <= i → 0 <= n → i + n <= Z.of_nat (length l) → length (slice l i n) = Z.to_nat n.
Proof. intros. unfold slice. rewrite length_take, length_drop. lia. Qed.

Lemma slice_full l n : n = Z.of_nat (length l) → slice l 0 n = l.
Proof. intros ->. unfold slice. simpl. rewrite drop_0. apply take_ge. lia. Qed.

Lemma slice_app l i n m :
  0 <= i → 0 <= n → 0 <= m → slice l i (n + m) = slice l i n ++ slice l (i + n) m.
Proof.
  intros. unfold slice. rewrite !Z2Nat.inj_add by lia.
  by rewrite <- (drop_drop l), take_take_drop.
Qed.

Lemma length_store l i v :
  0 <= i → i + Z.of_nat (length v) <= Z.of_nat (length l) → length (store l i v) = length l.
Proof.
  intros. unfold store. rewrite !length_app, length_take, length_drop. lia.
Qed.

Lemma store_app a v' b v : length v' = length v →
  store (a ++ v' ++ b) (Z.of_nat (length a)) v = a ++ v ++ b.
Proof.
  intros H. unfold store. rewrite Nat2Z.id, take_app_length. do 2 f_equal.
  rewrite <- H, app_assoc. apply drop_app_length'. by rewrite length_app.
Qed.

Lemma store_store buf i a b : 0 <= i → i + Z.of_nat (length a) <= Z.of_nat (length buf) →
  store (store buf i a) (i + Z.of_nat (length a)) b = store buf i (a ++ b).
Proof.
  intros Hi Hl. unfold store. rewrite Z2Nat.inj_add, Nat2Z.id by lia.
  rewrite (app_assoc (take (Z.to_nat i) buf) a), (take_app_length' (take (Z.to_nat i) buf ++ a))
    by (rewrite length_app, length_take; lia).
  rewrite <- !app_assoc. do 3 f_equal.
  replace (Z.to_nat i + length a + length b)%nat with (length (take (Z.to_nat i) buf ++ a) + length b)%nat
    by (rewrite length_app, length_take; lia).
  rewrite app_assoc, <- drop_drop, (drop_app_length' (take (Z.to_nat i) buf ++ a)) by done.
  rewrite drop_drop, length_app. f_equal. lia.
Qed.

Lemma slice_slice l i n j m : 0 <= i → 0 <= j → 0 <= m → j + m <= n →
  slice (slice l i n) j m = slice l (i + j) m.
Proof.
  intros. unfold slice. rewrite skipn_firstn_comm, drop_drop, take_take, Z2Nat.inj_add by lia. f_equal. lia.
Qed.

Lemma slice_app_l a b i n : 0 <= i → 0 <= n → i + n <= Z.of_nat (length a) → slice (a ++ b) i n = slice a i n.
Proof. intros. unfold slice. rewrite drop_app_le, take_app_le by (rewrite ?length_drop; lia). done. Qed.

Lemma slice_app_r a b i n : 0 <= i → slice (a ++ b) (Z.of_nat (length a) + i) n = slice b i n.
Proof.
  intros. unfold slice. rewrite drop_app_ge by lia. do 2 f_equal. lia.
Qed.

Lemma store_nil buf i : store buf i [] = buf.
Proof. unfold store. cbn [app length]. rewrite Nat.add_0_r. apply take_drop. Qed.

Lemma byte_at_store_after b q v i : 0 <= q → q + Z.of_nat (length v) <= i → q + Z.of_nat (length v) <= Z.of_nat (length b) →
  byte_at (store b q v) i = byte_at b i.
Proof.
  intros Hq Hi Hl. unfold byte_at, store. destruct (Z.ltb_spec i 0); [done|]. rewrite !nth_lookup.
  rewrite app_assoc, lookup_app_r by (rewrite length_app, length_take; lia).
  rewrite lookup_drop, length_app, length_take. do 2 f_equal. lia.
Qed.

Lemma slice_store_after b q v i n : 0 <= q → q + Z.of_nat (length v) <= i → q + Z.of_nat (length v) <= Z.of_nat (length b) →
  slice (store b q v) i n = slice b i n.
Proof.
  intros Hq Hi Hl. unfold slice, store. rewrite app_assoc, drop_app_ge by (rewrite length_app, length_take; lia).
  rewrite drop_drop, length_app, length_take. do 2 f_equal. lia.
Qed.

Lemma byte_at_slice l o n i : 0 <= o → 0 <= i < n → byte_at (slice l o n) i = byte_at l (o + i).
Proof.
  intros Ho Hi. unfold byte_at, slice. destruct (Z.ltb_spec i 0), (Z.ltb_spec (o + i) 0); try lia.
  rewrite Z2Nat.inj_add by lia.
  rewrite !nth_lookup, lookup_take, decide_True, lookup_drop by lia. done.
Qed.

Lemma are_bytes_slice l o n : are_bytes l → are_bytes (slice l o n).
Proof. intros Hl. unfold slice, are_bytes. by apply Forall_take, Forall_drop. Qed.

Lemma slice_store_before b q v i n : 0 <= i → 0 <= n → i + n <= q → q <= Z.of_nat (length b) →
  slice (store b q v) i n = slice b i n.
Proof.
  intros. unfold store. rewrite slice_app_l by (rewrite ?length_take; lia).
  unfold slice. rewrite <- (take_drop (Z.to_nat q) b) at 2.
  rewrite drop_app_le, take_app_le by (rewrite ?length_drop, length_take; lia). done.
Qed.

Lemma slice_store_same b q v : 0 <= q → q + Z.of_nat (length v) <= Z.of_nat (length b) →
  slice (store b q v) q (Z.of_nat (length v)) = v.
Proof.
  intros. unfold store, slice. rewrite drop_app_length' by (rewrite length_take; lia).
  by rewrite Nat2Z.id, take_app_length.
Qed.

(** a store leaves the bytes on both of its sides *)
Lemma slice_store_other b q v i n : 0 <= q → 0 <= i → 0 <= n →
  q + Z.of_nat (length v) <= Z.of_nat (length b) → i + n <= q ∨ q + Z.of_nat (length v) <= i →
  slice (store b q v) i n = slice b i n.
Proof. intros Hq Hi Hn Hl [H|H]; [apply slice_store_before|apply slice_store_after]; lia. Qed.

Lemma byte_at_store_other b q v i : 0 <= q → 0 <= i →
  q + Z.of_nat (length v) <= Z.of_nat (length b) → i + 1 <= q ∨ q + Z.of_nat (length v) <= i →
  byte_at (store b q v) i = byte_at b i.
Proof.
  intros Hq Hi Hl H. pose proof (slice_store_other b q v i 1 Hq Hi ltac:(lia) Hl H) as E.
  rewrite <- (Z.add_0_r i), <- !(byte_at_slice _ i 1) by lia. by rewrite E.
Qed.

Lemma be32_slice l i : 0 <= i → be32 l i = be32 (slice l i 4) 0.
Proof. intros Hi. unfold be32. rewrite !byte_at_slice by lia. repeat f_equal; lia. Qed.

Lemma be16_slice l i : 0 <= i → be16 l i = be16 (slice l i 2) 0.
Proof. intros Hi. unfold be16. rewrite !byte_at_slice by lia. repeat f_equal; lia. Qed.

Lemma are_bytes_store l i v : are_bytes l → are_bytes v → are_bytes (store l i v).
Proof.
  intros. unfold store. apply Forall_app_2; [by apply Forall_take|].
  apply Forall_app_2; [done|by apply Forall_drop].
Qed.

(** ** Strings

    A pointer into a NUL-terminated string is the list of the bytes from the
    pointer on, without the terminator: [*p] is [deref p] and [p + 1] is
    [tail p].  [bs] turns a literal of the source into bytes. *)

Fixpoint bs (s : string) : list Z :=
  match s with
  | EmptyString => []
  | String a r => Z.of_N (Ascii.N_of_ascii a) :: bs r
  end.
Arguments bs _%_string_scope.

Definition deref (p : list Z) : Z := match p with [] => 0 | b :: _ => b end.

(** [*p] through a [char *]: [char] is signed *)
Definition sderef (p : list Z) : Z := s8 (deref p).

Definition is_char (b : Z) : Prop := 0 < b < 256.
Definition cstr_ok (s : list Z) : Prop := Forall is_char s.

#[export] Instance is_char_dec b : Decision (is_char b).
Proof. unfold is_char. apply _. Defined.
#[export] Instance cstr_ok_dec s : Decision (cstr_ok s).
Proof. unfold cstr_ok. apply _. Defined.

(** the string a buffer holds: the bytes before the first NUL *)
Fixpoint cstring (l : list Z) : list Z :=
  match l with
  | [] => []
  | b :: r => if b =? 0 then [] else b :: cstring r
  end.

Lemma cstring_ok l : are_bytes l → cstr_ok (cstring l).
Proof.
  induction 1 as [|b l Hb Hl IH]; simpl; [constructor|].
  destruct (Z.eqb_spec b 0); constructor; [|done].
  unfold is_byte, is_char in *. lia.
Qed.

Lemma cstring_id s : cstr_ok s → cstring s = s.
Proof.
  induction 1 as [|b l Hb Hl IH]; simpl; [done|].
  unfold is_char in Hb. destruct (Z.eqb_spec b 0); [lia|]. by rewrite IH.
Qed.

(** a string stored in a buffer ends at its terminator *)
Lemma cstring_terminated s rest : cstr_ok s → cstring (s ++ 0 :: rest) = s.
Proof.
  induction 1 as [|b l Hb Hl IH]; simpl; [done|].
  unfold is_char in Hb. destruct (Z.eqb_spec b 0); [lia|]. by rewrite IH.
Qed.

Lemma cstr_ok_app s t : cstr_ok (s ++ t) ↔ cstr_ok s ∧ cstr_ok t.
Proof. unfold cstr_ok. apply Forall_app. Qed.

Lemma cstr_ok_cons b s : cstr_ok (b :: s) ↔ is_char b ∧ cstr_ok s.
Proof. unfold cstr_ok. apply Forall_cons_iff. Qed.

Lemma cstr_ok_nil : cstr_ok [].
Proof. constructor. Qed.

Lemma cstr_ok_tail s : cstr_ok s → cstr_ok (tail s).
Proof. destruct 1; simpl; [constructor|done]. Qed.

Lemma cstr_ok_drop n s : cstr_ok s → cstr_ok (drop n s).
Proof. apply Forall_drop. Qed.

Lemma cstr_ok_take n s : cstr_ok s → cstr_ok (take n s).
Proof. apply Forall_take. Qed.

Lemma cstr_ok_are_bytes s : cstr_ok s → are_bytes s.
Proof. intros H. eapply Forall_impl; [exact H|]. unfold is_char, is_byte. lia. Qed.

Lemma deref_range s : cstr_ok s → 0 <= deref s < 256.
Proof. destruct 1 as [|b l Hb]; simpl; [lia|]. unfold is_char in Hb. lia. Qed.

Lemma s8_eq_0 b : is_byte b → s8 b = 0 ↔ b = 0.
Proof.
  unfold is_byte. intros H. unfold s8. rewrite u8_small by lia.
  destruct (Z.ltb_spec b 128); lia.
Qed.

Lemma s8_inj a b : is_byte a → is_byte b → s8 a = s8 b → a = b.
Proof.
  unfold is_byte, s8. intros Ha Hb. rewrite !u8_small by lia.
  destruct (Z.ltb_spec a 128), (Z.ltb_spec b 128); lia.
Qed.

Lemma s8_ascii b : 0 <= b < 128 → s8 b = b.
Proof.
  intros H. unfold s8. rewrite u8_small by lia. by destruct (Z.ltb_spec b 128); [|lia].
Qed.

Create HintDb cstr.
#[export] Hint Resolve cstr_ok_nil cstr_ok_tail cstr_ok_drop cstr_ok_take
  cstr_ok_are_bytes cstring_ok deref_range : cstr.

(** ** Results

    [Err] carries the way an operation fails; [Fuel] marks a loop that was not
    given enough fuel, which the termination theorems rule out. *)

Inductive result (E A : Type) : Type :=
| Ok (a : A)
| Err (e : E)
| Fuel.
Arguments Ok {E A} a.
Arguments Err {E A} e.
Arguments Fuel {E A}.

#[export] Instance result_eq_dec `{EqDecision E, EqDecision A} : EqDecision (result E A).
Proof. solve_decision. Defined.

(** what the C standard leaves undefined: an access outside an object, through a NULL
    pointer, a division by zero, a use of a variable that has no value *)
Inductive fault := Overrun | NullPointer | DivideByZero | Indeterminate.

#[export] Instance fault_eq_dec : EqDecision fault.
Proof. solve_decision. Defined.

(** A stateful operation that may fail.  The state survives a failure, as
    static variables survive a [longjmp]. *)
Definition stm (S E A : Type) : Type := S → result E A * S.

#[export] Instance stm_ret {S E} : MRet (stm S E) := λ A a s, (Ok a, s).
#[export] Instance stm_bind {S E} : MBind (stm S E) := λ A B k m s,
  match m s with
  | (Ok a, s') => k a s'
  | (Err e, s') => (Err e, s')
  | (Fuel, s') => (Fuel, s')
  end.

Definition fail {S E A} (e : E) : stm S E A := λ s, (Err e, s).
Definition out_of_fuel {S E A} : stm S E A := λ s, (Fuel, s).
Definition get_st {S E} : stm S E S := λ s, (Ok s, s).
Definition modify {S E} (f : S → S) : stm S E unit := λ s, (Ok tt, f s).
Definition gets {S E A} (f : S → A) : stm S E A := λ s, (Ok (f s), s).

Lemma bind_ok {S E A B} (m : stm S E A) (k : A → stm S E B) s a s' :
  m s = (Ok a, s') → mbind (M := stm S E) k m s = k a s'.
Proof. unfold mbind, stm_bind. by intros ->. Qed.

Lemma gets_bind {S E A B} (g : S → A) (k : A → stm S E B) s :
  mbind (M := stm S E) k (gets g) s = k (g s) s.
Proof. done. Qed.

Lemma ret_bind {S E A B} (a : A) (k : A → stm S E B) s :
  mbind (M := stm S E) k (mret (M := stm S E) a) s = k a s.
Proof. done. Qed.

Lemma bind_inv {S E A B} (m : stm S E A) (k : A → stm S E B) s b s' :
  mbind (M := stm S E) k m s = (Ok b, s') →
  ∃ a s1, m s = (Ok a, s1) ∧ k a s1 = (Ok b, s').
Proof.
  unfold mbind, stm_bind. destruct (m s) as [[a|e|] s1]; intros H; simplify_eq. eauto.
Qed.

(** [m] run from [s] does not run out of fuel, and [Q] holds when it succeeds *)
Definition returns {S E A} (m : stm S E A) (s : S) (Q : A → S → Prop) : Prop :=
  match m s with
  | (Ok a, s') => Q a s'
  | (Err _, _) => True
  | (Fuel, _) => False
  end.

Lemma returns_bind {S E A B} (m : stm S E A) (k : A → stm S E B) s Q :
  returns m s (λ a s', returns (k a) s' Q) → returns (mbind (M := stm S E) k m) s Q.
Proof. unfold returns, mbind, stm_bind. by destruct (m s) as [[a|e|] s']. Qed.

Lemma returns_mono {S E A} (m : stm S E A) s (P Q : A → S → Prop) :
  returns m s P → (∀ a s', P a s' → Q a s') → returns m s Q.
Proof. unfold returns. destruct (m s) as [[a|e|] s']; auto. Qed.

Lemma returns_ok {S E A} (m : stm S E A) s Q a s' :
  returns m s Q → m s = (Ok a, s') → Q a s'.
Proof. unfold returns. intros Hr Heq. by rewrite Heq in Hr. Qed.

Lemma returns_no_fuel {S E A} (m : stm S E A) s Q : returns m s Q → (m s).1 ≠ Fuel.
Proof. unfold returns. by destruct (m s) as [[a|e|] s']. Qed.

(** case analysis on the boolean tests of the code *)
Ltac ztest :=
  repeat match goal with
  | |- context [?a =? ?b] => destruct (Z.eqb_spec a b)
  | |- context [?a <? ?b] => destruct (Z.ltb_spec a b)
  | |- context [?a <=? ?b] => destruct (Z.leb_spec a b)
  end.

(** evaluate the comparisons of closed integers *)
Ltac eval_tests :=
  repeat match goal with
  | |- context [?a =? ?b] =>
      let v := eval vm_compute in (a =? b) in
      match v with
      | true => change (a =? b) with true
      | false => change (a =? b) with false
      end
  end; cbn [negb andb orb]; cbn iota.

(** a closed decidable statement, by evaluation *)
Ltac by_decision := refine (bool_decide_unpack _ _); vm_compute; exact Logic.I.

#[global] Arguments u8 : simpl never.
#[global] Arguments u16 : simpl never.
#[global] Arguments u32 : simpl never.
#[global] Arguments u64 : simpl never.
#[global] Arguments s8 : simpl never.
#[global] Arguments s32 : simpl never.
#[global] Arguments s64 : simpl never.
#[global] Arguments Z.sub : simpl never.
#[global] Arguments Z.add : simpl never.
#[global] Arguments Z.mul : simpl never.
#[global] Arguments Z.opp : simpl never.
#[global] Arguments Z.land : simpl never.
#[global] Arguments Z.lor : simpl never.
#[global] Arguments Z.lxor : simpl never.
#[global] Arguments Z.shiftl : simpl never.
#[global] Arguments Z.shiftr : simpl never.
#[global] Arguments Z.of_nat : simpl never.
#[global] Arguments Z.to_nat : simpl never.
#[global] Arguments bs : simpl never.
#[global] Arguments Nat.modulo : simpl never.
#[global] Arguments Nat.div : simpl never.
#[global] Arguments take {_} !_ _ / : simpl nomatch.
#[global] Arguments drop {_} !_ _ / : simpl nomatch.
#[global] Arguments Z.eqb : simpl nomatch.
#[global] Arguments Z.ltb : simpl nomatch.
#[global] Arguments Z.leb : simpl nomatch.
