(* ===== verification/Ctype.v ===== *)
(** [lib/ctype.c] and [include/ctype.h]: the character class table, the class
    tests, case conversion and the two case-insensitive comparisons. *)
From S2P Require Import Prelude.

(** ** The table *)

Definition _U : Z := 1.
Definition _L : Z := 2.
Definition _D : Z := 4.
Definition _C : Z := 8.
Definition _P : Z := 16.
Definition _S : Z := 32.
Definition _X : Z := 64.
Definition _SP : Z := 128.

Definition _ctype : list Z :=
  replicate 8 _C ++
  [_C; Z.lor _C _S; Z.lor _C _S; Z.lor _C _S; Z.lor _C _S; Z.lor _C _S; _C; _C] ++
  replicate 8 _C ++
  replicate 8 _C ++
  Z.lor _S _SP :: replicate 7 _P ++
  replicate 8 _P ++
  replicate 8 _D ++
  [_D; _D; _P; _P; _P; _P; _P; _P] ++
  _P :: replicate 6 (Z.lor _U _X) ++ [_U] ++
  replicate 8 _U ++
  replicate 8 _U ++
  [_U; _U; _U; _P; _P; _P; _P; _P] ++
  _P :: replicate 6 (Z.lor _L _X) ++ [_L] ++
  replicate 8 _L ++
  replicate 8 _L ++
  [_L; _L; _L; _P; _P; _P; _P; _C] ++
  replicate 16 0 ++
  replicate 16 0 ++
  Z.lor _S _SP :: replicate 15 _P ++
  replicate 16 _P ++
  replicate 16 _U ++
  replicate 7 _U ++ [_P] ++ replicate 7 _U ++ [_L] ++
  replicate 16 _L ++
  replicate 7 _L ++ [_P] ++ replicate 8 _L.

(** ** The class tests: the argument goes through [unsigned char] *)

Definition __ismask (x : Z) : Z := byte_at _ctype (u8 x).

Definition isalpha (c : Z) : bool := negb (Z.land (__ismask c) (Z.lor _U _L) =? 0).
Definition isdigit (c : Z) : bool := negb (Z.land (__ismask c) _D =? 0).
Definition islower (c : Z) : bool := negb (Z.land (__ismask c) _L =? 0).
Definition isupper (c : Z) : bool := negb (Z.land (__ismask c) _U =? 0).
Definition isspace (c : Z) : bool := negb (Z.land (__ismask c) _S =? 0).
Definition isxdigit (c : Z) : bool := negb (Z.land (__ismask c) (Z.lor _D _X) =? 0).
Definition isprint (c : Z) : bool :=
  negb (Z.land (__ismask c) (Z.lor _P (Z.lor _U (Z.lor _L (Z.lor _D _SP)))) =? 0).

Definition tolower (c : Z) : Z :=
  let c := u8 c in if isupper c then u8 (c - (65 - 97)) else c.
Definition toupper (c : Z) : Z :=
  let c := u8 c in if islower c then u8 (c - (97 - 65)) else c.

(** ** Case-insensitive comparison *)

(** [if ('A' <= c && c <= 'Z') c += 'a' - 'A'] *)
Definition lower (c : Z) : Z := if (65 <=? c) && (c <=? 90) then c + (97 - 65) else c.

Fixpoint strcasecmp (s1 s2 : list Z) : Z :=
  let c1 := lower (sderef s1) in
  let c2 := lower (sderef s2) in
  if negb (c1 =? c2) || (c1 =? 0) then c1 - c2
  else match s1 with
       | [] => 0
       | _ :: s1' => strcasecmp s1' (tail s2)
       end.

(** [signed char __res = 0; while (n--) if ((__res = tolower( *cs) -
    tolower( *ct++)) != 0 || !*cs++) break;] *)
Fixpoint strncasecmp (cs ct : list Z) (n : nat) : Z :=
  match n with
  | O => 0
  | S n' =>
      let res := s8 (tolower (deref cs) - tolower (deref ct)) in
      if negb (res =? 0) || (deref cs =? 0) then res
      else strncasecmp (tail cs) (tail ct) n'
  end.

(** ** Lemmas *)

(** a statement about every byte, by computation *)
Lemma forall_byte (P : Z → bool) :
  forallb P (map Z.of_nat (seq 0 256)) = true → ∀ b, is_byte b → P b = true.
Proof.
  intros H b Hb. rewrite forallb_forall in H. apply H.
  unfold is_byte in Hb. replace b with (Z.of_nat (Z.to_nat b)) by lia.
  apply in_map, in_seq. lia.
Qed.

(** closes a boolean statement about the byte [b] by evaluating it on each byte *)
Ltac by_bytes b Hb := revert b Hb; apply forall_byte; vm_compute; reflexivity.

Lemma isdigit_spec b : is_byte b → isdigit b = (48 <=? b) && (b <=? 57).
Proof.
  intros Hb. apply Bool.eqb_prop.
  by_bytes b Hb.
Qed.

Lemma isxdigit_spec b : is_byte b →
  isxdigit b = ((48 <=? b) && (b <=? 57)) || ((65 <=? b) && (b <=? 70)) ||
               ((97 <=? b) && (b <=? 102)).
Proof.
  intros Hb. apply Bool.eqb_prop. by_bytes b Hb.
Qed.

Lemma toupper_xdigit b : is_byte b →
  ((97 <=? b) && (b <=? 102)) = true → toupper b = b - 32.
Proof.
  intros Hb H. apply Z.eqb_eq.
  assert (implb ((97 <=? b) && (b <=? 102)) (toupper b =? b - 32) = true) as Hi.
  { clear H. by_bytes b Hb. }
  by rewrite H in Hi.
Qed.

Lemma lower_inj_0 c : lower c = 0 ↔ c = 0.
Proof. unfold lower. ztest; simpl; lia. Qed.

(** [strcasecmp] is equality of the strings with ASCII letters in lower case *)
Lemma strcasecmp_0_iff s1 s2 : cstr_ok s1 → cstr_ok s2 →
  strcasecmp s1 s2 = 0 ↔ map (λ c, lower (s8 c)) s1 = map (λ c, lower (s8 c)) s2.
Proof.
  intros H1. revert s2. induction H1 as [|b1 s1 Hb1 H1 IH]; intros s2 H2.
  - destruct H2 as [|b2 s2 Hb2 H2]; simpl; [done|].
    unfold sderef. simpl. change (lower (s8 0)) with 0.
    assert (lower (s8 b2) ≠ 0) as Hne.
    { rewrite lower_inj_0, s8_eq_0; unfold is_char, is_byte in *; lia. }
    destruct (Z.eqb_spec 0 (lower (s8 b2))); [lia|]. simpl. split; [intros; exfalso; lia|done].
  - assert (lower (s8 b1) ≠ 0) as Hne.
    { rewrite lower_inj_0, s8_eq_0; unfold is_char, is_byte in *; lia. }
    destruct H2 as [|b2 s2 Hb2 H2]; simpl.
    + unfold sderef. simpl. change (lower (s8 0)) with 0.
      destruct (Z.eqb_spec (lower (s8 b1)) 0); [done|]. simpl. split; [intros; exfalso; lia|done].
    + unfold sderef. simpl.
      destruct (Z.eqb_spec (lower (s8 b1)) (lower (s8 b2))) as [E|E]; simpl.
      * destruct (Z.eqb_spec (lower (s8 b1)) 0); [done|].
        rewrite IH by done. rewrite E. split; [by intros ->|by intros [=]].
      * split; [intros; exfalso; lia|by intros [=]].
Qed.

Lemma strcasecmp_refl s : cstr_ok s → strcasecmp s s = 0.
Proof. intros H. by apply strcasecmp_0_iff. Qed.
#[export] Hint Resolve strcasecmp_refl : cstr.
