(* ===== verification/CString.v ===== *)
(** [lib/string.S] and [lib/strstr.c]: the string routines the loader is linked
    with.  They are not always the ISO C ones: [strncpy] does not pad, [strrchr]
    never finds the terminator, [strncmp] of length 0 leaves its first argument
    in the result register. *)
From S2P Require Import Prelude.

(** ** [lib/string.S] *)

Fixpoint strlen (s : list Z) : Z :=
  match s with
  | [] => 0
  | b :: r => if b =? 0 then 0 else 1 + strlen r
  end.

(** difference of the first bytes that differ, or of the bytes at the end of [s1] *)
Fixpoint strcmp (s1 s2 : list Z) : Z :=
  let r3 := deref s1 in
  let r0 := deref s2 in
  if r3 =? 0 then r3 - r0
  else if r3 - r0 =? 0
       then match s1 with [] => 0 | _ :: s1' => strcmp s1' (tail s2) end
       else r3 - r0.

(** for [n > 0]: of length 0 the result is the pointer [s1], which no caller asks for *)
Fixpoint strncmp (s1 s2 : list Z) (n : nat) : Z :=
  match n with
  | O => 0
  | S n' =>
      let r3 := deref s1 in
      let r0 := deref s2 in
      if r3 =? 0 then r3 - r0
      else if (r3 - r0 =? 0) && negb (Nat.eqb n' 0) then strncmp (tail s1) (tail s2) n'
      else r3 - r0
  end.

(** the pointer to the first [c] *)
Fixpoint strchr (s : list Z) (c : Z) : option (list Z) :=
  match s with
  | [] => if 0 =? c then Some [] else None
  | b :: r => if b =? c then Some s else if b =? 0 then None else strchr r c
  end.

(** the pointer to the last [c]; the terminator ends the scan before it is compared *)
Fixpoint strrchr_loop (s : list Z) (c : Z) (r3 : option (list Z)) : option (list Z) :=
  match s with
  | [] => r3
  | b :: r => if b =? 0 then r3 else strrchr_loop r c (if b =? c then Some s else r3)
  end.
Definition strrchr (s : list Z) (c : Z) : option (list Z) := strrchr_loop s c None.

(** the bytes [strcpy] stores, the terminator included *)
Definition strcpy (s : list Z) : list Z := cstring s ++ [0].

(** the bytes [strncpy] stores: at most [n], no padding *)
Fixpoint strncpy (s : list Z) (n : nat) : list Z :=
  match n with
  | O => []
  | S n' => deref s :: (if deref s =? 0 then [] else strncpy (tail s) n')
  end.

(** the string a buffer holds after [strcat] *)
Definition strcat (dst src : list Z) : list Z := cstring dst ++ cstring src.

(** for [n > 0] likewise *)
Fixpoint memcmp (s1 s2 : list Z) (n : nat) : Z :=
  match n with
  | O => 0
  | S n' =>
      let d := deref s1 - deref s2 in
      if (d =? 0) && negb (Nat.eqb n' 0) then memcmp (tail s1) (tail s2) n' else d
  end.

(** ** [lib/strstr.c]

    [b] and [c] are the first two bytes of the needle and [needle] its third
    byte on.  [jin] says whether control is at the label [jin] or at the head
    of the [for] loop; [h] is the pointer [haystack]. *)

(** the comparison of the rest of the needle, which ends at its terminator *)
Fixpoint strstr_rest (rhaystack needle : list Z) : bool :=
  match needle with
  | [] => true
  | a :: needle' => (deref rhaystack =? a) && strstr_rest (tail rhaystack) needle'
  end.

Fixpoint strstr_loop (fuel : nat) (b c : Z) (needle h : list Z) (jin : bool)
    : result Empty_set (option (list Z)) :=
  match fuel with
  | O => Fuel
  | S fuel =>
      if jin then
        (* jin: a = *++haystack *)
        let h1 := tail h in
        let a := deref h1 in
        if a =? 0 then Ok None
        else if negb (a =? c) then
          (* goto shloop: while (a != b) *)
          strstr_loop fuel b c needle h1 (a =? b)
        else
          (* rhaystack = haystack-- + 1 *)
          if strstr_rest (tail h1) needle then Ok (Some h)
          else strstr_loop fuel b c needle h false
      else
        (* do a = *++haystack ... while (a != b), two bytes a turn *)
        let h1 := tail h in
        let a := deref h1 in
        if a =? 0 then Ok None
        else if a =? b then strstr_loop fuel b c needle h1 true
        else
          let h2 := tail h1 in
          let a := deref h2 in
          if a =? 0 then Ok None
          else strstr_loop fuel b c needle h2 (a =? b)
  end.

(** the first scan, for the first byte of the needle *)
Fixpoint strstr_first (b : Z) (h : list Z) : option (list Z) :=
  match h with
  | [] => None
  | c :: r => if c =? 0 then None else if c =? b then Some h else strstr_first b r
  end.

Definition strstr (phaystack pneedle : list Z) : result Empty_set (option (list Z)) :=
  match pneedle with
  | [] => Ok (Some phaystack)
  | b :: needle =>
      match strstr_first b phaystack with
      | None => Ok None
      | Some h =>
          match needle with
          | [] => Ok (Some h)
          | c :: needle =>
              strstr_loop (S (S (2 * length h))) b c needle h true
          end
      end
  end.

(** ** Reference definitions *)

(** first suffix of [h] that satisfies [P] *)
Fixpoint first_suffix (P : list Z → bool) (h : list Z) : option (list Z) :=
  if P h then Some h
  else match h with [] => None | _ :: r => first_suffix P r end.

(** does [h] start with [n]? *)
Fixpoint starts_with (n h : list Z) : bool :=
  match n, h with
  | [], _ => true
  | a :: n', b :: h' => (a =? b) && starts_with n' h'
  | _ :: _, [] => false
  end.

(** ** Lemmas *)

Lemma starts_with_spec n h : starts_with n h = true ↔ ∃ t, h = n ++ t.
Proof.
  revert h. induction n as [|a n IH]; intros h; simpl.
  - split; [intros _; by exists h|done].
  - destruct h as [|b h].
    + split; [done|]. by intros [t ?].
    + rewrite andb_true_iff, Z.eqb_eq, IH. split.
      * intros [-> [t ->]]. by exists t.
      * intros [t [= -> ->]]. eauto.
Qed.

Lemma strlen_length s : cstr_ok s → strlen s = Z.of_nat (length s).
Proof.
  induction 1 as [|b s Hb Hs IH]; simpl; [done|].
  unfold is_char in Hb. destruct (Z.eqb_spec b 0); lia.
Qed.

Lemma strcmp_0_iff s1 s2 : cstr_ok s1 → cstr_ok s2 → strcmp s1 s2 = 0 ↔ s1 = s2.
Proof.
  intros H1. revert s2. induction H1 as [|b1 s1 Hb1 H1 IH]; intros s2 H2.
  - destruct H2 as [|b2 s2 Hb2 H2]; simpl; [done|].
    unfold is_char in Hb2. split; [intros; exfalso; lia|done].
  - destruct H2 as [|b2 s2 Hb2 H2]; simpl; unfold is_char in *.
    + destruct (Z.eqb_spec b1 0); [lia|]. destruct (Z.eqb_spec (b1 - 0) 0); [lia|].
      split; [intros; exfalso; lia|done].
    + destruct (Z.eqb_spec b1 0); [lia|]. destruct (Z.eqb_spec (b1 - b2) 0).
      * rewrite IH by done. split; [intros ->; f_equal; lia|by intros [= -> ->]].
      * split; [intros; exfalso; lia|intros [= -> ->]; lia].
Qed.

Lemma strcmp_refl s : cstr_ok s → strcmp s s = 0.
Proof. intros H. by apply strcmp_0_iff. Qed.

Lemma strcmp_eqb s1 s2 : cstr_ok s1 → cstr_ok s2 → (strcmp s1 s2 =? 0) = bool_decide (s1 = s2).
Proof.
  intros H1 H2. apply eq_bool_prop_intro. rewrite bool_decide_spec, <- strcmp_0_iff by done.
  unfold Is_true. destruct (Z.eqb_spec (strcmp s1 s2) 0); naive_solver.
Qed.

Lemma strncmp_0_iff s1 n : cstr_ok s1 → cstr_ok n → n ≠ [] →
  strncmp s1 n (length n) = 0 ↔ starts_with n s1 = true.
Proof.
  intros H1 Hn. revert s1 H1. induction Hn as [|a n Ha Hn IH]; [done|].
  intros s1 H1 _. destruct H1 as [|b s1 Hb H1]; simpl; unfold is_char in *.
  - split; [intros; exfalso; lia|done].
  - destruct (Z.eqb_spec b 0); [lia|].
    destruct (Z.eqb_spec (b - a) 0) as [E|E]; simpl.
    + destruct (Z.eqb_spec a b); [|lia]. simpl.
      destruct n as [|a' n]; simpl; [split; [done|lia]|]. by apply IH.
    + destruct (Z.eqb_spec a b); [lia|]. simpl. split; [intros; exfalso; lia|done].
Qed.

Lemma strchr_None s c : cstr_ok s → c ≠ 0 → strchr s c = None ↔ c ∉ s.
Proof.
  intros H Hc. induction H as [|b s Hb Hs IH]; simpl; unfold is_char in *.
  - destruct (Z.eqb_spec 0 c); [lia|]. split; [set_solver|done].
  - destruct (Z.eqb_spec b c) as [->|E]; [split; [done|set_solver]|].
    destruct (Z.eqb_spec b 0); [lia|]. rewrite IH. set_solver.
Qed.

(** [strchr] splits the string at the first [c] *)
Lemma strchr_Some s c t : cstr_ok s → c ≠ 0 →
  strchr s c = Some t → ∃ p r, s = p ++ t ∧ t = c :: r ∧ c ∉ p.
Proof.
  intros H Hc. induction H as [|b s Hb Hs IH]; simpl; unfold is_char in *.
  - destruct (Z.eqb_spec 0 c); [lia|done].
  - destruct (Z.eqb_spec b c) as [->|E].
    + intros [= <-]. exists [], s. repeat split. set_solver.
    + destruct (Z.eqb_spec b 0); [lia|]. intros Ht.
      destruct (IH Ht) as (p & r & -> & -> & Hp). exists (b :: p), r.
      repeat split. set_solver.
Qed.

Lemma strchr_app p c r : cstr_ok p → c ∉ p → strchr (p ++ c :: r) c = Some (c :: r).
Proof.
  induction 1 as [|b p Hb Hp IH]; simpl; intros Hc.
  - by rewrite Z.eqb_refl.
  - unfold is_char in Hb. destruct (Z.eqb_spec b c) as [->|E]; [set_solver|].
    destruct (Z.eqb_spec b 0); [lia|]. apply IH. set_solver.
Qed.

Lemma strrchr_loop_app p c r acc : cstr_ok p → c ∉ r → is_char c → cstr_ok r →
  strrchr_loop (p ++ c :: r) c acc = Some (c :: r).
Proof.
  intros Hp Hr Hc Hok. revert acc. induction Hp as [|b p Hb Hp IH]; simpl; intros acc.
  - unfold is_char in Hc. destruct (Z.eqb_spec c 0); [lia|]. rewrite Z.eqb_refl.
    generalize (Some (c :: r)). induction Hok as [|b r Hb Hok IH]; simpl; intros o; [done|].
    unfold is_char in Hb. destruct (Z.eqb_spec b 0); [lia|].
    destruct (Z.eqb_spec b c); [set_solver|]. apply IH. set_solver.
  - unfold is_char in Hb. destruct (Z.eqb_spec b 0); [lia|]. apply IH.
Qed.

(** the last occurrence of an element *)
Lemma in_split_last (c : Z) s : In c s → ∃ p r, s = p ++ c :: r ∧ c ∉ r.
Proof.
  induction s as [|b s IH]; intros Hin; [done|]. destruct (decide (c ∈ s)) as [Hs|Hs].
  - destruct IH as (p & r & -> & Hr); [by apply list_elem_of_In|]. by exists (b :: p), r.
  - destruct Hin as [->|Hin]; [by exists [], s|]. by apply list_elem_of_In in Hin.
Qed.

(** [strrchr] splits the string at the last [c] *)
Lemma strrchr_app p c r : cstr_ok p → c ∉ r → is_char c → cstr_ok r →
  strrchr (p ++ c :: r) c = Some (c :: r).
Proof. apply strrchr_loop_app. Qed.

Lemma strrchr_None s c : cstr_ok s → strrchr s c = None ↔ c ∉ s.
Proof.
  intros H. unfold strrchr.
  assert (∀ acc, strrchr_loop s c acc = None ↔ acc = None ∧ c ∉ s) as Hl.
  { induction H as [|b s Hb Hs IH]; simpl; intros acc; [set_solver|].
    unfold is_char in Hb. destruct (Z.eqb_spec b 0); [lia|]. rewrite IH.
    destruct (Z.eqb_spec b c) as [->|E]; set_solver. }
  rewrite Hl. naive_solver.
Qed.

(** what [strrchr] returns is the suffix from the last [c] on *)
Lemma strrchr_Some s c t : cstr_ok s → strrchr s c = Some t →
  ∃ p r, s = p ++ t ∧ t = c :: r ∧ c ∉ r.
Proof.
  intros Hs E. destruct (decide (c ∈ s)) as [Hin|Hnin].
  - apply list_elem_of_In, in_split_last in Hin as (p & r & -> & Hr).
    apply cstr_ok_app in Hs as [Hp Hs]. apply cstr_ok_cons in Hs as [Hc Hr'].
    rewrite strrchr_app in E by done. injection E as <-. exists p, r. done.
  - apply strrchr_None in Hnin; [congruence|done].
Qed.

Lemma cstring_strcpy s rest : cstr_ok s → cstring (strcpy s ++ rest) = s.
Proof.
  intros H. unfold strcpy. rewrite (cstring_id s) by done.
  rewrite <- app_assoc. simpl. by apply cstring_terminated.
Qed.

(** *** [strstr] finds the first occurrence *)

Lemma strstr_rest_spec r n : cstr_ok n → strstr_rest r n = starts_with n r.
Proof.
  intros Hn. revert r. induction Hn as [|a n Ha Hn IH]; intros r; simpl; [done|].
  destruct r as [|b r]; simpl; unfold is_char in *.
  - destruct (Z.eqb_spec 0 a); [lia|done].
  - rewrite IH, Z.eqb_sym. done.
Qed.

Lemma strstr_first_spec b h : cstr_ok h →
  strstr_first b h = first_suffix (λ s, negb (deref s =? 0) && (deref s =? b)) h.
Proof.
  induction 1 as [|c h Hc Hh IH]; simpl; [done|].
  unfold is_char in Hc. destruct (Z.eqb_spec c 0); [lia|]. simpl.
  by destruct (Z.eqb_spec c b).
Qed.

Lemma first_suffix_ext P Q h : (∀ s, suffix s h → P s = Q s) → first_suffix P h = first_suffix Q h.
Proof.
  induction h as [|b h IH]; intros HPQ; simpl; rewrite HPQ by done; [done|].
  destruct (Q (b :: h)); [done|]. apply IH. intros s Hs. apply HPQ. by apply suffix_cons_r.
Qed.

Section strstr.
Context (b c : Z) (needle : list Z).
Hypothesis Hb : is_char b.
Hypothesis Hc : is_char c.
Hypothesis Hneedle : cstr_ok needle.

Let P : list Z → bool := starts_with (b :: c :: needle).

Lemma strstr_P_cons a h : P (a :: h) = (b =? a) && starts_with (c :: needle) h.
Proof. done. Qed.

(** at [jin] the haystack is at a [b]; at the loop head no match starts at it *)
Lemma strstr_loop_spec fuel h (jin : bool) : cstr_ok h → h ≠ [] →
  (2 * length h + (if jin then 1 else 0) < fuel)%nat →
  (jin = true → deref h = b) → (jin = false → P h = false) →
  strstr_loop fuel b c needle h jin = Ok (first_suffix P h).
Proof.
  revert h jin. induction fuel as [|fuel IH]; intros h jin Hh Hne Hf Hj Hnj; [lia|].
  destruct h as [|x h]; [done|]. apply cstr_ok_cons in Hh as [Hx Hh].
  simpl in Hf. unfold is_char in *.
  destruct jin; simpl.
  - specialize (Hj eq_refl). simpl in Hj. subst x.
    rewrite strstr_P_cons, Z.eqb_refl. simpl.
    destruct h as [|a h]; simpl; [done|].
    apply cstr_ok_cons in Hh as [Ha Hh]. unfold is_char in Ha.
    destruct (Z.eqb_spec a 0); [lia|].
    destruct (Z.eqb_spec a c) as [->|Eac]; simpl.
    + rewrite Z.eqb_refl, strstr_rest_spec by done. simpl.
      destruct (starts_with needle h) eqn:Es; [done|].
      rewrite IH.
      * cbn [first_suffix]. rewrite strstr_P_cons, Z.eqb_refl. simpl. by rewrite Z.eqb_refl, Es.
      * by repeat (apply cstr_ok_cons; split).
      * done.
      * simpl in *. lia.
      * done.
      * intros _. rewrite strstr_P_cons, Z.eqb_refl. simpl. by rewrite Z.eqb_refl, Es.
    + destruct (Z.eqb_spec c a); [congruence|]. simpl. rewrite IH.
      * done.
      * by apply cstr_ok_cons.
      * done.
      * simpl in *. destruct (a =? b); lia.
      * simpl. destruct (Z.eqb_spec a b); done.
      * simpl. destruct (Z.eqb_spec a b); [done|]. intros _. rewrite strstr_P_cons.
        destruct (Z.eqb_spec b a); [congruence|done].
  - specialize (Hnj eq_refl). rewrite Hnj.
    destruct h as [|a h]; simpl; [done|].
    apply cstr_ok_cons in Hh as [Ha Hh]. unfold is_char in Ha.
    destruct (Z.eqb_spec a 0); [lia|].
    destruct (Z.eqb_spec a b) as [->|Eab].
    + rewrite IH; [done| |done|simpl in *; lia|done|done]. by apply cstr_ok_cons.
    + rewrite strstr_P_cons. destruct (Z.eqb_spec b a); [congruence|]. simpl.
      destruct h as [|d h]; simpl; [done|].
      apply cstr_ok_cons in Hh as [Hd Hh]. unfold is_char in Hd.
      destruct (Z.eqb_spec d 0); [lia|].
      rewrite IH; [done| |done| | |].
      * by apply cstr_ok_cons.
      * simpl in *. destruct (d =? b); lia.
      * simpl. destruct (Z.eqb_spec d b); done.
      * simpl. destruct (Z.eqb_spec d b); [done|]. intros _. rewrite strstr_P_cons.
        destruct (Z.eqb_spec b d); [congruence|done].
Qed.

(** skipping to the first [b] skips no match *)
Lemma strstr_first_skip h : cstr_ok h →
  first_suffix P h =
  match strstr_first b h with None => None | Some h' => first_suffix P h' end.
Proof.
  induction 1 as [|x h Hx Hh IH]; simpl; [done|].
  rewrite strstr_P_cons. unfold is_char in Hx. destruct (Z.eqb_spec x 0); [lia|].
  destruct (Z.eqb_spec x b) as [->|E].
  - simpl. by rewrite strstr_P_cons.
  - destruct (Z.eqb_spec b x); [congruence|]. simpl. exact IH.
Qed.
End strstr.

Lemma strstr_first_suffix b h h' : strstr_first b h = Some h' →
  suffix h' h ∧ deref h' = b ∧ h' ≠ [].
Proof.
  induction h as [|x h IH]; simpl; [done|].
  destruct (x =? 0); [done|]. destruct (Z.eqb_spec x b) as [->|E].
  - intros [= <-]. done.
  - intros Hs. destruct (IH Hs) as (H1 & H2 & H3). split; [by apply suffix_cons_r|done].
Qed.

Lemma cstr_ok_suffix s t : suffix s t → cstr_ok t → cstr_ok s.
Proof. intros [k ->]. by rewrite cstr_ok_app; intros [_ ?]. Qed.

Lemma strstr_correct h n : cstr_ok h → cstr_ok n →
  strstr h n = Ok (first_suffix (starts_with n) h).
Proof.
  intros Hh Hn. destruct Hn as [|b n Hb Hn]; [by destruct h|].
  destruct Hn as [|c n Hc Hn]; cbn [strstr].
  - rewrite strstr_first_spec by done.
    enough (first_suffix (λ s, negb (deref s =? 0) && (deref s =? b)) h =
            first_suffix (starts_with [b]) h) as ->.
    { by destruct (first_suffix (starts_with [b]) h). }
    apply first_suffix_ext. intros [|x s] Hs; simpl; [done|].
    apply cstr_ok_suffix in Hs; [|done]. apply cstr_ok_cons in Hs as [Hx _].
    unfold is_char in Hx. destruct (Z.eqb_spec x 0); [lia|]. simpl.
    by rewrite andb_true_r, Z.eqb_sym.
  - rewrite (strstr_first_skip b c n h) by done.
    destruct (strstr_first b h) as [h'|] eqn:E; [|done].
    apply strstr_first_suffix in E as (Hs & Hd & Hne).
    apply strstr_loop_spec; try done; [by eapply cstr_ok_suffix|lia].
Qed.

Lemma first_suffix_Some P h t : first_suffix P h = Some t →
  ∃ p, h = p ++ t ∧ P t = true ∧
       ∀ p' t', (length p' < length p)%nat → h = p' ++ t' → P t' = true → False.
Proof.
  induction h as [|b h IH]; cbn [first_suffix].
  { destruct (P []) eqn:E; intros [= <-]. exists []. split; [done|]. split; [done|simpl; lia]. }
  destruct (P (b :: h)) eqn:E; intros Ht; simplify_eq.
  - exists []. split; [done|]. split; [done|simpl; lia].
  - destruct (IH Ht) as (p & -> & HP & Hmin). exists (b :: p). split; [done|]. split; [done|].
    intros [|b' p'] t' Hl Heq HP'; simpl in *; simplify_eq; [congruence|].
    eapply Hmin; [|done..]. lia.
Qed.

Lemma first_suffix_None P h t : first_suffix P h = None → suffix t h → P t = false.
Proof.
  intros E [p ->]. revert E. induction p as [|b p IH]; cbn [app first_suffix].
  - destruct t as [|b t]; cbn [first_suffix]; [by destruct (P [])|by destruct (P (b :: t))].
  - destruct (P (b :: p ++ t)); [done|]. exact IH.
Qed.

(** a needle of one character: the first occurrence of the character *)
Lemma first_suffix_char p c t : c ∉ p → first_suffix (starts_with [c]) (p ++ c :: t) = Some (c :: t).
Proof.
  induction p as [|b p IH]; intros Hc.
  - cbn. by rewrite Z.eqb_refl.
  - cbn [first_suffix app starts_with]. destruct (Z.eqb_spec c b) as [->|]; [set_solver|].
    apply IH. set_solver.
Qed.

(** [strstr] with the fuel spent, for the callers *)
Definition strstr_ptr (h n : list Z) : option (list Z) :=
  match strstr h n with Ok r => r | _ => None end.

Lemma strstr_ptr_spec h n : cstr_ok h → cstr_ok n →
  strstr_ptr h n = first_suffix (starts_with n) h.
Proof. intros Hh Hn. unfold strstr_ptr. by rewrite strstr_correct. Qed.

(** [strstr] returns the first suffix of the haystack that starts with the
    needle, and NULL when there is none; it always returns. *)
Theorem strstr_first_occurrence h n : cstr_ok h → cstr_ok n →
  match strstr h n with
  | Ok (Some t) => ∃ p r, h = p ++ t ∧ t = n ++ r ∧
      ∀ p' t', h = p' ++ n ++ t' → (length p <= length p')%nat
  | Ok None => ∀ p r, h ≠ p ++ n ++ r
  | _ => False
  end.
Proof.
  intros Hh Hn. rewrite strstr_correct by done.
  destruct (first_suffix (starts_with n) h) as [t|] eqn:E.
  - apply first_suffix_Some in E as (p & -> & Ht & Hp).
    apply starts_with_spec in Ht as [r ->]. exists p, r. split; [done|]. split; [done|].
    intros p' t' E. destruct (decide (length p <= length p')%nat) as [|Hlt]; [done|exfalso].
    eapply (Hp p'); [lia|exact E|]. apply starts_with_spec. by exists t'.
  - intros p r ->. eapply first_suffix_None in E; [|by exists p].
    apply not_true_iff_false in E. apply E, starts_with_spec. by exists r.
Qed.

Lemma strstr_first_occurrence_witness :
  strstr (bs "cd:,\\yaboot,\\") (bs ",\\") = Ok (Some (bs ",\\yaboot,\\")) ∧
  match strstr (bs "cd:,\\yaboot,\\") (bs ",\\") with
  | Ok (Some t) => ∃ p r, bs "cd:,\\yaboot,\\" = p ++ t ∧ t = bs ",\\" ++ r ∧
      ∀ p' t', bs "cd:,\\yaboot,\\" = p' ++ bs ",\\" ++ t' → (length p <= length p')%nat
  | Ok None => ∀ p r, bs "cd:,\\yaboot,\\" ≠ p ++ bs ",\\" ++ r
  | _ => False
  end.
Proof.
  split; [by vm_compute|].
  apply (strstr_first_occurrence (bs "cd:,\\yaboot,\\") (bs ",\\")); by_decision.
Defined.
