(* ===== verification/Numeric.v ===== *)
(** Reading numbers: [simple_strtoul], [simple_strtol], [simple_strtoull] and
    [simple_strtoll] of [lib/vsprintf.c], and [lib/strtol.c]. *)
From S2P Require Import Prelude Ctype.

(** ** [simple_strtoul] and its relatives *)

(** [isdigit( *cp) ? *cp-'0' : toupper( *cp)-'A'+10], stored in an [unsigned long] *)
Definition digit_value (c : Z) : Z :=
  u32 (if isdigit c then c - 48 else toupper c - 65 + 10).

(** the [while] loop: the value read and the pointer to the first byte that is
    not a digit of the base *)
Fixpoint strtoul_loop (base : Z) (cp : list Z) (result : Z) : Z * list Z :=
  match cp with
  | [] => (result, [])
  | c :: r =>
      if isxdigit c && (digit_value c <? base)
      then strtoul_loop base r (u32 (result * base + digit_value c))
      else (result, cp)
  end.

(** [if (!base) ...]: the base and the pointer the prefix of the number selects *)
Definition detect_base (cp : list Z) (base : Z) : Z * list Z :=
  if base =? 0 then
    if deref cp =? 48 then
      let cp := tail cp in
      if (deref cp =? 120) && isxdigit (deref (tail cp)) then (16, tail cp) else (8, cp)
    else (10, cp)
  else (base, cp).

Definition simple_strtoul (cp : list Z) (base : Z) : Z * list Z :=
  let '(base, cp) := detect_base cp base in strtoul_loop base cp 0.

Definition simple_strtol (cp : list Z) (base : Z) : Z * list Z :=
  if deref cp =? 45 then
    let '(v, endp) := simple_strtoul (tail cp) base in (s32 (u32 (- v)), endp)
  else
    let '(v, endp) := simple_strtoul cp base in (s32 v, endp).

(** [isdigit( *cp) ? *cp-'0' : (islower( *cp) ? toupper( *cp) : *cp)-'A'+10] *)
Definition digit_value_ll (c : Z) : Z :=
  u64 (if isdigit c then c - 48
       else (if islower c then toupper c else s8 c) - 65 + 10).

Fixpoint strtoull_loop (base : Z) (cp : list Z) (result : Z) : Z * list Z :=
  match cp with
  | [] => (result, [])
  | c :: r =>
      if isxdigit c && (digit_value_ll c <? base)
      then strtoull_loop base r (u64 (result * base + digit_value_ll c))
      else (result, cp)
  end.

Definition simple_strtoull (cp : list Z) (base : Z) : Z * list Z :=
  let '(base, cp) := detect_base cp base in strtoull_loop base cp 0.

Definition simple_strtoll (cp : list Z) (base : Z) : Z * list Z :=
  if deref cp =? 45 then
    let '(v, endp) := simple_strtoull (tail cp) base in (s64 (u64 (- v)), endp)
  else
    let '(v, endp) := simple_strtoull cp base in (s64 v, endp).

(** ** [lib/strtol.c] *)

(** [while (((unsigned char) *s) <= 32 && *s) ++s;] *)
Fixpoint skip_white (s : list Z) : list Z :=
  match s with
  | [] => []
  | c :: r => if (c <=? 32) && negb (c =? 0) then skip_white r else s
  end.

(** the value of a character as a digit, [None] when the loop breaks on it *)
Definition strtol_digit (c base : Z) : option Z :=
  let v := if (48 <=? c) && (c <=? 57) then Some (c - 48)
           else if (65 <=? c) && (c <=? 90) then Some (c - 65 + 10)
           else if (97 <=? c) && (c <=? 122) then Some (c - 97 + 10)
           else None in
  match v with
  | Some d => if base <=? d then None else Some d
  | None => None
  end.

Fixpoint strtol_loop (base : Z) (s : list Z) (i : Z) (overflow : bool) : Z * bool * list Z :=
  match s with
  | [] => (i, overflow, [])
  | c :: r =>
      if c =? 0 then (i, overflow, s)
      else match strtol_digit c base with
      | None => (i, overflow, s)
      | Some d =>
          let cutoff := INT_MAX / base in
          let cutlim := INT_MAX `mod` base in
          if (cutoff <? i) || ((i =? cutoff) && (cutlim <? d))
          then strtol_loop base r i true
          else strtol_loop base r (u32 (u32 (i * base) + d)) overflow
      end
  end.

(** the value and the end pointer *)
Definition strtol (nptr : list Z) (base : Z) : Z * list Z :=
  let base := if (base <? 0) || (base =? 1) || (36 <? base) then 10 else base in
  let s := skip_white nptr in
  (* [noconv]: no number was read; [save] is the pointer saved last *)
  let noconv (save : list Z) :=
    let n := Z.of_nat (length nptr - length save) in
    if (2 <=? n) && (tolower (byte_at nptr (n - 1)) =? 120) && (byte_at nptr (n - 2) =? 48)
    then (0, drop (Z.to_nat (n - 1)) nptr)
    else (0, nptr) in
  if deref s =? 0 then noconv nptr
  else
    let '(negative, s) :=
      if deref s =? 45 then (true, tail s)
      else if deref s =? 43 then (false, tail s)
      else (false, s) in
    let s :=
      if ((base =? 16) && (deref s =? 48) && (deref (tail s) =? 88)) || (deref (tail s) =? 120)
      then tail (tail s) else s in
    let '(base, s) :=
      if base =? 0 then
        if deref s =? 48 then
          if (deref (tail s) =? 88) || (deref (tail s) =? 120)
          then (16, tail (tail s)) else (8, s)
        else (10, s)
      else (base, s) in
    let save := s in
    let '(i, overflow, s) := strtol_loop base s 0 false in
    if bool_decide (s = save) then noconv save
    else if overflow then ((if negative then INT_MIN else INT_MAX), s)
    else ((if negative then s32 (- i) else s32 i), s).

(** ** Positional notation: the reference *)

(** the number written by the digits [ds], most significant first *)
Definition eval (base : Z) (ds : list Z) : Z := foldl (λ acc d, acc * base + d) 0 ds.

(** the digit characters of the loader's printer *)
Definition digit_char (d : Z) : Z := if d <? 10 then 48 + d else 97 + (d - 10).

Lemma eval_snoc base ds d : eval base (ds ++ [d]) = eval base ds * base + d.
Proof. unfold eval. by rewrite foldl_app. Qed.

Lemma foldl_eval base ds acc :
  foldl (λ acc d, acc * base + d) acc ds = acc * base ^ Z.of_nat (length ds) + eval base ds.
Proof.
  revert acc. induction ds as [|d ds IH] using rev_ind; intros acc.
  - simpl. unfold eval. simpl. lia.
  - rewrite foldl_app, eval_snoc, length_app. cbn [foldl length]. rewrite IH.
    replace (Z.of_nat (length ds + 1)) with (Z.succ (Z.of_nat (length ds))) by lia.
    rewrite Z.pow_succ_r by lia. lia.
Qed.

Lemma eval_cons base d ds :
  eval base (d :: ds) = d * base ^ Z.of_nat (length ds) + eval base ds.
Proof. change (eval base (d :: ds)) with (foldl (λ a x, a * base + x) (0 * base + d) ds).
  by rewrite foldl_eval, Z.mul_0_l, Z.add_0_l. Qed.

Lemma eval_nonneg base ds : 0 <= base → Forall (λ d, 0 <= d) ds → 0 <= eval base ds.
Proof.
  intros Hb. induction ds as [|d ds IH] using rev_ind; intros H; [done|].
  apply Forall_app in H as [H1 H2]. rewrite eval_snoc.
  apply Forall_cons_1 in H2 as [Hd _]. specialize (IH H1). nia.
Qed.

Lemma digit_char_byte d : 0 <= d < 36 → is_byte (digit_char d).
Proof. unfold digit_char, is_byte. ztest; lia. Qed.

Lemma digit_char_char d : 0 <= d < 36 → is_char (digit_char d).
Proof. unfold digit_char, is_char. ztest; lia. Qed.

Lemma isdigit_digit_char d : 0 <= d < 10 → isdigit (digit_char d) = true.
Proof.
  intros H. rewrite isdigit_spec by (apply digit_char_byte; lia).
  unfold digit_char. ztest; lia.
Qed.

(** the hexadecimal reader reads back the printer's digits *)
Lemma digit_value_digit_char d : 0 <= d < 16 →
  isxdigit (digit_char d) = true ∧ digit_value (digit_char d) = d.
Proof.
  intros H.
  assert (forallb (λ d, isxdigit (digit_char d) && (digit_value (digit_char d) =? d))
            (map Z.of_nat (seq 0 16)) = true) as Ha by reflexivity.
  rewrite forallb_forall in Ha. specialize (Ha d).
  rewrite andb_true_iff, Z.eqb_eq in Ha. apply Ha.
  replace d with (Z.of_nat (Z.to_nat d)) by lia. apply in_map, in_seq. lia.
Qed.

(** *** [simple_strtoul] computes the value of its digits modulo 2^32 *)

(** [rest] starts with a byte that is not a digit of the base *)
Definition stops (base : Z) (rest : list Z) : Prop :=
  match rest with
  | [] => True
  | c :: _ => isxdigit c && (digit_value c <? base) = false
  end.

#[export] Instance stops_dec base rest : Decision (stops base rest).
Proof. destruct rest; simpl; apply _. Defined.

Lemma strtoul_loop_digits base ds rest acc :
  0 < base <= 16 → Forall (λ d, 0 <= d < base) ds → stops base rest →
  strtoul_loop base (map digit_char ds ++ rest) (u32 acc) =
    (u32 (foldl (λ a d, a * base + d) acc ds), rest).
Proof.
  intros Hb Hds Hrest. revert acc. induction Hds as [|d ds Hd Hds IH]; intros acc; simpl.
  - destruct rest as [|c rest]; simpl in *; [done|]. by rewrite Hrest.
  - destruct (digit_value_digit_char d) as [-> ->]; [lia|].
    destruct (Z.ltb_spec d base); [simpl|lia].
    rewrite <- IH. f_equal. words. rewrite <- Zplus_mod_idemp_l, Zmult_mod_idemp_l.
    by rewrite Zplus_mod_idemp_l.
Qed.

Lemma simple_strtoul_digits base ds rest :
  0 < base <= 16 → Forall (λ d, 0 <= d < base) ds → stops base rest →
  simple_strtoul (map digit_char ds ++ rest) base = (u32 (eval base ds), rest).
Proof.
  intros Hb Hds Hr. unfold simple_strtoul, detect_base.
  destruct (Z.eqb_spec base 0); [lia|].
  change 0 with (u32 0) at 1. by rewrite strtoul_loop_digits.
Qed.

(** *** [strtol] is exact in range and saturates outside *)

Definition clamp_int (z : Z) : Z := Z.max INT_MIN (Z.min INT_MAX z).

Lemma strtol_digit_char d base : 0 <= d < base → base <= 36 →
  strtol_digit (digit_char d) base = Some d.
Proof.
  intros Hd Hb. unfold strtol_digit, digit_char.
  destruct (Z.ltb_spec d 10); ztest; simpl; try lia; ztest; try lia; f_equal; lia.
Qed.

(** [rest] starts with a byte on which [strtol]'s loop stops *)
Definition strtol_stops (base : Z) (rest : list Z) : Prop :=
  match rest with
  | [] => True
  | c :: _ => c = 0 ∨ strtol_digit c base = None
  end.

#[export] Instance strtol_stops_dec base rest : Decision (strtol_stops base rest).
Proof. destruct rest; simpl; apply _. Defined.

Lemma strtol_loop_stop base rest i o : strtol_stops base rest →
  strtol_loop base rest i o = (i, o, rest).
Proof.
  destruct rest as [|c r]; simpl; [done|]. intros [->| ->]; [done|].
  by destruct (c =? 0).
Qed.

(** as long as the value fits, the accumulator is the value *)
Lemma strtol_loop_digits base ds rest acc :
  2 <= base <= 36 → Forall (λ d, 0 <= d < base) ds → strtol_stops base rest →
  0 <= acc → foldl (λ a d, a * base + d) acc ds <= INT_MAX →
  strtol_loop base (map digit_char ds ++ rest) acc false =
    (foldl (λ a d, a * base + d) acc ds, false, rest).
Proof.
  intros Hb Hds Hrest. revert acc. induction Hds as [|d ds Hd Hds IH]; intros acc Ha Hmax.
  - by apply strtol_loop_stop.
  - cbn [map app strtol_loop]. pose proof (digit_char_char d ltac:(lia)) as Hc.
    unfold is_char in Hc. destruct (Z.eqb_spec (digit_char d) 0); [lia|].
    rewrite strtol_digit_char by lia. cbn [foldl] in *.
    assert (acc * base + d <= INT_MAX) as Hle.
    { etrans; [|exact Hmax]. rewrite foldl_eval.
      assert (0 <= eval base ds).
      { apply eval_nonneg; [lia|]. eapply Forall_impl; [exact Hds|]. simpl. lia. }
      assert (0 < base ^ Z.of_nat (length ds)) by (apply Z.pow_pos_nonneg; lia). nia. }
    assert ((INT_MAX / base <? acc) = false) as ->.
    { apply Z.ltb_ge, Z.div_le_lower_bound; lia. }
    assert ((acc =? INT_MAX / base) && (INT_MAX `mod` base <? d) = false) as ->.
    { destruct (Z.eqb_spec acc (INT_MAX / base)) as [E|]; [|done]. simpl.
      apply Z.ltb_ge. rewrite Z.mod_eq by lia. nia. }
    simpl. rewrite (u32_small (acc * base)), u32_small by (unfold INT_MAX in *; nia). by apply IH; [nia|].
Qed.

(** once the value does not fit, the overflow flag is set and stays set *)
Lemma strtol_loop_flag base ds rest i :
  2 <= base <= 36 → Forall (λ d, 0 <= d < base) ds → strtol_stops base rest →
  ∃ j, strtol_loop base (map digit_char ds ++ rest) i true = (j, true, rest).
Proof.
  intros Hb Hds Hrest. revert i. induction Hds as [|d ds Hd Hds IH]; intros i.
  - eexists. by apply strtol_loop_stop.
  - cbn [map app strtol_loop]. pose proof (digit_char_char d ltac:(lia)) as Hc.
    unfold is_char in Hc. destruct (Z.eqb_spec (digit_char d) 0); [lia|].
    rewrite strtol_digit_char by lia. case_match; apply IH.
Qed.

Lemma strtol_loop_overflow base ds rest acc :
  2 <= base <= 36 → Forall (λ d, 0 <= d < base) ds → strtol_stops base rest →
  0 <= acc <= INT_MAX → INT_MAX < foldl (λ a d, a * base + d) acc ds →
  ∃ j, strtol_loop base (map digit_char ds ++ rest) acc false = (j, true, rest).
Proof.
  intros Hb Hds Hrest. revert acc. induction Hds as [|d ds Hd Hds IH]; intros acc Ha Hmax.
  - simpl in Hmax. lia.
  - cbn [map app strtol_loop]. pose proof (digit_char_char d ltac:(lia)) as Hc.
    unfold is_char in Hc. destruct (Z.eqb_spec (digit_char d) 0); [lia|].
    rewrite strtol_digit_char by lia. cbn [foldl] in *.
    destruct ((INT_MAX / base <? acc) || _) eqn:E; [by apply strtol_loop_flag|].
    apply orb_false_iff in E as [E1 E2]. apply Z.ltb_ge in E1.
    assert (acc * base + d <= INT_MAX) as Hle.
    { pose proof (Z.div_mod INT_MAX base ltac:(lia)) as Hdm.
      pose proof (Z.mod_pos_bound INT_MAX base ltac:(lia)).
      destruct (Z.eqb_spec acc (INT_MAX / base)) as [E3|E3]; simpl in E2.
      - apply Z.ltb_ge in E2. nia.
      - assert (acc + 1 <= INT_MAX / base) by lia. nia. }
    rewrite (u32_small (acc * base)), u32_small by (unfold INT_MAX in *; nia). apply IH; [nia|done].
Qed.

Definition is_white (c : Z) : Prop := 0 < c <= 32.
#[export] Instance is_white_dec c : Decision (is_white c).
Proof. unfold is_white. apply _. Defined.

Lemma skip_white_app ws s : Forall is_white ws → deref s = 0 ∨ 32 < deref s →
  skip_white (ws ++ s) = s.
Proof.
  intros Hws Hs. induction Hws as [|c ws Hc Hws IH]; simpl.
  - destruct s as [|c s]; simpl in *; [done|].
    destruct (Z.leb_spec c 32), (Z.eqb_spec c 0); simpl; try done; lia.
  - unfold is_white in Hc. destruct (Z.leb_spec c 32); [|lia].
    destruct (Z.eqb_spec c 0); [lia|]. exact IH.
Qed.

Lemma length_neq {A} (l k : list A) : length l ≠ length k → l ≠ k.
Proof. by intros H ->. Qed.

(** the body of [strtol] once the sign is read *)
Lemma strtol_loop_clamp base ds rest :
  2 <= base <= 36 → Forall (λ d, 0 <= d < base) ds → strtol_stops base rest →
  ∃ i o, strtol_loop base (map digit_char ds ++ rest) 0 false = (i, o, rest) ∧
         if o then INT_MAX < eval base ds else i = eval base ds ∧ 0 <= i <= INT_MAX.
Proof.
  intros Hb Hds Hrest. destruct (decide (eval base ds <= INT_MAX)).
  - eexists _, _. split; [apply strtol_loop_digits; [done..|lia|done]|].
    cbn iota. fold (eval base ds). split; [done|]. split; [|done].
    apply eval_nonneg; [lia|]. eapply Forall_impl; [exact Hds|]. simpl. lia.
  - destruct (strtol_loop_overflow base ds rest 0) as [j Hj];
      [done..|unfold INT_MAX; lia|unfold eval in *; lia|].
    exists j, true. split; [done|lia].
Qed.

Lemma digits_first base ds rest : base <= 36 → ds ≠ [] → Forall (λ d, 0 <= d < base) ds →
  48 <= deref (map digit_char ds ++ rest) ∧ deref (map digit_char ds ++ rest) ≠ 45.
Proof.
  intros Hb Hne Hds. destruct Hds as [|d ds Hd Hds]; [done|]. simpl.
  unfold digit_char. ztest; lia.
Qed.

Lemma strtol_decimal_aux ws (neg : bool) ds rest :
  Forall is_white ws → ds ≠ [] → Forall (λ d, 0 <= d < 10) ds → strtol_stops 10 rest →
  deref (tail (map digit_char ds ++ rest)) ≠ 120 →
  strtol (ws ++ (if neg then [45] else []) ++ map digit_char ds ++ rest) 10 =
    (clamp_int (if neg then - eval 10 ds else eval 10 ds), rest).
Proof.
  intros Hws Hne Hds Hrest Hx. unfold strtol.
  pose proof (digits_first 10 ds rest ltac:(lia) Hne Hds) as [Hd1 Hd2].
  rewrite skip_white_app; [|done|right; destruct neg; simpl; lia].
  set (t := map digit_char ds ++ rest) in *.
  assert (bool_decide (rest = t) = false) as Hsave.
  { apply bool_decide_eq_false, length_neq. unfold t. rewrite length_app, length_map.
    destruct ds; [done|simpl; lia]. }
  destruct (strtol_loop_clamp 10 ds rest) as (i & o & Hl & Ho); [lia|done|done|].
  assert (deref t ≠ 43) by lia.
  destruct neg; simpl.
  - destruct (Z.eqb_spec (deref (tail t)) 120); [done|]. simpl. fold t in Hl.
    rewrite Hl, Hsave. unfold clamp_int, INT_MIN, INT_MAX in *.
    destruct o; f_equal; [lia|]. rewrite s32_small; unfold INT_MIN, INT_MAX; lia.
  - destruct (Z.eqb_spec (deref t) 0); [lia|].
    destruct (Z.eqb_spec (deref t) 45); [lia|]. destruct (Z.eqb_spec (deref t) 43); [lia|].
    destruct (Z.eqb_spec (deref (tail t)) 120); [done|]. simpl. fold t in Hl.
    rewrite Hl, Hsave. unfold clamp_int, INT_MIN, INT_MAX in *.
    destruct o; f_equal; [lia|]. rewrite s32_small; unfold INT_MIN, INT_MAX; lia.
Qed.

(** C37: [strtol] in base 10 skips white space, accepts a minus sign, and returns
    the number its digits write, saturated to the range of [int], with the end
    pointer at the first byte that is not a digit; the byte after the first
    digit must not be an [x] (see [strtol_skips_in_any_base]). *)
Theorem strtol_decimal ws (neg : bool) ds rest :
  Forall is_white ws → ds ≠ [] → Forall (λ d, 0 <= d < 10) ds → strtol_stops 10 rest →
  deref (tail (map digit_char ds ++ rest)) ≠ 120 →
  strtol (ws ++ (if neg then [45] else []) ++ map digit_char ds ++ rest) 10 =
    (clamp_int (if neg then - eval 10 ds else eval 10 ds), rest).
Proof. apply strtol_decimal_aux. Qed.

Lemma strtol_decimal_witness :
  strtol ([32; 9] ++ [45] ++ map digit_char [4; 2; 9; 4; 9; 6; 7; 2; 9; 6] ++ bs ",") 10 =
    (INT_MIN, bs ",").
Proof.
  rewrite (strtol_decimal [32; 9] true [4; 2; 9; 4; 9; 6; 7; 2; 9; 6] (bs ","));
    [by vm_compute|by_decision|discriminate|by_decision|by_decision|by_decision].
Defined.

(** the prefix test of [strtol] drops two characters whatever the base, when the
    second is a small [x] *)
Example strtol_skips_in_any_base : strtol (bs "9x10") 10 = (10, []).
Proof. by vm_compute. Qed.
