(* ===== verification/Vsprintf.v ===== *)
(** The formatter of [lib/vsprintf.c]: [skip_atoi], [number], [vsprintf] and
    [sprintf].  The text is the list of the bytes stored through [str]; the
    arguments are the list [va_arg] walks. *)
From S2P Require Import Prelude Ctype CString Numeric.

(** ** Flags *)

Definition ZEROPAD : Z := 1.
Definition SIGN : Z := 2.
Definition PLUS : Z := 4.
Definition SPACE : Z := 8.
Definition LEFT : Z := 16.
Definition SPECIAL : Z := 32.
Definition LARGE : Z := 64.

Definition has (type flag : Z) : bool := negb (Z.land type flag =? 0).

(** what can go wrong: a conversion finds an argument of another type (or
    none), or [number] indexes its digit table with a negative remainder *)
Inductive fmt_error := Bad_arg | Bad_digit.

#[export] Instance fmt_error_eq_dec : EqDecision fmt_error.
Proof. solve_decision. Defined.

(** ** [number] *)

Definition digits_small : list Z := bs "0123456789abcdefghijklmnopqrstuvwxyz".
Definition digits_large : list Z := bs "0123456789ABCDEFGHIJKLMNOPQRSTUVWXYZ".

(** the [while (num != 0)] loop; [tmp] holds the digits, the last one stored
    first.  [%] and [/] on [long long] round towards zero. *)
Fixpoint number_digits (fuel : nat) (digits : list Z) (base num : Z) (tmp : list Z)
    : result fmt_error (list Z) :=
  if num =? 0 then Ok tmp
  else match fuel with
  | O => Fuel
  | S fuel =>
      let t := Z.rem num base in
      if t <? 0 then Err Bad_digit
      else number_digits fuel digits base (Z.quot num base) (byte_at digits t :: tmp)
  end.

(** [while (size-- > 0) *str++ = c]: the bytes stored and [size] afterwards *)
Definition pad (size c : Z) : list Z * Z :=
  (replicate (Z.to_nat size) c, if 0 <? size then -1 else size - 1).

Definition number (num base size precision type : Z) : result fmt_error (list Z) :=
  let digits := if has type LARGE then digits_large else digits_small in
  let type := if has type LEFT then Z.land type (Z.lnot ZEROPAD) else type in
  if (base <? 2) || (36 <? base) then Ok []
  else
    let c := if has type ZEROPAD then 48 else 32 in
    let '(sign, num, size) :=
      if has type SIGN then
        if num <? 0 then ([45], s64 (- num), size - 1)
        else if has type PLUS then ([43], num, size - 1)
        else if has type SPACE then ([32], num, size - 1)
        else ([], num, size)
      else ([], num, size) in
    let size :=
      if has type SPECIAL then
        if base =? 16 then size - 2 else if base =? 8 then size - 1 else size
      else size in
    match (if num =? 0 then Ok [48] else number_digits 66 digits base num []) with
    | Ok tmp =>
        let i := Z.of_nat (length tmp) in
        let precision := if precision <? i then i else precision in
        let size := size - precision in
        let '(out1, size) := if has type (ZEROPAD + LEFT) then ([], size) else pad size 32 in
        let prefix :=
          if has type SPECIAL then
            if base =? 8 then [48]
            else if base =? 16 then [48; byte_at digits 33]
            else []
          else [] in
        let '(out2, size) := if has type LEFT then ([], size) else pad size c in
        let zeros := replicate (Z.to_nat (precision - i)) 48 in
        let '(out3, _) := pad size 32 in
        Ok (out1 ++ sign ++ prefix ++ out2 ++ zeros ++ tmp ++ out3)
    | Err e => Err e
    | Fuel => Fuel
    end.

(** ** [vsprintf] *)

(** [int], [long], [size_t] and pointers are one 32-bit word each *)
Inductive arg :=
| AInt (z : Z)
| ALL (z : Z)
| AStr (s : option (list Z)).

(** [i = i*10 + *(( *s)++) - '0'] in an [int] *)
Fixpoint skip_atoi (s : list Z) (i : Z) : Z * list Z :=
  match s with
  | [] => (i, [])
  | c :: r => if isdigit c then skip_atoi r (s32 (i * 10 + c - 48)) else (i, s)
  end.

(** the flags between [%] and the width *)
Fixpoint parse_flags (fmt : list Z) (flags : Z) : Z * list Z :=
  match fmt with
  | [] => (flags, [])
  | c :: r =>
      if c =? 45 then parse_flags r (Z.lor flags LEFT)
      else if c =? 43 then parse_flags r (Z.lor flags PLUS)
      else if c =? 32 then parse_flags r (Z.lor flags SPACE)
      else if c =? 35 then parse_flags r (Z.lor flags SPECIAL)
      else if c =? 48 then parse_flags r (Z.lor flags ZEROPAD)
      else (flags, fmt)
  end.

(** [va_arg(args, int)] *)
Definition va_int (args : list arg) : option (Z * list arg) :=
  match args with AInt z :: r => Some (s32 z, r) | _ => None end.

(** the width: flags, width, rest of the format, rest of the arguments *)
Definition parse_width (fmt : list Z) (flags : Z) (args : list arg)
    : option (Z * Z * list Z * list arg) :=
  if isdigit (deref fmt) then
    let '(w, fmt) := skip_atoi fmt 0 in Some (flags, w, fmt, args)
  else if deref fmt =? 42 then
    match va_int args with
    | Some (w, args) =>
        if w <? 0 then Some (Z.lor flags LEFT, - w, tail fmt, args)
        else Some (flags, w, tail fmt, args)
    | None => None
    end
  else Some (flags, -1, fmt, args).

Definition parse_precision (fmt : list Z) (args : list arg) : option (Z * list Z * list arg) :=
  if deref fmt =? 46 then
    let fmt := tail fmt in
    let clip p := if p <? 0 then 0 else p in
    if isdigit (deref fmt) then
      let '(p, fmt) := skip_atoi fmt 0 in Some (clip p, fmt, args)
    else if deref fmt =? 42 then
      match va_int args with
      | Some (p, args) => Some (clip p, tail fmt, args)
      | None => None
      end
    else Some (0, fmt, args)
  else Some (-1, fmt, args).

Definition parse_qualifier (fmt : list Z) : Z * list Z :=
  let c := deref fmt in
  if (c =? 104) || (c =? 108) || (c =? 76) || (c =? 90) then (c, tail fmt) else (-1, fmt).

(** the argument of an integer conversion *)
Definition fetch_num (qualifier flags : Z) (args : list arg) : option (Z * list arg) :=
  if qualifier =? 76 then
    match args with ALL z :: r => Some (s64 z, r) | _ => None end
  else match args with
  | AInt z :: r =>
      let num :=
        if qualifier =? 108 then (if has flags SIGN then s32 z else u32 z)
        else if qualifier =? 90 then u32 z
        else if qualifier =? 104 then
          let h := u16 z in
          if has flags SIGN then (if h <? 32768 then h else h - 65536) else h
        else (if has flags SIGN then s32 z else u32 z) in
      Some (num, r)
  | _ => None
  end.

Definition NULL_text : list Z := bs "<NULL>".

(** the text of a [%s] conversion; [strnlen] of the header clips the length *)
Definition format_s (s : list Z) (flags field_width precision : Z) : list Z :=
  let len := let n := strlen s in if u32 precision <? n then u32 precision else n in
  let fill := replicate (Z.to_nat (field_width - len)) 32 in
  let text := take (Z.to_nat len) s in
  if has flags LEFT then text ++ fill else fill ++ text.

(** [while (--field_width > 0)] on one side, then the character, then the same
    loop on the other side *)
Definition format_c (c flags field_width : Z) : list Z :=
  let fill := replicate (Z.to_nat (field_width - 1)) 32 in
  if has flags LEFT then u8 c :: fill else fill ++ [u8 c].

Record fmt_out := FmtOut {
  fo_text : list Z;        (* the bytes stored so far *)
  fo_stores : list Z;      (* the values stored by [%n], in order *)
}.

Definition emit (o : fmt_out) (t : list Z) : fmt_out := FmtOut (fo_text o ++ t) (fo_stores o).

(** one conversion: [fmt] is after the [%] *)
Definition conversion (fmt : list Z) (args : list arg) (o : fmt_out)
    : result fmt_error (list Z * list arg * fmt_out) :=
  let '(flags, fmt) := parse_flags fmt 0 in
  match parse_width fmt flags args with
  | None => Err Bad_arg
  | Some (flags, field_width, fmt, args) =>
  match parse_precision fmt args with
  | None => Err Bad_arg
  | Some (precision, fmt, args) =>
  let '(qualifier, fmt) := parse_qualifier fmt in
  let c := deref fmt in
  let next := tail fmt in
  let integer base flags :=
    match fetch_num qualifier flags args with
    | None => Err Bad_arg
    | Some (num, args) =>
        match number num base field_width precision flags with
        | Ok t => Ok (next, args, emit o t)
        | Err e => Err e
        | Fuel => Fuel
        end
    end in
  if c =? 99 then
    match args with
    | AInt z :: args => Ok (next, args, emit o (format_c z flags field_width))
    | _ => Err Bad_arg
    end
  else if c =? 115 then
    match args with
    | AStr s :: args =>
        let s := default NULL_text s in
        Ok (next, args, emit o (format_s s flags field_width precision))
    | _ => Err Bad_arg
    end
  else if c =? 112 then
    let '(field_width, flags) :=
      if field_width =? -1 then (8, Z.lor flags ZEROPAD) else (field_width, flags) in
    match args with
    | AInt z :: args =>
        match number (u32 z) 16 field_width precision flags with
        | Ok t => Ok (next, args, emit o t)
        | Err e => Err e
        | Fuel => Fuel
        end
    | _ => Err Bad_arg
    end
  else if c =? 110 then
    match args with
    | AInt _ :: args =>
        Ok (next, args, FmtOut (fo_text o) (fo_stores o ++ [Z.of_nat (length (fo_text o))]))
    | _ => Err Bad_arg
    end
  else if c =? 37 then Ok (next, args, emit o [37])
  else if c =? 111 then integer 8 flags
  else if c =? 88 then integer 16 (Z.lor flags LARGE)
  else if c =? 120 then integer 16 flags
  else if (c =? 100) || (c =? 105) then integer 10 (Z.lor flags SIGN)
  else if c =? 117 then integer 10 flags
  else if c =? 0 then Ok (fmt, args, emit o [37])
  else Ok (next, args, emit o [37; c])
  end
  end.

Fixpoint vsprintf_loop (fuel : nat) (fmt : list Z) (args : list arg) (o : fmt_out)
    : result fmt_error fmt_out :=
  match fuel with
  | O => Fuel
  | S fuel =>
      if deref fmt =? 0 then Ok o
      else if negb (deref fmt =? 37) then
        vsprintf_loop fuel (tail fmt) args (emit o [deref fmt])
      else
        match conversion (tail fmt) args o with
        | Ok (fmt, args, o) => vsprintf_loop fuel fmt args o
        | Err e => Err e
        | Fuel => Fuel
        end
  end.

Definition vsprintf_full (fmt : list Z) (args : list arg) : result fmt_error fmt_out :=
  vsprintf_loop (S (length fmt)) fmt args (FmtOut [] []).

(** the text; the value returned is its length *)
Definition vsprintf (fmt : list Z) (args : list arg) : result fmt_error (list Z) :=
  match vsprintf_full fmt args with
  | Ok o => Ok (fo_text o)
  | Err e => Err e
  | Fuel => Fuel
  end.

Definition sprintf (fmt : list Z) (args : list arg) : result fmt_error (list Z) :=
  vsprintf fmt args.

(** the text of a conversion that cannot fail, for the callers *)
Definition text_of (r : result fmt_error (list Z)) : list Z :=
  match r with Ok t => t | _ => [] end.

(** a string without width and precision is printed as it is *)
Lemma format_s_plain s : cstr_ok s → Z.of_nat (length s) < 4294967296 → format_s s 0 (-1) (-1) = s.
Proof.
  intros Hs Hl. unfold format_s. rewrite strlen_length by done. cbv zeta.
  change (u32 (-1)) with 4294967295. destruct (Z.ltb_spec 4294967295 (Z.of_nat (length s))); [lia|].
  rewrite Nat2Z.id, firstn_all. replace (Z.to_nat (-1 - Z.of_nat (length s))) with 0%nat by lia. done.
Qed.

(** ** The digits [number] produces *)

Lemma digits_small_spec d : 0 <= d < 36 → byte_at digits_small d = digit_char d.
Proof.
  intros H.
  assert (forallb (λ d, byte_at digits_small d =? digit_char d)
            (map Z.of_nat (seq 0 36)) = true) as Ha by reflexivity.
  rewrite forallb_forall in Ha. apply Z.eqb_eq, Ha.
  replace d with (Z.of_nat (Z.to_nat d)) by lia. apply in_map, in_seq. lia.
Qed.

(** canonical digits: no leading zero *)
Definition canonical (ds : list Z) : Prop := match ds with 0 :: _ => False | _ => True end.

(** the loop prepends the digits of [num]; the number of digits is bounded by
    the number of bits *)
Lemma number_digits_spec fuel base num tmp :
  2 <= base <= 36 → 0 <= num < 2 ^ Z.of_nat fuel →
  ∃ ds, number_digits fuel digits_small base num tmp = Ok (map digit_char ds ++ tmp) ∧
        Forall (λ d, 0 <= d < base) ds ∧ eval base ds = num ∧ canonical ds ∧
        (length ds <= fuel)%nat.
Proof.
  intros Hb. revert num tmp. induction fuel as [|fuel IH]; intros num tmp Hn.
  - replace num with 0 by (simpl in Hn; lia). exists []. simpl. repeat split; [constructor|lia].
  - simpl. destruct (Z.eqb_spec num 0) as [->|Hnz].
    + exists []. simpl. repeat split; [constructor|lia].
    + rewrite Z.rem_mod_nonneg, Z.quot_div_nonneg by lia.
      pose proof (Z.mod_pos_bound num base ltac:(lia)).
      destruct (Z.ltb_spec (num `mod` base) 0); [lia|].
      rewrite digits_small_spec by lia.
      rewrite Nat2Z.inj_succ, Z.pow_succ_r in Hn by lia.
      destruct (IH (num / base) (digit_char (num `mod` base) :: tmp)) as (ds & E & Hds & Hev & Hc & Hl).
      { split; [apply Z.div_pos; lia|]. apply Z.div_lt_upper_bound; [lia|].
        assert (0 < 2 ^ Z.of_nat fuel) by (apply Z.pow_pos_nonneg; lia). nia. }
      exists (ds ++ [num `mod` base]). rewrite E, map_app, <- app_assoc. split; [done|].
      split; [apply Forall_app; split; [done|by repeat constructor; lia]|].
      rewrite eval_snoc, Hev. split; [pose proof (Z.div_mod num base); lia|].
      split; [|rewrite length_app; simpl; lia].
      destruct ds as [|d ds]; [|done]. simpl. unfold eval in Hev. simpl in Hev.
      assert (num `mod` base = num) as ->; [|by destruct num].
      pose proof (Z.div_mod num base ltac:(lia)). lia.
Qed.

#[global] Arguments number_digits : simpl never.

(** the digits of [num], with the single digit 0 for 0 *)
Lemma number_tmp_spec base num : 2 <= base <= 36 → 0 <= num < 9223372036854775808 →
  ∃ ds, (if num =? 0 then Ok [48] else number_digits 66 digits_small base num [])
        = Ok (map digit_char ds) ∧
        Forall (λ d, 0 <= d < base) ds ∧ eval base ds = num ∧ ds ≠ [] ∧
        (canonical ds ∨ ds = [0]) ∧ (length ds <= 66)%nat.
Proof.
  intros Hb Hn. destruct (Z.eqb_spec num 0) as [->|Hnz].
  - exists [0]. repeat split; [|done|by right|simpl; lia]. repeat constructor; lia.
  - destruct (number_digits_spec 66 base num []) as (ds & E & Hds & Hev & Hc & Hl); [lia| |].
    { change (2 ^ Z.of_nat 66) with 73786976294838206464. lia. }
    exists ds. rewrite E, app_nil_r. repeat split; try done; [|by left].
    intros ->. unfold eval in Hev. simpl in Hev. lia.
Qed.

Lemma map_zeros n : map digit_char (replicate n 0) = replicate n 48.
Proof. induction n as [|n IH]; simpl; [done|]. by rewrite IH. Qed.

Lemma eval_zeros base n ds : eval base (replicate n 0 ++ ds) = eval base ds.
Proof.
  unfold eval. rewrite foldl_app. f_equal.
  induction n as [|n IH]; simpl; [done|]. by rewrite Z.mul_0_l.
Qed.

(** an unsigned conversion with no flag other than zero padding *)
Lemma number_unsigned num base size (zero : bool) :
  2 <= base <= 36 → 0 <= num < 9223372036854775808 → (zero = false → size <= 1) →
  ∃ ds, number num base size (-1) (if zero then ZEROPAD else 0) = Ok (map digit_char ds) ∧
        Forall (λ d, 0 <= d < base) ds ∧ eval base ds = num ∧ ds ≠ [] ∧
        size <= Z.of_nat (length ds) ∧ (Z.of_nat (length ds) <= Z.max 66 size).
Proof.
  intros Hb Hn Hz. destruct (number_tmp_spec base num) as (ds & E & Hds & Hev & Hne & Hc & Hl);
    [done..|].
  assert (0 < length ds)%nat as Hpos by (destruct ds; [done|simpl; lia]).
  assert (∀ o : list Z, map digit_char (replicate (Z.to_nat (size - Z.of_nat (length ds))) 0 ++ ds) =
    replicate (Z.to_nat (size - Z.of_nat (length ds))) 48 ++ map digit_char ds) as Hm.
  { intros _. by rewrite map_app, map_zeros. }
  specialize (Hm []).
  exists (replicate (Z.to_nat (size - Z.of_nat (length ds))) 0 ++ ds).
  split; [|split; [|split; [|split; [|split]]]].
  - rewrite Hm. unfold number.
    destruct (Z.ltb_spec base 2); [lia|]. destruct (Z.ltb_spec 36 base); [lia|].
    cbn [orb]. destruct zero; simpl; rewrite E, length_map;
      (destruct (Z.ltb_spec (-1) (Z.of_nat (length ds))); [|lia]);
      replace (Z.to_nat (Z.of_nat (length ds) - Z.of_nat (length ds))) with 0%nat by lia.
    + unfold pad. simpl. f_equal.
      assert (Z.to_nat (if 0 <? size - Z.of_nat (length ds) then -1
                        else size - Z.of_nat (length ds) - 1) = 0%nat) as ->.
      { destruct (Z.ltb_spec 0 (size - Z.of_nat (length ds))); lia. }
      simpl. by rewrite app_nil_r.
    + replace (Z.to_nat (size - Z.of_nat (length ds))) with 0%nat by lia. unfold pad. simpl.
      destruct (Z.ltb_spec 0 (size - Z.of_nat (length ds))); [lia|]. simpl.
      destruct (Z.ltb_spec 0 (size - Z.of_nat (length ds) - 1)); [lia|].
      replace (Z.to_nat (size - Z.of_nat (length ds))) with 0%nat by lia.
      replace (Z.to_nat (size - Z.of_nat (length ds) - 1)) with 0%nat by lia.
      replace (Z.to_nat (size - Z.of_nat (length ds) - 1 - 1)) with 0%nat by lia.
      simpl. by rewrite app_nil_r.
  - apply Forall_app. split; [apply Forall_replicate; lia|done].
  - by rewrite eval_zeros.
  - intros H. apply app_nil in H as [_ ?]. done.
  - rewrite length_app, length_replicate. lia.
  - rewrite length_app, length_replicate. lia.
Qed.

(** ** The formatter always returns *)

Lemma number_digits_total fuel digits base num tmp :
  2 <= base → Z.abs num < 2 ^ Z.of_nat fuel → number_digits fuel digits base num tmp ≠ Fuel.
Proof.
  intros Hb. revert num tmp. induction fuel as [|fuel IH]; intros num tmp Hn;
    unfold number_digits; fold number_digits; destruct (Z.eqb_spec num 0); try done.
  - change (2 ^ Z.of_nat 0) with 1 in Hn. lia.
  - rewrite Nat2Z.inj_succ, Z.pow_succ_r in Hn by lia.
    destruct (Z.rem num base <? 0); [done|]. apply IH.
    rewrite <- Z.quot_abs by lia. rewrite (Z.abs_eq base) by lia.
    rewrite Z.quot_div_nonneg by lia. apply Z.div_lt_upper_bound; [lia|].
    assert (0 < 2 ^ Z.of_nat fuel) by (apply Z.pow_pos_nonneg; lia). nia.
Qed.

Lemma s64_range z : -9223372036854775808 <= s64 z < 9223372036854775808.
Proof. unfold s64. pose proof (u64_range z). case_match; lia. Qed.

Lemma number_total num base size precision type :
  Z.abs num <= 9223372036854775808 → number num base size precision type ≠ Fuel.
Proof.
  intros Hn. unfold number. destruct (Z.ltb_spec base 2), (Z.ltb_spec 36 base); try done.
  cbn [orb].
  match goal with |- context [match ?x with (a, b) => _ end] => destruct x as [[sg n] sz] eqn:Es end.
  assert (Z.abs n <= 9223372036854775808) as Hn'.
  { pose proof (s64_range (- num)). repeat case_match; simplify_eq; lia. }
  clear Es Hn.
  match goal with |- context [match ?x with Ok _ => _ | _ => _ end] => destruct x eqn:E end.
  - repeat case_match; done.
  - done.
  - destruct (Z.eqb_spec n 0); [done|]. exfalso. revert E. apply number_digits_total; [lia|].
    change (2 ^ Z.of_nat 66) with 73786976294838206464. lia.
Qed.

Lemma skip_atoi_length s i : (length (skip_atoi s i).2 <= length s)%nat.
Proof.
  revert i. induction s as [|c s IH]; intros i; simpl; [lia|].
  destruct (isdigit c); simpl; [|lia]. specialize (IH (s32 (i * 10 + c - 48))). lia.
Qed.

Lemma parse_flags_length s flags : (length (parse_flags s flags).2 <= length s)%nat.
Proof.
  revert flags. induction s as [|c s IH]; intros flags; simpl; [lia|].
  repeat case_match; simpl; try lia; (etrans; [apply IH|lia]).
Qed.

Lemma length_tail {A} (l : list A) : length (tail l) = pred (length l).
Proof. by destruct l. Qed.

Lemma parse_width_length s flags args r : parse_width s flags args = Some r →
  (length r.1.2 <= length s)%nat.
Proof.
  unfold parse_width. pose proof (skip_atoi_length s 0). intros Hr.
  repeat case_match; simplify_eq; simpl in *; rewrite ?length_tail; lia.
Qed.

Lemma parse_precision_length s args r : parse_precision s args = Some r →
  (length r.1.2 <= length s)%nat.
Proof.
  unfold parse_precision. pose proof (skip_atoi_length (tail s) 0). rewrite length_tail in *.
  intros Hr. repeat case_match; simplify_eq; simpl in *; rewrite ?length_tail; lia.
Qed.

Lemma parse_qualifier_length s : (length (parse_qualifier s).2 <= length s)%nat.
Proof. unfold parse_qualifier. case_match; simpl; rewrite ?length_tail; lia. Qed.

Lemma fetch_num_range q flags args num r : fetch_num q flags args = Some (num, r) →
  Z.abs num <= 9223372036854775808.
Proof.
  unfold fetch_num. intros H.
  repeat case_match; simplify_eq;
    repeat match goal with
    | |- context [s64 ?z] => pose proof (s64_range z); generalize dependent (s64 z); intros
    | |- context [s32 ?z] => pose proof (s32_range z); generalize dependent (s32 z); intros
    | |- context [u32 ?z] => pose proof (u32_range z); generalize dependent (u32 z); intros
    | |- context [u16 ?z] => pose proof (u16_range z); generalize dependent (u16 z); intros
    end; unfold INT_MIN, INT_MAX in *; lia.
Qed.

(** a conversion terminates and leaves a shorter format *)
Lemma conversion_total fmt args o :
  match conversion fmt args o with
  | Ok (fmt', _, _) => (length fmt' <= length fmt)%nat
  | Err _ => True
  | Fuel => False
  end.
Proof.
  unfold conversion. pose proof (parse_flags_length fmt 0) as Hf.
  destruct (parse_flags fmt 0) as [flags fmt1]. simpl in Hf.
  destruct (parse_width fmt1 flags args) as [[[[flags2 w] fmt2] args2]|] eqn:Hw; [|done].
  apply parse_width_length in Hw. simpl in Hw.
  destruct (parse_precision fmt2 args2) as [[[p fmt3] args3]|] eqn:Hp; [|done].
  apply parse_precision_length in Hp. simpl in Hp.
  pose proof (parse_qualifier_length fmt3) as Hq.
  destruct (parse_qualifier fmt3) as [q fmt4]. simpl in Hq.
  assert (length (tail fmt4) <= length fmt)%nat as Hn by (rewrite length_tail; lia).
  assert (∀ base flags', match
    match fetch_num q flags' args3 with
    | Some (num, args') =>
        match number num base w p flags' with
        | Ok t => Ok (tail fmt4, args', emit o t) | Err e => Err e | Fuel => Fuel end
    | None => Err Bad_arg
    end with
    | Ok (fmt', _, _) => (length fmt' <= length fmt)%nat
    | Err _ => True
    | Fuel => False end) as Hint.
  { intros base flags'. destruct (fetch_num q flags' args3) as [[num args']|] eqn:Hnum; [|done].
    apply fetch_num_range in Hnum.
    pose proof (number_total num base w p flags' Hnum). by destruct (number _ _ _ _ _). }
  destruct (deref fmt4 =? 99); [by destruct args3 as [|[]]|].
  destruct (deref fmt4 =? 115); [by destruct args3 as [|[]]|].
  destruct (deref fmt4 =? 112).
  { destruct (w =? -1), args3 as [|[z| |] args3]; try done;
      pose proof (u32_range z);
      match goal with |- context [number ?n ?b ?w ?p ?f] =>
        pose proof (number_total n b w p f ltac:(lia)); by destruct (number n b w p f) end. }
  destruct (deref fmt4 =? 110); [by destruct args3 as [|[]]|].
  destruct (deref fmt4 =? 37); [done|].
  destruct (deref fmt4 =? 111); [apply Hint|].
  destruct (deref fmt4 =? 88); [apply Hint|].
  destruct (deref fmt4 =? 120); [apply Hint|].
  destruct ((deref fmt4 =? 100) || (deref fmt4 =? 105)); [apply Hint|].
  destruct (deref fmt4 =? 117); [apply Hint|].
  destruct (deref fmt4 =? 0); [lia|done].
Qed.

Lemma vsprintf_loop_total fuel fmt args o : (length fmt < fuel)%nat →
  vsprintf_loop fuel fmt args o ≠ Fuel.
Proof.
  revert fmt args o. induction fuel as [|fuel IH]; intros fmt args o Hf; [lia|].
  cbn [vsprintf_loop]. destruct fmt as [|c fmt]; [done|]. simpl in *.
  destruct (c =? 0); [done|]. destruct (negb (c =? 37)); [apply IH; lia|].
  pose proof (conversion_total fmt args o) as Hc.
  destruct (conversion fmt args o) as [[[fmt' args'] o']| |]; [|done|done].
  apply IH. lia.
Qed.

(** a format without [%] is copied *)
Lemma vsprintf_loop_plain fuel t fmt args o :
  Forall (λ c, c ≠ 0 ∧ c ≠ 37) t →
  vsprintf_loop (length t + fuel) (t ++ fmt) args o =
  vsprintf_loop fuel fmt args (emit o t).
Proof.
  intros Ht. revert o. induction Ht as [|c t [H0 H37] Ht IH]; intros o.
  - simpl. unfold emit. destruct o. by rewrite app_nil_r.
  - simpl. destruct (Z.eqb_spec c 0); [done|]. destruct (Z.eqb_spec c 37); [done|]. simpl.
    rewrite IH. unfold emit. simpl. by rewrite <- app_assoc.
Qed.

(** ** Printing and reading back *)

Lemma pad_nonpos n c : n <= 0 → pad n c = ([], n - 1).
Proof.
  intros H. unfold pad. destruct (Z.ltb_spec 0 n); [lia|].
  by replace (Z.to_nat n) with 0%nat by lia.
Qed.

(** a conversion without width, precision and flags but the sign *)
Lemma number_signed num base : 2 <= base <= 36 → Z.abs num < 9223372036854775808 →
  ∃ ds, number num base (-1) (-1) SIGN =
          Ok ((if num <? 0 then [45] else []) ++ map digit_char ds) ∧
        Forall (λ d, 0 <= d < base) ds ∧ eval base ds = Z.abs num ∧ ds ≠ [].
Proof.
  intros Hb Hn. unfold number.
  destruct (Z.ltb_spec base 2); [lia|]. destruct (Z.ltb_spec 36 base); [lia|]. cbn [orb].
  destruct (number_tmp_spec base (Z.abs num)) as (ds & E & Hds & Hev & Hne & _ & Hl);
    [lia|lia|].
  assert (0 < length ds)%nat as Hpos by (destruct ds; [done|simpl; lia]).
  exists ds. split; [|done].
  assert ((if num <? 0 then s64 (- num) else num) = Z.abs num) as Habs.
  { destruct (Z.ltb_spec num 0); [|lia]. unfold s64. rewrite u64_small by lia.
    destruct (Z.ltb_spec (- num) 9223372036854775808); lia. }
  destruct (Z.ltb_spec num 0); with_strategy opaque [pad] simpl; rewrite Habs, E, length_map;
    (destruct (Z.ltb_spec (-1) (Z.of_nat (length ds))); [|lia]);
    do 3 (rewrite pad_nonpos by lia; with_strategy opaque [pad] simpl);
    replace (Z.to_nat (Z.of_nat (length ds) - Z.of_nat (length ds))) with 0%nat by lia;
    by rewrite app_nil_r.
Qed.

(** the digits of an unsigned number *)
Definition udec (z : Z) : list Z := text_of (number z 10 (-1) (-1) 0).

Lemma udec_spec z : 0 <= z < 4294967296 →
  number z 10 (-1) (-1) 0 = Ok (udec z) ∧
  ∃ ds, udec z = map digit_char ds ∧ Forall (λ d, 0 <= d < 10) ds ∧ eval 10 ds = z ∧ ds ≠ [].
Proof.
  intros Hz. destruct (number_unsigned z 10 (-1) false) as (ds & E & Hds & Hev & Hne & _);
    [lia|lia|lia|]. unfold udec. rewrite E. split; [done|]. by exists ds.
Qed.

(** [%u] in a format *)
Lemma vsprintf_loop_u fuel rest z args o : 0 <= z < 4294967296 →
  vsprintf_loop (S fuel) (37 :: 117 :: rest) (AInt z :: args) o =
  vsprintf_loop fuel rest args (emit o (udec z)).
Proof.
  intros Hz. cbn [vsprintf_loop deref tail]. eval_tests. unfold conversion.
  cbn [parse_flags]. eval_tests. unfold parse_width. cbn [deref].
  change (isdigit 117) with false. cbn iota. eval_tests.
  unfold parse_precision. cbn [deref]. eval_tests. unfold parse_qualifier. cbn [deref]. eval_tests.
  unfold fetch_num. eval_tests. change (has 0 SIGN) with false. cbn iota.
  rewrite (u32_small z) by done. destruct (udec_spec z Hz) as [-> _]. done.
Qed.

Lemma vsprintf_one (c : Z) (z : Z) t :
  c ∈ [100; 120; 117; 111]%list →
  conversion [c] [AInt z] (FmtOut [] []) = Ok ([], [], FmtOut t []) →
  sprintf [37; c] [AInt z] = Ok t.
Proof.
  intros Hc E. unfold sprintf, vsprintf, vsprintf_full. cbn [length vsprintf_loop].
  simpl deref. cbn [tail]. change (37 =? 0) with false. change (negb (37 =? 37)) with false.
  cbn iota. rewrite E. done.
Qed.

(** C35: [%d] prints every [int] so that [simple_strtol] reads it back, and [%x]
    prints every [unsigned int] so that [simple_strtoul] reads it back, to the
    end of the text. *)
Theorem sprintf_strtol_roundtrip z :
  (∃ t, sprintf (bs "%d") [AInt z] = Ok t ∧ simple_strtol t 10 = (s32 z, [])) ∧
  (∃ t, sprintf (bs "%x") [AInt z] = Ok t ∧ simple_strtoul t 16 = (u32 z, [])).
Proof.
  split.
  - pose proof (s32_range z) as Hr. unfold INT_MIN, INT_MAX in Hr.
    destruct (number_signed (s32 z) 10) as (ds & E & Hds & Hev & Hne); [lia|lia|].
    eexists. split.
    + change (bs "%d") with [37; 100]. apply vsprintf_one; [set_solver|].
      unfold conversion. simpl. change (has (Z.lor 0 SIGN) SIGN) with true. cbn iota.
      change (Z.lor 0 SIGN) with SIGN. rewrite E. done.
    + destruct (digits_first 10 ds [] ltac:(lia) Hne Hds) as [Hf1 Hf2].
      rewrite app_nil_r in Hf1, Hf2. unfold simple_strtol.
      assert (simple_strtoul (map digit_char ds) 10 = (u32 (Z.abs (s32 z)), [])) as Hs.
      { rewrite <- (app_nil_r (map digit_char ds)), simple_strtoul_digits; [|lia|done|done].
        by rewrite Hev. }
      destruct (Z.ltb_spec (s32 z) 0); simpl.
      * rewrite Hs. f_equal. rewrite (u32_small (Z.abs _)) by lia.
        replace (- Z.abs (s32 z)) with (s32 z) by lia.
        rewrite s32_u32. apply s32_small. unfold INT_MIN, INT_MAX. lia.
      * destruct (Z.eqb_spec (deref (map digit_char ds)) 45); [done|]. rewrite Hs.
        rewrite s32_u32, Z.abs_eq by lia. f_equal. apply s32_small. unfold INT_MIN, INT_MAX. lia.
  - pose proof (u32_range z) as Hr.
    destruct (number_unsigned (u32 z) 16 (-1) false) as (ds & E & Hds & Hev & Hne & _);
      [lia|lia|lia|].
    eexists. split.
    + change (bs "%x") with [37; 120]. apply vsprintf_one; [set_solver|].
      unfold conversion. simpl. change (has 0 SIGN) with false. cbn iota.
      rewrite E. done.
    + simpl. rewrite <- (app_nil_r (map digit_char ds)), simple_strtoul_digits; [|lia|done|done].
      by rewrite Hev, u32_u32.
Qed.

(** C36: [vsprintf] returns on every format and every argument list: its loops
    end within the fuel given, whatever the widths, flags and arguments. *)
Theorem vsprintf_total fmt args : vsprintf_full fmt args ≠ Fuel.
Proof. apply vsprintf_loop_total. lia. Qed.

(** an unsigned number of [2 ^ 63] and more is divided as a signed one: the remainder is
    not the index of a digit *)
Example number_wide_unsigned : number (s64 9223372036854775809) 16 (-1) (-1) 0 = Err Bad_digit ∧
  number (s64 9223372036854775807) 16 (-1) (-1) 0 = Ok (bs "7fffffffffffffff").
Proof. split; vm_compute; reflexivity. Qed.
