(* ===== verification/Malloc.v ===== *)
(** [lib/malloc.c]: the bump allocator.  A block is preceded by its size; only
    the last block can be given back.  Addresses are 32-bit words, 0 is NULL;
    memory is the byte stored at each address. *)
From S2P Require Import Prelude CString.

(** ** State and operations *)

Definition memory : Type := Z → Z.

(** store the bytes [l] from address [a] on *)
Definition mem_store (m : memory) (a : Z) (l : list Z) : memory := λ x,
  if (a <=? x) && (x <? a + Z.of_nat (length l)) then byte_at l (x - a) else m x.

(** the [n] bytes from address [a] on *)
Definition mem_load (m : memory) (a : Z) (n : nat) : list Z :=
  map (λ i, m (a + Z.of_nat i)) (seq 0 n).

Definition load_word (m : memory) (a : Z) : Z := be32 (mem_load m a 4) 0.

Record heap := Heap {
  malloc_ptr : Z;
  malloc_top : Z;
  last_alloc : Z;
  mem : memory;
}.

Definition ENOMEM : Z := 12.
Definition EINVAL : Z := 22.

Definition malloc_init (bottom size : Z) (h : heap) : heap :=
  Heap bottom (u32 (bottom + size)) (last_alloc h) (mem h).

Definition malloc_dispose (h : heap) : heap := Heap 0 (malloc_top h) 0 (mem h).

(** [(p + 3) & ~3] *)
Definition align4 (p : Z) : Z := Z.land (u32 (p + 3)) (Z.lnot 3).

Definition malloc (size : Z) (h : heap) : Z * heap :=
  if malloc_ptr h =? 0 then (0, h)
  else if malloc_top h <? u32 (malloc_ptr h + size + 4) then (0, h)
  else
    let caddr := u32 (malloc_ptr h + 4) in
    (caddr, Heap (align4 (u32 (malloc_ptr h + (size + 4)))) (malloc_top h) caddr
                 (mem_store (mem h) (malloc_ptr h) (put_be32 size))).

(** the status and the pointer stored through [memptr] when there is one *)
Definition posix_memalign (alignment size : Z) (h : heap) : Z * option Z * heap :=
  if malloc_ptr h =? 0 then (EINVAL, None, h)
  else
    let alignment := if alignment <? 4 then 4 else alignment in
    if negb (alignment `mod` 4 =? 0) || negb (Z.land (alignment - 1) alignment =? 0)
    then (EINVAL, None, h)
    else if size =? 0 then (0, Some 0, h)
    else
      let base := u32 (malloc_ptr h + 4) in
      let caddr := Z.land (u32 (base + (alignment - 1))) (Z.lnot (alignment - 1)) in
      let alloc_size := u32 (size + (caddr - base)) in
      if malloc_top h <? u32 (malloc_ptr h + alloc_size + 4) then (ENOMEM, None, h)
      else
        (0, Some caddr,
         Heap (align4 (u32 (malloc_ptr h + (alloc_size + 4)))) (malloc_top h) caddr
              (mem_store (mem h) (u32 (caddr - 4)) (put_be32 size))).

Definition realloc (oaddr size : Z) (h : heap) : Z * heap :=
  if malloc_ptr h =? 0 then (0, h)
  else if oaddr =? last_alloc h then
    if malloc_top h <? u32 (oaddr + size) then (0, h)
    else (oaddr, Heap (u32 (oaddr + size)) (malloc_top h) (last_alloc h)
                      (mem_store (mem h) (u32 (oaddr - 4)) (put_be32 size)))
  else
    let '(caddr, h) := malloc size h in
    if negb (caddr =? 0) && negb (oaddr =? 0) then
      let n := load_word (mem h) (oaddr - 4) in
      (caddr, Heap (malloc_ptr h) (malloc_top h) (last_alloc h)
                   (mem_store (mem h) caddr (mem_load (mem h) oaddr (Z.to_nat n))))
    else (caddr, h).

Definition free (m : Z) (h : heap) : heap :=
  if malloc_ptr h =? 0 then h
  else if m =? last_alloc h then
    Heap (u32 (last_alloc h - 4)) (malloc_top h) (last_alloc h) (mem h)
  else h.

Definition mark (h : heap) : option Z :=
  if malloc_ptr h =? 0 then None else Some (malloc_ptr h).

Definition release (p : Z) (h : heap) : heap :=
  if malloc_ptr h =? 0 then h else Heap p (malloc_top h) (last_alloc h) (mem h).

Definition strdup (str : list Z) (h : heap) : Z * heap :=
  let '(p, h) := malloc (u32 (strlen str + 1)) h in
  if p =? 0 then (p, h)
  else (p, Heap (malloc_ptr h) (malloc_top h) (last_alloc h) (mem_store (mem h) p (strcpy str))).

(** ** Memory lemmas *)

Lemma mem_store_other m a l x :
  x < a ∨ a + Z.of_nat (length l) <= x → mem_store m a l x = m x.
Proof.
  intros H. unfold mem_store.
  destruct (Z.leb_spec a x), (Z.ltb_spec x (a + Z.of_nat (length l))); simpl; done || lia.
Qed.

Lemma mem_store_in m a l x : a <= x < a + Z.of_nat (length l) →
  mem_store m a l x = byte_at l (x - a).
Proof.
  intros H. unfold mem_store.
  destruct (Z.leb_spec a x), (Z.ltb_spec x (a + Z.of_nat (length l))); simpl; done || lia.
Qed.

Lemma length_mem_load m a n : length (mem_load m a n) = n.
Proof. unfold mem_load. by rewrite length_map, length_seq. Qed.

Lemma mem_load_store m a l : mem_load (mem_store m a l) a (length l) = l.
Proof.
  apply nth_ext with (d := 0) (d' := 0); [apply length_mem_load|].
  intros i Hi. rewrite length_mem_load in Hi. unfold mem_load.
  rewrite nth_indep with (d' := (λ i, mem_store m a l (a + Z.of_nat i)) 0%nat)
    by (rewrite length_map, length_seq; lia).
  rewrite (map_nth (λ i, mem_store m a l (a + Z.of_nat i))), seq_nth by done.
  rewrite mem_store_in by lia. unfold byte_at.
  destruct (Z.ltb_spec (a + Z.of_nat (0 + i) - a) 0); [lia|]. f_equal. lia.
Qed.

Lemma mem_load_ext m m' a n :
  (∀ x, a <= x < a + Z.of_nat n → m x = m' x) → mem_load m a n = mem_load m' a n.
Proof.
  intros H. unfold mem_load. apply map_ext_in. intros i Hi. apply in_seq in Hi. apply H. lia.
Qed.

Lemma align4_spec p : 0 <= p → p + 3 < 4294967296 →
  p <= align4 p <= p + 3 ∧ align4 p `mod` 4 = 0.
Proof.
  intros H0 H1. unfold align4. rewrite u32_small by lia.
  rewrite <- Z.ldiff_land. change (Z.ldiff (p + 3) 3) with (Z.ldiff (p + 3) (Z.ones 2)).
  rewrite Z.ldiff_ones_r, Z.shiftl_mul_pow2, Z.shiftr_div_pow2 by lia.
  change (2 ^ 2) with 4. rewrite Z.mod_mul by lia.
  Z.div_mod_to_equations. lia.
Qed.

(** a store elsewhere does not change what is loaded *)
Lemma mem_load_store_other m a l c n : c + Z.of_nat n <= a ∨ a + Z.of_nat (length l) <= c →
  mem_load (mem_store m a l) c n = mem_load m c n.
Proof. intros H. apply mem_load_ext. intros x Hx. apply mem_store_other. lia. Qed.

Lemma load_word_store m a z : 0 <= z < 4294967296 → load_word (mem_store m a (put_be32 z)) a = z.
Proof.
  intros Hz. unfold load_word. change 4%nat with (length (put_be32 z)). rewrite mem_load_store.
  pose proof (be32_put z [] Hz) as E. by rewrite app_nil_r in E.
Qed.

Lemma mem_load_take m a n k : (n <= k)%nat → mem_load m a n = take n (mem_load m a k).
Proof.
  intros H. unfold mem_load. replace k with (n + (k - n))%nat by lia. rewrite seq_app, map_app.
  rewrite take_app_length'; [done|]. by rewrite length_map, length_seq.
Qed.

(** ** Use of the allocator, as a step relation

    [w_live] are the blocks in use, with their sizes.  A client frees and reallocates the
    blocks it owns, or NULL once something was allocated, and writes to its blocks between
    the calls. *)

Record world := World { w_heap : heap; w_live : list (Z * Z) }.

Definition remove_block (a : Z) (live : list (Z * Z)) : list (Z * Z) :=
  filter (λ b, b.1 ≠ a) live.

(** a block granted, or none for NULL *)
Definition grant (p size : Z) (live : list (Z * Z)) : list (Z * Z) := if p =? 0 then live else (p, size) :: live.

(** [a] is a block of [old] bytes, or NULL *)
Definition owned (h : heap) (live : list (Z * Z)) (a old : Z) : Prop :=
  (a, old) ∈ live ∨ a = 0 ∧ old = 0 ∧ last_alloc h ≠ 0.

(** no sum of the allocator wraps *)
Definition no_wrap (h : heap) (size : Z) : Prop := 0 <= size ∧ malloc_ptr h + size + 8 < 4294967296.

Section steps.
Context (bottom : Z).

(** the calls, whatever they return *)
Inductive call : world → world → Prop :=
| call_malloc h live size p h' :
    no_wrap h size → malloc size h = (p, h') →
    call (World h live) (World h' (grant p size live))
| call_memalign h live alignment size r p h' :
    0 <= alignment < 2147483648 → no_wrap h (size + alignment + 8) → 0 <= size →
    posix_memalign alignment size h = (r, p, h') →
    call (World h live) (World h' (grant (default 0 p) size live))
| call_realloc h live a old size p h' :
    owned h live a old → no_wrap h size →
    realloc a size h = (p, h') →
    call (World h live) (World h' (if p =? 0 then live else (p, size) :: remove_block a live))
| call_free h live a old :
    owned h live a old →
    call (World h live) (World (free a h) (remove_block a live))
| call_strdup h live str p h' :
    cstr_ok str → no_wrap h (Z.of_nat (length str) + 1) → strdup str h = (p, h') →
    call (World h live) (World h' (grant p (Z.of_nat (length str) + 1) live))
| call_release h live p :
    bottom <= p <= malloc_ptr h →
    call (World h live) (World (release p h) (filter (λ b, b.1 + b.2 <= p) live)).

Inductive step : world → world → Prop :=
| step_call w w' : call w w' → step w w'
| step_write h live a n i l :
    (a, n) ∈ live → 0 <= i → i + Z.of_nat (length l) <= n →
    step (World h live)
      (World (Heap (malloc_ptr h) (malloc_top h) (last_alloc h) (mem_store (mem h) (a + i) l)) live).

(** blocks with their headers do not overlap *)
Definition disjoint_blocks (b c : Z * Z) : Prop :=
  b.1 + b.2 <= c.1 - 4 ∨ c.1 + c.2 <= b.1 - 4.

Context (top : Z).

(** every live block is in the pool, below the bump pointer, behind its size, and apart from
    the others; the last block is on top *)
Record heap_ok (w : world) : Prop := HeapOk {
  ok_ptr : bottom <= malloc_ptr (w_heap w) < 4294967296;
  ok_pool : malloc_top (w_heap w) = top;
  ok_last_range : 0 <= last_alloc (w_heap w) < 4294967296;
  ok_block b : b ∈ w_live w →
    bottom + 4 <= b.1 ∧ 0 <= b.2 ∧ b.1 + b.2 <= malloc_ptr (w_heap w) ∧ b.1 + b.2 <= top;
  ok_header b : b ∈ w_live w → load_word (mem (w_heap w)) (b.1 - 4) = b.2;
  ok_last : w_live w ≠ [] → bottom + 4 <= last_alloc (w_heap w);
  ok_top b : b ∈ w_live w → b.1 ≠ last_alloc (w_heap w) →
    b.1 + b.2 <= last_alloc (w_heap w) - 4;
  ok_disjoint : ForallOrdPairs disjoint_blocks (w_live w);
}.

Context (Hbottom : 0 < bottom).

Lemma filter_pairs {A} (R : A → A → Prop) (P : A → Prop) `{!∀ x, Decision (P x)} (l : list A) :
  ForallOrdPairs R l → ForallOrdPairs R (filter P l).
Proof.
  induction 1 as [|b l Hb Hl IH]; [constructor|].
  rewrite filter_cons. destruct (decide (P b)); [|done]. constructor; [|done].
  rewrite List.Forall_forall in *. intros c Hc. apply Hb.
  apply list_elem_of_In in Hc. apply list_elem_of_In. by apply list_elem_of_filter in Hc as [_ ?].
Qed.

Lemma remove_block_in a live b : b ∈ remove_block a live ↔ b ∈ live ∧ b.1 ≠ a.
Proof. unfold remove_block. rewrite list_elem_of_filter. tauto. Qed.

(** fewer blocks *)
Lemma heap_ok_filter h live (P : Z * Z → Prop) `{!∀ x, Decision (P x)} :
  heap_ok (World h live) → heap_ok (World h (filter P live)).
Proof.
  intros [Hp Htop Hlr Hb Hh Hl Ht Hd]. cbn [w_heap w_live] in *.
  split; cbn [w_heap w_live]; [done..| | | | |by apply filter_pairs].
  - intros b [_ Hin]%list_elem_of_filter. by apply Hb.
  - intros b [_ Hin]%list_elem_of_filter. by apply Hh.
  - intros Hne. apply Hl. by intros ->.
  - intros b [_ Hin]%list_elem_of_filter. by apply Ht.
Qed.

(** a block added on top of the pool; nothing below is written *)
Lemma heap_ok_push h live p size h' :
  heap_ok (World h live) → malloc_ptr h + 4 <= p → 0 <= size →
  p + size <= malloc_ptr h' < 4294967296 → p + size <= top → malloc_top h' = malloc_top h → last_alloc h' = p →
  (∀ x, x < malloc_ptr h → mem h' x = mem h x) → load_word (mem h') (p - 4) = size →
  heap_ok (World h' ((p, size) :: live)).
Proof.
  intros [Hp Htop Hlr Hb Hh Hl Ht Hd] Hge Hs Hend Hin Ht' Hlast Hmem Hword. cbn [w_heap w_live] in *.
  split; cbn [w_heap w_live]; [lia|by rewrite Ht'|lia| | |lia| |].
  - intros b Hel. apply elem_of_cons in Hel as [->|Hel]; cbn [fst snd]; [lia|].
    destruct (Hb b Hel). lia.
  - intros b Hel. apply elem_of_cons in Hel as [->|Hel]; [done|]. rewrite <- (Hh b Hel).
    destruct (Hb b Hel) as (? & ? & ? & ?). unfold load_word. f_equal. apply mem_load_ext. intros x Hx. apply Hmem. lia.
  - intros b Hel Hne. apply elem_of_cons in Hel as [->|Hel]; cbn [fst snd] in *; [lia|].
    destruct (Hb b Hel). lia.
  - constructor; [|done]. apply List.Forall_forall. intros c Hc.
    apply list_elem_of_In, Hb in Hc. unfold disjoint_blocks. cbn [fst snd]. lia.
Qed.

(** a write to blocks that are in use, other than to headers *)
Lemma heap_ok_write h live a n i l : heap_ok (World h live) → (a, n) ∈ live → 0 <= i → i + Z.of_nat (length l) <= n →
  heap_ok (World (Heap (malloc_ptr h) (malloc_top h) (last_alloc h) (mem_store (mem h) (a + i) l)) live).
Proof.
  intros [Hp Htop Hlr Hb Hh Hl Ht Hd] Hin Hi Hn. cbn [w_heap w_live] in *. split; try done. cbn [w_heap w_live mem].
  intros b Hel. rewrite <- (Hh b Hel). unfold load_word. f_equal. apply mem_load_store_other.
  destruct (decide (b = (a, n))) as [->|Hne]; [cbn; lia|].
  assert (disjoint_blocks b (a, n) ∨ disjoint_blocks (a, n) b) as Hdis.
  { destruct (ForallOrdPairs_In Hd b (a, n)) as [?|?]; [by apply list_elem_of_In..|done|done]. }
  destruct (Hb b Hel) as (? & ? & ? & ?). unfold disjoint_blocks in Hdis. cbn [fst snd] in Hdis. lia.
Qed.

(** [h'] is [h] with a block of [size] bytes on top *)
Record grown (h h' : heap) (p size : Z) : Prop := Grown {
  gr_above : malloc_ptr h + 4 <= p;
  gr_last : last_alloc h' = p;
  gr_ptr : p + size <= malloc_ptr h' < 4294967296;
  gr_fits : p + size <= malloc_top h;
  gr_top : malloc_top h' = malloc_top h;
  gr_mem : mem h' = mem_store (mem h) (p - 4) (put_be32 size);
}.

Lemma malloc_inv size h p h' : 0 < malloc_ptr h → no_wrap h size → malloc size h = (p, h') →
  (p = 0 ∧ h' = h ∧ malloc_top h < malloc_ptr h + size + 4) ∨ (0 < p ∧ grown h h' p size).
Proof.
  intros H0 [Hs Hr]. unfold malloc. destruct (Z.eqb_spec (malloc_ptr h) 0); [lia|].
  rewrite !u32_small by lia.
  destruct (Z.ltb_spec (malloc_top h) (malloc_ptr h + size + 4)); intros [= <- <-]; [by left|right].
  pose proof (align4_spec (malloc_ptr h + (size + 4)) ltac:(lia) ltac:(lia)).
  split; [lia|]. split; cbn; try lia; try done. f_equal. lia.
Qed.

Lemma memalign_round base k : 0 <= k < 31 → 0 <= base → base + 2 ^ k < 4294967296 →
  base <= Z.land (u32 (base + (2 ^ k - 1))) (Z.lnot (2 ^ k - 1)) <= base + (2 ^ k - 1).
Proof.
  intros Hk Hb Hr. assert (0 < 2 ^ k) by (apply Z.pow_pos_nonneg; lia).
  rewrite u32_small by lia. rewrite <- Z.ldiff_land.
  replace (Z.ldiff (base + (2 ^ k - 1)) (2 ^ k - 1))
    with (Z.ldiff (base + (2 ^ k - 1)) (Z.ones k)) by (rewrite Z.ones_equiv; f_equal; lia).
  rewrite Z.ldiff_ones_r, Z.shiftl_mul_pow2, Z.shiftr_div_pow2 by lia.
  pose proof (Z.div_mod (base + (2 ^ k - 1)) (2 ^ k) ltac:(lia)).
  pose proof (Z.mod_pos_bound (base + (2 ^ k - 1)) (2 ^ k) ltac:(lia)). lia.
Qed.

(** what passes the test is a power of two *)
Lemma land_pred_pow2 a : 0 < a → Z.land (a - 1) a = 0 → a = 2 ^ Z.log2 a.
Proof.
  intros Ha Hl. destruct (Z.log2_spec a Ha) as [H1 H2]. pose proof (Z.log2_nonneg a).
  destruct (Z.eq_dec a (2 ^ Z.log2 a)) as [|Hne]; [done|exfalso].
  assert (Z.log2 (a - 1) = Z.log2 a) as E by (apply Z.log2_unique; lia).
  pose proof (Z.bit_log2 a Ha) as B1. assert (0 < 2 ^ Z.log2 a) by (apply Z.pow_pos_nonneg; lia).
  pose proof (Z.bit_log2 (a - 1) ltac:(lia)) as B2. rewrite E in B2.
  pose proof (f_equal (λ z, Z.testbit z (Z.log2 a)) Hl) as B. cbn beta in B. by rewrite Z.land_spec, B1, B2, Z.bits_0 in B.
Qed.

Lemma memalign_inv alignment size h r p h' : 0 < malloc_ptr h → 0 <= alignment < 2147483648 → 0 <= size →
  no_wrap h (size + alignment + 8) → posix_memalign alignment size h = (r, p, h') →
  (default 0 p = 0 ∧ h' = h) ∨ (∃ q, p = Some q ∧ 0 < q ∧ grown h h' q size).
Proof.
  intros H0 Ha Hs [_ Hr]. unfold posix_memalign. destruct (Z.eqb_spec (malloc_ptr h) 0); [lia|].
  set (al := if alignment <? 4 then 4 else alignment).
  assert (0 < al <= alignment + 4) as Hal by (unfold al; destruct (Z.ltb_spec alignment 4); lia).
  assert (al < 2147483648) as Hmax by (unfold al; destruct (Z.ltb_spec alignment 4); lia).
  destruct (negb (al mod 4 =? 0) || _) eqn:Ebad; [intros [= <- <- <-]; by left|].
  apply orb_false_iff in Ebad as [_ Hp%negb_false_iff%Z.eqb_eq]. apply land_pred_pow2 in Hp; [|lia].
  assert (0 <= Z.log2 al < 31) as Hk by (split; [apply Z.log2_nonneg|apply Z.log2_lt_pow2; lia]).
  destruct (Z.eqb_spec size 0); [intros [= <- <- <-]; by left|].
  rewrite (u32_small (malloc_ptr h + 4)) by lia.
  pose proof (memalign_round (malloc_ptr h + 4) (Z.log2 al) Hk ltac:(lia) ltac:(lia)) as Hround. rewrite <- Hp in Hround.
  set (caddr := Z.land (u32 _) _) in *. clearbody caddr.
  rewrite (u32_small (size + (caddr - (malloc_ptr h + 4)))) by lia.
  destruct (Z.ltb_spec (malloc_top h) (u32 (malloc_ptr h + (size + (caddr - (malloc_ptr h + 4))) + 4))) as [|Hfit];
    intros [= <- <- <-]; [by left|right].
  rewrite u32_small in Hfit by lia. rewrite (u32_small (malloc_ptr h + _)) by lia.
  pose proof (align4_spec (malloc_ptr h + (size + (caddr - (malloc_ptr h + 4)) + 4)) ltac:(lia) ltac:(lia)).
  rewrite (u32_small (caddr - 4)) by lia. exists caddr. split; [done|]. split; [lia|]. split; cbn; try lia; done.
Qed.

Lemma grown_below h h' p size x : grown h h' p size → x < malloc_ptr h → mem h' x = mem h x.
Proof. intros Hg Hx. rewrite (gr_mem _ _ _ _ Hg). apply mem_store_other. pose proof (gr_above _ _ _ _ Hg). lia. Qed.

(** [realloc] fails, resizes the last block in place, or moves the block *)
Lemma realloc_inv live a old size h p h' : heap_ok (World h live) → owned h live a old → no_wrap h size →
  realloc a size h = (p, h') →
  (p = 0 ∧ h' = h) ∨
  (p = a ∧ (a, old) ∈ live ∧ a = last_alloc h ∧ a + size <= top ∧
   h' = Heap (a + size) (malloc_top h) (last_alloc h) (mem_store (mem h) (a - 4) (put_be32 size))) ∨
  (a ≠ last_alloc h ∧ 0 < p ∧ ∃ h1, grown h h1 p size ∧
   h' = if a =? 0 then h1
        else Heap (malloc_ptr h1) (malloc_top h1) (last_alloc h1) (mem_store (mem h1) p (mem_load (mem h1) a (Z.to_nat old)))).
Proof.
  intros Hok Ho Hs. pose proof Hok as [Hp Htop Hlr Hb Hh Hl Ht Hd]. cbn [w_heap w_live] in *.
  unfold realloc. destruct (Z.eqb_spec (malloc_ptr h) 0); [lia|]. destruct (Z.eqb_spec a (last_alloc h)) as [Ea|Hne].
  - assert ((a, old) ∈ live) as Hin by (destruct Ho as [?|(-> & _ & ?)]; [done|congruence]).
    destruct (Hb _ Hin) as (? & ? & ? & ?). cbn [fst snd] in *. destruct Hs as [Hs Hr]. rewrite !u32_small by lia.
    destruct (Z.ltb_spec (malloc_top h) (a + size)); intros [= <- <-]; [by left|right; left].
    repeat split; [done|done|lia].
  - destruct (malloc size h) as [q h1] eqn:E. apply malloc_inv in E as [(-> & -> & _)|[Hq Hg]]; [| |lia|done].
    + intros [= <- <-]. by left.
    + rewrite (proj2 (Z.eqb_neq q 0)) by lia. cbn [negb andb]. intros E. right; right. split; [done|].
      destruct (Z.eqb_spec a 0) as [->|Ha]; cbn [negb] in E; injection E as <- <-; (split; [done|]); exists h1; (split; [done|]); [done|].
      destruct Ho as [Hin|(? & _)]; [|done]. destruct (Hb _ Hin) as (? & ? & ? & ?). pose proof (Hh _ Hin) as Hw. cbn [fst snd] in *.
      assert (load_word (mem h1) (a - 4) = old) as <-; [|done]. rewrite <- Hw. unfold load_word. f_equal.
      apply mem_load_ext. intros x Hx. apply (grown_below _ _ _ _ _ Hg). lia.
Qed.

(** a block on top of the pool, with anything written to it *)
Lemma heap_ok_grown h live p size h' m : heap_ok (World h live) → grown h h' p size → 0 <= size →
  (∀ x, x < p → m x = mem h' x) → heap_ok (World (Heap (malloc_ptr h') (malloc_top h') (last_alloc h') m) ((p, size) :: live)).
Proof.
  intros Hok Hg Hs Hm. pose proof Hg as [H1 H2 H3 H4 H5 H6]. pose proof (ok_pool _ Hok). pose proof (ok_ptr _ Hok). cbn [w_heap] in *.
  eapply heap_ok_push; cbn [malloc_ptr malloc_top last_alloc mem]; [exact Hok|done|done|done|lia|done|done| |].
  - intros x Hx. rewrite Hm by lia. by eapply grown_below.
  - rewrite <- (load_word_store (mem h) (p - 4) size) by lia. rewrite <- H6. unfold load_word. f_equal. apply mem_load_ext.
    intros x Hx. apply Hm. lia.
Qed.

(** the last block resized in place *)
Lemma heap_ok_resize h live a old size : heap_ok (World h live) → (a, old) ∈ live → a = last_alloc h → 0 <= size →
  a + size <= top → top < 4294967296 →
  heap_ok (World (Heap (a + size) (malloc_top h) (last_alloc h) (mem_store (mem h) (a - 4) (put_be32 size)))
    ((a, size) :: remove_block a live)).
Proof.
  intros [Hp Htop Hlr Hb Hh Hl Ht Hd] Hin Ea Hs Hfit Hmax. cbn [w_heap w_live] in *.
  destruct (Hb _ Hin) as (H1 & H2 & H3 & _). cbn [fst snd] in *.
  split; cbn [w_heap w_live malloc_ptr malloc_top last_alloc mem]; [lia|done|lia| | |lia| |].
  - intros b [->|[Hel Hne]%remove_block_in]%elem_of_cons; cbn [fst snd]; [lia|].
    destruct (Hb b Hel). specialize (Ht b Hel). lia.
  - intros b [->|[Hel Hne]%remove_block_in]%elem_of_cons; cbn [fst snd]; [apply load_word_store; lia|].
    rewrite <- (Hh b Hel). unfold load_word. f_equal. apply mem_load_store_other.
    destruct (Hb b Hel) as (? & ? & _). specialize (Ht b Hel). lia.
  - intros b [->|[Hel Hne]%remove_block_in]%elem_of_cons; [done|]. by apply Ht.
  - constructor; [|by apply filter_pairs]. apply List.Forall_forall. intros c Hc.
    apply list_elem_of_In, remove_block_in in Hc as [Hel Hne].
    specialize (Ht c Hel). unfold disjoint_blocks. cbn [fst snd]. lia.
Qed.

(** a block given back *)
Lemma heap_ok_free h live a old : heap_ok (World h live) → owned h live a old →
  heap_ok (World (free a h) (remove_block a live)).
Proof.
  intros Hok Ho. pose proof Hok as [Hp Htop Hlr Hb Hh Hl Ht Hd]. cbn [w_heap w_live] in *.
  unfold free. destruct (Z.eqb_spec (malloc_ptr h) 0); [lia|].
  destruct (Z.eqb_spec a (last_alloc h)) as [->|Hne]; [|by apply heap_ok_filter].
  destruct Ho as [Hin|(? & _ & ?)]; [|congruence]. destruct (Hb _ Hin) as (? & ? & ? & _). cbn [fst snd] in *.
  destruct (heap_ok_filter h live (λ b, b.1 ≠ last_alloc h) Hok) as [_ _ _ Hb' Hh' Hl' Ht' Hd']. cbn [w_heap w_live] in *.
  rewrite u32_small by lia. split; cbn [w_heap w_live malloc_ptr malloc_top last_alloc mem]; try done; [lia|].
  intros b Hel. destruct (Hb' b Hel) as (? & ? & ? & ?). apply remove_block_in in Hel as [Hel Hn]. specialize (Ht b Hel Hn). lia.
Qed.

Lemma call_ok w w' : top < 4294967296 → heap_ok w → call w w' → heap_ok w'.
Proof.
  intros Hmax Hok Hcall. destruct Hcall as
    [h live size p h' Hs E|h live al size r p h' Hal Hs H0 E|h live a old size p h' Ho Hs E
    |h live a old Ho|h live str p h' Hstr Hs E|h live p Hp];
    pose proof (ok_ptr _ Hok) as Hptr; cbn [w_heap] in Hptr.
  - destruct (malloc_inv size h p h' ltac:(lia) Hs E) as [(-> & -> & _)|[Hq Hg]]; unfold grant; [done|].
    rewrite (proj2 (Z.eqb_neq p 0)) by lia. destruct h'. by apply (heap_ok_grown h live p size _ _ Hok Hg); [apply Hs|].
  - destruct (memalign_inv al size h r p h' ltac:(lia) Hal H0 Hs E) as [(-> & ->)|(q & -> & Hq & Hg)]; unfold grant; cbn [default]; [done|].
    cbn. rewrite (proj2 (Z.eqb_neq q 0)) by lia. destruct h'. by apply (heap_ok_grown h live q size _ _ Hok Hg).
  - destruct (realloc_inv _ _ _ _ _ _ _ Hok Ho Hs E) as [(-> & ->)|[(-> & Hin & Ea & Hfit & ->)|(Hne & Hq & h1 & Hg & ->)]]; [done| |].
    + destruct (ok_block _ Hok _ Hin) as (? & _). cbn [fst] in *. rewrite (proj2 (Z.eqb_neq a 0)) by lia.
      eapply heap_ok_resize; try done. apply Hs.
    + rewrite (proj2 (Z.eqb_neq p 0)) by lia.
      pose proof (heap_ok_filter h live (λ b, b.1 ≠ a) Hok) as Hok'.
      destruct (a =? 0).
      * destruct h1. by apply (heap_ok_grown h _ p size _ _ Hok' Hg); [apply Hs|].
      * apply (heap_ok_grown h _ p size _ _ Hok' Hg); [apply Hs|]. intros x Hx. apply mem_store_other. lia.
  - by eapply heap_ok_free.
  - unfold strdup in E. pose proof (strlen_length str Hstr) as El. rewrite El in E.
    rewrite u32_small in E by (unfold no_wrap in Hs; lia).
    destruct (malloc _ h) as [q h1] eqn:E1. destruct (malloc_inv _ h q h1 ltac:(lia) Hs E1) as [(-> & -> & _)|[Hq Hg]];
      unfold grant.
    + by injection E as <- <-.
    + rewrite (proj2 (Z.eqb_neq q 0)) in E by lia. injection E as <- <-. rewrite (proj2 (Z.eqb_neq q 0)) by lia.
      apply (heap_ok_grown h live q _ _ _ Hok Hg); [lia|]. intros x Hx. apply mem_store_other. lia.
  - pose proof (heap_ok_filter h live (λ b, b.1 + b.2 <= p) Hok) as [_ Htop Hlr Hb Hh Hl Ht Hd]. cbn [w_heap w_live] in *.
    unfold release. destruct (Z.eqb_spec (malloc_ptr h) 0); [lia|].
    split; cbn [w_heap w_live malloc_ptr malloc_top last_alloc mem]; try done; [lia|].
    intros b Hel. destruct (Hb b Hel) as (? & ? & ? & ?). apply list_elem_of_filter in Hel as [? _]. lia.
Qed.

Lemma step_ok w w' : top < 4294967296 → heap_ok w → step w w' → heap_ok w'.
Proof.
  intros Hmax Hok Hstep. destruct Hstep as [w w' Hc|h live a n i l Hin Hi Hn]; [exact (call_ok w w' Hmax Hok Hc)|exact (heap_ok_write h live a n i l Hok Hin Hi Hn)].
Qed.
(** no call writes to a block in use *)
Lemma call_keeps w w' b x : top < 4294967296 → heap_ok w → call w w' → b ∈ w_live w → b.1 <= x < b.1 + b.2 →
  mem (w_heap w') x = mem (w_heap w) x.
Proof.
  intros Hmax Hok Hcall Hin Hx. destruct (ok_block _ Hok b Hin) as (Hb1 & Hb2 & Hb3 & Hb4).
  pose proof (ok_ptr _ Hok) as Hptr. destruct Hcall as
    [h live size p h' Hs E|h live al size r p h' Hal Hs H0 E|h live a old size p h' Ho Hs E
    |h live a old Ho|h live str p h' Hstr Hs E|h live p Hp]; cbn [w_heap w_live] in *.
  - destruct (malloc_inv size h p h' ltac:(lia) Hs E) as [(_ & -> & _)|[_ Hg]]; [done|]. apply (grown_below _ _ _ _ _ Hg). lia.
  - destruct (memalign_inv al size h r p h' ltac:(lia) Hal H0 Hs E) as [(_ & ->)|(q & _ & _ & Hg)]; [done|].
    apply (grown_below _ _ _ _ _ Hg). lia.
  - destruct (realloc_inv _ _ _ _ _ _ _ Hok Ho Hs E) as [(_ & ->)|[(_ & Hia & Ea & Hfit & ->)|(Hne & Hq & h1 & Hg & ->)]]; [done| |].
    + apply mem_store_other. change (Z.of_nat (length (put_be32 size))) with 4. destruct (decide (b.1 = a)); [lia|].
      pose proof (ok_top _ Hok b Hin ltac:(cbn; congruence)) as Ht. cbn in Ht |- *. lia.
    + pose proof (gr_above _ _ _ _ Hg). destruct (a =? 0); [apply (grown_below _ _ _ _ _ Hg); lia|]. cbn.
      rewrite mem_store_other by lia. apply (grown_below _ _ _ _ _ Hg). lia.
  - unfold free. by repeat case_match.
  - unfold strdup in E. pose proof (strlen_length str Hstr) as El. rewrite El in E.
    rewrite u32_small in E by (unfold no_wrap in Hs; lia).
    destruct (malloc _ h) as [q h1] eqn:E1. destruct (malloc_inv _ h q h1 ltac:(lia) Hs E1) as [(-> & -> & _)|[Hq Hg]].
    + by injection E as <- <-.
    + rewrite (proj2 (Z.eqb_neq q 0)) in E by lia. injection E as <- <-. cbn. pose proof (gr_above _ _ _ _ Hg).
      rewrite mem_store_other by lia. apply (grown_below _ _ _ _ _ Hg). lia.
  - unfold release. by case_match.
Qed.

(** what [realloc] returns starts with what the block held *)
Lemma realloc_contents live a old n p h h' : top < 4294967296 → heap_ok (World h live) → (a, old) ∈ live → no_wrap h n →
  realloc a n h = (p, h') → p ≠ 0 →
  mem_load (mem h') p (Z.to_nat (Z.min old n)) = mem_load (mem h) a (Z.to_nat (Z.min old n)).
Proof.
  intros Hmax Hok Hin Hn E Hp. destruct (ok_block _ Hok _ Hin) as (Hb1 & Hb2 & Hb3 & Hb4). cbn [fst snd w_heap] in *.
  pose proof (ok_ptr _ Hok) as Hptr. cbn [w_heap] in Hptr.
  destruct (realloc_inv _ _ _ _ _ _ _ Hok (or_introl Hin) Hn E)
    as [(-> & _)|[(-> & _ & Ea & Hfit & ->)|(Hne & Hq & h1 & Hg & ->)]]; [done| |].
  - apply mem_load_store_other. change (Z.of_nat (length (put_be32 n))) with 4. lia.
  - rewrite (proj2 (Z.eqb_neq a 0)) by lia. cbn.
    rewrite (mem_load_take (mem_store _ _ _) p _ (Z.to_nat old)), (mem_load_take (mem h) a _ (Z.to_nat old)) by lia. f_equal.
    pose proof (mem_load_store (mem h1) p (mem_load (mem h1) a (Z.to_nat old))) as ->%(eq_trans (f_equal _ (eq_sym (length_mem_load _ _ _)))).
    apply mem_load_ext. intros x Hx. apply (grown_below _ _ _ _ _ Hg). lia.
Qed.

Lemma strdup_contents live str p h h' : heap_ok (World h live) → cstr_ok str →
  no_wrap h (Z.of_nat (length str) + 1) → strdup str h = (p, h') → p ≠ 0 →
  mem_load (mem h') p (length str + 1) = str ++ [0].
Proof.
  intros Hok Hstr Hs E Hp. pose proof (ok_ptr _ Hok) as Hptr. cbn [w_heap] in Hptr.
  unfold strdup in E. rewrite (strlen_length str Hstr) in E. rewrite u32_small in E by (unfold no_wrap in Hs; lia).
  destruct (malloc _ h) as [q h1] eqn:E1. destruct (Z.eqb_spec q 0); injection E as <- <-; [done|]. cbn.
  unfold strcpy. rewrite cstring_id by done. replace (length str + 1)%nat with (length (str ++ [0])) by (rewrite length_app; simpl; lia).
  apply mem_load_store.
Qed.
End steps.

(** ** What the allocator promises *)

(** the state after [malloc_init] on a pool, nothing allocated *)
Definition initial (bottom size : Z) (m : memory) : world :=
  World (malloc_init bottom size (Heap 0 0 0 m)) [].

Lemma initial_ok bottom size m : 0 < bottom → 0 <= size → bottom + size < 4294967296 →
  heap_ok bottom (bottom + size) (initial bottom size m).
Proof.
  intros Hb Hs Hr. unfold initial, malloc_init. rewrite u32_small by lia.
  split; cbn; [lia|done|lia|by intros ? ?%elem_of_nil|by intros ? ?%elem_of_nil|done|by intros ? ?%elem_of_nil|constructor].
Qed.

Lemma reachable_ok bottom size m w : 0 < bottom → 0 <= size → bottom + size < 4294967296 →
  rtc (step bottom) (initial bottom size m) w → heap_ok bottom (bottom + size) w.
Proof.
  intros Hb Hs Hr. generalize (initial_ok bottom size m Hb Hs Hr). intros Hok Hw.
  induction Hw as [|w1 w2 w3 H12 _ IH]; [done|]. apply IH. by eapply step_ok.
Qed.

(** [malloc] says no exactly when the block and its header do not fit *)
Lemma malloc_null_iff n h : 0 < malloc_ptr h → no_wrap h n →
  (malloc n h).1 = 0 ↔ malloc_top h < malloc_ptr h + n + 4.
Proof.
  intros H0 Hn. destruct (malloc n h) as [p h'] eqn:E. cbn.
  destruct (malloc_inv _ _ _ _ H0 Hn E) as [(-> & _ & ?)|[Hp Hg]]; [tauto|].
  destruct Hg. lia.
Qed.

(** C14: after any sequence of calls of the allocator whose address sums do not wrap, whatever
    they return, and writes of the clients to their blocks, the blocks in use lie inside the
    pool that [malloc_init] was given and below the bump pointer, each behind a word that
    holds its size, no two of them or of their size words overlap, and [malloc] returns NULL if and only if the request and
    its size word do not fit in what is left of the pool. *)
Theorem malloc_blocks_disjoint bottom size m w :
  0 < bottom → 0 <= size → bottom + size < 4294967296 →
  rtc (step bottom) (initial bottom size m) w →
  let h := w_heap w in
  ForallOrdPairs disjoint_blocks (w_live w) ∧
  (∀ b, b ∈ w_live w → bottom + 4 <= b.1 ∧ b.1 + b.2 <= bottom + size ∧
     b.1 + b.2 <= malloc_ptr h ∧ load_word (mem h) (b.1 - 4) = b.2) ∧
  (∀ n, no_wrap h n → (malloc n h).1 = 0 ↔ bottom + size < malloc_ptr h + n + 4).
Proof.
  intros Hb Hs Hr Hw h. apply reachable_ok in Hw as [Hp Htop _ Hin Hh _ _ Hd]; [|done..].
  subst h. split; [done|]. split.
  - intros b Hbl. destruct (Hin b Hbl) as (? & ? & ? & ?). by rewrite (Hh b Hbl).
  - intros n Hn. rewrite (malloc_null_iff n (w_heap w) ltac:(lia) Hn). by rewrite Htop.
Qed.

(** C34: from any state the allocator gets into by such calls, no call of it writes to a
    block that is in use before the call; the block that [realloc] returns, resized in place or moved, starts
    with the bytes of the old one; and the block of [strdup] holds the string. *)
Theorem malloc_preserves_contents bottom size m w :
  0 < bottom → 0 <= size → bottom + size < 4294967296 →
  rtc (step bottom) (initial bottom size m) w →
  let h := w_heap w in
  (∀ w' b x, call bottom w w' → b ∈ w_live w → b.1 <= x < b.1 + b.2 →
     mem (w_heap w') x = mem h x) ∧
  (∀ a old n p h', (a, old) ∈ w_live w → no_wrap h n → realloc a n h = (p, h') → p ≠ 0 →
     let k := Z.to_nat (Z.min old n) in mem_load (mem h') p k = mem_load (mem h) a k) ∧
  (∀ str p h', cstr_ok str → no_wrap h (Z.of_nat (length str) + 1) → strdup str h = (p, h') →
     p ≠ 0 → mem_load (mem h') p (length str + 1) = str ++ [0]).
Proof.
  intros Hb Hs Hr Hw h. apply reachable_ok in Hw; [|done..]. destruct w as [h0 live]. subst h. cbn [w_heap w_live] in *.
  split; [|split].
  - intros w' b x. by eapply call_keeps.
  - intros a old n p h'. by eapply realloc_contents.
  - intros str p h'. by eapply strdup_contents.
Qed.

(** two blocks, of which the first is then moved *)
Definition example_heap : heap := malloc_init 4096 1024 (Heap 0 0 0 (λ a, a `mod` 251)).
Definition example_heap2 : heap := (malloc 10 (malloc 5 example_heap).2).2.
Definition example_moved : world := World (realloc 4100 20 example_heap2).2 [(4128, 20); (4112, 10)].

Lemma example_move : call 4096 (World example_heap2 [(4112, 10); (4100, 5)]) example_moved.
Proof.
  refine (call_realloc 4096 example_heap2 [(4112, 10); (4100, 5)] 4100 5 20 4128 (realloc 4100 20 example_heap2).2 _ _ eq_refl);
    [left; by_decision|split; by_decision].
Qed.

Lemma example_two_reachable : rtc (step 4096) (initial 4096 1024 (λ a, a `mod` 251)) (World example_heap2 [(4112, 10); (4100, 5)]).
Proof.
  eapply rtc_l; [apply step_call, (call_malloc 4096 example_heap [] 5); [split; by_decision|reflexivity]|].
  eapply rtc_l; [apply step_call, (call_malloc 4096 _ _ 10); [split; by_decision|reflexivity]|].
  apply rtc_refl.
Qed.

Lemma example_moved_reachable : rtc (step 4096) (initial 4096 1024 (λ a, a `mod` 251)) example_moved.
Proof.
  eapply rtc_r; [exact example_two_reachable|].
  apply step_call, example_move.
Qed.

Lemma malloc_blocks_disjoint_witness :
  let h := w_heap example_moved in
  (4100 + 20 <= malloc_ptr h) ∧ load_word (mem h) 4124 = 20 ∧ (malloc 1000 h).1 = 0.
Proof.
  destruct (malloc_blocks_disjoint 4096 1024 (λ a, a `mod` 251) example_moved ltac:(lia) ltac:(lia) ltac:(lia)
    example_moved_reachable) as (_ & Hb & Hn).
  destruct (Hb (4128, 20) ltac:(by_decision)) as (_ & _ & H1 & H2). cbn [fst snd] in *.
  split; [lia|]. split; [exact H2|]. apply Hn; [split; by_decision|by_decision].
Defined.

Lemma malloc_preserves_contents_witness :
  mem_load (mem (realloc 4100 20 example_heap2).2) 4128 5 = [84; 85; 86; 87; 88] ∧
  mem (realloc 4100 20 example_heap2).2 4112 = mem example_heap2 4112.
Proof.
  destruct (malloc_preserves_contents 4096 1024 (λ a, a `mod` 251) _ ltac:(lia) ltac:(lia) ltac:(lia) example_two_reachable)
    as (Hk & Hr & _). split.
  - exact (Hr 4100 5 20 4128 (realloc 4100 20 example_heap2).2 ltac:(by_decision) ltac:(split; by_decision) eq_refl ltac:(lia)).
  - exact (Hk example_moved (4112, 10) 4112 example_move ltac:(by_decision) ltac:(cbn; lia)).
Defined.

(** ** Behaviour outside the theorems *)

(** the sum of pointer, size and header wraps: the size is granted and the pool pointer
    moves back *)
Example malloc_wraps : (malloc 4294967288 example_heap).1 = 4100 ∧ malloc_ptr (malloc 4294967288 example_heap).2 = 4092.
Proof. split; vm_compute; reflexivity. Qed.

(** the block after one that was resized in place *)
Example realloc_unaligned : let h := (malloc 8 example_heap).2 in (malloc 8 (realloc 4100 5 h).2).1 = 4109.
Proof. vm_compute. reflexivity. Qed.

(** before the first allocation [NULL] is the last block *)
Example null_is_last : malloc_ptr (realloc 0 10 example_heap).2 = 10 ∧ malloc_ptr (free 0 example_heap) = 4294967292.
Proof. split; vm_compute; reflexivity. Qed.

(** a block moved to a smaller one is copied whole, over the bytes behind the new block *)
Example realloc_shrink_copies : let h := (realloc 4100 1 example_heap2).2 in
  malloc_ptr h = 4132 ∧ mem_load (mem h) 4128 5 = [84; 85; 86; 87; 88].
Proof. split; vm_compute; reflexivity. Qed.
