(* ===== verification/CMem.v ===== *)
(** The memory routines of [lib/string.S]: [memset], [bcopy], [__bzero], [memcpy], [memmove]
    and [backwards_memcpy], which work on words where they can, and that they leave what a
    loop over single bytes leaves, also where source and destination overlap. *)
From S2P Require Import Prelude Malloc.

(** ** Memory

    The byte at each address ([Malloc.memory]).  A register that holds an address is an integer; the
    effective address of an access is that of the register and the displacement modulo
    [2 ^ 32], and words are big-endian. *)

Definition lbz (m : memory) (ea : Z) : Z := m (u32 ea).
Definition stb (r ea : Z) (m : memory) : memory := λ a, if a =? u32 ea then u8 r else m a.

Definition lwz (m : memory) (ea : Z) : Z :=
  lbz m ea * 16777216 + lbz m (ea + 1) * 65536 + lbz m (ea + 2) * 256 + lbz m (ea + 3).
Definition stw (r ea : Z) (m : memory) : memory :=
  stb r (ea + 3) (stb (Z.shiftr r 8) (ea + 2) (stb (Z.shiftr r 16) (ea + 1) (stb (Z.shiftr r 24) ea m))).

(** ** [memset] *)

(** [rlwimi r4,r4,8,16,23] and [rlwimi r4,r4,16,0,15] *)
Definition spread (r4 : Z) : Z :=
  let r4 := Z.lor (Z.ldiff r4 65280) (Z.land (Z.shiftl r4 8) 65280) in
  Z.lor (Z.land r4 65535) (Z.land (Z.shiftl r4 16) 4294901760).

(** label 1, [ctr] words; the result is [r6] and the memory *)
Fixpoint fill_words (ctr : nat) (r4 r6 : Z) (m : memory) : Z * memory :=
  match ctr with
  | O => (r6, m)
  | S ctr => fill_words ctr r4 (r6 + 4) (stw r4 (r6 + 4) m)
  end.

(** label 8, [ctr] bytes *)
Fixpoint fill_bytes (ctr : nat) (r4 r6 : Z) (m : memory) : memory :=
  match ctr with
  | O => m
  | S ctr => fill_bytes ctr r4 (r6 + 1) (stb r4 (r6 + 1) m)
  end.

(** label 7 *)
Definition fill_rest (r4 r5 r6 : Z) (m : memory) : memory :=
  if r5 =? 0 then m else fill_bytes (Z.to_nat r5) r4 (r6 + 3) m.

(** the first word is stored where the block starts, the others from the next multiple of
    four on; [bdz] takes one from the count before the loop *)
Definition memset (r3 r4 r5 : Z) (m : memory) : memory :=
  let r4 := spread r4 in
  let r6 := r3 - 4 in
  if r5 <? 4 then fill_rest r4 r5 r6 m
  else
    let m := stw r4 (r6 + 4) m in
    let r6 := r6 + 4 in
    if r5 =? 4 then m
    else
      let r0 := Z.land r6 3 in
      let r5 := u32 (r0 + r5) in
      let r6 := r6 - r0 in
      let '(r6, m) := fill_words (Z.to_nat (Z.shiftr r5 2 - 1)) r4 r6 m in
      fill_rest r4 (Z.land r5 3) r6 m.

Definition __bzero (r3 r4 : Z) (m : memory) : memory := memset r3 0 r4 m.

(** ** [memcpy] *)

(** label 1: [ctr] times two words *)
Fixpoint copy_words (ctr : nat) (r4 r6 : Z) (m : memory) : Z * Z * memory :=
  match ctr with
  | O => (r4, r6, m)
  | S ctr =>
      let r7 := lwz m (r4 + 4) in
      let r8 := lwz m (r4 + 8) in
      copy_words ctr (r4 + 8) (r6 + 8) (stw r8 (r6 + 8) (stw r7 (r6 + 4) m))
  end.

(** label 4, and label 6 with another displacement: [ctr] bytes *)
Fixpoint copy_bytes (ctr : nat) (d r4 r6 : Z) (m : memory) : Z * Z * memory :=
  match ctr with
  | O => (r4, r6, m)
  | S ctr => copy_bytes ctr d (r4 + 1) (r6 + 1) (stb (lbz m (r4 + d)) (r6 + d) m)
  end.

(** label 2: fewer than eight bytes *)
Definition copy_rest (r4 r5 r6 : Z) (m : memory) : memory :=
  let '(r4, r5, r6, m) :=
    if r5 <? 4 then (r4, r5, r6, m) else (r4 + 4, r5 - 4, r6 + 4, stw (lwz m (r4 + 4)) (r6 + 4) m) in
  if r5 =? 0 then m else (copy_bytes (Z.to_nat r5) 1 (r4 + 3) (r6 + 3) m).2.

(** labels 1 and 2 *)
Definition copy_aligned (r4 r5 r6 : Z) (m : memory) : memory :=
  let '(r4, r6, m) := copy_words (Z.to_nat (Z.shiftr r5 3)) r4 r6 m in copy_rest r4 (Z.land r5 7) r6 m.

Definition memcpy (r3 r4 r5 : Z) (m : memory) : memory :=
  let r6 := r3 - 4 in
  let r4 := r4 - 4 in
  if Z.shiftr r5 3 =? 0 then copy_rest r4 r5 r6 m
  else
    let r0 := Z.land r6 3 in
    if r0 =? 0 then copy_aligned r4 r5 r6 m
    else
      let r0 := 4 - r0 in
      let '(r4, r6, m) := copy_bytes (Z.to_nat r0) 4 r4 r6 m in
      let r5 := r5 - r0 in
      if Z.shiftr r5 3 =? 0 then copy_rest r4 r5 r6 m else copy_aligned r4 r5 r6 m.

Definition bcopy (r3 r4 r5 : Z) (m : memory) : memory := memcpy r4 r3 r5 m.

(** ** [backwards_memcpy] *)

Fixpoint back_words (ctr : nat) (r4 r6 : Z) (m : memory) : Z * Z * memory :=
  match ctr with
  | O => (r4, r6, m)
  | S ctr =>
      let r7 := lwz m (r4 - 4) in
      let r8 := lwz m (r4 - 8) in
      back_words ctr (r4 - 8) (r6 - 8) (stw r8 (r6 - 8) (stw r7 (r6 - 4) m))
  end.

Fixpoint back_bytes (ctr : nat) (r4 r6 : Z) (m : memory) : Z * Z * memory :=
  match ctr with
  | O => (r4, r6, m)
  | S ctr => back_bytes ctr (r4 - 1) (r6 - 1) (stb (lbz m (r4 - 1)) (r6 - 1) m)
  end.

Definition back_rest (r4 r5 r6 : Z) (m : memory) : memory :=
  let '(r4, r5, r6, m) :=
    if r5 <? 4 then (r4, r5, r6, m) else (r4 - 4, r5 - 4, r6 - 4, stw (lwz m (r4 - 4)) (r6 - 4) m) in
  if r5 =? 0 then m else (back_bytes (Z.to_nat r5) r4 r6 m).2.

Definition back_aligned (r4 r5 r6 : Z) (m : memory) : memory :=
  let '(r4, r6, m) := back_words (Z.to_nat (Z.shiftr r5 3)) r4 r6 m in back_rest r4 (Z.land r5 7) r6 m.

Definition backwards_memcpy (r3 r4 r5 : Z) (m : memory) : memory :=
  let r6 := r3 + r5 in
  let r4 := r4 + r5 in
  if Z.shiftr r5 3 =? 0 then back_rest r4 r5 r6 m
  else
    let r0 := Z.land r6 3 in
    if r0 =? 0 then back_aligned r4 r5 r6 m
    else
      let '(r4, r6, m) := back_bytes (Z.to_nat r0) r4 r6 m in
      let r5 := r5 - r0 in
      if Z.shiftr r5 3 =? 0 then back_rest r4 r5 r6 m else back_aligned r4 r5 r6 m.

Definition memmove (r3 r4 r5 : Z) (m : memory) : memory :=
  if r4 <? r3 then backwards_memcpy r3 r4 r5 m else memcpy r3 r4 r5 m.

(** ** What they are to leave

    [Malloc] and the readers of files take these routines for [mem_store] of [mem_load] and
    for operations on lists; here is what that means of each byte. *)

Definition filled (m : memory) (dst c n : Z) : memory := λ a, if (dst <=? a) && (a <? dst + n) then c else m a.
Definition copied (m : memory) (dst src n : Z) : memory :=
  λ a, if (dst <=? a) && (a <? dst + n) then m (src + (a - dst)) else m a.

Definition bytes_only (m : memory) : Prop := ∀ a, is_byte (m a).

(** ** Accesses *)

Lemma stb_at r ea m a : 0 <= ea < 4294967296 → stb r ea m a = if a =? ea then u8 r else m a.
Proof. intros Ha. unfold stb. by rewrite u32_small. Qed.

Lemma stw_at r ea m a : 0 <= ea → ea + 4 <= 4294967296 →
  stw r ea m a = if (ea <=? a) && (a <? ea + 4) then u8 (Z.shiftr r (8 * (3 - (a - ea)))) else m a.
Proof.
  intros H1 H2. unfold stw. rewrite !stb_at by lia.
  destruct (Z.leb_spec ea a), (Z.ltb_spec a (ea + 4)); cbn [andb]; repeat (case Z.eqb_spec; intros ?; try lia); try done;
    f_equal; try (f_equal; lia).
  replace (8 * (3 - (a - ea))) with 0 by lia. by rewrite Z.shiftr_0_r.
Qed.

Lemma lwz_byte m ea i : bytes_only m → 0 <= ea → ea + 4 <= 4294967296 → 0 <= i < 4 →
  u8 (Z.shiftr (lwz m ea) (8 * (3 - i))) = m (ea + i).
Proof.
  intros Hm H1 H2 Hi. unfold lwz, lbz. rewrite !u32_small by lia.
  pose proof (Hm ea). pose proof (Hm (ea + 1)). pose proof (Hm (ea + 2)). pose proof (Hm (ea + 3)). unfold is_byte in *.
  rewrite Z.shiftr_div_pow2 by lia. unfold u8.
  assert (i = 0 ∨ i = 1 ∨ i = 2 ∨ i = 3) as [-> | [-> | [-> | ->]]] by lia; [rewrite (Z.add_0_r ea)|..];
    match goal with |- context [2 ^ ?k] => let v := eval vm_compute in (2 ^ k) in change (2 ^ k) with v end;
    Z.div_mod_to_equations; lia.
Qed.

(** ** Pieces *)

(** [m'] is [m] but for the [n] bytes at [d], which are those at [s] *)
Definition moved (m m' : memory) (d s n : Z) : Prop := ∀ a, m' a = copied m d s n a.

Lemma bytes_copied m m' d s n : bytes_only m → moved m m' d s n → bytes_only m'.
Proof. intros Hm E a. rewrite E. unfold copied. by destruct (_ && _). Qed.

Ltac by_range := unfold copied; intros;
  repeat (match goal with
   | |- context [?x <=? ?y] => destruct (Z.leb_spec x y); cbn [andb]
   | |- context [?x <? ?y] => destruct (Z.ltb_spec x y); cbn [andb]
   end; try lia); try done; try (f_equal; lia).

Lemma byte_moved m d s : bytes_only m → 0 <= d < 4294967296 → 0 <= s < 4294967296 → moved m (stb (lbz m s) d m) d s 1.
Proof.
  intros Hm Hd Hs a. rewrite stb_at by done. unfold lbz. rewrite u32_small by done.
  destruct (Z.eqb_spec a d) as [->|]; [|by_range]. rewrite u8_small by apply Hm. by_range.
Qed.

Lemma word_moved m d s : bytes_only m → 0 <= d → d + 4 <= 4294967296 → 0 <= s → s + 4 <= 4294967296 →
  moved m (stw (lwz m s) d m) d s 4.
Proof.
  intros Hm Hd1 Hd2 Hs1 Hs2 a. rewrite stw_at by done. unfold copied. destruct ((d <=? a) && (a <? d + 4)) eqn:E; [|done].
  apply andb_prop in E as [?%Z.leb_le ?%Z.ltb_lt]. apply lwz_byte; (done || lia).
Qed.

(** both words are loaded before either is stored *)
Lemma words_moved m d s x y : bytes_only m → 0 <= d → d + 8 <= 4294967296 → 0 <= s → s + 8 <= 4294967296 →
  x = lwz m s → y = lwz m (s + 4) →
  moved m (stw y (d + 4) (stw x d m)) d s 8 ∧ moved m (stw x d (stw y (d + 4) m)) d s 8.
Proof.
  intros Hm Hd1 Hd2 Hs1 Hs2 -> ->. split; intros a; rewrite !stw_at by lia; unfold copied;
    repeat (match goal with
     | |- context [?x <=? ?y] => destruct (Z.leb_spec x y); cbn [andb]
     | |- context [?x <? ?y] => destruct (Z.ltb_spec x y); cbn [andb]
     end; try lia); try done; rewrite lwz_byte by (done || lia); f_equal; lia.
Qed.

(** ** Copies *)

Lemma shiftr3 r5 : Z.shiftr r5 3 = r5 / 8.
Proof. by rewrite Z.shiftr_div_pow2. Qed.
Lemma land7 r5 : Z.land r5 7 = r5 mod 8.
Proof. exact (Z.land_ones r5 3 ltac:(lia)). Qed.
Lemma land3 r5 : Z.land r5 3 = r5 mod 4.
Proof. exact (Z.land_ones r5 2 ltac:(lia)). Qed.

Section copying.
Context (m : memory) (dst src n : Z).
Context (bytes : bytes_only m) (dst_in : 0 <= dst ∧ dst + n <= 4294967296) (src_in : 0 <= src ∧ src + n <= 4294967296).

(** the bytes from number [lo] to [hi] are copied *)
Definition copied_to (m' : memory) (lo hi : Z) : Prop := moved m m' (dst + lo) (src + lo) (hi - lo).

Lemma copied_bytes m' lo hi : copied_to m' lo hi → bytes_only m'.
Proof. by apply bytes_copied. Qed.

Lemma copied_none lo : copied_to m lo lo.
Proof. intros a. by_range. Qed.

(** from the front on, when the destination is not inside the source behind its start *)
Section forward.
Context (apart : dst <= src ∨ src + n <= dst).

Lemma forward_step m' m'' k j : 0 <= k → 0 <= j → k + j <= n → copied_to m' 0 k → moved m' m'' (dst + k) (src + k) j →
  copied_to m'' 0 (k + j).
Proof.
  intros Hk Hj Hn H1 H2 a. rewrite (H2 a). unfold copied at 1. rewrite !H1. by_range.
Qed.

Lemma copy_words_ok ctr : ∀ k r4 r6 m', r4 = src + k - 4 → r6 = dst + k - 4 → 0 <= k → k + 8 * Z.of_nat ctr <= n → copied_to m' 0 k →
  ∃ m'', copy_words ctr r4 r6 m' = (r4 + 8 * Z.of_nat ctr, r6 + 8 * Z.of_nat ctr, m'') ∧ copied_to m'' 0 (k + 8 * Z.of_nat ctr).
Proof.
  induction ctr as [|ctr IH]; intros k r4 r6 m' E4 E6 Hk Hn Hm.
  - exists m'. rewrite !Z.add_0_r. by split.
  - cbn [copy_words]. destruct (words_moved m' (r6 + 4) (r4 + 4) (lwz m' (r4 + 4)) (lwz m' (r4 + 8))) as [Hw _];
      [by eapply copied_bytes|lia|lia|lia|lia|done|f_equal; lia|]. replace (r6 + 4 + 4) with (r6 + 8) in Hw by lia.
    destruct (IH (k + 8) (r4 + 8) (r6 + 8) (stw (lwz m' (r4 + 8)) (r6 + 8) (stw (lwz m' (r4 + 4)) (r6 + 4) m'))) as (m'' & E & Hm'');
      [lia|lia|lia|lia| |].
    { apply (forward_step m'); [lia|lia|lia|done|]. replace (dst + k) with (r6 + 4) by lia. by replace (src + k) with (r4 + 4) by lia. }
    exists m''. rewrite E. split; [do 2 f_equal; lia|]. by replace (k + 8 * Z.of_nat (S ctr)) with (k + 8 + 8 * Z.of_nat ctr) by lia.
Qed.

Lemma copy_bytes_ok ctr d : ∀ k r4 r6 m', r4 = src + k - d → r6 = dst + k - d → 0 <= k → k + Z.of_nat ctr <= n → copied_to m' 0 k →
  ∃ m'', copy_bytes ctr d r4 r6 m' = (r4 + Z.of_nat ctr, r6 + Z.of_nat ctr, m'') ∧ copied_to m'' 0 (k + Z.of_nat ctr).
Proof.
  induction ctr as [|ctr IH]; intros k r4 r6 m' E4 E6 Hk Hn Hm.
  - exists m'. rewrite !Z.add_0_r. by split.
  - cbn [copy_bytes].
    destruct (IH (k + 1) (r4 + 1) (r6 + 1) (stb (lbz m' (r4 + d)) (r6 + d) m')) as (m'' & E & Hm''); [lia|lia|lia|lia| |].
    { apply (forward_step m'); [lia|lia|lia|done|]. replace (dst + k) with (r6 + d) by lia. replace (src + k) with (r4 + d) by lia.
      apply byte_moved; [by eapply copied_bytes|lia|lia]. }
    exists m''. rewrite E. split; [do 2 f_equal; lia|]. by replace (k + Z.of_nat (S ctr)) with (k + 1 + Z.of_nat ctr) by lia.
Qed.

Lemma copy_rest_ok k r4 r5 r6 m' : r4 = src + k - 4 → r6 = dst + k - 4 → 0 <= k → r5 = n - k → 0 <= r5 → copied_to m' 0 k →
  copied_to (copy_rest r4 r5 r6 m') 0 n.
Proof.
  intros E4 E6 Hk E5 Hn Hm. unfold copy_rest.
  assert (∀ k r4 r5 r6 m', r4 = src + k - 4 → r6 = dst + k - 4 → 0 <= k → r5 = n - k → 0 <= r5 → copied_to m' 0 k →
    copied_to (if r5 =? 0 then m' else (copy_bytes (Z.to_nat r5) 1 (r4 + 3) (r6 + 3) m').2) 0 n) as Hbytes.
  { clear -bytes dst_in src_in apart. intros k r4 r5 r6 m' E4 E6 Hk E5 Hn Hm. destruct (Z.eqb_spec r5 0); [by replace n with k by lia|].
    destruct (copy_bytes_ok (Z.to_nat r5) 1 k (r4 + 3) (r6 + 3) m') as (m'' & -> & Hm''); [lia|lia|lia|lia|done|].
    replace (k + Z.of_nat (Z.to_nat r5)) with n in Hm'' by lia. exact Hm''. }
  destruct (Z.ltb_spec r5 4); [by apply (Hbytes k)|]. apply (Hbytes (k + 4)); try lia.
  apply (forward_step m'); [lia|lia|lia|done|]. replace (dst + k) with (r6 + 4) by lia. replace (src + k) with (r4 + 4) by lia.
  apply word_moved; [by eapply copied_bytes|lia|lia|lia|lia].
Qed.

Lemma copy_aligned_ok k r4 r5 r6 m' : r4 = src + k - 4 → r6 = dst + k - 4 → 0 <= k → r5 = n - k → 0 <= r5 → copied_to m' 0 k →
  copied_to (copy_aligned r4 r5 r6 m') 0 n.
Proof.
  intros E4 E6 Hk E5 Hn Hm. unfold copy_aligned. rewrite shiftr3, land7.
  pose proof (Z.div_mod r5 8 ltac:(lia)). pose proof (Z.mod_pos_bound r5 8 ltac:(lia)).
  destruct (copy_words_ok (Z.to_nat (r5 / 8)) k r4 r6 m') as (m'' & -> & Hm''); [lia|lia|lia|lia|done|].
  apply (copy_rest_ok (k + 8 * Z.of_nat (Z.to_nat (r5 / 8)))); (done || lia).
Qed.

Lemma memcpy_ok : 0 <= n → moved m (memcpy dst src n m) dst src n.
Proof.
  intros Hn. assert (copied_to (memcpy dst src n m) 0 n) as H.
  2:{ unfold copied_to in H. by rewrite !Z.add_0_r, Z.sub_0_r in H. }
  unfold memcpy. rewrite !shiftr3, land3. pose proof (Z.mod_pos_bound (dst - 4) 4 ltac:(lia)).
  pose proof (Z.div_mod n 8 ltac:(lia)). pose proof (Z.mod_pos_bound n 8 ltac:(lia)).
  destruct (Z.eqb_spec (n / 8) 0); [apply (copy_rest_ok 0); (lia || apply copied_none)|].
  destruct (Z.eqb_spec ((dst - 4) mod 4) 0); [apply (copy_aligned_ok 0); (lia || apply copied_none)|].
  set (r0 := 4 - (dst - 4) mod 4). assert (0 < r0 < 4) by (unfold r0; lia).
  assert (1 <= n / 8) by (pose proof (Z.div_pos n 8); lia).
  destruct (copy_bytes_ok (Z.to_nat r0) 4 0 (src - 4) (dst - 4) m) as (m'' & -> & Hm''); [lia|lia|lia|lia|apply copied_none|].
  rewrite Z2Nat.id in * by lia. destruct (Z.eqb_spec ((n - r0) / 8) 0);
    [apply (copy_rest_ok (0 + r0))|apply (copy_aligned_ok (0 + r0))]; (done || lia).
Qed.
End forward.

(** from the end on, when the destination does not start before the source *)
Section backward.
Context (apart : src <= dst).

Lemma backward_step m' m'' k j : 0 <= j → j <= k → k <= n → copied_to m' k n → moved m' m'' (dst + k - j) (src + k - j) j →
  copied_to m'' (k - j) n.
Proof.
  intros Hj Hk Hn H1 H2 a. rewrite (H2 a). unfold copied at 1. rewrite !H1. by_range.
Qed.

Lemma back_words_ok ctr : ∀ k r4 r6 m', r4 = src + k → r6 = dst + k → k <= n → 8 * Z.of_nat ctr <= k → copied_to m' k n →
  ∃ m'', back_words ctr r4 r6 m' = (r4 - 8 * Z.of_nat ctr, r6 - 8 * Z.of_nat ctr, m'') ∧ copied_to m'' (k - 8 * Z.of_nat ctr) n.
Proof.
  induction ctr as [|ctr IH]; intros k r4 r6 m' E4 E6 Hn Hk Hm.
  - exists m'. rewrite !Z.sub_0_r. by split.
  - cbn [back_words]. destruct (words_moved m' (r6 - 8) (r4 - 8) (lwz m' (r4 - 8)) (lwz m' (r4 - 4))) as [_ Hw];
      [by eapply copied_bytes|lia|lia|lia|lia|done|f_equal; lia|]. replace (r6 - 8 + 4) with (r6 - 4) in Hw by lia.
    destruct (IH (k - 8) (r4 - 8) (r6 - 8) (stw (lwz m' (r4 - 8)) (r6 - 8) (stw (lwz m' (r4 - 4)) (r6 - 4) m'))) as (m'' & E & Hm'');
      [lia|lia|lia|lia| |].
    { apply (backward_step m'); [lia|lia|lia|done|]. replace (dst + k - 8) with (r6 - 8) by lia. by replace (src + k - 8) with (r4 - 8) by lia. }
    exists m''. rewrite E. split; [do 2 f_equal; lia|]. by replace (k - 8 * Z.of_nat (S ctr)) with (k - 8 - 8 * Z.of_nat ctr) by lia.
Qed.

Lemma back_bytes_ok ctr : ∀ k r4 r6 m', r4 = src + k → r6 = dst + k → k <= n → Z.of_nat ctr <= k → copied_to m' k n →
  ∃ m'', back_bytes ctr r4 r6 m' = (r4 - Z.of_nat ctr, r6 - Z.of_nat ctr, m'') ∧ copied_to m'' (k - Z.of_nat ctr) n.
Proof.
  induction ctr as [|ctr IH]; intros k r4 r6 m' E4 E6 Hn Hk Hm.
  - exists m'. rewrite !Z.sub_0_r. by split.
  - cbn [back_bytes].
    destruct (IH (k - 1) (r4 - 1) (r6 - 1) (stb (lbz m' (r4 - 1)) (r6 - 1) m')) as (m'' & E & Hm''); [lia|lia|lia|lia| |].
    { apply (backward_step m'); [lia|lia|lia|done|]. replace (dst + k - 1) with (r6 - 1) by lia. replace (src + k - 1) with (r4 - 1) by lia.
      apply byte_moved; [by eapply copied_bytes|lia|lia]. }
    exists m''. rewrite E. split; [do 2 f_equal; lia|]. by replace (k - Z.of_nat (S ctr)) with (k - 1 - Z.of_nat ctr) by lia.
Qed.

Lemma back_rest_ok r4 r5 r6 m' : r4 = src + r5 → r6 = dst + r5 → 0 <= r5 <= n → copied_to m' r5 n →
  copied_to (back_rest r4 r5 r6 m') 0 n.
Proof.
  intros E4 E6 Hn Hm. unfold back_rest.
  assert (∀ r4 r5 r6 m', r4 = src + r5 → r6 = dst + r5 → 0 <= r5 <= n → copied_to m' r5 n →
    copied_to (if r5 =? 0 then m' else (back_bytes (Z.to_nat r5) r4 r6 m').2) 0 n) as Hbytes.
  { clear -bytes dst_in src_in apart. intros r4 r5 r6 m' E4 E6 Hn Hm. destruct (Z.eqb_spec r5 0) as [->|]; [done|].
    destruct (back_bytes_ok (Z.to_nat r5) r5 r4 r6 m') as (m'' & -> & Hm''); [lia|lia|lia|lia|done|].
    replace (r5 - Z.of_nat (Z.to_nat r5)) with 0 in Hm'' by lia. exact Hm''. }
  destruct (Z.ltb_spec r5 4); [by apply Hbytes|]. apply Hbytes; try lia.
  apply (backward_step m'); [lia|lia|lia|done|]. replace (dst + r5 - 4) with (r6 - 4) by lia. replace (src + r5 - 4) with (r4 - 4) by lia.
  apply word_moved; [by eapply copied_bytes|lia|lia|lia|lia].
Qed.

Lemma back_aligned_ok r4 r5 r6 m' : r4 = src + r5 → r6 = dst + r5 → 0 <= r5 <= n → copied_to m' r5 n →
  copied_to (back_aligned r4 r5 r6 m') 0 n.
Proof.
  intros E4 E6 Hn Hm. unfold back_aligned. rewrite shiftr3, land7.
  pose proof (Z.div_mod r5 8 ltac:(lia)). pose proof (Z.mod_pos_bound r5 8 ltac:(lia)).
  destruct (back_words_ok (Z.to_nat (r5 / 8)) r5 r4 r6 m') as (m'' & -> & Hm''); [lia|lia|lia|lia|done|].
  replace (r5 - 8 * Z.of_nat (Z.to_nat (r5 / 8))) with (r5 mod 8) in Hm'' by lia. apply back_rest_ok; (done || lia).
Qed.

Lemma backwards_memcpy_ok : 0 <= n → moved m (backwards_memcpy dst src n m) dst src n.
Proof.
  intros Hn. assert (copied_to (backwards_memcpy dst src n m) 0 n) as H.
  2:{ unfold copied_to in H. by rewrite !Z.add_0_r, Z.sub_0_r in H. }
  unfold backwards_memcpy. rewrite !shiftr3, land3. pose proof (Z.mod_pos_bound (dst + n) 4 ltac:(lia)).
  pose proof (Z.div_mod n 8 ltac:(lia)). pose proof (Z.mod_pos_bound n 8 ltac:(lia)).
  destruct (Z.eqb_spec (n / 8) 0); [apply back_rest_ok; (lia || apply copied_none)|].
  destruct (Z.eqb_spec ((dst + n) mod 4) 0); [apply back_aligned_ok; (lia || apply copied_none)|].
  set (r0 := (dst + n) mod 4) in *. assert (1 <= n / 8) by (pose proof (Z.div_pos n 8); lia).
  destruct (back_bytes_ok (Z.to_nat r0) n (src + n) (dst + n) m) as (m'' & -> & Hm''); [lia|lia|lia|lia|apply copied_none|].
  rewrite Z2Nat.id in * by lia. destruct (Z.eqb_spec ((n - r0) / 8) 0); [apply back_rest_ok|apply back_aligned_ok]; (done || lia).
Qed.
End backward.
End copying.

(** ** Fills *)

Lemma spread_byte c i : 0 <= i < 4 → u8 (Z.shiftr (spread c) (8 * i)) = u8 c.
Proof.
  intros Hi. assert (∀ x, u8 x = Z.land x 255) as E by (intros x; symmetry; exact (Z.land_ones x 8 ltac:(lia))).
  rewrite !E. apply Z.bits_inj'. intros j Hj. rewrite !Z.land_spec.
  destruct (Z.le_gt_cases 8 j); [rewrite (Z.bits_above_log2 255 j) by (cbn; lia); by rewrite !andb_false_r|].
  f_equal. rewrite Z.shiftr_spec by done. unfold spread. cbv zeta.
  assert (i = 0 ∨ i = 1 ∨ i = 2 ∨ i = 3) as Ei by lia.
  assert (j = 0 ∨ j = 1 ∨ j = 2 ∨ j = 3 ∨ j = 4 ∨ j = 5 ∨ j = 6 ∨ j = 7) as Ej by lia.
  destruct Ei as [-> | [-> | [-> | ->]]]; destruct Ej as [-> | [-> | [-> | [-> | [-> | [-> | [-> | ->]]]]]]];
    repeat (rewrite Z.lor_spec || rewrite Z.land_spec || rewrite Z.ldiff_spec || rewrite Z.shiftl_spec by lia);
    repeat match goal with
     | |- context [Z.testbit ?x ?k] =>
         lazymatch k with Z0 => fail | Zpos _ => fail | Zneg _ => fail | _ => let v := eval vm_compute in k in change k with v end
     | |- context [Z.testbit (Zpos ?p) ?k] => let v := eval vm_compute in (Z.testbit (Zpos p) k) in change (Z.testbit (Zpos p) k) with v
     end; rewrite ?Z.testbit_neg_r by lia; cbn [andb orb negb]; rewrite ?orb_false_r, ?andb_true_r, ?andb_false_r; done.
Qed.

Section filling.
Context (m : memory) (dst c n : Z) (dst_in : 0 <= dst ∧ dst + n <= 4294967296).

Definition filled_to (m' : memory) (k : Z) : Prop := ∀ a, m' a = filled m dst (u8 c) k a.

Lemma word_filled m' d k : 0 <= k → dst <= d <= dst + k → dst + k <= d + 4 → d + 4 <= dst + n → filled_to m' k →
  filled_to (stw (spread c) d m') (d + 4 - dst).
Proof.
  intros Hk Hd Hd2 Hin Hm a. rewrite stw_at by lia. rewrite Hm. unfold filled.
  destruct (Z.leb_spec d a), (Z.ltb_spec a (d + 4)); cbn [andb]; [rewrite spread_byte by lia|..];
    destruct (Z.leb_spec dst a), (Z.ltb_spec a (dst + k)), (Z.ltb_spec a (dst + (d + 4 - dst))); cbn [andb]; try done; lia.
Qed.

Lemma fill_words_ok ctr : ∀ r6 k m', 0 <= k → dst <= r6 + 4 <= dst + k → dst + k < r6 + 8 → r6 + 4 * Z.of_nat ctr + 4 <= dst + n →
  filled_to m' k →
  ∃ m'', fill_words ctr (spread c) r6 m' = (r6 + 4 * Z.of_nat ctr, m'') ∧
    filled_to m'' (Z.max k (r6 + 4 * Z.of_nat ctr + 4 - dst)).
Proof.
  induction ctr as [|ctr IH]; intros r6 k m' Hk Hr Hr2 Hn Hm.
  - exists m'. rewrite Z.mul_0_r, Z.add_0_r. split; [done|]. by rewrite Z.max_l by lia.
  - cbn [fill_words]. destruct (IH (r6 + 4) (r6 + 4 + 4 - dst) (stw (spread c) (r6 + 4) m')) as (m'' & -> & Hm''); [lia|lia|lia|lia| |].
    { apply (word_filled _ _ k); (done || lia). }
    exists m''. split; [f_equal; lia|]. intros a. rewrite (Hm'' a). f_equal. lia.
Qed.

Lemma fill_bytes_ok ctr : ∀ r6 k m', dst <= r6 + 1 <= dst + k → r6 + 1 + Z.of_nat ctr <= dst + n → filled_to m' k →
  filled_to (fill_bytes ctr (spread c) r6 m') (Z.max k (r6 + 1 + Z.of_nat ctr - dst)).
Proof.
  induction ctr as [|ctr IH]; intros r6 k m' Hr Hn Hm.
  - by rewrite Z.max_l by lia.
  - cbn [fill_bytes]. replace (Z.max k (r6 + 1 + Z.of_nat (S ctr) - dst)) with
      (Z.max (Z.max k (r6 + 2 - dst)) (r6 + 1 + 1 + Z.of_nat ctr - dst)) by lia.
    apply IH; [lia|lia|].
    intros a. rewrite stb_at by lia. rewrite Hm. unfold filled. pose proof (spread_byte c 0 ltac:(lia)) as E. rewrite Z.shiftr_0_r in E.
    rewrite E. destruct (Z.eqb_spec a (r6 + 1)), (Z.leb_spec dst a), (Z.ltb_spec a (dst + k)),
      (Z.ltb_spec a (dst + Z.max k (r6 + 2 - dst))); cbn [andb]; try done; lia.
Qed.

Lemma fill_rest_ok r5 r6 k m' : dst <= r6 + 4 <= dst + k → 0 <= r5 → k <= n → r6 + 4 + r5 = dst + n → filled_to m' k →
  filled_to (fill_rest (spread c) r5 r6 m') n.
Proof.
  intros Hr H5 Hk Hn Hm. unfold fill_rest. destruct (Z.eqb_spec r5 0); [by replace n with k by lia|].
  pose proof (fill_bytes_ok (Z.to_nat r5) (r6 + 3) k m' ltac:(lia) ltac:(lia) Hm) as H.
  by replace (Z.max k (r6 + 3 + 1 + Z.of_nat (Z.to_nat r5) - dst)) with n in H by lia.
Qed.

Lemma memset_ok : 0 <= n < 4294967292 → filled_to (memset dst c n m) n.
Proof.
  intros Hn. assert (filled_to m 0) as H0 by (intros a; unfold filled; destruct (Z.leb_spec dst a), (Z.ltb_spec a (dst + 0)); done || lia).
  unfold memset. cbv zeta. destruct (Z.ltb_spec n 4); [apply (fill_rest_ok n _ 0); (done || lia)|].
  replace (dst - 4 + 4) with dst by lia.
  pose proof (word_filled m dst 0 ltac:(lia) ltac:(lia) ltac:(lia) ltac:(lia) H0) as H1. replace (dst + 4 - dst) with 4 in H1 by lia.
  destruct (Z.eqb_spec n 4) as [E|]; [by rewrite E|].
  rewrite !land3. pose proof (Z.mod_pos_bound dst 4 ltac:(lia)). set (r0 := dst mod 4) in *. rewrite u32_small by lia.
  rewrite Z.shiftr_div_pow2 by lia. change (2 ^ 2) with 4.
  pose proof (Z.div_mod (r0 + n) 4 ltac:(lia)). pose proof (Z.mod_pos_bound (r0 + n) 4 ltac:(lia)).
  destruct (fill_words_ok (Z.to_nat ((r0 + n) / 4 - 1)) (dst - r0) 4 (stw (spread c) dst m)) as (m'' & -> & Hm''); [lia|lia|lia|lia|done|].
  eapply fill_rest_ok; [| | | |exact Hm'']; lia.
Qed.
End filling.

(** ** Properties *)

Lemma copied_stores m dst src n a : 0 <= n → copied m dst src n a = mem_store m dst (mem_load m src (Z.to_nat n)) a.
Proof.
  intros Hn. unfold copied, mem_store. rewrite length_mem_load, Z2Nat.id by done.
  destruct (Z.leb_spec dst a), (Z.ltb_spec a (dst + n)); cbn [andb]; [|done..].
  unfold byte_at. rewrite (proj2 (Z.ltb_ge (a - dst) 0)) by lia. unfold mem_load.
  rewrite nth_lookup, list_lookup_fmap, lookup_seq_lt by lia. cbn. f_equal. lia.
Qed.

Lemma filled_stores m dst c n a : 0 <= n → filled m dst c n a = mem_store m dst (replicate (Z.to_nat n) c) a.
Proof.
  intros Hn. unfold filled, mem_store. rewrite length_replicate, Z2Nat.id by done.
  destruct (Z.leb_spec dst a), (Z.ltb_spec a (dst + n)); cbn [andb]; [|done..].
  unfold byte_at. rewrite (proj2 (Z.ltb_ge (a - dst) 0)) by lia. by rewrite nth_lookup, lookup_replicate_2 by lia.
Qed.

(** C20: [memmove] copies as if all the bytes were read before any is stored, however source
    and destination overlap and however they are aligned: the loops over words and over
    bytes, from the front or from the end, leave the memory that a store of the bytes
    loaded at first leaves. *)
Theorem memmove_copies m dst src n : bytes_only m → 0 <= n →
  0 <= dst → dst + n <= 4294967296 → 0 <= src → src + n <= 4294967296 →
  ∀ a, memmove dst src n m a = mem_store m dst (mem_load m src (Z.to_nat n)) a.
Proof.
  intros Hm Hn H1 H2 H3 H4 a. rewrite <- copied_stores by done. unfold memmove. destruct (Z.ltb_spec src dst).
  - apply backwards_memcpy_ok; (done || lia).
  - apply memcpy_ok; (done || lia).
Qed.

Definition example_memory : memory := λ a, u8 (a * 7).

(** one byte on and one byte back, over each other *)
Example memmove_copies_witness :
  (∀ a, memmove 1003 1002 21 example_memory a = mem_store example_memory 1003 (mem_load example_memory 1002 21) a) ∧
  (∀ a, memmove 1002 1003 21 example_memory a = mem_store example_memory 1002 (mem_load example_memory 1003 21) a).
Proof.
  assert (bytes_only example_memory) as Hm by (intros a; apply u8_range).
  split; [apply (memmove_copies example_memory 1003 1002 21)|apply (memmove_copies example_memory 1002 1003 21)]; (exact Hm || lia).
Defined.

(** [memcpy] copies when the blocks do not overlap, or when the destination starts first *)
Lemma memcpy_copies m dst src n : bytes_only m → 0 <= n →
  0 <= dst → dst + n <= 4294967296 → 0 <= src → src + n <= 4294967296 → dst <= src ∨ src + n <= dst →
  ∀ a, memcpy dst src n m a = mem_store m dst (mem_load m src (Z.to_nat n)) a.
Proof. intros Hm Hn H1 H2 H3 H4 Ha a. rewrite <- copied_stores by done. by apply memcpy_ok. Qed.

(** [bcopy] is [memcpy]: a block moved up over itself is not copied *)
Example bcopy_overlap : bcopy 1000 1001 3 example_memory 1003 = example_memory 1000 ∧
  mem_store example_memory 1001 (mem_load example_memory 1000 3) 1003 = example_memory 1002.
Proof. split; vm_compute; reflexivity. Qed.

(** [memset] and [__bzero] store the low byte of the value in each byte of the block, and
    nothing elsewhere. *)
Lemma memset_fills m dst c n : 0 <= n < 4294967292 → 0 <= dst → dst + n <= 4294967296 → ∀ a,
  memset dst c n m a = mem_store m dst (replicate (Z.to_nat n) (u8 c)) a ∧
  __bzero dst n m a = mem_store m dst (replicate (Z.to_nat n) 0) a.
Proof.
  intros Hn H1 H2 a. rewrite <- !filled_stores by lia.
  split; [apply (memset_ok m dst c n)|apply (memset_ok m dst 0 n)]; (done || lia).
Qed.
