(* ===== verification/Md5Ref.v ===== *)
(** MD5 and the MD5-crypt hash of a password, written from their published descriptions
    (RFC 1321, and the [$1$] format of [crypt]) without any definition of the program: the
    reference that [Md5.v] measures [second/md5.c] against. *)
From S2P Require Import Prelude.

(** ** RFC 1321 *)

(** words of 32 bits *)
Definition low32 (x : Z) : Z := Z.land x 0xffffffff.

Definition rotl (x n : Z) : Z := Z.lor (low32 (Z.shiftl x n)) (Z.shiftr x (32 - n)).

(** a number and its [n] bytes, the lowest first *)
Definition le_value (l : list Z) : Z := foldr (λ b v, b + 256 * v) 0 l.
Definition le_bytes (n : nat) (v : Z) : list Z := map (λ i, (v / 256 ^ Z.of_nat i) `mod` 256) (seq 0 n).

(** the functions of the rounds *)
Definition round_F (x y z : Z) : Z := Z.lor (Z.land x y) (Z.land (low32 (Z.lnot x)) z).
Definition round_G (x y z : Z) : Z := Z.lor (Z.land x z) (Z.land y (low32 (Z.lnot z))).
Definition round_H (x y z : Z) : Z := Z.lxor (Z.lxor x y) z.
Definition round_I (x y z : Z) : Z := Z.lxor y (Z.lor x (low32 (Z.lnot z))).

(** the rounds as the RFC lists them: in the order of the steps the word of the block, the
    rotation, and the integer part of 2{^32} |sin (k + 1)| for step [k] *)
Definition rounds : list ((Z → Z → Z → Z) * list (Z * Z * Z)) := [
 (round_F, [
   (0, 7, 3614090360); (1, 12, 3905402710); (2, 17, 606105819); (3, 22, 3250441966);
   (4, 7, 4118548399); (5, 12, 1200080426); (6, 17, 2821735955); (7, 22, 4249261313);
   (8, 7, 1770035416); (9, 12, 2336552879); (10, 17, 4294925233); (11, 22, 2304563134);
   (12, 7, 1804603682); (13, 12, 4254626195); (14, 17, 2792965006); (15, 22, 1236535329)]);
 (round_G, [
   (1, 5, 4129170786); (6, 9, 3225465664); (11, 14, 643717713); (0, 20, 3921069994);
   (5, 5, 3593408605); (10, 9, 38016083); (15, 14, 3634488961); (4, 20, 3889429448);
   (9, 5, 568446438); (14, 9, 3275163606); (3, 14, 4107603335); (8, 20, 1163531501);
   (13, 5, 2850285829); (2, 9, 4243563512); (7, 14, 1735328473); (12, 20, 2368359562)]);
 (round_H, [
   (5, 4, 4294588738); (8, 11, 2272392833); (11, 16, 1839030562); (14, 23, 4259657740);
   (1, 4, 2763975236); (4, 11, 1272893353); (7, 16, 4139469664); (10, 23, 3200236656);
   (13, 4, 681279174); (0, 11, 3936430074); (3, 16, 3572445317); (6, 23, 76029189);
   (9, 4, 3654602809); (12, 11, 3873151461); (15, 16, 530742520); (2, 23, 3299628645)]);
 (round_I, [
   (0, 6, 4096336452); (7, 10, 1126891415); (14, 15, 2878612391); (5, 21, 4237533241);
   (12, 6, 1700485571); (3, 10, 2399980690); (10, 15, 4293915773); (1, 21, 2240044497);
   (8, 6, 1873313359); (15, 10, 4264355552); (6, 15, 2734768916); (13, 21, 1309151649);
   (4, 6, 4149444226); (11, 10, 3174756917); (2, 15, 718787259); (9, 21, 3951481745)])].

(** the registers A, B, C and D *)
Notation registers := (Z * Z * Z * Z)%type.

Definition rfc_step (f : Z → Z → Z → Z) (words : list Z) (r : registers) (op : Z * Z * Z) : registers :=
  let '(a, b, c, d) := r in
  let '(k, s, t) := op in
  (d, low32 (b + rotl (low32 (a + f b c d + nth (Z.to_nat k) words 0 + t)) s), b, c).

Definition compress (r : registers) (block : list Z) : registers :=
  let words := map (λ i, le_value (take 4 (drop (4 * i)%nat block))) (seq 0 16) in
  let '(a, b, c, d) := r in
  let '(a', b', c', d') := foldl (λ r '(f, ops), foldl (rfc_step f words) r ops) r rounds in
  (low32 (a + a'), low32 (b + b'), low32 (c + c'), low32 (d + d')).

(** one bit, zeros up to 56 modulo 64, and the number of bits; the digest of the RFC for
    messages of less than 2{^32} bits, which the field is cut to here *)
Definition padded (msg : list Z) : list Z :=
  let len := length msg in
  msg ++ [128] ++ replicate ((119 - len `mod` 64) `mod` 64)%nat 0 ++ le_bytes 8 (low32 (8 * Z.of_nat len)).

Definition md5_digest (msg : list Z) : list Z :=
  let p := padded msg in
  let '(a, b, c, d) :=
    foldl (λ r i, compress r (take 64 (drop (64 * i)%nat p))) (0x67452301, 0xefcdab89, 0x98badcfe, 0x10325476)
      (seq 0 (length p / 64)%nat) in
  le_bytes 4 a ++ le_bytes 4 b ++ le_bytes 4 c ++ le_bytes 4 d.

(** ** MD5-crypt *)

(** [./0-9A-Za-z] *)
Definition digit64 (v : Z) : Z :=
  if v <? 2 then 46 + v else if v <? 12 then 48 + (v - 2) else if v <? 38 then 65 + (v - 12) else 97 + (v - 38).

(** [n] digits of base 64, the lowest first *)
Definition base64 (n : nat) (v : Z) : list Z := map (λ i, digit64 ((v / 64 ^ Z.of_nat i) `mod` 64)) (seq 0 n).

(** the bytes of the digest in the order of the format, three to four digits *)
Definition encoded (digest : list Z) : list Z :=
  let byte i := nth i digest 0 in
  concat (map (λ '(i, j, k), base64 4 (65536 * byte i + 256 * byte j + byte k))
    [(0, 6, 12); (1, 7, 13); (2, 8, 14); (3, 9, 15); (4, 10, 5)]%nat) ++ base64 2 (byte 11%nat).

(** the binary digits of the length of the key, the lowest first: a zero for 1, the first
    character of the key for 0 *)
Definition length_digits (key : list Z) : list Z :=
  let len := length key in
  map (λ j, if Z.testbit (Z.of_nat len) (Z.of_nat j) then 0 else hd 0 key)
    (seq 0 (if len =? 0 then 0 else S (Nat.log2 len))%nat).

(** round [i]: the key in front of the digest in the odd ones, behind it in the others *)
Definition crypt_round (key salt digest : list Z) (i : nat) : list Z :=
  md5_digest ((if Nat.odd i then key else digest) ++
              (if (i `mod` 3 =? 0)%nat then [] else salt) ++
              (if (i `mod` 7 =? 0)%nat then [] else key) ++
              (if Nat.odd i then digest else key)).

Definition crypt_spec (key salt : list Z) : list Z :=
  let inner := md5_digest (key ++ salt ++ key) in
  let first := md5_digest (key ++ bs "$1$" ++ salt ++
    take (length key) (concat (replicate (length key) inner)) ++ length_digits key) in
  encoded (foldl (crypt_round key salt) first (seq 0 1000)).

(** ** Test vectors *)

(** of RFC 1321, A.5 *)
Example md5_empty : md5_digest [] = [0xd4; 0x1d; 0x8c; 0xd9; 0x8f; 0x00; 0xb2; 0x04; 0xe9; 0x80; 0x09; 0x98; 0xec; 0xf8; 0x42; 0x7e].
Proof. vm_compute. reflexivity. Qed.

Example md5_digits : md5_digest (bs "12345678901234567890123456789012345678901234567890123456789012345678901234567890") =
  [0x57; 0xed; 0xf4; 0xa2; 0x2b; 0xe3; 0xc9; 0x55; 0xac; 0x49; 0xda; 0x2e; 0x21; 0x07; 0xb6; 0x7a].
Proof. vm_compute. reflexivity. Qed.

(** the first test of the MD5-crypt of the GNU C library *)
Example crypt_known : crypt_spec (bs "Hello world!") (bs "saltstri") = bs "YMyguxXMBpd2TEZ.vS/3q1".
Proof. vm_compute. reflexivity. Qed.
