(* ===== verification/Md5.v ===== *)
(** [second/md5.c]: the MD5 digest, computed piecewise over a static state, and
    the MD5-crypt password check, both against the references of [Md5Ref]. *)
From S2P Require Import Prelude CString Md5Ref.

(** ** Words *)

Definition le32_to_cpu (x : Z) : Z :=
  Z.lor (Z.lor (u32 (Z.shiftl (Z.land x 255) 24)) (u32 (Z.shiftl (Z.land x 65280) 8)))
        (Z.lor (Z.shiftr (Z.land x 16711680) 8) (Z.shiftr (Z.land x 4278190080) 24)).

Definition cpu_to_le32 (x : Z) : Z := le32_to_cpu x.

Definition not32 (x : Z) : Z := u32 (Z.lnot x).

Definition F (x y z : Z) : Z := Z.lor (Z.land x y) (Z.land (not32 x) z).
Definition G (x y z : Z) : Z := Z.lor (Z.land x z) (Z.land y (not32 z)).
Definition H (x y z : Z) : Z := Z.lxor (Z.lxor x y) z.
Definition I (x y z : Z) : Z := Z.lxor y (Z.lor x (not32 z)).

Definition ROTATE_LEFT (x n : Z) : Z := Z.lor (u32 (Z.shiftl x n)) (Z.shiftr x (32 - n)).

Definition s1 : list Z := [7; 12; 17; 22].
Definition s2 : list Z := [5; 9; 14; 20].
Definition s3 : list Z := [4; 11; 16; 23].
Definition s4 : list Z := [6; 10; 15; 21].

Definition T : list Z := [
  0xd76aa478; 0xe8c7b756; 0x242070db; 0xc1bdceee;
  0xf57c0faf; 0x4787c62a; 0xa8304613; 0xfd469501;
  0x698098d8; 0x8b44f7af; 0xffff5bb1; 0x895cd7be;
  0x6b901122; 0xfd987193; 0xa679438e; 0x49b40821;
  0xf61e2562; 0xc040b340; 0x265e5a51; 0xe9b6c7aa;
  0xd62f105d; 0x02441453; 0xd8a1e681; 0xe7d3fbc8;
  0x21e1cde6; 0xc33707d6; 0xf4d50d87; 0x455a14ed;
  0xa9e3e905; 0xfcefa3f8; 0x676f02d9; 0x8d2a4c8a;
  0xfffa3942; 0x8771f681; 0x6d9d6122; 0xfde5380c;
  0xa4beea44; 0x4bdecfa9; 0xf6bb4b60; 0xbebfbc70;
  0x289b7ec6; 0xeaa127fa; 0xd4ef3085; 0x04881d05;
  0xd9d4d039; 0xe6db99e5; 0x1fa27cf8; 0xc4ac5665;
  0xf4292244; 0x432aff97; 0xab9423a7; 0xfc93a039;
  0x655b59c3; 0x8f0ccc92; 0xffeff47d; 0x85845dd1;
  0x6fa87e4f; 0xfe2ce6e0; 0xa3014314; 0x4e0811a1;
  0xf7537e82; 0xbd3af235; 0x2ad7d2bb; 0xeb86d391].

Definition b64t : list Z :=
  bs "./0123456789ABCDEFGHIJKLMNOPQRSTUVWXYZabcdefghijklmnopqrstuvwxyz".

(** ** The transform *)

(** the four words [a b c d] *)
Record quad := Quad { qa : Z; qb : Z; qc : Z; qd : Z }.

Definition initstate : quad := Quad 0x67452301 0xefcdab89 0x98badcfe 0x10325476.

(** one turn of a round: [f] is the round's function, [x] the message word,
    [t] the table entry and [s] the rotation *)
Definition turn (f : Z → Z → Z → Z) (x t s : Z) (q : quad) : quad :=
  let tmp := u32 (qa q + f (qb q) (qc q) (qd q) + x + t) in
  let tmp := ROTATE_LEFT tmp s in
  let tmp := u32 (tmp + qb q) in
  Quad (qd q) tmp (qb q) (qc q).

(** word [i] of a block *)
Definition word (block : list Z) (i : Z) : Z := le32_to_cpu (be32 block (4 * i)).

(** a round: sixteen turns from [i], the message index going up by [dj] *)
Fixpoint round (n : nat) (f : Z → Z → Z → Z) (shifts block : list Z) (base i j dj : Z)
    (q : quad) : quad :=
  match n with
  | O => q
  | S n =>
      round n f shifts block base (i + 1) (j + dj) dj
        (turn f (word block (Z.land j 15)) (byte_at T (i + base))
              (byte_at shifts (Z.land i 3)) q)
  end.

Definition md5_transform (block : list Z) (state : quad) : quad :=
  let q := state in
  let q := round 16 F s1 block 0 0 0 1 q in
  let q := round 16 G s2 block 16 0 1 5 q in
  let q := round 16 H s3 block 32 0 5 3 q in
  let q := round 16 I s4 block 48 0 0 7 q in
  Quad (u32 (qa state + qa q)) (u32 (qb state + qb q))
       (u32 (qc state + qc q)) (u32 (qd state + qd q)).

(** ** The piecewise computation over the static state *)

Record md5 := Md5 { state : quad; length_ : Z; buffer : list Z }.

Definition md5_init (st : md5) : md5 := Md5 initstate 0 (buffer st).

(** the [while (inputlen >= 64)] loop over whole blocks *)
Fixpoint md5_blocks (fuel : nat) (input : list Z) (q : quad) : quad * list Z :=
  match fuel with
  | O => (q, input)
  | S fuel =>
      if 64 <=? Z.of_nat (length input)
      then md5_blocks fuel (drop 64 input) (md5_transform (take 64 input) q)
      else (q, input)
  end.

(** [input] are the [inputlen] bytes *)
Definition md5_update (input : list Z) (st : md5) : md5 :=
  let buflen := Z.land (length_ st) 63 in
  let inputlen := Z.of_nat (length input) in
  let len := u32 (length_ st + inputlen) in
  if buflen + inputlen <? 64 then Md5 (state st) len (store (buffer st) buflen input)
  else
    let n := Z.to_nat (64 - buflen) in
    let buf := store (buffer st) buflen (take n input) in
    let q := md5_transform buf (state st) in
    let '(q, rest) := md5_blocks (length input) (drop n input) q in
    Md5 q len (store buf 0 rest).

(** the bytes of the state after the final byte swap *)
Definition digest_bytes (q : quad) : list Z :=
  put_be32 (cpu_to_le32 (qa q)) ++ put_be32 (cpu_to_le32 (qb q)) ++
  put_be32 (cpu_to_le32 (qc q)) ++ put_be32 (cpu_to_le32 (qd q)).

Definition md5_final (st : md5) : list Z * md5 :=
  let buflen := Z.land (length_ st) 63 in
  let buf := store (buffer st) buflen [128] in
  let buflen := buflen + 1 in
  let buf := store buf buflen (replicate (Z.to_nat (64 - buflen)) 0) in
  let '(buf, q) :=
    if 56 <? buflen
    then (replicate 64 0, md5_transform buf (state st))
    else (buf, state st) in
  let buf := store buf 56 (put_be32 (cpu_to_le32 (u32 (8 * length_ st)))) in
  let buf := store buf 60 (put_be32 0) in
  let q := md5_transform buf q in
  (digest_bytes q,
   Md5 (Quad (cpu_to_le32 (qa q)) (cpu_to_le32 (qb q)) (cpu_to_le32 (qc q))
             (cpu_to_le32 (qd q))) (length_ st) buf).

(** ** Reference: pad the whole message, then fold the blocks *)

Definition padding (len : nat) : list Z :=
  let r := (len `mod` 64)%nat in
  let zeros := if (r <? 56)%nat then (55 - r)%nat else (119 - r)%nat in
  128 :: replicate zeros 0 ++ put_le32 (u32 (8 * u32 (Z.of_nat len))) ++ [0; 0; 0; 0].

(** fold the whole 64-byte blocks of [l] *)
Definition fold_blocks (l : list Z) (q : quad) : quad := (md5_blocks (length l) l q).1.

Definition md5_spec (msg : list Z) : list Z :=
  digest_bytes (fold_blocks (msg ++ padding (length msg)) initstate).

(** ** Byte order *)

Lemma le32_to_cpu_spec x : 0 <= x < 4294967296 →
  le32_to_cpu x = x `mod` 256 * 16777216 + (x / 256) `mod` 256 * 65536 +
                  (x / 65536) `mod` 256 * 256 + x / 16777216.
Proof.
  intros Hx. unfold le32_to_cpu.
  pose proof (land_field x 0 ltac:(lia)) as H0. pose proof (land_field x 8 ltac:(lia)) as H8.
  pose proof (land_field x 16 ltac:(lia)) as H16. pose proof (land_field x 24 ltac:(lia)) as H24.
  change (255 * 2 ^ 0) with 255 in H0. change (255 * 2 ^ 8) with 65280 in H8.
  change (255 * 2 ^ 16) with 16711680 in H16. change (255 * 2 ^ 24) with 4278190080 in H24.
  change (2 ^ 0) with 1 in H0. change (2 ^ 8) with 256 in H8.
  change (2 ^ 16) with 65536 in H16. change (2 ^ 24) with 16777216 in H24.
  rewrite Z.div_1_r, Z.mul_1_r in H0. rewrite H0, H8, H16, H24.
  set (b0 := x `mod` 256). set (b1 := (x / 256) `mod` 256). set (b2 := (x / 65536) `mod` 256).
  assert ((x / 16777216) `mod` 256 = x / 16777216) as ->.
  { apply Z.mod_small. Z.div_mod_to_equations. lia. }
  set (b3 := x / 16777216).
  assert (0 <= b0 < 256 ∧ 0 <= b1 < 256 ∧ 0 <= b2 < 256 ∧ 0 <= b3 < 256) as (?&?&?&?).
  { unfold b0, b1, b2, b3. repeat split; try apply Z.mod_pos_bound; try lia;
      Z.div_mod_to_equations; lia. }
  clearbody b0 b1 b2 b3.
  rewrite !Z.shiftl_mul_pow2, !Z.shiftr_div_pow2 by lia.
  change (2 ^ 24) with 16777216. change (2 ^ 8) with 256.
  rewrite !u32_small by lia.
  replace (b2 * 65536 / 256) with (b2 * 256) by (Z.div_mod_to_equations; lia).
  replace (b3 * 16777216 / 16777216) with b3 by (Z.div_mod_to_equations; lia).
  pose proof (lor_shiftl_add b0 (b1 * 256 * 256) 24 ltac:(lia)) as E1.
  pose proof (lor_shiftl_add b2 b3 8 ltac:(lia)) as E2.
  pose proof (lor_shiftl_add (b0 * 256 + b1) (b2 * 256 + b3) 16 ltac:(lia)) as E3.
  rewrite Z.shiftl_mul_pow2 in E1, E2, E3 by lia.
  change (2 ^ 24) with 16777216 in E1. change (2 ^ 8) with 256 in E2.
  change (2 ^ 16) with 65536 in E3.
  rewrite E1, E2 by lia.
  replace (b0 * 16777216 + b1 * 256 * 256) with ((b0 * 256 + b1) * 65536) by lia.
  rewrite E3 by lia. lia.
Qed.

(** storing the swapped word big-endian stores the word little-endian *)
Lemma put_be32_swap x : 0 <= x < 4294967296 → put_be32 (cpu_to_le32 x) = put_le32 x.
Proof.
  intros Hx. unfold cpu_to_le32. rewrite le32_to_cpu_spec by done.
  unfold put_le32, put_be32. simpl. words.
  assert (∀ a b c d a' b' c' d' : Z, a = a' → b = b' → c = c' → d = d' →
    [a; b; c; d] = [a'; b'; c'; d']) as Heq by congruence.
  apply Heq; Z.div_mod_to_equations; lia.
Qed.

(** ** The piecewise computation *)

(** absorb the whole blocks of [l]: the state and the bytes left *)
Definition run (l : list Z) (q : quad) : quad * list Z := md5_blocks (length l) l q.

Lemma md5_blocks_fuel f l q : (length l <= f)%nat → md5_blocks f l q = run l q.
Proof.
  unfold run. remember (length l) as g eqn:Hg. assert (length l <= g)%nat as Hl by lia. clear Hg.
  revert g l q Hl. induction f as [|f IH]; intros g l q Hl Hf.
  - by replace g with 0%nat by lia.
  - destruct g as [|g]; [destruct l; [done|simpl in *; lia]|]. cbn [md5_blocks].
    destruct (Z.leb_spec 64 (Z.of_nat (length l))); [|done].
    apply IH; [rewrite length_drop|]; lia.
Qed.

Lemma run_short l q : (length l < 64)%nat → run l q = (q, l).
Proof.
  intros Hl. unfold run. destruct (length l) eqn:E; cbn [md5_blocks]; [done|].
  rewrite E. destruct (Z.leb_spec 64 (Z.of_nat (S n))); [lia|done].
Qed.

Lemma run_block l q : (64 <= length l)%nat →
  run l q = run (drop 64 l) (md5_transform (take 64 l) q).
Proof.
  intros Hl. unfold run at 1. destruct (length l) eqn:E; [lia|]. cbn [md5_blocks]. rewrite E.
  destruct (Z.leb_spec 64 (Z.of_nat (S n))); [|lia].
  apply md5_blocks_fuel. rewrite length_drop. lia.
Qed.

Lemma run_rest_length l q : (length (run l q).2 < 64)%nat ∧
  (length (run l q).2 = length l `mod` 64)%nat.
Proof.
  remember (length l) as n eqn:Hn. revert l q Hn.
  induction (lt_wf n) as [n _ IH]; intros l q ->.
  destruct (decide (length l < 64)%nat).
  - rewrite run_short by done. cbn [snd]. split; [done|]. by rewrite Nat.mod_small.
  - rewrite run_block by lia.
    destruct (IH (length (drop 64 l))) with (l := drop 64 l)
      (q := md5_transform (take 64 l) q) as [H1 H2]; [rewrite length_drop; lia|done|].
    split; [done|]. rewrite H2, length_drop.
    replace (length l) with (length l - 64 + 1 * 64)%nat at 2 by lia.
    by rewrite Nat.Div0.mod_add.
Qed.

Lemma run_app (a b : list Z) q : run (a ++ b) q = run ((run a q).2 ++ b) (run a q).1.
Proof.
  remember (length a) as n eqn:Hn. revert a q Hn.
  induction (lt_wf n) as [n _ IH]; intros a q ->.
  destruct (decide (length a < 64)%nat).
  - by rewrite (run_short a) by done.
  - rewrite run_block by (rewrite length_app; lia). rewrite drop_app_le, take_app_le by lia.
    rewrite (run_block a) by lia.
    apply (IH (length (drop 64 a))); [rewrite length_drop; lia|done].
Qed.

(** [st] is the state of the computation after the bytes [m] *)
Definition absorbed (m : list Z) (st : md5) : Prop :=
  let '(q, r) := run m initstate in
  state st = q ∧ length (buffer st) = 64%nat ∧ take (length r) (buffer st) = r ∧
  length_ st = u32 (Z.of_nat (length m)).

Lemma absorbed_init st : length (buffer st) = 64%nat → absorbed [] (md5_init st).
Proof. intros H. unfold absorbed. by simpl. Qed.

Lemma buflen_spec (m : list Z) : Z.land (u32 (Z.of_nat (length m))) 63 = Z.of_nat (length m `mod` 64).
Proof.
  rewrite land_63. unfold u32. rewrite <- Znumtheory.Zmod_div_mod; [|lia|lia|by exists 67108864].
  by rewrite Nat2Z.inj_mod.
Qed.

Lemma take_store buf i (v : list Z) : (i + length v <= length buf)%nat →
  take (i + length v) (store buf (Z.of_nat i) v) = take i buf ++ v.
Proof.
  intros H. unfold store. rewrite Nat2Z.id, app_assoc.
  apply take_app_length'. rewrite length_app, length_take. lia.
Qed.

Lemma md5_update_absorbed m input st : absorbed m st → absorbed (m ++ input) (md5_update input st).
Proof.
  unfold absorbed. destruct (run_rest_length m initstate) as [Hr Hm]. rewrite run_app.
  destruct (run m initstate) as [q r]. simpl in *. intros (Hs & Hb & Ht & Hl).
  unfold md5_update. rewrite Hl, buflen_spec, <- Hm.
  assert (u32 (u32 (Z.of_nat (length m)) + Z.of_nat (length input)) =
          u32 (Z.of_nat (length (m ++ input)))) as Hlen.
  { rewrite u32_add_l, length_app. f_equal. lia. }
  destruct (Z.ltb_spec (Z.of_nat (length r) + Z.of_nat (length input)) 64) as [Hlt|Hge].
  - rewrite run_short by (rewrite length_app; lia). simpl. split; [done|].
    split; [rewrite length_store; lia|]. split; [|done].
    rewrite length_app, take_store by lia. by rewrite Ht.
  - rewrite run_block by (rewrite length_app; lia).
    rewrite drop_app_ge, take_app_ge by lia.
    replace (Z.to_nat (64 - Z.of_nat (length r))) with (64 - length r)%nat by lia.
    assert (length (take (64 - length r) input) = 64 - length r)%nat as Hti
      by (rewrite length_take; lia).
    assert (store (buffer st) (Z.of_nat (length r)) (take (64 - length r) input) =
            r ++ take (64 - length r) input) as Hst.
    { pose proof (take_store (buffer st) (length r) (take (64 - length r) input) ltac:(lia)) as E.
      rewrite Ht, take_ge in E; [done|]. rewrite length_store; lia. }
    rewrite Hst, md5_blocks_fuel by (rewrite length_drop; lia). rewrite Hs.
    pose proof (run_rest_length (drop (64 - length r) input)
      (md5_transform (r ++ take (64 - length r) input) q)) as [Hr2 _].
    destruct (run (drop (64 - length r) input) _) as [q2 r2]. simpl in *.
    split; [done|]. split; [rewrite length_store; rewrite ?length_app; lia|]. split; [|done].
    pose proof (take_store (r ++ take (64 - length r) input) 0 r2) as E.
    rewrite length_app in E. simpl in E. apply E. lia.
Qed.

(** the buffer [md5_final] builds, as one or two blocks *)
Lemma store_end buf (r v : list Z) : take (length r) buf = r → (length r + length v = length buf)%nat →
  store buf (Z.of_nat (length r)) v = r ++ v.
Proof.
  intros Ht Hl. unfold store. rewrite Nat2Z.id, Ht.
  rewrite drop_ge by lia. by rewrite app_nil_r.
Qed.

Lemma store_tail (b x y : list Z) : length b = 64%nat → length x = 4%nat → length y = 4%nat →
  store (store b 56 x) 60 y = take 56 b ++ x ++ y.
Proof.
  intros Hb Hx Hy.
  assert (length (take 56 b ++ x) = 60%nat) as Hl by (rewrite length_app, length_take_le by lia; lia).
  replace 60 with (Z.of_nat (length (take 56 b ++ x))) by lia.
  pose proof (take_store b 56 x ltac:(lia)) as E. rewrite Hx in E.
  rewrite store_end, <- app_assoc; [done|rewrite Hl; exact E|].
  rewrite length_store; lia.
Qed.

Lemma run_one b q : length b = 64%nat → run b q = (md5_transform b q, []).
Proof.
  intros Hb. rewrite run_block by lia. rewrite drop_ge, take_ge by lia. by rewrite run_short by (simpl; lia).
Qed.

Lemma md5_final_absorbed m st : absorbed m st → (md5_final st).1 = md5_spec m.
Proof.
  unfold absorbed, md5_spec, fold_blocks. fold (run (m ++ padding (length m)) initstate).
  destruct (run_rest_length m initstate) as [Hr Hm]. rewrite run_app.
  destruct (run m initstate) as [q r]. cbn [fst snd] in *. intros (Hs & Hb & Ht & Hl).
  unfold md5_final. rewrite Hl, buflen_spec, <- Hm, Hs.
  pose proof (take_store (buffer st) (length r) [128] ltac:(simpl; lia)) as Ht1.
  rewrite Ht in Ht1.
  replace (Z.of_nat (length r) + 1) with (Z.of_nat (length (r ++ [128])))
    by (rewrite length_app; simpl; lia).
  rewrite store_end.
  2: { rewrite length_app. exact Ht1. }
  2: { rewrite length_replicate, length_store, length_app; simpl; lia. }
  set (len := u32 (8 * u32 (Z.of_nat (length m)))).
  rewrite put_be32_swap by apply u32_range.
  assert (length (put_le32 len) = 4%nat) as Hlen by done.
  replace (Z.to_nat (64 - Z.of_nat (length (r ++ [128])))) with (63 - length r)%nat
    by (rewrite length_app; simpl; lia).
  assert (length ((r ++ [128]) ++ replicate (63 - length r) 0) = 64%nat) as H64.
  { rewrite !length_app, length_replicate. simpl. lia. }
  unfold padding. rewrite <- Hm. fold len. change (put_be32 0) with [0; 0; 0; 0].
  destruct (Z.ltb_spec 56 (Z.of_nat (length (r ++ [128])))) as [Hc|Hc];
    rewrite length_app in Hc; simpl in Hc; cbn [fst]; rewrite store_tail by done.
  - assert ((length r <? 56)%nat = false) as -> by (apply Nat.ltb_ge; lia).
    replace (r ++ 128 :: replicate (119 - length r) 0 ++ put_le32 len ++ [0; 0; 0; 0])
      with (((r ++ [128]) ++ replicate (63 - length r) 0) ++
            (take 56 (replicate 64 0) ++ put_le32 len ++ [0; 0; 0; 0])).
    2: { replace (119 - length r)%nat with ((63 - length r) + 56)%nat by lia.
         rewrite replicate_add, <- !app_assoc. done. }
    rewrite run_app, (run_one _ q H64). cbn [fst snd]. by rewrite app_nil_l, run_one.
  - assert ((length r <? 56)%nat = true) as -> by (apply Nat.ltb_lt; lia).
    replace (take 56 ((r ++ [128]) ++ replicate (63 - length r) 0))
      with (r ++ 128 :: replicate (55 - length r) 0).
    2: { replace (63 - length r)%nat with ((55 - length r) + 8)%nat by lia.
         rewrite replicate_add, app_assoc, take_app_length'.
         - by rewrite <- app_assoc.
         - rewrite !length_app, length_replicate. simpl. lia. }
    rewrite <- app_assoc. cbn [app]. rewrite run_one; [done|].
    rewrite !length_app. cbn [length]. rewrite !length_app, length_replicate, Hlen. simpl. lia.
Qed.

(** ** The transform is that of the RFC *)

Definition quad_of (r : registers) : quad := let '(a, b, c, d) := r in Quad a b c d.

Lemma u32_low32 x : u32 x = low32 x.
Proof. unfold u32, low32. change 0xffffffff with (Z.ones 32). by rewrite Z.land_ones. Qed.

(** the steps of a round of the code, as the RFC lists them *)
Fixpoint round_ops (n : nat) (shifts : list Z) (base i j dj : Z) : list (Z * Z * Z) :=
  match n with
  | O => []
  | S n => (Z.land j 15, byte_at shifts (Z.land i 3), byte_at T (i + base)) :: round_ops n shifts base (i + 1) (j + dj) dj
  end.

Lemma round_steps f f' words block n shifts base i j dj r :
  (∀ x y z, f x y z = f' x y z) → (∀ k, 0 <= k < 16 → word block k = nth (Z.to_nat k) words 0) →
  round n f shifts block base i j dj (quad_of r) = quad_of (foldl (rfc_step f' words) r (round_ops n shifts base i j dj)).
Proof.
  intros Hf Hw. revert i j r. induction n as [|n IH]; intros i j [[[a b] c] d]; [done|]. cbn [round round_ops foldl].
  rewrite <- IH. f_equal. unfold turn, rfc_step, quad_of. cbn [qa qb qc qd]. rewrite Hf, Hw, !u32_low32.
  - unfold ROTATE_LEFT, rotl. rewrite u32_low32. f_equal. f_equal. apply Z.add_comm.
  - change 15 with (Z.ones 4). rewrite Z.land_ones by lia. apply Z.mod_pos_bound. lia.
Qed.

(** a word of a block *)
Lemma word_le block k : are_bytes block → (4 * k + 4 <= length block)%nat →
  word block (Z.of_nat k) = le_value (take 4 (drop (4 * k) block)).
Proof.
  intros Hb Hl. unfold word.
  assert (be32 block (4 * Z.of_nat k) = be32 (drop (4 * k) block) 0) as ->.
  { rewrite <- (take_drop (4 * k) block) at 1. pose proof (length_take block (4 * k)%nat) as Ht.
    unfold be32. replace (4 * Z.of_nat k) with (Z.of_nat (length (take (4 * k) block)) + 0) by lia.
    rewrite <- !Z.add_assoc, !byte_at_app by lia. done. }
  assert (4 <= length (drop (4 * k) block))%nat as Hd by (rewrite length_drop; lia).
  assert (are_bytes (drop (4 * k) block)) as Hbd by by apply Forall_drop.
  destruct (drop (4 * k) block) as [|b0 [|b1 [|b2 [|b3 l]]]]; simpl in Hd; try lia.
  unfold are_bytes in Hbd. rewrite !Forall_cons in Hbd. unfold is_byte in Hbd. destruct Hbd as (? & ? & ? & ? & _).
  change (be32 (b0 :: b1 :: b2 :: b3 :: l) 0) with (b0 * 16777216 + b1 * 65536 + b2 * 256 + b3).
  change (le_value _) with (b0 + 256 * (b1 + 256 * (b2 + 256 * (b3 + 256 * 0)))).
  rewrite le32_to_cpu_spec by lia. Z.div_mod_to_equations. lia.
Qed.

(** the four rounds, with the indices that the code counts *)
Lemma rounds_ops words r : foldl (λ r '(f, ops), foldl (rfc_step f words) r ops) r rounds =
  foldl (rfc_step round_I words) (foldl (rfc_step round_H words) (foldl (rfc_step round_G words) (foldl (rfc_step round_F words) r
    (round_ops 16 s1 0 0 0 1)) (round_ops 16 s2 16 0 1 5)) (round_ops 16 s3 32 0 5 3)) (round_ops 16 s4 48 0 0 7).
Proof. reflexivity. Qed.

Lemma md5_transform_rfc block r : are_bytes block → length block = 64%nat →
  md5_transform block (quad_of r) = quad_of (compress r block).
Proof.
  intros Hb Hl. unfold md5_transform, compress. set (words := map _ (seq 0 16)).
  assert (∀ k, 0 <= k < 16 → word block k = nth (Z.to_nat k) words 0) as Hw.
  { intros k Hk. rewrite <- (Z2Nat.id k) at 1 by lia. rewrite word_le by (done || lia). unfold words.
    rewrite nth_indep with (d' := (λ i, le_value (take 4 (drop (4 * i) block))) 0%nat) by (rewrite length_map, length_seq; lia).
    rewrite (map_nth (λ i, le_value (take 4 (drop (4 * i) block)))), seq_nth by lia. done. }
  assert (∀ f f' n shifts base i j dj r, (∀ x y z, f x y z = f' x y z) →
    round n f shifts block base i j dj (quad_of r) = quad_of (foldl (rfc_step f' words) r (round_ops n shifts base i j dj))) as Hr
    by (intros; by apply round_steps).
  cbv zeta. rewrite (Hr F round_F), (Hr G round_G), (Hr H round_H), (Hr I round_I); clear Hr.
  - rewrite rounds_ops. clearbody words. destruct r as [[[a b] c] d].
    set (last := foldl (rfc_step round_I words) _ _). clearbody last. destruct last as [[[a' b'] c'] d']. unfold quad_of. cbn [qa qb qc qd]. by rewrite !u32_low32.
  - intros. unfold I, round_I, not32. by rewrite u32_low32.
  - done.
  - intros. unfold G, round_G, not32. by rewrite u32_low32.
  - intros. unfold F, round_F, not32. by rewrite u32_low32.
Qed.

Lemma foldl_compress m l r : length l = (64 * m)%nat → are_bytes l →
  (run l (quad_of r)).1 = quad_of (foldl (λ r i, compress r (take 64 (drop (64 * i)%nat l))) r (seq 0 m)).
Proof.
  revert l r. induction m as [|m IH]; intros l r Hl Hb; [by rewrite run_short by lia|].
  rewrite run_block, md5_transform_rfc by (rewrite ?length_take; lia || by apply Forall_take).
  rewrite IH by (rewrite ?length_drop; lia || by apply Forall_drop).
  rewrite <- cons_seq, <- seq_shift. cbn [foldl]. rewrite Nat.mul_0_r, drop_0.
  generalize (compress r (take 64 l)). clear. induction (seq 0 m) as [|i ks IH]; intros r; [done|]. cbn [map foldl].
  rewrite drop_drop. replace (64 + 64 * i)%nat with (64 * S i)%nat by lia. apply IH.
Qed.

Lemma put_le32_bytes v : put_le32 v = le_bytes 4 v.
Proof.
  unfold put_le32, put_be32, le_bytes, u8. cbn [rev app seq map]. change (256 ^ Z.of_nat 0) with 1. by rewrite Z.div_1_r.
Qed.

Lemma padding_rfc msg : msg ++ padding (length msg) = padded msg.
Proof.
  unfold padded, padding. cbv zeta. f_equal. cbn [app]. f_equal. pose proof (Nat.mod_upper_bound (length msg) 64 ltac:(lia)) as Hr.
  set (r := (length msg `mod` 64)%nat) in *. f_equal.
  - f_equal. destruct (Nat.ltb_spec r 56).
    + replace (119 - r)%nat with (55 - r + 1 * 64)%nat by lia. rewrite Nat.Div0.mod_add. symmetry. apply Nat.mod_small. lia.
    + symmetry. apply Nat.mod_small. lia.
  - rewrite u32_mul_r, <- u32_low32, put_le32_bytes. pose proof (u32_range (8 * Z.of_nat (length msg))) as Hv.
    set (v := u32 _) in *. clearbody v. unfold le_bytes. rewrite (seq_app 4 4), map_app. f_equal.
    cbn [seq map Nat.add]. rewrite !(Z.div_small v) by lia. done.
Qed.

Lemma are_bytes_padded msg : are_bytes msg → are_bytes (padded msg).
Proof.
  intros Hm. unfold padded. repeat (apply Forall_app; split); [done|by repeat constructor|by apply Forall_replicate|].
  apply List.Forall_map, List.Forall_forall. intros i _. apply Z.mod_pos_bound. lia.
Qed.

Lemma length_padded msg : length (padded msg) = (64 * (length (padded msg) / 64))%nat.
Proof.
  assert (length (padded msg) `mod` 64 = 0)%nat as Hm.
  { unfold padded. rewrite !length_app, length_replicate. cbn [length]. unfold le_bytes. rewrite length_map, length_seq.
    pose proof (Nat.div_mod_eq (length msg) 64). pose proof (Nat.mod_upper_bound (length msg) 64 ltac:(lia)) as Hr.
    set (q := (length msg / 64)%nat) in *. set (r := (length msg `mod` 64)%nat) in *.
    destruct (decide (r < 56)%nat).
    - replace (119 - r)%nat with (55 - r + 1 * 64)%nat by lia. rewrite Nat.Div0.mod_add, (Nat.mod_small (55 - r)) by lia.
      replace (length msg + _)%nat with (0 + (q + 1) * 64)%nat by lia. apply Nat.Div0.mod_add.
    - rewrite (Nat.mod_small (119 - r)) by lia. replace (length msg + _)%nat with (0 + (q + 2) * 64)%nat by lia. apply Nat.Div0.mod_add. }
  pose proof (Nat.div_mod_eq (length (padded msg)) 64). lia.
Qed.

Definition reg_ok (r : registers) : Prop :=
  let '(a, b, c, d) := r in 0 <= a < 4294967296 ∧ 0 <= b < 4294967296 ∧ 0 <= c < 4294967296 ∧ 0 <= d < 4294967296.

Lemma compress_ok r block : reg_ok (compress r block).
Proof.
  unfold compress. destruct r as [[[a b] c] d]. destruct (foldl _ _ _) as [[[a' b'] c'] d'].
  unfold reg_ok. rewrite <- !u32_low32. repeat split; apply u32_range.
Qed.

(** the digest of the whole message, block by block, is that of the RFC *)
Lemma md5_spec_rfc msg : are_bytes msg → md5_spec msg = md5_digest msg.
Proof.
  intros Hb. unfold md5_spec, md5_digest, fold_blocks. fold (run (msg ++ padding (length msg)) initstate).
  rewrite padding_rfc. change initstate with (quad_of (0x67452301, 0xefcdab89, 0x98badcfe, 0x10325476)).
  rewrite (foldl_compress _ _ _ (length_padded msg) (are_bytes_padded msg Hb)). cbv zeta.
  set (init := (0x67452301, 0xefcdab89, 0x98badcfe, 0x10325476)).
  set (last := foldl _ init _). assert (reg_ok last) as Hok.
  { unfold last. generalize (seq 0 (length (padded msg) / 64)). intros ks. assert (reg_ok init) as Hi by by_decision.
    clearbody init. clear last. revert init Hi. induction ks as [|i ks IH]; intros r Hi; [done|]. apply IH, compress_ok. }
  clearbody last. destruct last as [[[a b] c] d]. destruct Hok as (Ha & Hb' & Hc & Hd).
  unfold digest_bytes, quad_of. cbn [qa qb qc qd]. by rewrite !put_be32_swap, !put_le32_bytes by done.
Qed.

(** ** [md5_password]

    [crypted] is the buffer the password entry lies in, terminator and room
    included.  The digest is read from the static state before the state is
    reset, so it is passed on by value. *)

(** [md5_init], or the reset of [state] and [length], then the updates, then
    [md5_final] *)
Definition digest_of (chunks : list (list Z)) (st : md5) : list Z * md5 :=
  md5_final (foldl (λ s c, md5_update c s) (md5_init st) chunks).

(** [for (i = keylen; i > 16; i -= 16) md5_update (alt_result, 16);
    md5_update (alt_result, i);] *)
Fixpoint alt_chunks (fuel : nat) (i : Z) (alt : list Z) : list (list Z) :=
  match fuel with
  | O => [take (Z.to_nat i) alt]
  | S fuel => if 16 <? i then alt :: alt_chunks fuel (i - 16) alt else [take (Z.to_nat i) alt]
  end.

(** [for (i = keylen; i > 0; i >>= 1) md5_update (key + ((i & 1) ? keylen : 0), 1);] *)
Fixpoint bit_chunks (fuel : nat) (i : Z) (key : list Z) : list (list Z) :=
  match fuel with
  | O => []
  | S fuel =>
      if 0 <? i
      then [if Z.land i 1 =? 0 then deref key else 0] :: bit_chunks fuel (Z.shiftr i 1) key
      else []
  end.

(** what round [i] of the thousand digests *)
Definition round_chunks (i : Z) (key salt alt : list Z) : list (list Z) :=
  let odd := negb (Z.land i 1 =? 0) in
  [if odd then key else alt] ++
  (if i `mod` 3 =? 0 then [] else [salt]) ++
  (if i `mod` 7 =? 0 then [] else [key]) ++
  [if odd then alt else key].

Fixpoint password_rounds (n : nat) (i : Z) (key salt digest : list Z) (st : md5) : list Z * md5 :=
  match n with
  | O => (digest, st)
  | S n =>
      let '(digest, st) := digest_of (round_chunks i key salt digest) st in
      password_rounds n (i + 1) key salt digest st
  end.

(** the characters of [n] groups of six bits of [w], low bits first *)
Fixpoint encode_word (n : nat) (w : Z) : list Z :=
  match n with
  | O => []
  | S n => byte_at b64t (Z.land w 63) :: encode_word n (Z.shiftr w 6)
  end.

Definition encode_digest (digest : list Z) : list Z :=
  concat (map (λ i,
    encode_word 4
      (Z.lor (Z.lor (byte_at digest (if i =? 4 then 5 else 12 + i))
                    (Z.shiftl (byte_at digest (6 + i)) 8))
             (Z.shiftl (byte_at digest i) 16))) [0; 1; 2; 3; 4]) ++
  encode_word 2 (byte_at digest 11).

(** [if ( *p++ != ...) return 1] for each character, then [return *p] *)
Fixpoint compare_chars (buf : list Z) (p : Z) (cs : list Z) : Z :=
  match cs with
  | [] => byte_at buf p
  | c :: cs => if byte_at buf p =? c then compare_chars buf (p + 1) cs else 1
  end.

(** the result, the buffer and the static state afterwards; [None] when [check]
    is given an entry without a second [$] (the difference with NULL) *)
Definition md5_password (key crypted : list Z) (check : bool) (st : md5)
    : option (Z * list Z * md5) :=
  let keylen := strlen key in
  let salt_str := cstring (drop 3 crypted) in
  let dollar := strstr_ptr salt_str (bs "$") in
  let dist e := Z.of_nat (length salt_str - length e) in
  let saltlen :=
    if check then option_map dist dollar
    else Some (match dollar with
               | Some e => if dist e <? 8 then dist e else 8
               | None => 8
               end) in
  match saltlen with
  | None => None
  | Some saltlen =>
      let crypted := if check then crypted else store crypted (3 + saltlen) [36] in
      let salt := slice crypted 3 saltlen in
      let '(digest, st) := digest_of [key; salt; key] st in
      let alt_result := digest in
      let '(digest, st) :=
        digest_of ([key; slice crypted 0 (3 + saltlen)] ++
                   alt_chunks (Z.to_nat keylen) keylen alt_result ++
                   bit_chunks (Z.to_nat keylen) keylen key) st in
      let '(digest, st) := password_rounds 1000 0 key salt digest st in
      let p := 3 + saltlen + 1 in
      if check then Some (compare_chars crypted p (encode_digest digest), crypted, st)
      else Some (0, store crypted p (encode_digest digest ++ [0]), st)
  end.

Definition md5_static : md5 := Md5 (Quad 0 0 0 0) 0 (replicate 64 0).

(** ** Lemmas on the digests of [md5_password] *)

Lemma md5_update_chunks chunks m st : absorbed m st →
  absorbed (m ++ concat chunks) (foldl (λ s c, md5_update c s) st chunks).
Proof.
  revert m st. induction chunks as [|c cs IH]; intros m st Hs; simpl; [by rewrite app_nil_r|].
  rewrite app_assoc. apply IH. by apply md5_update_absorbed.
Qed.

Lemma absorbed_buffer m st : absorbed m st → length (buffer st) = 64%nat.
Proof. unfold absorbed. destruct (run m initstate). tauto. Qed.

Lemma md5_final_buffer st : length (buffer st) = 64%nat →
  length (buffer (md5_final st).2) = 64%nat.
Proof.
  intros Hb. unfold md5_final. pose proof (Z.mod_pos_bound (length_ st) 64 ltac:(lia)) as Hm.
  rewrite land_63. set (i := length_ st `mod` 64) in *. clearbody i.
  set (buf := store (store _ _ _) _ _).
  assert (length buf = 64%nat) as Hl.
  { unfold buf. rewrite !length_store; rewrite ?length_replicate, ?length_store; simpl; lia. }
  clearbody buf. destruct (56 <? i + 1); cbn [snd buffer];
    rewrite !length_store; rewrite ?length_store, ?length_replicate; simpl; lia.
Qed.

Lemma digest_of_spec chunks st : length (buffer st) = 64%nat →
  (digest_of chunks st).1 = md5_spec (concat chunks) ∧
  length (buffer (digest_of chunks st).2) = 64%nat.
Proof.
  intros Hb. unfold digest_of.
  pose proof (md5_update_chunks chunks [] (md5_init st) (absorbed_init st Hb)) as Ha.
  split; [by apply md5_final_absorbed|]. eapply md5_final_buffer, absorbed_buffer, Ha.
Qed.

Lemma are_bytes_digest msg : are_bytes (md5_digest msg).
Proof.
  assert (∀ n v, are_bytes (le_bytes n v)) as Hle.
  { intros n v. apply List.Forall_map, List.Forall_forall. intros i _. apply Z.mod_pos_bound. lia. }
  unfold md5_digest. cbv zeta. destruct (foldl _ _ _) as [[[a b] c] d]. repeat (apply Forall_app; split); apply Hle.
Qed.

Lemma length_md5_digest msg : length (md5_digest msg) = 16%nat.
Proof. unfold md5_digest. cbv zeta. by destruct (foldl _ _ _) as [[[a b] c] d]. Qed.

Lemma digest_of_rfc chunks st : length (buffer st) = 64%nat → Forall are_bytes chunks →
  (digest_of chunks st).1 = md5_digest (concat chunks) ∧ length (buffer (digest_of chunks st).2) = 64%nat.
Proof.
  intros Hb Hc. destruct (digest_of_spec chunks st Hb) as [-> ?]. split; [|done]. apply md5_spec_rfc.
  by apply List.Forall_concat.
Qed.

(** ** The parts of MD5-crypt *)

Lemma land_1_odd i : negb (Z.land (Z.of_nat i) 1 =? 0) = Nat.odd i.
Proof.
  rewrite land_1. destruct (Nat.Even_or_Odd i) as [[k ->]|[k ->]].
  - rewrite Nat.odd_even. replace (Z.of_nat (2 * k) `mod` 2) with 0; [done|]. Z.div_mod_to_equations. lia.
  - rewrite Nat.odd_odd. replace (Z.of_nat (2 * k + 1) `mod` 2) with 1; [done|]. Z.div_mod_to_equations. lia.
Qed.

Lemma mod_eqb i m : (0 < m)%nat → (Z.of_nat i `mod` Z.of_nat m =? 0) = (i `mod` m =? 0)%nat.
Proof. intros Hm. rewrite <- Nat2Z.inj_mod. destruct (Nat.eqb_spec (i `mod` m) 0); lia. Qed.

Lemma round_chunks_rfc i key salt d :
  md5_digest (concat (round_chunks (Z.of_nat i) key salt d)) = crypt_round key salt d i.
Proof.
  unfold round_chunks, crypt_round. rewrite land_1_odd. rewrite <- (mod_eqb i 3), <- (mod_eqb i 7) by lia.
  f_equal. change (Z.of_nat 3) with 3. change (Z.of_nat 7) with 7.
  destruct (Nat.odd i), (_ =? 0), (_ =? 0); cbn [app concat]; by rewrite ?app_nil_r.
Qed.

Lemma password_rounds_spec n i key salt d st : cstr_ok key → cstr_ok salt → are_bytes d → length (buffer st) = 64%nat →
  (password_rounds n (Z.of_nat i) key salt d st).1 = foldl (crypt_round key salt) d (seq i n).
Proof.
  intros Hk Hs. revert i d st. induction n as [|n IH]; intros i d st Hd Hb; [done|]. cbn [password_rounds seq foldl].
  assert (Forall are_bytes (round_chunks (Z.of_nat i) key salt d)) as Hc.
  { apply cstr_ok_are_bytes in Hk, Hs. unfold round_chunks. cbv zeta.
    repeat case_match; by repeat constructor. }
  destruct (digest_of_rfc _ st Hb Hc) as [Hd1 Hb']. rewrite round_chunks_rfc in Hd1.
  destruct (digest_of _ st) as [d' st']. cbn [fst snd] in *. subst d'.
  replace (Z.of_nat i + 1) with (Z.of_nat (S i)) by lia. apply IH; [|done]. apply are_bytes_digest.
Qed.

(** the loop over the bits of the length *)
Definition binary_digits (key : list Z) (i : nat) : list Z :=
  map (λ j, if Z.testbit (Z.of_nat i) (Z.of_nat j) then 0 else hd 0 key) (seq 0 (if (i =? 0)%nat then 0 else S (Nat.log2 i))%nat).

Lemma bit_chunks_rfc fuel i key : (i <= fuel)%nat → concat (bit_chunks fuel (Z.of_nat i) key) = binary_digits key i.
Proof.
  revert i. induction fuel as [|fuel IH]; intros i Hi; [by replace i with 0%nat by lia|]. cbn [bit_chunks].
  destruct (Z.ltb_spec 0 (Z.of_nat i)) as [Hpos|]; [|by replace i with 0%nat by lia].
  rewrite Z.shiftr_div_pow2 by lia. change (2 ^ 1) with (Z.of_nat 2). rewrite <- Nat2Z.inj_div. cbn [concat app].
  rewrite IH by (pose proof (Nat.div_lt i 2); lia). unfold binary_digits.
  rewrite (proj2 (Nat.eqb_neq i 0)) by lia. rewrite <- (cons_seq (Nat.log2 i)). cbn [map]. f_equal.
  { change (Z.of_nat 0) with 0. rewrite Z.bit0_odd, land_1, Zmod_odd. destruct key; by destruct (Z.odd _). }
  rewrite <- seq_shift, map_map.
  assert ((if (i / 2 =? 0)%nat then 0 else S (Nat.log2 (i / 2)))%nat = Nat.log2 i) as ->.
  { destruct (decide (i = 1)%nat) as [->|]; [done|].
    assert (0 < i / 2)%nat as Hh by (apply Nat.div_str_pos; lia).
    rewrite (proj2 (Nat.eqb_neq (i / 2) 0)), <- Nat.log2_double by lia.
    pose proof (Nat.div_mod_eq i 2). pose proof (Nat.mod_upper_bound i 2 ltac:(lia)).
    apply Nat.le_antisymm; [apply Nat.log2_le_mono; lia|]. destruct (Nat.log2_spec i ltac:(lia)) as [Hlo _].
    apply Nat.log2_le_pow2; [lia|]. destruct (Nat.log2 i) as [|l]; [simpl; lia|]. rewrite Nat.pow_succ_r' in *. lia. }
  apply map_ext. intros j. rewrite Nat2Z.inj_succ, <- Z.div2_bits by lia. by rewrite Nat2Z.inj_div.
Qed.

Lemma encode_word_rfc n w : 0 <= w → encode_word n w = base64 n w.
Proof.
  revert w. induction n as [|n IH]; intros w Hw; [done|]. cbn [encode_word]. unfold base64. rewrite <- cons_seq. cbn [map].
  f_equal.
  - change (64 ^ Z.of_nat 0) with 1. rewrite Z.div_1_r, land_63.
    assert (forallb (λ d, byte_at b64t d =? digit64 d) (map Z.of_nat (seq 0 64)) = true) as Ha by (vm_compute; reflexivity).
    rewrite forallb_forall in Ha. pose proof (Z.mod_pos_bound w 64 ltac:(lia)). apply Z.eqb_eq, Ha.
    replace (w `mod` 64) with (Z.of_nat (Z.to_nat (w `mod` 64))) by lia. apply in_map, in_seq. lia.
  - rewrite Z.shiftr_div_pow2 by lia. change (2 ^ 6) with 64. rewrite IH by (apply Z.div_pos; lia).
    unfold base64. rewrite <- seq_shift, map_map. apply map_ext. intros i.
    rewrite Nat2Z.inj_succ, Z.pow_succ_r by lia. rewrite Z.div_div; [done|lia|apply Z.pow_pos_nonneg; lia].
Qed.

Lemma encode_digest_rfc d : are_bytes d → encode_digest d = encoded d.
Proof.
  intros Hd. unfold encode_digest, encoded.
  assert (∀ i, 0 <= byte_at d i < 256) as Hb by (intros i; by apply byte_at_range).
  assert (∀ i j k, encode_word 4 (Z.lor (Z.lor (byte_at d k) (Z.shiftl (byte_at d j) 8)) (Z.shiftl (byte_at d i) 16)) =
    base64 4 (65536 * byte_at d i + 256 * byte_at d j + byte_at d k)) as Hw.
  { intros i j k. pose proof (Hb i). pose proof (Hb j). pose proof (Hb k).
    rewrite (Z.lor_comm (byte_at d k)), (Z.lor_comm (Z.lor _ _)).
    rewrite (lor_shiftl_add (byte_at d j)) by lia. rewrite lor_shiftl_add by lia.
    rewrite encode_word_rfc by lia. f_equal. lia. }
  cbn [map Z.eqb Pos.eqb]. rewrite !Hw, encode_word_rfc by apply Hb. done.
Qed.

(** the [for] loop digests the first [i] bytes of [alt] repeated *)
Lemma alt_chunks_spec fuel i alt m : length alt = 16%nat → 0 <= i <= Z.of_nat fuel →
  i <= Z.of_nat m * 16 →
  concat (alt_chunks fuel i alt) = take (Z.to_nat i) (concat (replicate m alt)).
Proof.
  intros Ha. revert i m. induction fuel as [|fuel IH]; intros i m Hi Hm.
  - assert (i = 0) as -> by lia. done.
  - simpl. destruct (Z.ltb_spec 16 i).
    + destruct m as [|m]; [lia|]. simpl. rewrite (IH _ m) by lia.
      rewrite take_app_ge by lia. repeat f_equal. lia.
    + simpl. rewrite app_nil_r. destruct m as [|m]; [by replace (Z.to_nat i) with 0%nat by lia|].
      simpl. by rewrite take_app_le by lia.
Qed.

Lemma alt_chunks_bytes fuel i alt : are_bytes alt → Forall are_bytes (alt_chunks fuel i alt).
Proof.
  intros Ha. assert (∀ n, are_bytes (take n alt)) as Ht by (intros n; by apply Forall_take).
  revert i. induction fuel as [|fuel IH]; intros i; simpl; [by repeat constructor|]. case_match; by repeat constructor.
Qed.

Lemma bit_chunks_bytes fuel i key : are_bytes key → Forall are_bytes (bit_chunks fuel i key).
Proof.
  intros Hk. assert (is_byte (deref key)) as Hd by (destruct Hk; [by_decision|done]).
  revert i. induction fuel as [|fuel IH]; intros i; simpl; [constructor|]. case_match; [|constructor].
  constructor; [|apply IH]. apply Forall_singleton. case_match; [done|by_decision].
Qed.

Lemma rounds_bytes key salt d l : are_bytes d → are_bytes (foldl (crypt_round key salt) d l).
Proof. revert d. induction l as [|i l IH]; intros d Hd; [done|]. apply IH, are_bytes_digest. Qed.

Lemma length_digest q : length (digest_bytes q) = 16%nat.
Proof. done. Qed.

Lemma length_md5_spec m : length (md5_spec m) = 16%nat.
Proof. apply length_digest. Qed.

Lemma length_encode_digest d : length (encode_digest d) = 22%nat.
Proof. done. Qed.

(** the characters written are digits of the base-64 alphabet *)
Lemma encode_word_chars n w : Forall is_char (encode_word n w).
Proof.
  revert w. induction n as [|n IH]; intros w; simpl; constructor; [|apply IH].
  rewrite land_63. pose proof (Z.mod_pos_bound w 64 ltac:(lia)) as Hm.
  assert (forallb (λ d, bool_decide (is_char (byte_at b64t d))) (map Z.of_nat (seq 0 64)) = true)
    as Ha by (vm_compute; reflexivity).
  rewrite forallb_forall in Ha. eapply bool_decide_unpack, Is_true_true, Ha.
  replace (w `mod` 64) with (Z.of_nat (Z.to_nat (w `mod` 64))) by lia. apply in_map, in_seq. lia.
Qed.

Lemma encode_digest_chars d : cstr_ok (encode_digest d).
Proof.
  unfold encode_digest, cstr_ok. apply Forall_app. split; [|apply encode_word_chars].
  apply List.Forall_concat, List.Forall_map, List.Forall_forall.
  intros i _. apply encode_word_chars.
Qed.

(** the parts of an entry ["$1$" salt "$" rest] *)
Section entry.
Context (salt rest tl : list Z).
Hypothesis Hsalt : cstr_ok salt.
Hypothesis Hdollar : 36 ∉ salt.

Let crypted := bs "$1$" ++ salt ++ [36] ++ rest ++ tl.

Lemma entry_salt : slice crypted 3 (Z.of_nat (length salt)) = salt.
Proof.
  unfold slice, crypted. rewrite Nat2Z.id. change (Z.to_nat 3) with 3%nat.
  change (bs "$1$") with [36; 49; 36]. simpl. by rewrite take_app_length.
Qed.

Lemma entry_head : slice crypted 0 (3 + Z.of_nat (length salt)) = bs "$1$" ++ salt.
Proof.
  unfold slice, crypted. change (Z.to_nat 0) with 0%nat. rewrite drop_0, app_assoc.
  apply take_app_length'. rewrite length_app. change (length (bs "$1$")) with 3%nat. lia.
Qed.

Lemma dollar_found t : cstr_ok t →
  strstr_ptr (salt ++ 36 :: t) (bs "$") = Some (36 :: t).
Proof.
  intros Ht. rewrite strstr_ptr_spec; [| |by_decision].
  - by apply first_suffix_char.
  - apply cstr_ok_app. split; [done|]. by apply cstr_ok_cons.
Qed.
End entry.

(** the digest part of [md5_password] *)
Lemma password_digest key salt st : cstr_ok key → cstr_ok salt → length (buffer st) = 64%nat →
  let '(d1, st1) := digest_of [key; salt; key] st in
  let '(d2, st2) :=
    digest_of ([key; bs "$1$" ++ salt] ++
               alt_chunks (Z.to_nat (strlen key)) (strlen key) d1 ++
               bit_chunks (Z.to_nat (strlen key)) (strlen key) key) st1 in
  encode_digest (password_rounds 1000 0 key salt d2 st2).1 = crypt_spec key salt.
Proof.
  intros Hkey Hsalt Hb. pose proof (cstr_ok_are_bytes _ Hkey) as Hk. pose proof (cstr_ok_are_bytes _ Hsalt) as Hs.
  destruct (digest_of_rfc [key; salt; key] st Hb) as [H1 Hb1]; [by repeat constructor|].
  destruct (digest_of [key; salt; key] st) as [d1 st1]. cbn [fst snd] in *.
  rewrite strlen_length, Nat2Z.id by exact Hkey.
  assert (are_bytes d1) as Hd1 by (rewrite H1; apply are_bytes_digest).
  destruct (digest_of_rfc ([key; bs "$1$" ++ salt] ++ alt_chunks (length key) (Z.of_nat (length key)) d1 ++
    bit_chunks (length key) (Z.of_nat (length key)) key) st1 Hb1) as [H2 Hb2].
  { repeat (apply Forall_app; split); [|by apply alt_chunks_bytes|by apply bit_chunks_bytes].
    apply Forall_cons_2; [done|]. apply Forall_singleton, Forall_app. by split; [by_decision|]. }
  destruct (digest_of (_ ++ _) st1) as [d2 st2]. cbn [fst snd] in *.
  assert (are_bytes d2) as Hd2 by (rewrite H2; apply are_bytes_digest).
  pose proof (password_rounds_spec 1000 0 key salt d2 st2 Hkey Hsalt Hd2 Hb2) as H3. change (Z.of_nat 0) with 0 in H3.
  rewrite H3. rewrite encode_digest_rfc by (apply rounds_bytes; exact Hd2).
  unfold crypt_spec. cbv zeta.
  enough (d2 = md5_digest (key ++ bs "$1$" ++ salt ++
    take (length key) (concat (replicate (length key) (md5_digest (key ++ salt ++ key)))) ++ length_digits key)) as -> by exact eq_refl.
  rewrite H2. f_equal.
  cbn [app concat]. rewrite concat_app, bit_chunks_rfc by done. rewrite <- app_assoc.
  assert (d1 = md5_digest (key ++ salt ++ key)) as -> by (rewrite H1; cbn [concat]; by rewrite app_nil_r).
  rewrite (alt_chunks_spec _ _ _ (length key) (length_md5_digest _)) by lia. by rewrite Nat2Z.id.
Qed.

Lemma crypt_spec_encoded key salt : ∃ d, crypt_spec key salt = encode_digest d.
Proof.
  unfold crypt_spec. cbv zeta. eexists. symmetry. apply encode_digest_rfc, rounds_bytes, are_bytes_digest.
Qed.

Lemma crypt_spec_chars key salt : cstr_ok (crypt_spec key salt).
Proof. destruct (crypt_spec_encoded key salt) as [d ->]. apply encode_digest_chars. Qed.

Lemma length_crypt_spec key salt : length (crypt_spec key salt) = 22%nat.
Proof. destruct (crypt_spec_encoded key salt) as [d ->]. apply length_encode_digest. Qed.

(** the comparison succeeds exactly when the stored hash is the computed one *)
Lemma compare_chars_spec pre hash tl cs : cstr_ok hash → cstr_ok cs →
  compare_chars (pre ++ hash ++ 0 :: tl) (Z.of_nat (length pre)) cs = 0 ↔ hash = cs.
Proof.
  intros Hh Hcs. revert pre hash Hh. induction Hcs as [|c cs Hc Hcs IH]; intros pre hash Hh; simpl.
  - rewrite <- (Z.add_0_r (Z.of_nat _)), byte_at_app by lia.
    destruct Hh as [|b h Hb Hh]; simpl; [done|]. unfold is_char, byte_at in *. simpl.
    split; [intros; exfalso; lia|done].
  - rewrite <- (Z.add_0_r (Z.of_nat _)), byte_at_app by lia. unfold is_char in *.
    destruct Hh as [|b h Hb Hh]; unfold byte_at; simpl.
    + destruct (Z.eqb_spec 0 c); [lia|]. done.
    + destruct (Z.eqb_spec b c) as [->|]; [|split; [lia|by intros [=]]].
      specialize (IH (pre ++ [c]) h Hh). rewrite length_app, <- app_assoc in IH. cbn [length app] in IH.
      replace (Z.of_nat (length pre) + 0 + 1) with (Z.of_nat (length pre + 1)) by lia.
      rewrite IH. split; [by intros ->|by intros [=]].
Qed.

#[local] Opaque digest_of crypt_spec password_rounds encode_digest.

(** the check of an entry, from any state *)
Lemma password_check key salt hash tl st : cstr_ok key → cstr_ok salt → 36 ∉ salt →
  cstr_ok hash → length (buffer st) = 64%nat →
  ∃ st', md5_password key (bs "$1$" ++ salt ++ 36 :: hash ++ 0 :: tl) true st =
    Some (compare_chars ((bs "$1$" ++ salt ++ [36]) ++ hash ++ 0 :: tl)
            (Z.of_nat (length (bs "$1$" ++ salt ++ [36]))) (crypt_spec key salt),
          bs "$1$" ++ salt ++ 36 :: hash ++ 0 :: tl, st').
Proof.
  intros Hkey Hsalt Hd Hhash Hb. unfold md5_password.
  set (crypted := bs "$1$" ++ salt ++ 36 :: hash ++ 0 :: tl).
  assert (cstring (drop 3 crypted) = salt ++ 36 :: hash) as ->.
  { change (drop 3 crypted) with (salt ++ 36 :: hash ++ 0 :: tl).
    replace (salt ++ 36 :: hash ++ 0 :: tl) with ((salt ++ 36 :: hash) ++ 0 :: tl)
      by (by rewrite <- app_assoc).
    apply cstring_terminated, cstr_ok_app. split; [done|]. by apply cstr_ok_cons. }
  rewrite dollar_found by done. cbn [option_map].
  replace (length (salt ++ 36%Z :: hash) - length (36%Z :: hash))%nat with (length salt)
    by (rewrite length_app; lia).
  assert (crypted = bs "$1$" ++ salt ++ [36] ++ hash ++ 0 :: tl) as Hc by done.
  rewrite Hc, entry_salt, entry_head. rewrite <- Hc.
  pose proof (password_digest key salt st Hkey Hsalt Hb) as Hdig.
  destruct (digest_of [key; salt; key] st) as [d1 st1].
  match goal with |- context [digest_of ?c st1] => destruct (digest_of c st1) as [d2 st2] end.
  destruct (password_rounds 1000 0 key salt d2 st2) as [d3 st3]. cbn [fst] in Hdig.
  exists st3. rewrite Hdig.
  replace (3 + Z.of_nat (length salt) + 1) with (Z.of_nat (length (bs "$1$" ++ salt ++ [36])))
    by (rewrite !length_app; change (length (bs "$1$")) with 3%nat; simpl; lia).
  replace ((bs "$1$" ++ salt ++ [36]) ++ hash ++ 0 :: tl) with crypted
    by (by rewrite Hc, <- !app_assoc). done.
Qed.

(** the entry the [crypt] mode builds *)
Lemma password_crypt key salt room st : cstr_ok key → cstr_ok salt → 36 ∉ salt →
  (length salt <= 8)%nat → (23 <= length room)%nat → are_bytes room → length (buffer st) = 64%nat →
  ∃ st', md5_password key (bs "$1$" ++ salt ++ 36 :: room) false st =
    Some (0, bs "$1$" ++ salt ++ 36 :: crypt_spec key salt ++ 0 :: drop 23 room, st').
Proof.
  intros Hkey Hsalt Hd H8 Hroom Hbytes Hb. unfold md5_password.
  set (crypted := bs "$1$" ++ salt ++ 36 :: room).
  assert (cstring (drop 3 crypted) = salt ++ 36 :: cstring room) as ->.
  { change (drop 3 crypted) with (salt ++ 36 :: room). clear -Hsalt.
    induction Hsalt as [|b s Hb Hs IH]; [done|]. simpl. unfold is_char in Hb.
    destruct (Z.eqb_spec b 0); [lia|]. by rewrite IH. }
  rewrite dollar_found by eauto with cstr.
  replace (length (salt ++ 36%Z :: cstring room) - length (36%Z :: cstring room))%nat with (length salt)
    by (rewrite length_app; lia).
  assert ((if Z.of_nat (length salt) <? 8 then Z.of_nat (length salt) else 8) =
          Z.of_nat (length salt)) as -> by (destruct (Z.ltb_spec (Z.of_nat (length salt)) 8); lia).
  assert (3 + Z.of_nat (length salt) = Z.of_nat (length (bs "$1$" ++ salt))) as Hoff.
  { rewrite length_app. change (length (bs "$1$")) with 3%nat. lia. }
  assert (store crypted (3 + Z.of_nat (length salt)) [36] = crypted) as ->.
  { rewrite Hoff. unfold crypted. rewrite app_assoc. apply (store_app _ [36]). done. }
  assert (crypted = bs "$1$" ++ salt ++ [36] ++ room ++ []) as Hc by (by rewrite app_nil_r).
  rewrite Hc, entry_salt, entry_head. rewrite <- Hc.
  pose proof (password_digest key salt st Hkey Hsalt Hb) as Hdig.
  destruct (digest_of [key; salt; key] st) as [d1 st1].
  match goal with |- context [digest_of ?c st1] => destruct (digest_of c st1) as [d2 st2] end.
  destruct (password_rounds 1000 0 key salt d2 st2) as [d3 st3]. cbn [fst] in Hdig.
  exists st3. rewrite Hdig. do 3 f_equal.
  assert (length (crypt_spec key salt ++ [0]) = 23%nat) as Hl.
  { rewrite length_app. by rewrite length_crypt_spec. }
  replace (3 + Z.of_nat (length salt) + 1) with (Z.of_nat (length ((bs "$1$" ++ salt) ++ [36])))
    by (rewrite length_app; simpl; lia).
  unfold crypted.
  replace (bs "$1$" ++ salt ++ 36 :: room)
    with (((bs "$1$" ++ salt) ++ [36]) ++ take 23 room ++ drop 23 room)
    by (by rewrite take_drop, <- !app_assoc).
  rewrite store_app by (rewrite Hl, length_take; lia). by rewrite <- !app_assoc.
Qed.

(** the static buffer keeps its size *)
Lemma password_rounds_buffer n i key salt d st : length (buffer st) = 64%nat →
  length (buffer (password_rounds n i key salt d st).2) = 64%nat.
Proof.
  revert i d st. induction n as [|n IH]; intros i d st Hb; cbn [password_rounds]; [done|].
  pose proof (proj2 (digest_of_spec (round_chunks i key salt d) st Hb)) as Hr.
  destruct (digest_of _ st) as [d' st']. by apply IH.
Qed.

Lemma md5_password_buffer key crypted check st r c st' : length (buffer st) = 64%nat →
  md5_password key crypted check st = Some (r, c, st') → length (buffer st') = 64%nat.
Proof.
  intros Hb. unfold md5_password. cbv zeta. destruct (if check then _ else _) as [n|]; [|done].
  set (cr := if check then crypted else _).
  pose proof (proj2 (digest_of_spec [key; slice cr 3 n; key] st Hb)) as H1.
  destruct (digest_of [key; slice cr 3 n; key] st) as [d1 st1]. cbn [snd] in H1.
  match goal with |- context [digest_of ?l st1] =>
    pose proof (proj2 (digest_of_spec l st1 H1)) as H2; destruct (digest_of l st1) as [d2 st2] end.
  cbn [snd] in H2.
  pose proof (password_rounds_buffer 1000 0 key (slice cr 3 n) d2 st2 H2) as H3.
  destruct (password_rounds 1000 0 key (slice cr 3 n) d2 st2) as [d3 st3]. cbn [snd] in H3.
  by destruct check; intros [= <- <- <-].
Qed.

(** ** What the digest and the password check promise *)

#[local] Transparent digest_of.

(** C18: feeding a message to [md5_update] in pieces of any sizes, from any earlier
    contents of the static state, and finishing with [md5_final] gives the digest
    of the whole message: the padded message folded block by block. *)
Theorem md5_chunks chunks st : length (buffer st) = 64%nat →
  (md5_final (foldl (λ s c, md5_update c s) (md5_init st) chunks)).1 = md5_spec (concat chunks).
Proof. intros Hb. exact (proj1 (digest_of_spec chunks st Hb)). Qed.

Lemma md5_chunks_witness :
  (md5_final (foldl (λ s c, md5_update c s) (md5_init md5_static) [bs "a"; []; bs "bc"])).1 =
    [0x90; 0x01; 0x50; 0x98; 0x3c; 0xd2; 0x4f; 0xb0;
     0xd6; 0x96; 0x3f; 0x7d; 0x28; 0xe1; 0x7f; 0x72].
Proof. rewrite (md5_chunks [bs "a"; []; bs "bc"] md5_static); by vm_compute. Defined.

(** C7: [md5_password] in check mode accepts an entry ["$1$" salt "$" hash] exactly
    when [hash] is the MD5-crypt hash of the key and the salt as [Md5Ref.crypt_spec]
    defines it, over the MD5 of RFC 1321 and with no definition of the code; it leaves the
    entry unchanged. *)
Theorem md5_password_check key salt hash tl st :
  cstr_ok key → cstr_ok salt → 36 ∉ salt → cstr_ok hash → length (buffer st) = 64%nat →
  ∃ r st', md5_password key (bs "$1$" ++ salt ++ 36 :: hash ++ 0 :: tl) true st =
             Some (r, bs "$1$" ++ salt ++ 36 :: hash ++ 0 :: tl, st') ∧
           (r = 0 ↔ hash = crypt_spec key salt).
Proof.
  intros Hkey Hsalt Hd Hhash Hb.
  destruct (password_check key salt hash tl st) as [st' E]; [done..|].
  eexists _, st'. split; [exact E|]. apply compare_chars_spec; [done|apply crypt_spec_chars].
Qed.

Lemma md5_password_check_witness :
  let entry := bs "$1$" ++ bs "saltstri" ++ 36 :: bs "YMyguxXMBpd2TEZ.vS/3q1" ++ 0 :: [] in
  ∃ st', md5_password (bs "Hello world!") entry true md5_static = Some (0, entry, st').
Proof.
  destruct (md5_password_check (bs "Hello world!") (bs "saltstri") (bs "YMyguxXMBpd2TEZ.vS/3q1") [] md5_static)
    as (r & st' & E & Hr); [by_decision..|reflexivity|].
  exists st'. rewrite E. rewrite (proj2 Hr); [reflexivity|]. symmetry. exact crypt_known.
Defined.

(** an entry made by [md5_password] in crypt mode, from a salt of at most
    eight characters and a buffer with room for the hash, is accepted by its
    check mode for the same key, from any state of the digest. *)
Theorem md5_password_roundtrip key salt room st st1 :
  cstr_ok key → cstr_ok salt → 36 ∉ salt → (length salt <= 8)%nat →
  (23 <= length room)%nat → are_bytes room →
  length (buffer st) = 64%nat → length (buffer st1) = 64%nat →
  ∃ crypted' st' st2, md5_password key (bs "$1$" ++ salt ++ 36 :: room) false st = Some (0, crypted', st') ∧
    md5_password key crypted' true st1 = Some (0, crypted', st2).
Proof.
  intros Hkey Hsalt Hd H8 Hroom Hbytes Hb Hb1.
  destruct (password_crypt key salt room st) as [st' E]; [done..|].
  assert (cstr_ok (crypt_spec key salt)) as Hc by apply crypt_spec_chars.
  destruct (password_check key salt (crypt_spec key salt) (drop 23 room) st1) as [st2 E2]; [done..|].
  eexists _, st', st2. split; [exact E|]. rewrite E2. do 3 f_equal.
  by apply compare_chars_spec.
Qed.

Lemma md5_password_roundtrip_witness :
  ∃ crypted' st' st2,
    md5_password (bs "secret") (bs "$1$" ++ bs "abc" ++ 36 :: replicate 30 0) false md5_static =
      Some (0, crypted', st') ∧
    md5_password (bs "secret") crypted' true md5_static = Some (0, crypted', st2).
Proof. apply md5_password_roundtrip; by_decision || reflexivity. Defined.
