(* ===== verification/Prom.v ===== *)
(** [second/prom.c]: the Open Firmware client interface.  The firmware is an
    interface, [Firmware]; what the loader asks of it and does with the answers is
    modelled: retries, seeks, block reads, the console, line input, memory claims,
    the network packet of [/chosen] and error messages. *)
From S2P Require Import Prelude Ctype CString Numeric Vsprintf Malloc.

(** ** The firmware

    [F] is the firmware's own state.  An answer is the 32-bit word the client
    interface returns, with the bytes it stores in the caller's buffer. *)

Class Firmware (F : Type) := {
  of_finddevice : list Z → F → Z;
  of_getprop : Z → list Z → Z → F → Z * list Z;
  of_getproplen : Z → list Z → F → Z;
  of_setprop : Z → list Z → list Z → F → Z * F;
  of_open : list Z → F → Z * F;
  of_close : Z → F → F;
  of_seek : Z → Z → Z → F → Z * F;
  of_read : Z → Z → F → Z * list Z * F;
  of_write : Z → list Z → F → F;
  of_block_size : Z → F → Z;
  of_load : Z → F → Z * list Z * F;
  of_claim : Z → Z → Z → F → Z * F;
  of_release : Z → Z → F → F;
  of_interpret : list Z → F → F;
  of_milliseconds : F → Z * F;
  of_screen : F → Z * F;
  of_package : Z → F → Z;
  of_set_color : Z → Z → Z → Z → Z → F → F;
  of_enter : F → F;
  of_exit : F → F;
}.

Definition PROM_INVALID_HANDLE : Z := 4294967295.
Definition PROM_CLAIM_MAX_ADDR : Z := 268435456.

(** file errors and device kinds, [include/errors.h] *)
Definition FILE_ERR_OK : Z := 0.
Definition FILE_ERR_EOF : Z := -1.
Definition FILE_ERR_NOTFOUND : Z := -2.
Definition FILE_CANT_SEEK : Z := -3.
Definition FILE_IOERR : Z := -4.
Definition FILE_BAD_PATH : Z := -5.
Definition FILE_ERR_BAD_TYPE : Z := -6.
Definition FILE_ERR_NOTDIR : Z := -7.
Definition FILE_ERR_BAD_FSYS : Z := -8.
Definition FILE_ERR_SYMLINK_LOOP : Z := -9.
Definition FILE_ERR_LENGTH : Z := -10.
Definition FILE_ERR_FSBUSY : Z := -11.
Definition FILE_ERR_BADDEV : Z := -12.
Definition FILE_ERR_NOMEM : Z := -13.
Definition FILE_DEVICE_BLOCK : Z := 1.
Definition FILE_DEVICE_NET : Z := 2.
Definition FILE_DEVICE_ISCSI : Z := 3.

Definition TOK_ISCSI : list Z := bs "iscsi".
Definition TOK_IPV6 : list Z := bs "ipv6".

(** the handles [prom_init] keeps in static variables, and the debug flag *)
Record prom_env := PromEnv {
  prom_stdin : Z;
  prom_stdout : Z;
  prom_chosen : Z;
  prom_options : Z;
  yaboot_debug : bool;
}.

(** the text [printf] builds: the formats of the loader convert what they are
    given *)
Definition format (fmt : list Z) (args : list arg) : list Z := text_of (vsprintf fmt args).

(** ** Console text *)

(** the maximal run of bytes without a newline *)
Fixpoint line_of (s : list Z) : list Z * list Z :=
  match s with
  | [] => ([], [])
  | c :: r => if (c =? 0) || (c =? 10) then ([], s)
              else let '(l, t) := line_of r in (c :: l, t)
  end.

Definition crlf : list Z := [13; 10].

(** the writes of [prom_puts], in order *)
Fixpoint puts_writes (fuel : nat) (p : list Z) : result Empty_set (list (list Z)) :=
  match fuel with
  | O => Fuel
  | S fuel =>
      if deref p =? 0 then Ok []
      else
        let '(l, q) := line_of p in
        let w := match l with [] => [] | _ => [l] end in
        let '(w, q) := if deref q =? 0 then (w, q) else (w ++ [crlf], tail q) in
        match puts_writes fuel q with
        | Ok ws => Ok (w ++ ws)
        | Err e => Err e
        | Fuel => Fuel
        end
  end.

(** what reaches the screen: a newline becomes carriage return and newline *)
Definition screen (s : list Z) : list Z :=
  concat (map (λ c, if c =? 10 then crlf else [c]) s).

Section firmware.
Context {F : Type} `{Firmware F}.
Context (env : prom_env).

(** ** Device nodes *)

Definition prom_finddevice (name : list Z) (f : F) : Z := of_finddevice name f.
Definition prom_getprop (pack : Z) (name : list Z) (len : Z) (f : F) : Z * list Z :=
  let '(r, m) := of_getprop pack name len f in (s32 r, m).
Definition prom_getproplen (pack : Z) (name : list Z) (f : F) : Z := s32 (of_getproplen pack name f).

Definition prom_get_chosen (name : list Z) (len : Z) (f : F) : Z * list Z :=
  prom_getprop (prom_chosen env) name len f.

Definition prom_get_options (name : list Z) (len : Z) (f : F) : Z * list Z :=
  if prom_options env =? PROM_INVALID_HANDLE then (-1, [])
  else prom_getprop (prom_options env) name len f.

Definition prom_set_options (name mem : list Z) (f : F) : Z * F :=
  if prom_options env =? PROM_INVALID_HANDLE then (-1, f)
  else let '(r, f) := of_setprop (prom_options env) name mem f in (s32 r, f).

(** ** Console output *)

Definition prom_write (file : Z) (buf : list Z) (f : F) : F := of_write file buf f.

Definition prom_puts (file : Z) (s : list Z) (f : F) : F :=
  match puts_writes (S (length s)) s with
  | Ok ws => foldl (λ f w, prom_write file w f) f ws
  | _ => f
  end.

Definition prom_putchar (c : Z) (f : F) : F :=
  if c =? 10 then prom_write (prom_stdout env) crlf f else prom_write (prom_stdout env) [u8 c] f.

Definition prom_printf (fmt : list Z) (args : list arg) (f : F) : F :=
  prom_puts (prom_stdout env) (format fmt args) f.

Definition prom_debug (fmt : list Z) (args : list arg) (f : F) : F :=
  if yaboot_debug env then prom_printf fmt args f else f.

Definition prom_exit (f : F) : F := of_exit f.

Definition prom_abort (fmt : list Z) (args : list arg) (f : F) : F :=
  prom_exit (prom_printf fmt args f).

(** the device kind, or [None] when the terminator is stored outside [tmp]: the
firmware answers with the length of the property, not of the copy *)
Definition prom_get_devtype (device : list Z) (f : F) : option Z * F :=
  match strstr_ptr device TOK_ISCSI with
  | Some _ => (Some FILE_DEVICE_ISCSI, f)
  | None =>
    let dev := prom_finddevice device f in
    if dev =? PROM_INVALID_HANDLE then (Some FILE_ERR_BADDEV, f)
    else
      let '(result, mem) := prom_getprop dev (bs "device_type") 63 f in
      if result =? -1 then
        (Some FILE_ERR_BADDEV,
         prom_printf (bs "can't get <device_type> for device: %s" ++ [10]) [AStr (Some device)] f)
      else if (result <? 0) || (63 <? result) then (None, f)
      else
        let tmp := cstring (take (Z.to_nat result) mem) in
        if strcmp tmp (bs "block") =? 0 then (Some FILE_DEVICE_BLOCK, f)
        else if strcmp tmp (bs "network") =? 0 then (Some FILE_DEVICE_NET, f)
        else (Some FILE_ERR_BADDEV,
              prom_printf (bs "Unkown device type <%s>" ++ [10]) [AStr (Some tmp)] f)
  end.

(** ** Files *)

Definition prom_open (spec : list Z) (f : F) : Z * F := of_open spec f.
Definition prom_close (file : Z) (f : F) : F := of_close file f.

(** [while (--retries)]: [n] tries left *)
Fixpoint read_retry (tries : nat) (file n : Z) (f : F) : Z * list Z * F :=
  match tries with
  | O => (0, [], f)
  | S tries =>
    let '(result, buf, f) := of_read file n f in
    if negb (s32 result =? 0) then (s32 result, buf, f)
    else read_retry tries file n (of_interpret (bs " 10 ms") f)
  end.

Definition prom_read (file n : Z) (f : F) : Z * list Z * F :=
  if n =? 0 then (0, [], f) else read_retry 9 file n f.

Definition prom_seek (file pos : Z) (f : F) : Z * F :=
  let '(status, f) := of_seek file 0 (u32 pos) f in
  let status := s32 status in
  ((if (status =? 0) || (status =? 1) then 1 else 0), f).

Definition prom_lseek (file pos : Z) (f : F) : Z * F :=
  let '(status, f) := of_seek file (u32 (Z.shiftr pos 32)) (u32 (Z.land pos 4294967295)) f in
  let status := s32 status in
  ((if (status =? 0) || (status =? 1) then 1 else 0), f).

(** the size and the bytes stored at the address given *)
Definition prom_loadmethod (device : Z) (f : F) : Z * list Z * F :=
  let '(n, b, f) := of_load device f in (s32 n, b, f).

Definition prom_getblksize (file : Z) (f : F) : Z := s32 (of_block_size file f).

(** the result and the bytes in [buffer] *)
Definition prom_readblocks (dev blockNum blockCount : Z) (f : F) : Z * list Z * F :=
  let blksize := u32 (prom_getblksize dev f) in
  let blksize := if blksize <=? 1 then 512 else blksize in
  let '(status, f) := prom_seek dev (u32 (blockNum * blksize)) f in
  if negb (status =? 1) then (0, [], f)
  else
  let '(status, buf, f) := prom_read dev (u32 (blockCount * blksize)) f in
  ((if u32 status =? u32 (blockCount * blksize) then 1 else 0), buf, f).

(** ** Console input *)

(** the busy wait of [prom_getchar], for [fuel] reads; [None] when no key has come *)
Fixpoint prom_getchar (fuel : nat) (f : F) : option Z * F :=
  match fuel with
  | O => (None, f)
  | S fuel =>
    let '(a, buf, f) := of_read (prom_stdin env) 1 f in
    if s32 a =? 0 then prom_getchar fuel f
    else if s32 a =? -1 then (Some (s8 (deref buf)), prom_abort (bs "EOF on console" ++ [10]) [] f)
    else (Some (s8 (deref buf)), f)
  end.

Definition prom_nbgetchar (f : F) : Z * F :=
  let '(a, buf, f) := of_read (prom_stdin env) 1 f in
  ((if 0 <? s32 a then s8 (deref buf) else -1), f).

(** one key of [prom_readline]: [buf] are the bytes kept so far *)
Definition readline_key (c : Z) (buf : list Z) (f : F) : list Z * F :=
  if c =? 8 then
  match buf with
  | [] => (buf, prom_putchar 7 f)
  | _ => (take (length buf - 1) buf, prom_puts (prom_stdout env) [8; 32; 8] f)
  end
  else if isprint c then (buf ++ [u8 c], prom_putchar c f)
  else (buf, prom_putchar 7 f).

(** the loop, for [fuel] keys *)
Fixpoint readline_loop (fuel : nat) (len : Z) (buf : list Z) (f : F) : option (list Z) * F :=
  match fuel with
  | O => (None, f)
  | S fuel =>
    if negb (Z.of_nat (length buf) <? len - 1) then (Some buf, f)
    else
      match prom_getchar (S fuel) f with
      | (None, f) => (None, f)
      | (Some c, f) =>
          if c =? 13 then (Some buf, f)
          else let '(buf, f) := readline_key c buf f in readline_loop fuel len buf f
      end
  end.

Definition prom_readline (fuel : nat) (prompt : option (list Z)) (len : Z) (f : F)
  : option (list Z) * F :=
  let f := match prompt with Some p => prom_puts (prom_stdout env) p f | None => f end in
  match readline_loop fuel len [] f with
  | (Some buf, f) => (Some buf, prom_putchar 10 f)
  | (None, f) => (None, f)
  end.

(** ** Memory *)

Definition claim_step : Z := 1048576 / 4.

Fixpoint claim_up (fuel : nat) (addr size : Z) (f : F) : result Empty_set Z * F :=
  match fuel with
  | O => (Fuel, f)
  | S fuel =>
    if addr <=? PROM_CLAIM_MAX_ADDR then
      let '(found, f) := of_claim addr size 0 f in
      if negb (found =? PROM_INVALID_HANDLE) then
        (Ok found, prom_debug (bs "claim of 0x%x at 0x%x returned 0x%x" ++ [10])
                     [AInt size; AInt addr; AInt found] f)
      else claim_up fuel (u32 (addr + claim_step)) size f
    else (Ok PROM_INVALID_HANDLE, f)
  end.

Definition claim_fuel : nat := Z.to_nat (PROM_CLAIM_MAX_ADDR / claim_step + 2).

Definition prom_claim_chunk (virt size : Z) (f : F) : result Empty_set Z * F :=
  match claim_up claim_fuel virt size f with
  | (Ok r, f) =>
    (Ok r, if r =? PROM_INVALID_HANDLE
           then prom_printf (bs "ERROR: claim of 0x%x in range 0x%x-0x%x failed" ++ [10])
                  [AInt size; AInt virt; AInt PROM_CLAIM_MAX_ADDR] f
           else f)
  | r => r
  end.

Fixpoint claim_down (fuel : nat) (addr size : Z) (f : F) : result Empty_set Z * F :=
  match fuel with
  | O => (Fuel, f)
  | S fuel =>
    if size <=? addr then
      let '(found, f) := of_claim addr size 0 f in
      if negb (found =? PROM_INVALID_HANDLE) then
        (Ok found, prom_debug (bs "claim of 0x%x at 0x%x returned 0x%x" ++ [10])
                     [AInt size; AInt addr; AInt found] f)
      else claim_down fuel (u32 (addr - claim_step)) size f
    else (Ok PROM_INVALID_HANDLE, f)
  end.

Definition prom_claim_chunk_top (size : Z) (f : F) : result Empty_set Z * F :=
  match claim_down claim_fuel PROM_CLAIM_MAX_ADDR size f with
  | (Ok r, f) =>
    (Ok r, if r =? PROM_INVALID_HANDLE
           then prom_printf (bs "ERROR: claim of 0x%x in range 0x0-0x%x failed" ++ [10])
                  [AInt size; AInt PROM_CLAIM_MAX_ADDR] f
           else f)
  | r => r
  end.

Definition prom_claim (virt size align : Z) (f : F) : Z * F :=
  let '(ret, f) := of_claim virt size align f in
  (ret,
   if ret =? PROM_INVALID_HANDLE
   then prom_printf (bs "ERROR: claim of 0x%x at 0x%x failed" ++ [10]) [AInt size; AInt virt] f
   else prom_debug (bs "claim of 0x%x at 0x%x returned 0x%x" ++ [10])
        [AInt size; AInt virt; AInt ret] f).

Definition prom_release (virt size : Z) (f : F) : F :=
  prom_debug (bs "release of 0x%x at 0x%x returned 0x%x" ++ [10])
  [AInt size; AInt virt; AInt 0] (of_release virt size f).

(** ** Time and commands *)

Definition prom_interpret (forth : list Z) (f : F) : F := of_interpret forth f.

Definition prom_getms (f : F) : Z * F := let '(t, f) := of_milliseconds f in (s32 t, f).

(** [while (prom_getms() <= end);], for [fuel] reads of the clock *)
Fixpoint wait_until (fuel : nat) (end_ : Z) (f : F) : result Empty_set unit * F :=
  match fuel with
  | O => (Fuel, f)
  | S fuel => let '(t, f) := prom_getms f in if t <=? end_ then wait_until fuel end_ f else (Ok tt, f)
  end.

Definition prom_sleep (fuel : nat) (seconds : Z) (f : F) : result Empty_set unit * F :=
  let '(t, f) := prom_getms f in wait_until fuel (s32 (t + seconds * 1000)) f.

(** the display a Mac keeps, 0 when there is none *)
Definition prom_screen (f : F) : Z * F := of_screen f.

Definition prom_set_color (device color r g b : Z) (f : F) : F := of_set_color device color r g b f.

(** ** Boot arguments *)

(** [None] when the terminator is stored outside [args], as when there is no
[bootargs] property *)
Definition prom_getargs (f : F) : option (list Z) :=
  let '(l, mem) := prom_get_chosen (bs "bootargs") 255 f in
  if (l <? 0) || (255 <? l) then None else Some (cstring (take (Z.to_nat l) mem)).

Definition prom_setargs (args : list Z) (f : F) : F :=
  let l := strlen args + 1 in
  let '(r, f) := of_setprop (prom_chosen env) (bs "bootargs") (strcpy args) f in
  if negb (s32 r =? l) then prom_printf (bs "can't set args" ++ [10]) [] f else f.

(** ** The packet of a network boot *)

Definition bootp_response_properties : list (list Z * Z) :=
  [(bs "bootp-response", 0); (bs "dhcp-response", 0); (bs "bootpreply-packet", 42)].

(** [offsetof(struct bootp_packet, options)] *)
Definition packet_size : Z := 236.

(** the [for] loop: the size found last, with the property and its offset *)
Fixpoint find_response (props : list (list Z * Z)) (chosen : Z) (f : F) : Z * list Z * Z :=
  match props with
  | [] => (0, [], 0)
  | (propname, offset) :: props =>
    let size := prom_getproplen chosen propname f in
    if size <=? 0 then find_response props chosen f else (size, propname, offset)
  end.

(** the packet: the bytes of the property from the packet on.  [chosen < 0] never
holds of a pointer; the comparison of [packet_size] is unsigned. *)
Definition prom_get_netinfo (h : heap) (f : F) : option (list Z) * heap * F :=
  let chosen := prom_finddevice (bs "/chosen") f in
  let '(size, propname, offset) := find_response bootp_response_properties chosen f in
  if size <=? 0 then (None, h, f)
  else if u32 (size - offset) <? packet_size then
  (None, h, prom_printf (bs "Malformed %s property?" ++ [10]) [AStr (Some propname)] f)
  else
  let '(bootp_response, h) := malloc size h in
  if bootp_response =? 0 then (None, h, f)
  else
    let '(r, mem) := prom_getprop chosen propname size f in
    if r <? 0 then (None, h, f) else (Some (drop (Z.to_nat offset) mem), h, f).

(** the fields [hlen], [chaddr] and [yiaddr] of a packet *)
Definition packet_hlen (packet : list Z) : Z := byte_at packet 2.
Definition packet_chaddr (packet : list Z) (i : Z) : Z := byte_at packet (28 + i).
Definition packet_yiaddr (packet : list Z) : Z := be32 packet 16.

Definition mac_text (packet : list Z) : list Z :=
  format (bs "%02x") [AInt (packet_chaddr packet 0)] ++
  concat (map (λ i, format (bs "-%02x") [AInt (packet_chaddr packet (Z.of_nat i))])
          (seq 1 (Z.to_nat (packet_hlen packet) - 1))).

Definition prom_get_mac (packet : option (list Z)) (h : heap) : option (list Z) * heap :=
  match packet with
  | None => (None, h)
  | Some packet =>
    let '(conf_path, h) := malloc (packet_hlen packet * 3 + 1) h in
    if conf_path =? 0 then (None, h) else (Some (mac_text packet), h)
  end.

Definition prom_get_ip (packet : option (list Z)) (h : heap) : option (list Z) * heap :=
  match packet with
  | None => (None, h)
  | Some packet =>
    let '(conf_path, h) := malloc 9 h in
    if conf_path =? 0 then (None, h)
    else (Some (format (bs "%08x") [AInt (packet_yiaddr packet)]), h)
  end.

(** ** Messages *)

Definition perror_format (error : Z) : list Z :=
  if error =? FILE_ERR_EOF then bs "%s: Unexpected End Of File"
  else if error =? FILE_ERR_NOTFOUND then bs "%s: No such file or directory"
  else if error =? FILE_CANT_SEEK then bs "%s: Seek error"
  else if error =? FILE_IOERR then bs "%s: Input/output error"
  else if error =? FILE_BAD_PATH then bs "%s: Path too long"
  else if error =? FILE_ERR_BAD_TYPE then bs "%s: Not a regular file"
  else if error =? FILE_ERR_NOTDIR then bs "%s: Not a directory"
  else if error =? FILE_ERR_BAD_FSYS then bs "%s: Unknown or corrupt filesystem"
  else if error =? FILE_ERR_SYMLINK_LOOP then bs "%s: Too many levels of symbolic links"
  else if error =? FILE_ERR_LENGTH then bs "%s: File too large"
  else if error =? FILE_ERR_FSBUSY then bs "%s: Filesystem busy"
  else if error =? FILE_ERR_BADDEV then bs "%s: Unable to open file, Invalid device"
  else bs "%s: Unknown error".

Definition prom_perror (error : Z) (filename : list Z) (f : F) : F :=
  prom_printf (perror_format error ++ [10]) [AStr (Some filename)] f.

(** ** Available memory *)

Definition NR_AVAILABLE : Z := 128.

(** a cell of the device tree read into a variable that holds [dflt] *)
Definition prom_cell (pack : Z) (name : list Z) (dflt : Z) (f : F) : Z :=
  let '(r, mem) := prom_getprop pack name 4 f in
  if (4 <=? Z.of_nat (length mem)) then be32 mem 0 else dflt.

(** the [while (len > 0)] loop over the words of [available] from index [p]; an
index outside the array is an error *)
Fixpoint available_loop (fuel : nat) (available : list Z) (addr_cells size_cells p len : Z)
  (f : F) : result unit unit * F :=
  match fuel with
  | O => (Fuel, f)
  | S fuel =>
    if len =? 0 then (Ok tt, f)
    else
      let p1 := p + (addr_cells - 1) in
      let p2 := p1 + 1 + (size_cells - 1) in
      if (p1 <? 0) || (NR_AVAILABLE <=? p1) || (p2 <? 0) || (NR_AVAILABLE <=? p2) then (Err tt, f)
      else
        let addr := be32 available (4 * p1) in
        let size := be32 available (4 * p2) in
        let f :=
          if negb (size =? 0) then
            prom_printf (bs "0x%08x-0x%08x (%3d MB)" ++ [10])
              [AInt addr; AInt (u32 (addr + size)); AInt (size / 1024 / 1024)] f
          else f in
        available_loop fuel available addr_cells size_cells (p2 + 1)
          (u32 (len - u32 (addr_cells + size_cells))) f
  end.

Definition prom_print_available (f : F) : result unit unit * F :=
  if negb (yaboot_debug env) then (Ok tt, f)
  else
  let root := prom_finddevice (bs "/") f in
  if root =? 0 then (Ok tt, f)
  else
    let addr_cells := prom_cell root (bs "#address-cells") 2 f in
    let size_cells := prom_cell root (bs "#size-cells") 1 f in
    let mem := prom_finddevice (bs "/memory@0") f in
    if mem =? PROM_INVALID_HANDLE then (Ok tt, f)
    else
      let '(len, available) := prom_getprop mem (bs "available") (4 * NR_AVAILABLE) f in
      if len =? -1 then (Ok tt, f)
      else
        let f := prom_printf ([10] ++ bs "Available memory ranges:" ++ [10]) [] f in
        match available_loop 130 available addr_cells size_cells 0 (u32 len / 4) f with
        | (Ok _, f) => (Ok tt, prom_printf [10] [] f)
        | r => r
        end.

Definition prom_pause (f : F) : result unit unit * F :=
  match prom_print_available f with
  | (Ok _, f) => (Ok tt, of_enter f)
  | r => r
  end.
End firmware.

(** ** The console *)

Lemma line_of_spec s : cstr_ok s →
  let '(l, q) := line_of s in
  s = l ++ q ∧ Forall (λ c, c ≠ 10) l ∧ (deref q = 0 → q = []) ∧ (deref q ≠ 0 → deref q = 10) ∧
  (length q <= length s)%nat.
Proof.
  induction 1 as [|c s Hc Hs IH]; simpl; [repeat split; done|].
  unfold is_char in Hc. destruct (Z.eqb_spec c 0); [lia|].
  destruct (Z.eqb_spec c 10); simpl.
  - repeat split; [constructor|lia|done|lia].
  - destruct (line_of s) as [l q]. destruct IH as (-> & Hl & H0 & H10 & Hlen).
    repeat split; [by constructor|done|done|simpl in *; lia].
Qed.

Lemma screen_line l : Forall (λ c, c ≠ 10) l → screen l = l.
Proof.
  induction 1 as [|c l Hc Hl IH]; [done|]. unfold screen in *. simpl.
  destruct (Z.eqb_spec c 10); [done|]. simpl. by rewrite IH.
Qed.

Lemma screen_app a b : screen (a ++ b) = screen a ++ screen b.
Proof. unfold screen. by rewrite map_app, concat_app. Qed.

Lemma puts_writes_spec fuel s : cstr_ok s → (length s < fuel)%nat →
  ∃ ws, puts_writes fuel s = Ok ws ∧ concat ws = screen s ∧
        Forall (λ w, w = crlf ∨ (w ≠ [] ∧ Forall (λ c, c ≠ 10) w)) ws.
Proof.
  revert s. induction fuel as [|fuel IH]; intros s Hs Hf; [lia|]. cbn [puts_writes].
  destruct s as [|c s]; [exists []; done|].
  pose proof Hs as Hs'. apply cstr_ok_cons in Hs' as [Hc _]. unfold is_char in Hc. simpl deref.
  destruct (Z.eqb_spec c 0); [lia|].
  pose proof (line_of_spec (c :: s) Hs) as Hl.
  assert (line_of (c :: s) = ([], c :: s) → c = 10) as Hne.
  { simpl. destruct (Z.eqb_spec c 0); [lia|]. destruct (Z.eqb_spec c 10); [done|]. simpl.
    by destruct (line_of s). }
  destruct (line_of (c :: s)) as [l q]. destruct Hl as (E & Hl & H0 & H10 & Hlen).
  assert (cstr_ok q) as Hq by (rewrite E in Hs; by apply cstr_ok_app in Hs as [_ ?]).
  destruct (Z.eqb_spec (deref q) 0) as [Hd|Hd].
  - rewrite (H0 Hd) in *. rewrite app_nil_r in E. subst l.
    destruct fuel as [|fuel]; [simpl in Hf; lia|]. cbn [puts_writes deref].
    eexists. split; [done|]. rewrite !app_nil_r, screen_line by done. simpl.
    split; [by rewrite app_nil_r|]. constructor; [by right|constructor].
  - destruct q as [|b q]; [done|]. simpl in *. rewrite (H10 Hd) in *.
    apply cstr_ok_cons in Hq as [_ Hq].
    assert (length (c :: s) = length l + S (length q))%nat as Hlq by (rewrite E; rewrite length_app; done).
    simpl in Hlq. destruct (IH q Hq ltac:(lia)) as (ws & -> & Hws & Hall).
    eexists. split; [done|]. rewrite E, !concat_app, screen_app, (screen_line l), Hws by done.
    change (screen (10 :: q)) with (crlf ++ screen q). destruct l as [|x l]; simpl.
    + split; [done|]. constructor; [by left|done].
    + rewrite app_nil_r, <- app_assoc. split; [done|].
      constructor; [by right|]. constructor; [by left|done].
Qed.

(** ** Claims *)

Section claims.
Context {F : Type} `{Firmware F}.
Context (env : prom_env).

(** the search going up ends, at an address it tried or with the invalid handle *)
Lemma claim_up_spec fuel addr size (f : F) :
  0 <= addr <= PROM_CLAIM_MAX_ADDR + claim_step →
  PROM_CLAIM_MAX_ADDR + claim_step - addr < Z.of_nat fuel * claim_step →
  ∃ r f', claim_up env fuel addr size f = (Ok r, f') ∧
  (r = PROM_INVALID_HANDLE ∨
   ∃ k g, 0 <= k ∧ addr + k * claim_step <= PROM_CLAIM_MAX_ADDR ∧
          (of_claim (addr + k * claim_step) size 0 g).1 = r).
Proof.
  unfold PROM_CLAIM_MAX_ADDR. change claim_step with 262144.
  revert addr f. induction fuel as [|fuel IH]; intros addr f Ha Hf; [lia|].
  cbn [claim_up]. unfold PROM_CLAIM_MAX_ADDR. change claim_step with 262144.
  destruct (Z.leb_spec addr 268435456); [|by eexists _, _; split; [|left]].
  destruct (of_claim addr size 0 f) as [found f'] eqn:E.
  destruct (Z.eqb_spec found PROM_INVALID_HANDLE) as [->|Hne]; simpl.
  - destruct (IH (u32 (addr + 262144)) f') as (r & g & -> & Hr); rewrite ?u32_small by lia; [lia..|].
  eexists _, _. split; [done|]. destruct Hr as [->|(k & g' & Hk & Hle & Hc)]; [by left|right].
  exists (k + 1), g'. rewrite u32_small in Hle, Hc by lia.
  replace (addr + (k + 1) * 262144) with (addr + 262144 + k * 262144) by lia. split; [lia|done].
  - eexists _, _. split; [done|]. right. exists 0, f.
  replace (addr + 0 * 262144) with addr by lia. rewrite E. split; [lia|]. done.
Qed.

(** the search going down *)
Lemma claim_down_spec fuel addr size (f : F) :
  0 < size → 0 <= addr <= PROM_CLAIM_MAX_ADDR → addr mod claim_step = 0 →
  addr < Z.of_nat fuel * claim_step →
  ∃ r f', claim_down env fuel addr size f = (Ok r, f') ∧
  (r = PROM_INVALID_HANDLE ∨
   ∃ k g, 0 <= k ∧ size <= addr - k * claim_step ∧
          (of_claim (addr - k * claim_step) size 0 g).1 = r).
Proof.
  unfold PROM_CLAIM_MAX_ADDR. change claim_step with 262144.
  intros Hs. revert addr f. induction fuel as [|fuel IH]; intros addr f Ha Hm Hf; [lia|].
  cbn [claim_down]. change claim_step with 262144.
  destruct (Z.leb_spec size addr); [|by eexists _, _; split; [|left]].
  assert (262144 <= addr) as Hge by (Z.div_mod_to_equations; lia).
  assert ((addr - 262144) mod 262144 = 0) as Hm' by (Z.div_mod_to_equations; lia).
  destruct (of_claim addr size 0 f) as [found f'] eqn:E.
  destruct (Z.eqb_spec found PROM_INVALID_HANDLE) as [->|Hne]; simpl.
  - rewrite u32_small by lia.
  destruct (IH (addr - 262144) f') as (r & g & -> & Hr); [lia|done|lia|].
  eexists _, _. split; [done|]. destruct Hr as [->|(k & g' & Hk & Hle & Hc)]; [by left|right].
  exists (k + 1), g'.
  replace (addr - (k + 1) * 262144) with (addr - 262144 - k * 262144) by lia. split; [lia|done].
  - eexists _, _. split; [done|]. right. exists 0, f.
  replace (addr - 0 * 262144) with addr by lia. rewrite E. split; [lia|]. done.
Qed.
End claims.

(** ** Waiting

    [clock] is the time of the firmware in milliseconds; reading it leads to the state
    [next].  It never goes back, advances by at most [step] between two reads, and
    advances at last. *)
Section waiting.
Context {F : Type} `{Firmware F}.
Context (clock : F → Z) (next : F → F) (step : Z).

Definition clock_read : Prop := ∀ g, of_milliseconds g = (u32 (clock g), next g).
Definition clock_runs : Prop := ∀ g, clock g <= clock (next g) <= clock g + step.
Definition clock_advances : Prop := ∀ g, ∃ n, clock g < clock (Nat.iter n next g).

Lemma prom_getms_read f : clock_read → -2147483648 <= clock f < 2147483648 →
  prom_getms f = (clock f, next f).
Proof.
  intros Hr Hc. unfold prom_getms. rewrite Hr, s32_u32, s32_small; [done|]. unfold INT_MIN, INT_MAX. lia.
Qed.

Lemma clock_unbounded f t : clock_advances → ∃ n, t < clock (Nat.iter n next f).
Proof.
  intros Ha. destruct (Z.lt_ge_cases t (clock f)) as [?|Hge]; [by exists 0%nat|].
  assert (∀ d : nat, ∃ n, clock f + Z.of_nat d <= clock (Nat.iter n next f)) as Hd.
  { induction d as [|d [n IH]]; [exists 0%nat; simpl; lia|].
  destruct (Ha (Nat.iter n next f)) as [m Hm]. exists (m + n)%nat. rewrite Nat.iter_add. lia. }
  destruct (Hd (S (Z.to_nat (t - clock f)))) as [n Hn]. exists n. lia.
Qed.

Lemma wait_until_ends n end_ f : clock_read → clock_runs →
  0 <= clock f <= end_ + step → end_ + step < 2147483648 →
  end_ < clock (Nat.iter n next f) →
  ∃ fuel f', wait_until fuel end_ f = (Ok tt, f') ∧ end_ < clock f'.
Proof.
  intros Hr Hs. revert f. induction n as [|n IH]; intros f Hc He Hn.
  - exists 1%nat, (next f). simpl in *. rewrite prom_getms_read by (done || lia).
  destruct (Z.leb_spec (clock f) end_); [lia|]. split; [done|]. specialize (Hs f). lia.
  - destruct (Z.leb_spec (clock f) end_) as [Hle|Hgt].
  + rewrite Nat.iter_succ_r in Hn. destruct (IH (next f)) as (fuel & f' & E & Hf'); [specialize (Hs f); lia|lia|done|].
    exists (S fuel), f'. split; [|done]. simpl. rewrite prom_getms_read by (done || lia).
    by rewrite (proj2 (Z.leb_le _ _) Hle).
  + exists 1%nat, (next f). simpl. rewrite prom_getms_read by (done || lia).
    destruct (Z.leb_spec (clock f) end_); [lia|]. split; [done|]. specialize (Hs f). lia.
Qed.
End waiting.

(** ** A firmware to evaluate with: a static device tree, a script of keys and a
    screen.  A property is answered with its length and copied as far as it fits. *)

Record script := Script {
  sc_nodes : list (list Z * Z);
  sc_props : list ((Z * list Z) * list Z);
  sc_keys : list Z;
  sc_shown : list Z;
  sc_commands : list (list Z);
  sc_clock : Z;
}.

Definition assoc {A} `{EqDecision A} {B} (k : A) (l : list (A * B)) : option B :=
  snd <$> list_find (λ p, p.1 = k) l ≫= λ q, Some q.2.

Definition show (t : list Z) (s : script) : script :=
  Script (sc_nodes s) (sc_props s) (sc_keys s) (sc_shown s ++ t) (sc_commands s) (sc_clock s).

#[export] Instance script_firmware : Firmware script := {|
    of_finddevice name s := default PROM_INVALID_HANDLE (assoc name (sc_nodes s));
    of_getprop h name len s :=
      match assoc (h, name) (sc_props s) with
      | Some v => (Z.of_nat (length v), take (Z.to_nat len) v)
      | None => (PROM_INVALID_HANDLE, [])
      end;
    of_getproplen h name s :=
      match assoc (h, name) (sc_props s) with
      | Some v => Z.of_nat (length v)
      | None => PROM_INVALID_HANDLE
      end;
    of_setprop h name v s := (Z.of_nat (length v), s);
    of_open _ s := (0, s);
    of_close _ s := s;
    of_seek _ _ _ s := (0, s);
    of_read _ _ s :=
      match sc_keys s with
      | [] => (0, [], s)
      | k :: ks => (1, [u8 k], Script (sc_nodes s) (sc_props s) ks (sc_shown s) (sc_commands s) (sc_clock s))
      end;
    of_write _ t s := show t s;
    of_block_size _ _ := 512;
    of_load _ s := (0, [], s);
    of_claim a _ _ s := (a, s);
    of_release _ _ s := s;
    of_interpret c s :=
      Script (sc_nodes s) (sc_props s) (sc_keys s) (sc_shown s) (sc_commands s ++ [c]) (sc_clock s);
    of_milliseconds s :=
      (u32 (sc_clock s), Script (sc_nodes s) (sc_props s) (sc_keys s) (sc_shown s) (sc_commands s) (sc_clock s + 1));
    of_screen s := (0, s);
    of_package h _ := h;
    of_set_color _ _ _ _ _ s := s;
    of_enter s := s;
    of_exit s := s;
  |}.

Lemma script_puts_keys file t (s : script) :
  sc_keys (prom_puts file t s) = sc_keys s.
Proof.
  unfold prom_puts. destruct (puts_writes _ t) as [ws| |]; [|done|done].
  revert s. induction ws as [|w ws IH]; intros s; simpl; [done|]. by rewrite IH.
Qed.

Lemma script_puts_shown file t (s : script) : cstr_ok t →
  sc_shown (prom_puts file t s) = sc_shown s ++ screen t.
Proof.
  intros Ht. unfold prom_puts. destruct (puts_writes_spec (S (length t)) t Ht) as (ws & -> & <- & _); [lia|].
  revert s. induction ws as [|w ws IH]; intros s; simpl; [by rewrite app_nil_r|].
  rewrite IH. simpl. by rewrite app_assoc.
Qed.

Lemma show_nil s : show [] s = s.
Proof. destruct s. unfold show. simpl. by rewrite app_nil_r. Qed.

Lemma show_show t u s : show u (show t s) = show (t ++ u) s.
Proof. unfold show. simpl. by rewrite app_assoc. Qed.

(** text on the console of the script *)
Lemma script_puts file t (s : script) : cstr_ok t → prom_puts file t s = show (screen t) s.
Proof.
  intros Ht. unfold prom_puts. destruct (puts_writes_spec (S (length t)) t Ht) as (ws & -> & <- & _); [lia|].
  revert s. induction ws as [|w ws IH]; intros s; simpl; [by rewrite show_nil|].
  rewrite IH. unfold prom_write. simpl. by rewrite show_show.
Qed.

(** the clock of the script at [t] *)
Definition at_time (t : Z) (s : script) : script :=
  Script (sc_nodes s) (sc_props s) (sc_keys s) (sc_shown s) (sc_commands s) t.

Lemma script_wait fuel end_ (s : script) : 0 <= sc_clock s <= end_ + 1 → end_ + 1 < 2147483648 →
  end_ + 1 - sc_clock s < Z.of_nat fuel → wait_until fuel end_ s = (Ok tt, at_time (end_ + 2) s).
Proof.
  revert s. induction fuel as [|fuel IH]; intros s Hc He Hf; [lia|]. simpl.
  unfold prom_getms. cbn [of_milliseconds script_firmware].
  rewrite s32_u32, s32_small by (unfold INT_MIN, INT_MAX; lia).
  destruct (Z.leb_spec (sc_clock s) end_).
  - rewrite IH; simpl; [done|lia..].
  - replace (sc_clock s) with (end_ + 1) by lia. unfold at_time. by replace (end_ + 1 + 1) with (end_ + 2) by lia.
Qed.

Lemma script_sleep fuel seconds (s : script) : 0 <= seconds → 0 <= sc_clock s →
  sc_clock s + seconds * 1000 + 1 < 2147483648 → seconds * 1000 < Z.of_nat fuel →
  prom_sleep fuel seconds s = (Ok tt, at_time (sc_clock s + seconds * 1000 + 2) s).
Proof.
  intros Hs Hc He Hf. unfold prom_sleep, prom_getms. cbn [of_milliseconds script_firmware].
  rewrite s32_u32, (s32_small (sc_clock s)) by (unfold INT_MIN, INT_MAX; lia).
  rewrite s32_small by (unfold INT_MIN, INT_MAX; lia). rewrite script_wait; simpl; [done|lia..].
Qed.

(** ** Line editing: the reference *)

Definition edit_key (line : list Z) (c : Z) : list Z :=
  if c =? 8 then take (length line - 1) line
  else if isprint c then line ++ [c] else line.

Definition edit_line (ks : list Z) : list Z := foldl edit_key [] ks.

Lemma length_edit_key line c : (length (edit_key line c) <= S (length line))%nat.
Proof.
  unfold edit_key. repeat case_match; rewrite ?length_take, ?length_app; simpl; lia.
Qed.

Lemma script_putchar_keys env c (s : script) : sc_keys (prom_putchar env c s) = sc_keys s.
Proof. unfold prom_putchar. by case_match. Qed.

Lemma readline_key_spec env c buf (s : script) : is_byte c →
  (readline_key env (s8 c) buf s).1 = edit_key buf c ∧
  sc_keys (readline_key env (s8 c) buf s).2 = sc_keys s.
Proof.
  intros Hc. unfold readline_key, edit_key.
  assert (u8 (s8 c) = c) as Hu.
  { unfold is_byte in Hc. words. destruct (Z.ltb_spec (c mod 256) 128); Z.div_mod_to_equations; lia. }
  assert (isprint (s8 c) = isprint c) as Hp.
  { unfold isprint, __ismask. rewrite Hu, u8_small by done. done. }
  assert (s8 c = 8 ↔ c = 8) as H8.
  { split; [|by intros ->]. intros E. rewrite <- Hu, E. done. }
  rewrite Hp, Hu. destruct (Z.eqb_spec (s8 c) 8) as [E|E].
  - apply H8 in E. subst c. simpl.
    destruct buf; simpl; rewrite ?script_putchar_keys, ?script_puts_keys; done.
  - destruct (Z.eqb_spec c 8) as [->|]; [done|].
    destruct (isprint c); cbn [fst snd]; by rewrite script_putchar_keys.
Qed.

Lemma readline_loop_spec env fuel len ks rest buf (s : script) :
  are_bytes ks → 13 ∉ ks → Z.of_nat (length buf + length ks) < len - 1 →
  (length ks < fuel)%nat → sc_keys s = ks ++ 13 :: rest →
  ∃ s', readline_loop env fuel len buf s = (Some (foldl edit_key buf ks), s').
Proof.
  intros Hks. revert fuel buf s. induction Hks as [|c ks Hc Hks IH]; intros fuel buf s H13 Hlen Hf Hk;
    (destruct fuel as [|fuel]; [simpl in Hf; lia|]); cbn [readline_loop];
    (destruct (Z.ltb_spec (Z.of_nat (length buf)) (len - 1)); [|simpl in *; lia]); cbn [negb];
    cbn [prom_getchar of_read script_firmware]; rewrite Hk; cbn [app].
  - change (s32 1 =? 0) with false. change (s32 1 =? -1) with false. simpl.
    change (s8 (u8 13) =? 13) with true. by eexists.
  - change (s32 1 =? 0) with false. change (s32 1 =? -1) with false. cbn [deref].
    rewrite (u8_small c) by exact Hc.
    destruct (Z.eqb_spec (s8 c) 13) as [E|E].
    + exfalso. assert (c = 13) as ->; [|set_solver].
      apply s8_inj; [done|by_decision|done].
    + set (s1 := Script _ _ _ _ _ _).
      destruct (readline_key_spec env c buf s1 Hc) as [E1 E2].
      destruct (readline_key env (s8 c) buf s1) as [buf' s2]. simpl in E1, E2. subst buf'.
      pose proof (length_edit_key buf c). simpl in *. apply IH; [set_solver|lia|lia|done].
Qed.

Lemma prom_readline_spec env prompt len ks rest (s : script) :
  are_bytes ks → 13 ∉ ks → Z.of_nat (length ks) < len - 1 → sc_keys s = ks ++ 13 :: rest →
  ∃ s', prom_readline env (S (length ks)) prompt len s = (Some (edit_line ks), s').
Proof.
  intros Hks H13 Hlen Hk. unfold prom_readline.
  set (s1 := match prompt with Some p => _ | None => _ end).
  assert (sc_keys s1 = ks ++ 13 :: rest) as Hk1.
  { unfold s1. destruct prompt; [by rewrite script_puts_keys|done]. }
  destruct (readline_loop_spec env (S (length ks)) len ks rest [] s1) as [s' ->]; [done..|lia|done|].
  by eexists.
Qed.

(** the line always fits in the buffer and is printable, whatever the firmware *)
Lemma readline_loop_fits {F} `{Firmware F} env fuel len buf (f : F) r f' :
  Z.of_nat (length buf) <= len - 1 → Forall (λ c, is_char c ∧ isprint c) buf →
  readline_loop env fuel len buf f = (Some r, f') →
  Z.of_nat (length r) <= len - 1 ∧ Forall (λ c, is_char c ∧ isprint c) r.
Proof.
  revert buf f. induction fuel as [|fuel IH]; intros buf f Hl Hb; [done|]. cbn [readline_loop].
  destruct (Z.ltb_spec (Z.of_nat (length buf)) (len - 1)); cbn [negb]; [|by intros [= <- <-]].
  destruct (prom_getchar env (S fuel) f) as [[c|] f1]; [|done].
  destruct (c =? 13); [by intros [= <- <-]|].
  destruct (readline_key env c buf f1) as [buf' f2] eqn:E. intros Hr. eapply IH; [| |exact Hr].
  - clear -E Hl H0. unfold readline_key in E.
    repeat case_match; simplify_eq; rewrite ?length_take, ?length_app; simpl in *; lia.
  - clear -E Hb. unfold readline_key in E. destruct (c =? 8).
    + destruct buf; simplify_eq; [done|]. by apply Forall_take.
    + destruct (isprint c) eqn:Ep; simplify_eq; [|done].
      apply Forall_app. split; [done|]. constructor; [|constructor].
      assert (isprint (u8 c) = true) as Hp.
      { revert Ep. unfold isprint, __ismask. by rewrite (u8_small (u8 c)) by apply u8_range. }
      split; [|by rewrite Hp]. pose proof (u8_range c). unfold is_char.
      destruct (decide (u8 c = 0)) as [E0|]; [|lia]. by rewrite E0 in Hp.
Qed.

(** ** The hardware address as text *)

Definition hex_pair (b : Z) : list Z := [digit_char (b / 16); digit_char (b mod 16)].

Lemma format_02x b : is_byte b → format (bs "%02x") [AInt b] = hex_pair b.
Proof.
  intros Hb. apply (bool_decide_unpack _), Is_true_true. by_bytes b Hb.
Qed.

Lemma format_dash_02x b : is_byte b → format (bs "-%02x") [AInt b] = 45 :: hex_pair b.
Proof.
  intros Hb. apply (bool_decide_unpack _), Is_true_true. by_bytes b Hb.
Qed.

(** the text is the pairs separated by dashes *)
Lemma mac_text_spec packet : are_bytes packet →
  mac_text packet =
    hex_pair (packet_chaddr packet 0) ++
    concat (map (λ i, 45 :: hex_pair (packet_chaddr packet (Z.of_nat i)))
              (seq 1 (Z.to_nat (packet_hlen packet) - 1))).
Proof.
  intros Hp. unfold mac_text. rewrite format_02x by by apply byte_at_range. do 2 f_equal.
  apply map_ext. intros i. rewrite format_dash_02x; [done|]. by apply byte_at_range.
Qed.

Lemma length_mac_text packet : are_bytes packet → 1 <= packet_hlen packet →
  Z.of_nat (length (mac_text packet)) = 3 * packet_hlen packet - 1.
Proof.
  intros Hp Hl. rewrite mac_text_spec, length_app, length_concat, map_map by done.
  rewrite (map_ext _ (λ _, 3%nat)) by done.
  assert (∀ n i, sum_list (map (λ _ : nat, 3%nat) (seq i n)) = 3 * n)%nat as Hs.
  { intros n. induction n as [|n IH]; intros i; simpl; [done|]. rewrite IH. lia. }
  rewrite Hs. simpl. lia.
Qed.

(** ** The packet is complete *)

Lemma find_response_spec props chosen (s : script) :
  (∀ q v, assoc q (sc_props s) = Some v → Z.of_nat (length v) <= INT_MAX) →
  let '(size, name, off) := find_response props chosen s in
  0 < size → ∃ v, (name, off) ∈ props ∧ assoc (chosen, name) (sc_props s) = Some v ∧
                  size = Z.of_nat (length v).
Proof.
  intros Hv. induction props as [|[name off] props IH]; [done|]. cbn [find_response].
  unfold prom_getproplen. cbn [of_getproplen script_firmware].
  destruct (assoc (chosen, name) (sc_props s)) as [v|] eqn:E.
  - pose proof (Hv _ _ E). rewrite s32_small by (unfold INT_MIN; lia).
    destruct (Z.leb_spec (Z.of_nat (length v)) 0).
    + destruct (find_response props chosen s) as [[size n] o]. intros Hs.
      destruct (IH Hs) as (v' & ? & ?). exists v'. split; [set_solver|done].
    + intros _. exists v. split; [set_solver|done].
  - change (s32 PROM_INVALID_HANDLE <=? 0) with true. cbn iota.
    destruct (find_response props chosen s) as [[size n] o]. intros Hs.
    destruct (IH Hs) as (v' & ? & ?). exists v'. split; [set_solver|done].
Qed.

Lemma netinfo_spec env h (s : script) p h' s' :
  (∀ q v, assoc q (sc_props s) = Some v → Z.of_nat (length v) <= INT_MAX) →
  prom_get_netinfo env h s = (Some p, h', s') →
  ∃ name off v, (name, off) ∈ bootp_response_properties ∧
    assoc (prom_finddevice (bs "/chosen") s, name) (sc_props s) = Some v ∧
    p = drop (Z.to_nat off) v ∧
    (off <= Z.of_nat (length v) → packet_size <= Z.of_nat (length p)).
Proof.
  intros Hv. unfold prom_get_netinfo.
  pose proof (find_response_spec bootp_response_properties (prom_finddevice (bs "/chosen") s) s Hv) as Hf.
  destruct (find_response _ _ s) as [[size name] off].
  destruct (Z.leb_spec size 0); [done|]. destruct (Hf ltac:(lia)) as (v & Hin & Hp & ->).
  destruct (Z.ltb_spec (u32 (Z.of_nat (length v) - off)) packet_size); [done|].
  destruct (malloc _ h) as [b h1]. destruct (b =? 0); [done|].
  unfold prom_getprop. cbn [of_getprop script_firmware]. rewrite Hp.
  rewrite s32_small by (pose proof (Hv _ _ Hp); unfold INT_MIN; lia).
  destruct (Z.ltb_spec (Z.of_nat (length v)) 0); [done|]. intros [= <- <- <-].
  rewrite Nat2Z.id, take_ge by lia. exists name, off, v. repeat split; [done|done|].
  intros Hle. rewrite length_drop.
  assert (off ∈ [0; 42]) as Ho.
  { revert Hin. unfold bootp_response_properties. rewrite !elem_of_cons, elem_of_nil. set_solver. }
  assert (0 <= off) by (revert Ho; rewrite !elem_of_cons, elem_of_nil; lia).
  rewrite u32_small in *; [lia|]. pose proof (Hv _ _ Hp). unfold INT_MAX in *. lia.
Qed.

(** ** What the client interface promises *)

(** [prom_puts] sends every byte of the text once and in order, each newline as
    a carriage return and a newline, on any firmware; its loops end. *)
Theorem prom_puts_screen {F} `{Firmware F} file s (f : F) : cstr_ok s →
  ∃ ws, prom_puts file s f = foldl (λ f w, of_write file w f) f ws ∧ concat ws = screen s ∧
        Forall (λ w, w = crlf ∨ (w ≠ [] ∧ Forall (λ c, c ≠ 10) w)) ws.
Proof.
  intros Hs. destruct (puts_writes_spec (S (length s)) s Hs) as (ws & E & Hws); [lia|].
  exists ws. unfold prom_puts. by rewrite E.
Qed.

Definition script0 : script := Script [] [] [] [] [] 0.

Lemma prom_puts_screen_witness :
  ∃ ws, prom_puts 1 (bs "a" ++ [10; 10]) script0 = foldl (λ f w, of_write 1 w f) script0 ws ∧
        concat ws = [97; 13; 10; 13; 10] ∧
        Forall (λ w, w = crlf ∨ (w ≠ [] ∧ Forall (λ c, c ≠ 10) w)) ws.
Proof. apply (prom_puts_screen 1 (bs "a" ++ [10; 10]) script0). by_decision. Defined.

(** C32: [prom_claim_chunk] ends on any firmware, and what it returns is the invalid
    handle or the answer to a claim of the size asked at an address of its range,
    a whole number of steps above the address it was given. *)
Theorem prom_claim_chunk_range {F} `{Firmware F} env virt size (f : F) :
  0 <= virt <= PROM_CLAIM_MAX_ADDR →
  ∃ r f', prom_claim_chunk env virt size f = (Ok r, f') ∧
    (r = PROM_INVALID_HANDLE ∨
     ∃ k g, 0 <= k ∧ virt + k * claim_step <= PROM_CLAIM_MAX_ADDR ∧
            (of_claim (virt + k * claim_step) size 0 g).1 = r).
Proof.
  intros Hv. unfold prom_claim_chunk.
  destruct (claim_up_spec env claim_fuel virt size f) as (r & g & -> & Hr).
  - unfold PROM_CLAIM_MAX_ADDR in *. change claim_step with 262144. lia.
  - unfold PROM_CLAIM_MAX_ADDR in *. change claim_step with 262144.
    change (Z.of_nat claim_fuel) with 1026. lia.
  - eexists _, _. split; [done|exact Hr].
Qed.

Lemma prom_claim_chunk_range_witness :
  ∃ r f', prom_claim_chunk (PromEnv 0 0 0 0 false) 1048576 4096 script0 = (Ok r, f') ∧
    (r = PROM_INVALID_HANDLE ∨
     ∃ k g, 0 <= k ∧ 1048576 + k * claim_step <= PROM_CLAIM_MAX_ADDR ∧
            (of_claim (1048576 + k * claim_step) 4096 0 (g : script)).1 = r).
Proof. apply prom_claim_chunk_range. by_decision. Defined.

(** [prom_readline] returns the line the keys before the return key edit:
    printable keys are appended, a backspace takes the last character back, other
    keys are ignored. *)
Theorem prom_readline_edits env prompt len ks rest (s : script) :
  are_bytes ks → 13 ∉ ks → Z.of_nat (length ks) < len - 1 → sc_keys s = ks ++ 13 :: rest →
  ∃ s', prom_readline env (S (length ks)) prompt len s = (Some (edit_line ks), s').
Proof. apply prom_readline_spec. Qed.

Lemma prom_readline_edits_witness :
  ∃ s', prom_readline (PromEnv 0 1 2 3 false) 6 (Some (bs "boot: ")) 64
          (Script [] [] (bs "liX" ++ [8; 110; 13]) [] [] 0) = (Some (bs "lin"), s').
Proof.
  apply (prom_readline_edits (PromEnv 0 1 2 3 false) (Some (bs "boot: ")) 64
    (bs "liX" ++ [8; 110]) []); by_decision || reflexivity.
Defined.

(** The line [prom_readline] stores always fits in the buffer of the caller with
    its terminator, on any firmware, and holds printable characters only. *)
Theorem prom_readline_fits {F} `{Firmware F} env fuel prompt len (f : F) r f' :
  1 <= len → prom_readline env fuel prompt len f = (Some r, f') →
  Z.of_nat (length r) + 1 <= len ∧ Forall (λ c, is_char c ∧ isprint c) r.
Proof.
  intros Hl. unfold prom_readline.
  destruct (readline_loop _ _ _ _ _) as [[buf|] g] eqn:E; [|done]. intros [= <- <-].
  apply readline_loop_fits in E as [? ?]; [split; [lia|done]|simpl; lia|constructor].
Qed.

Lemma prom_readline_fits_witness :
  let r := prom_readline (PromEnv 0 1 2 3 false) 6 None 4 (Script [] [] (bs "linux") [] [] 0) in
  r.1 = Some (bs "lin") ∧ Z.of_nat (length (bs "lin")) + 1 <= 4 ∧
  Forall (λ c, is_char c ∧ isprint c) (bs "lin").
Proof.
  intros r. split; [by vm_compute|].
  apply (prom_readline_fits (PromEnv 0 1 2 3 false) 6 None 4 (Script [] [] (bs "linux") [] [] 0) _ r.2);
    by vm_compute.
Defined.

(** The text of [prom_get_mac] is the hexadecimal pairs of the hardware address
    joined by dashes, and fits in the [hlen * 3 + 1] bytes allocated for it when
    the address has at least one byte. *)
Theorem prom_get_mac_text packet : are_bytes packet → 1 <= packet_hlen packet →
  mac_text packet =
    hex_pair (packet_chaddr packet 0) ++
    concat (map (λ i, 45 :: hex_pair (packet_chaddr packet (Z.of_nat i)))
              (seq 1 (Z.to_nat (packet_hlen packet) - 1))) ∧
  Z.of_nat (length (mac_text packet)) + 1 <= packet_hlen packet * 3 + 1.
Proof.
  intros Hp Hl. split; [by apply mac_text_spec|]. rewrite length_mac_text by done. lia.
Qed.

Lemma prom_get_mac_text_witness :
  let packet := [2; 1; 3; 0] ++ replicate 24 0 ++ [0; 26; 255] in
  mac_text packet = bs "00-1a-ff" ∧
  Z.of_nat (length (mac_text packet)) + 1 <= packet_hlen packet * 3 + 1.
Proof.
  intros packet. split; [by vm_compute|].
  apply (prom_get_mac_text packet); by_decision.
Defined.

(** A packet [prom_get_netinfo] returns is the property from the packet's offset
    on, and is complete, at least the fixed part of a BOOTP packet, when the
    property is not shorter than the offset. *)
Theorem prom_get_netinfo_complete env h (s : script) p h' s' :
  (∀ q v, assoc q (sc_props s) = Some v → Z.of_nat (length v) <= INT_MAX) →
  prom_get_netinfo env h s = (Some p, h', s') →
  ∃ name off v, (name, off) ∈ bootp_response_properties ∧
    assoc (prom_finddevice (bs "/chosen") s, name) (sc_props s) = Some v ∧
    p = drop (Z.to_nat off) v ∧
    (off <= Z.of_nat (length v) → packet_size <= Z.of_nat (length p)).
Proof. apply netinfo_spec. Qed.

(** a tree whose [/chosen] answers with the response [v] to the property [name] *)
Definition chosen_tree (name v : list Z) : script :=
  Script [(bs "/chosen", 7)] [((7, name), v)] [] [] [] 0.

Definition heap0 : heap := malloc_init 4096 65536 (Heap 0 0 0 (λ _, 0)).

Lemma prom_get_netinfo_complete_witness :
  let v := replicate 300 1 in
  ∃ p h' s', prom_get_netinfo (PromEnv 0 0 7 0 false) heap0 (chosen_tree (bs "dhcp-response") v) =
    (Some p, h', s') ∧
  ∃ name off w, (name, off) ∈ bootp_response_properties ∧
    assoc (prom_finddevice (bs "/chosen") (chosen_tree (bs "dhcp-response") v), name)
      (sc_props (chosen_tree (bs "dhcp-response") v)) = Some w ∧
    p = drop (Z.to_nat off) w ∧
    (off <= Z.of_nat (length w) → packet_size <= Z.of_nat (length p)).
Proof.
  intros v. eexists _, _, _. split; [reflexivity|].
  eapply (prom_get_netinfo_complete (PromEnv 0 0 7 0 false) heap0
    (chosen_tree (bs "dhcp-response") v)); [|reflexivity].
  intros q w. unfold assoc. cbn [sc_props chosen_tree].
  unfold list_find. simpl. destruct (decide _); [|done]. intros [= <-]. by vm_compute.
Defined.

(** the comparison with the packet's size is unsigned: a [bootpreply-packet] shorter
    than the offset of the packet passes it *)
Example netinfo_short_packet :
  (prom_get_netinfo (PromEnv 0 0 7 0 false) heap0
     (chosen_tree (bs "bootpreply-packet") (replicate 10 1))).1.1 = Some [].
Proof. by vm_compute. Qed.

(** with an address length of 0 the first pair overruns the single byte allocated *)
Example mac_overruns : Z.of_nat (length (mac_text [2; 1; 0; 0])) + 1 = 3.
Proof. by vm_compute. Qed.

(** C33: a pause ends, and not before its time: whatever the firmware's clock, so long as
    it advances in the end and its value stays below 2^31, [prom_sleep] returns, and
    more than [seconds] * 1000 milliseconds have passed by then. *)
Theorem prom_sleep_ends {F : Type} `{Firmware F} (clock : F → Z) (next : F → F) (step seconds : Z) (f : F) :
  clock_read clock next → clock_runs clock next step → clock_advances clock next →
  0 <= seconds → 0 <= clock f → clock f + seconds * 1000 + step < 2147483648 →
  ∃ fuel f', prom_sleep fuel seconds f = (Ok tt, f') ∧ clock f + seconds * 1000 < clock f'.
Proof.
  intros Hr Hs Ha Hsec Hc He. pose proof (Hs f).
  destruct (clock_unbounded clock next (next f) (clock f + seconds * 1000) Ha) as [n Hn].
  destruct (wait_until_ends clock next step n (clock f + seconds * 1000) (next f)) as (fuel & f' & E & Hf');
    [done..|lia|lia|done|].
  exists fuel, f'. split; [|done]. unfold prom_sleep.
  rewrite (prom_getms_read clock next) by (done || lia).
  rewrite s32_small; [done|]. unfold INT_MIN, INT_MAX. lia.
Qed.

(** the clock of the script ticks at every read *)
Definition tick (s : script) : script :=
  Script (sc_nodes s) (sc_props s) (sc_keys s) (sc_shown s) (sc_commands s) (sc_clock s + 1).

Lemma prom_sleep_ends_witness :
  ∃ fuel f', prom_sleep fuel 4 (Script [] [] [] [] [] 100) = (Ok tt, f') ∧ 100 + 4 * 1000 < sc_clock f'.
Proof.
  apply (prom_sleep_ends sc_clock tick 1 4 (Script [] [] [] [] [] 100)).
  - intros g. reflexivity.
  - intros g. simpl. lia.
  - intros g. exists 1%nat. simpl. lia.
  - lia.
  - simpl. lia.
  - simpl. lia.
Defined.

(** a pause whose end is the last value of the counter never ends: the counter wraps
    without passing it *)
Lemma prom_sleep_stuck {F : Type} `{Firmware F} fuel (f : F) :
  (wait_until fuel 2147483647 f).1 = Fuel.
Proof.
  revert f. induction fuel as [|fuel IH]; intros f; [done|]. simpl. unfold prom_getms.
  destruct (of_milliseconds f) as [t g]. pose proof (s32_range t) as Ht. unfold INT_MAX in Ht.
  rewrite (proj2 (Z.leb_le _ _)); [apply IH|lia].
Qed.
