(* ===== verification/Client.v ===== *)
(** The calls of Open Firmware, the lowest part of [second/prom.c]: the array of arguments,
    [call_prom], [call_prom_return] and [call_method_1], the services the program asks for,
    the start [prom_init], the mapping of memory; and [lib/nonstd.c], the output functions
    that libext2fs is given.

    The entry of the firmware is the class [Entry].  A pointer argument is what it points
    to; where the firmware stores, the bytes come with its answer.  [serve] is a firmware
    that answers as the client interface documents it, over the operations of [Firmware]:
    against it, each call of the program is the operation that the rest of the library
    uses. *)
From S2P Require Import Prelude Ctype CString Numeric Vsprintf Malloc Prom.

(** ** The entry *)

(** an argument: a word, a string, bytes that are read, a place where bytes are stored *)
Inductive cell := Word (w : Z) | Text (s : list Z) | Bytes (b : list Z) | Dest.

#[export] Instance cell_eq_dec : EqDecision cell.
Proof. solve_decision. Defined.

(** [struct prom_args]; [args] are the arguments passed and the cells of the results *)
Record prom_args := PromArgs {
  service : list Z;
  nargs : Z;
  nret : Z;
  pa_args : list cell;
}.

Definition ARGS_SIZE : Z := 10.

(** [prom]: the code returned, the results, the bytes stored and the state after *)
Class Entry (F : Type) := prom : prom_args → F → Z * list Z * list Z * F.

(** [args[i] = va_arg(...)] for each argument, and zeros for the results; outside of the array
    and past the arguments given it is not defined *)
Definition fill (service : list Z) (nargs nret : nat) (l : list cell) : option prom_args :=
  if (ARGS_SIZE <? Z.of_nat (nargs + nret)) || (Z.of_nat (length l) <? Z.of_nat nargs) then None
  else Some (PromArgs service (Z.of_nat nargs) (Z.of_nat nret) (take nargs l ++ replicate nret (Word 0))).

Section calls.
Context {F : Type} `{Entry F}.
Notation M A := (stm F fault A).

(** the result and the bytes stored *)
Definition call_prom (service : list Z) (nargs nret : nat) (l : list cell) : M (Z * list Z) := λ f,
  match fill service nargs nret l with
  | None => (Err Overrun, f)
  | Some a =>
      let '(_, rets, b, f) := prom a f in
      (Ok (if 0 <? Z.of_nat nret then nth 0 rets 0 else 0, b), f)
  end.

(** the result and the other results, which are stored only when the call succeeds *)
Definition call_prom_return (service : list Z) (nargs nret : nat) (l : list cell) : M (Z * option (list Z)) := λ f,
  match fill service nargs nret l with
  | None => (Err Overrun, f)
  | Some a =>
      let '(code, rets, _, f) := prom a f in
      if negb (code =? 0) then (Ok (PROM_INVALID_HANDLE, None), f)
      else if 0 <? Z.of_nat nret then (Ok (nth 0 rets 0, Some (take (nret - 1) (tail rets))), f)
      else (Ok (0, Some []), f)
  end.

(** ** The services *)

Definition word (m : M (Z * list Z)) : M Z := '(r, _) ← m; mret r.

Definition finddevice (name : list Z) : M Z := word (call_prom (bs "finddevice") 1 1 [Text name]).
Definition findpackage (path : list Z) : M Z := word (call_prom (bs "find-package") 1 1 [Text path]).
Definition getprop (pack : Z) (name : list Z) (len : Z) : M (Z * list Z) :=
  call_prom (bs "getprop") 4 1 [Word pack; Text name; Dest; Word len].
Definition getproplen (pack : Z) (name : list Z) : M Z := word (call_prom (bs "getproplen") 2 1 [Word pack; Text name]).
Definition setprop (pack : Z) (name mem : list Z) (len : Z) : M Z :=
  word (call_prom (bs "setprop") 4 1 [Word pack; Text name; Bytes mem; Word len]).

(** one argument more than the service takes is given, which is not passed on *)
Definition open (spec : list Z) : M Z := word (call_prom (bs "open") 1 1 [Text spec; Word (strlen spec)]).
Definition close (file : Z) : M Z := word (call_prom (bs "close") 1 0 [Word file]).
Definition read (file n : Z) : M (Z * list Z) := call_prom (bs "read") 3 1 [Word file; Dest; Word n].
Definition write (file : Z) (buf : list Z) (n : Z) : M Z :=
  word (call_prom (bs "write") 3 1 [Word file; Bytes buf; Word n]).
Definition seek (file hi lo : Z) : M Z := word (call_prom (bs "seek") 3 1 [Word file; Word hi; Word lo]).
Definition claim (addr size align : Z) : M Z := word (call_prom (bs "claim") 3 1 [Word addr; Word size; Word align]).
Definition release (virt size : Z) : M Z := word (call_prom (bs "release") 2 0 [Word virt; Word size]).
Definition interpret (forth : list Z) : M Z := word (call_prom (bs "interpret") 1 1 [Text forth]).
Definition milliseconds : M Z := word (call_prom (bs "milliseconds") 0 1 []).
Definition enter : M Z := word (call_prom (bs "enter") 0 0 []).
Definition exit : M Z := word (call_prom (bs "exit") 0 0 []).
Definition to_package (handle : Z) : M Z := word (call_prom (bs "instance-to-package") 1 1 [Word handle]).
Definition set_color (device color r g b : Z) : M Z :=
  word (call_prom (bs "call-method") 6 1 [Text (bs "color!"); Word device; Word color; Word b; Word g; Word r]).

(** the display: [scrn] is as it was when the call fails *)
Definition screen_word : list Z :=
  [34] ++ bs " _screen-ihandle" ++ [34] ++ bs " $find if execute else 0 then".
Definition get_screen (scrn : Z) : M Z :=
  '(_, rets) ← call_prom_return (bs "interpret") 1 2 [Text screen_word];
  mret (match rets with Some l => nth 0 l 0 | None => scrn end).

(** ** Methods *)

(** [prom_puts], over [write] *)
Fixpoint write_all (file : Z) (ws : list (list Z)) : M unit :=
  match ws with
  | [] => mret tt
  | w :: ws => write file w (Z.of_nat (length w));; write_all file ws
  end.

Definition puts (file : Z) (s : list Z) : M unit :=
  match puts_writes (S (length s)) s with Ok ws => write_all file ws | _ => out_of_fuel end.

(** the results are the code of the method and its value *)
Definition call_method_1 (out : Z) (method : list Z) (h : Z) (nargs : nat) (l : list cell) : M (Z * list Z) := λ f,
  match fill (bs "call-method") (nargs + 2) 2 (Text method :: Word h :: l) with
  | None => (Err Overrun, f)
  | Some a =>
      let '(_, rets, b, f) := prom a f in
      if negb (nth 0 rets 0 =? 0) then
        (puts out (format (bs "method '%s' failed %p" ++ [10]) [AStr (Some method); AInt (nth 0 rets 0)]);;
         mret (0, b)) f
      else (Ok (nth 1 rets 0, b), f)
  end.

Definition load (out device : Z) : M (Z * list Z) := call_method_1 out (bs "load") device 1 [Dest].
Definition block_size (out file : Z) : M Z := word (call_method_1 out (bs "block-size") file 0 []).

(** ** Mapped memory *)

Definition MSR_IR : Z := Z.shiftl 1 5.
Definition MSR_DR : Z := Z.shiftl 1 4.

(** [msr] is the machine state register *)
Definition mapped (msr : Z) : bool := negb (Z.land msr MSR_IR =? 0) && negb (Z.land msr MSR_DR =? 0).

Definition prom_map (out mmu msr phys virt size : Z) : M unit :=
  if mapped msr then
    call_method_1 out (bs "map") mmu 4 [Word (u32 (-1)); Word size; Word virt; Word phys];; mret tt
  else mret tt.

Definition prom_unmap (out mmu msr phys virt size : Z) : M unit :=
  if mapped msr then
    call_method_1 out (bs "map") mmu 4 [Word (u32 (-1)); Word size; Word virt; Word phys];; mret tt
  else mret tt.
End calls.

(** ** A firmware that answers as documented *)

Section serve.
Context {F : Type} `{Firmware F}.

(** what a service does with its arguments, the results it gives (their number is given) and
    the bytes it stores; [None] for a service or arguments it does not know *)
Definition serve_words (name : list Z) (nret : Z) (l : list cell) (f : F) : option (list Z * list Z * F) :=
  let svc s k := bool_decide (name = bs s) && (nret =? k) in
  match l with
  | [] =>
      if svc "milliseconds" 1 then let '(t, f) := of_milliseconds f in Some ([t], [], f)
      else if svc "enter" 0 then Some ([], [], of_enter f)
      else if svc "exit" 0 then Some ([], [], of_exit f) else None
  | [Word h] =>
      if svc "close" 0 then Some ([], [], of_close h f)
      else if svc "instance-to-package" 1 then Some ([of_package h f], [], f) else None
  | [Text s] =>
      if svc "finddevice" 1 then Some ([of_finddevice s f], [], f)
      else if svc "open" 1 then let '(h, f) := of_open s f in Some ([h], [], f)
      else if svc "interpret" 1 then Some ([0], [], of_interpret s f)
      else if svc "interpret" 2 && bool_decide (s = screen_word) then let '(h, f) := of_screen f in Some ([0; h], [], f)
      else None
  | [Word a; Word n] => if svc "release" 0 then Some ([], [], of_release a n f) else None
  | [Word p; Text n] => if svc "getproplen" 1 then Some ([of_getproplen p n f], [], f) else None
  | [Word p; Text n; Dest; Word len] =>
      if svc "getprop" 1 then let '(r, b) := of_getprop p n len f in Some ([r], b, f) else None
  | [Word p; Text n; Bytes v; Word len] =>
      if svc "setprop" 1 && (len =? Z.of_nat (length v)) then
        let '(r, f) := of_setprop p n v f in Some ([r], [], f)
      else None
  | [Word h; Dest; Word n] =>
      if svc "read" 1 then let '(r, b, f) := of_read h n f in Some ([r], b, f) else None
  | [Word h; Bytes b; Word n] =>
      if svc "write" 1 && (n =? Z.of_nat (length b)) then Some ([n], [], of_write h b f) else None
  | [Word a; Word b; Word c] =>
      if svc "seek" 1 then let '(r, f) := of_seek a b c f in Some ([r], [], f)
      else if svc "claim" 1 then let '(r, f) := of_claim a b c f in Some ([r], [], f)
      else None
  | [Text m; Word h] =>
      if svc "call-method" 2 && bool_decide (m = bs "block-size") then Some ([0; of_block_size h f], [], f) else None
  | [Text m; Word h; Dest] =>
      if svc "call-method" 2 && bool_decide (m = bs "load") then
        let '(r, b, f) := of_load h f in Some ([0; r], b, f)
      else None
  | [Text m; Word d; Word c; Word b; Word g; Word r] =>
      if svc "call-method" 1 && bool_decide (m = bs "color!") then Some ([0], [], of_set_color d c r g b f) else None
  | _ => None
  end.

Definition serve : Entry F := λ a f,
  match serve_words (service a) (nret a) (take (Z.to_nat (nargs a)) (pa_args a)) f with
  | Some (rets, b, f) => (0, rets, b, f)
  | None => (u32 (-1), replicate (Z.to_nat (nret a)) 0, [], f)
  end.
End serve.

(** ** The start *)

Section init.
Context {F : Type} `{Firmware F}.

(** a static variable of 4 bytes, zero before, that a property is stored in *)
Definition variable (m : list Z) : Z := be32 (store (replicate 4 0) 0 m) 0.

Definition forth_words : list Z :=
  bs "hex : D2NIP decode-int nip nip ;" ++ [13] ++ bs ": GPP$ get-package-property 0= ;" ++ [13] ++
  bs ": ^on0 0= if -1 throw then ;" ++ [13] ++ bs ": $CM $call-method ;" ++ [13].

Definition forth_handles : list Z :=
  bs " " ++ [34] ++ bs " /chosen" ++ [34] ++ bs " find-package if dup " ++ [34] ++ bs " memory" ++ [34] ++
  bs " rot GPP$ if D2NIP swap " ++ [34] ++ bs " mmu" ++ [34] ++
  bs " rot GPP$ if D2NIP else 0 then else 0 0 then else 0 0 then" ++ [13] ++ bs "value mmu# value mem# ".

Definition forth_methods : list Z := bs ": ^mem mem# $CM ; : ^mmu mmu# $CM ; ".

(** a handle that is needed: [lost] is what the program does without it *)
Definition chosen_handle (env : prom_env) (name : list Z) (lost : F → F) (f : F) : Z * F :=
  let '(r, m) := prom_get_chosen env name 4 f in
  (variable m, if r <=? 0 then lost f else f).

(** the static variables of prom.c, [prom_mem], [prom_mmu], and the firmware after *)
Definition prom_init (f : F) : prom_env * Z * Z * F :=
  let chosen := prom_finddevice (bs "/chosen") f in
  let f := if chosen =? PROM_INVALID_HANDLE then prom_exit f else f in
  let options := prom_finddevice (bs "/options") f in
  let '(stdout, f) := chosen_handle (PromEnv 0 0 chosen options false) (bs "stdout") prom_exit f in
  let env := PromEnv 0 stdout chosen options false in
  let '(stdin, f) := chosen_handle env (bs "stdin") (prom_abort env ([10] ++ bs "Can't open stdin") []) f in
  let env := PromEnv stdin stdout chosen options false in
  let '(mem, f) := chosen_handle env (bs "memory") (prom_abort env ([10] ++ bs "Can't get mem handle") []) f in
  let '(mmu, f) := chosen_handle env (bs "mmu") (prom_abort env ([10] ++ bs "Can't get mmu handle") []) f in
  let '(_, m) := prom_get_options env (bs "linux,yaboot-debug") 4 f in
  let env := PromEnv stdin stdout chosen options (negb (variable m =? 0)) in
  let f := prom_printf env [10] [] f in
  let f := prom_interpret forth_words f in
  let f := prom_interpret forth_handles f in
  let f := prom_interpret forth_methods f in
  (env, mem, mmu, f).

(** ** The output of libext2fs *)

Definition prom_vfprintf (file : Z) (fmt : list Z) (args : list arg) (f : F) : F := prom_puts file (format fmt args) f.
Definition prom_fprintf := prom_vfprintf.

Definition printf (env : prom_env) (fmt : list Z) (args : list arg) (f : F) : Z * F :=
  (0, prom_vfprintf (prom_stdout env) fmt args f).
(** the stream is not looked at *)
Definition fprintf (env : prom_env) (stream : Z) (fmt : list Z) (args : list arg) (f : F) : Z * F :=
  (0, prom_vfprintf (prom_stdout env) fmt args f).
Definition fputs (env : prom_env) (s : list Z) (stream : Z) (f : F) : Z * F :=
  (0, prom_printf env (bs "%s") [AStr (Some s)] f).
Definition fflush (stream : Z) (f : F) : Z * F := (0, f).
Definition getenv (name : list Z) : option (list Z) := None.
End init.

(** [lib/nosys.c] *)
Definition time : Z := 0.

(** ** The calls against the documented firmware *)

Section calls_ok.
Context {F : Type} `{Firmware F}.

Lemma call_prom_ok s n k l rets b (f f' : F) :
  (n + k <= 10)%nat → (n <= length l)%nat → serve_words s (Z.of_nat k) (take n l) f = Some (rets, b, f') →
  call_prom (H := serve) s n k l f = (Ok (if 0 <? Z.of_nat k then nth 0 rets 0 else 0, b), f').
Proof.
  intros Hn Hl E. unfold call_prom, fill.
  rewrite (proj2 (Z.ltb_ge ARGS_SIZE _)), (proj2 (Z.ltb_ge (Z.of_nat (length l)) _)) by (unfold ARGS_SIZE; lia).
  cbn [orb]. unfold prom, serve. cbn [service nret nargs pa_args].
  rewrite Nat2Z.id, (take_app_length' (take n l)) by (rewrite length_take; lia). by rewrite E.
Qed.

Lemma word_ok s n k l rets b r (f f' : F) :
  (n + k <= 10)%nat → (n <= length l)%nat → serve_words s (Z.of_nat k) (take n l) f = Some (rets, b, f') →
  r = (if 0 <? Z.of_nat k then nth 0 rets 0 else 0) → word (call_prom (H := serve) s n k l) f = (Ok r, f').
Proof. intros Hn Hl E ->. unfold word. by rewrite (bind_ok _ _ _ _ _ (call_prom_ok _ _ _ _ _ _ _ _ Hn Hl E)). Qed.

Lemma bytes_ok s n k l rets b r (f f' : F) :
  (n + k <= 10)%nat → (n <= length l)%nat → serve_words s (Z.of_nat k) (take n l) f = Some (rets, b, f') →
  r = (if 0 <? Z.of_nat k then nth 0 rets 0 else 0) → call_prom (H := serve) s n k l f = (Ok (r, b), f').
Proof. intros Hn Hl E ->. exact (call_prom_ok _ _ _ _ _ _ _ _ Hn Hl E). Qed.

Lemma method_ok out m h n l r b (f f' : F) :
  (n <= 6)%nat → (n <= length l)%nat → serve_words (bs "call-method") 2 (Text m :: Word h :: take n l) f = Some ([0; r], b, f') →
  call_method_1 (H := serve) out m h n l f = (Ok (r, b), f').
Proof.
  intros Hn Hl E. unfold call_method_1, fill.
  rewrite (proj2 (Z.ltb_ge ARGS_SIZE _)), (proj2 (Z.ltb_ge (Z.of_nat _) _)) by (unfold ARGS_SIZE; cbn [length]; lia).
  cbn [orb]. unfold prom, serve. cbn [service nret nargs pa_args].
  rewrite Nat2Z.id, (take_app_length' (take (n + 2) _)) by (rewrite length_take; cbn [length]; lia).
  replace (n + 2)%nat with (S (S n)) by lia. cbn [take]. change (Z.of_nat 2) with 2. by rewrite E.
Qed.

End calls_ok.

(** the answer of [serve] to a call: the name of the service is found among those it knows *)
Ltac known_service :=
  cbn [take serve_words];
  repeat match goal with
  | |- context [bool_decide (?a = ?b)] =>
      let v := eval vm_compute in (bool_decide (a = b)) in
      lazymatch v with true => idtac | false => idtac end; change (bool_decide (a = b)) with v
  end; rewrite ?Z.eqb_refl; cbn [andb]; cbn iota.

Ltac served :=
  first [eapply word_ok | eapply bytes_ok]; [cbn; lia|cbn; lia|known_service|];
  repeat match goal with E : _ = (_, _) |- _ => rewrite E; clear E end; reflexivity.

(** the console of the program is the one of the calls *)
Lemma puts_ok {F : Type} `{Firmware F} file s ws (f : F) :
  puts_writes (S (length s)) s = Ok ws → puts (H := serve) file s f = (Ok tt, prom_puts file s f).
Proof.
  intros E. unfold puts, prom_puts. rewrite E. clear E.
  revert f. induction ws as [|w ws IH]; intros f; [done|]. cbn [write_all foldl].
  rewrite (bind_ok _ _ _ (Z.of_nat (length w)) (prom_write file w f)); [apply IH|].
  unfold write. served.
Qed.

Lemma get_screen_ok {F : Type} `{Firmware F} h0 (f : F) :
  get_screen (H := serve) h0 f = let '(h, f') := of_screen f in (Ok h, f').
Proof.
  unfold get_screen, mbind, stm_bind, call_prom_return, fill. change (_ || _) with false. cbn iota.
  unfold prom, serve. cbn [service nret nargs pa_args]. change (take (Z.to_nat (Z.of_nat 1)) _) with [Text screen_word].
  known_service. by destruct (of_screen f).
Qed.

(** C19: against a firmware that answers its services as the client interface documents
    them, every call of the program passes the arguments that the service takes, in their
    order, and hands on its results: it is the operation of the class [Firmware]. *)
Theorem calls_are_operations {F : Type} `{Firmware F} (f : F) :
  let e := serve in
  (∀ n, finddevice (H := e) n f = (Ok (of_finddevice n f), f)) ∧
  (∀ p n len, getprop (H := e) p n len f = (Ok (of_getprop p n len f), f)) ∧
  (∀ p n, getproplen (H := e) p n f = (Ok (of_getproplen p n f), f)) ∧
  (∀ p n v, setprop (H := e) p n v (Z.of_nat (length v)) f = let '(r, f') := of_setprop p n v f in (Ok r, f')) ∧
  (∀ s, open (H := e) s f = let '(h, f') := of_open s f in (Ok h, f')) ∧
  (∀ h, close (H := e) h f = (Ok 0, of_close h f)) ∧
  (∀ h n, read (H := e) h n f = let '(r, b, f') := of_read h n f in (Ok (r, b), f')) ∧
  (∀ h b, write (H := e) h b (Z.of_nat (length b)) f = (Ok (Z.of_nat (length b)), of_write h b f)) ∧
  (∀ h hi lo, seek (H := e) h hi lo f = let '(r, f') := of_seek h hi lo f in (Ok r, f')) ∧
  (∀ a n al, claim (H := e) a n al f = let '(r, f') := of_claim a n al f in (Ok r, f')) ∧
  (∀ a n, release (H := e) a n f = (Ok 0, of_release a n f)) ∧
  (∀ s, interpret (H := e) s f = (Ok 0, of_interpret s f)) ∧
  milliseconds (H := e) f = (let '(t, f') := of_milliseconds f in (Ok t, f')) ∧
  enter (H := e) f = (Ok 0, of_enter f) ∧
  exit (H := e) f = (Ok 0, of_exit f) ∧
  (∀ h, to_package (H := e) h f = (Ok (of_package h f), f)) ∧
  (∀ d c r g b, set_color (H := e) d c r g b f = (Ok 0, of_set_color d c r g b f)) ∧
  (∀ h0, get_screen (H := e) h0 f = let '(h, f') := of_screen f in (Ok h, f')) ∧
  (∀ out h, load (H := e) out h f = let '(r, b, f') := of_load h f in (Ok (r, b), f')) ∧
  (∀ out h, block_size (H := e) out h f = (Ok (of_block_size h f), f)).
Proof.
  intros e. split_and!; intros; try apply get_screen_ok;
    try match goal with
    | |- _ = let '(_, _) := ?x in _ => destruct x eqn:E
    | |- getprop _ _ _ _ = (Ok ?x, _) => destruct x eqn:E
    end; try match goal with |- _ = let '(_, _) := ?x in _ => destruct x end.
  all: try (cbv [finddevice getproplen setprop open close write seek claim release interpret milliseconds enter exit
    to_package set_color getprop read]; served).
  - apply method_ok; [lia|cbn; lia|]. known_service. by rewrite E.
  - unfold block_size, word. rewrite (bind_ok _ _ _ (of_block_size h f, []) f); [done|]. apply method_ok; [lia|cbn; lia|]. by known_service.
Qed.

(** a method that fails: the message goes to the console and the result is 0 *)
Example method_fails :
  let '(r, s) := block_size (H := λ a f, if bool_decide (service a = bs "call-method") then (0, [5; 0], [], f) else serve a f)
    1 3 script0 in
  r = Ok 0 ∧ sc_shown s = bs "method 'block-size' failed 00000005" ++ [13; 10].
Proof. by vm_compute. Qed.

(** more arguments than the array has room for *)
Example too_many_arguments :
  (call_prom (H := serve) (bs "call-method") 10 1 (replicate 10 (Word 0)) script0).1 = Err Overrun.
Proof. by vm_compute. Qed.

(** unmapping memory is mapping it once more *)
Example unmap_maps {F} `{Entry F} out mmu msr phys virt size (f : F) :
  prom_unmap out mmu msr phys virt size f = prom_map out mmu msr phys virt size f.
Proof. done. Qed.

(** the start, with the handles that [/chosen] holds *)
Example init_handles :
  let h n v := ((7, bs n), put_be32 v) in
  let '(env, mem, mmu, s) := prom_init (Script [(bs "/chosen", 7); (bs "/options", 8)]
    [h "stdin" 11; h "stdout" 12; h "memory" 13; h "mmu" 14] [] [] [] 0) in
  env = PromEnv 11 12 7 8 false ∧ mem = 13 ∧ mmu = 14 ∧ sc_shown s = [13; 10] ∧
  sc_commands s = [forth_words; forth_handles; forth_methods].
Proof. by vm_compute. Qed.

(** without a handle for the standard input the message is shown; what comes after it is
    what happens should [exit] return *)
Example init_without_stdin :
  let h n v := ((7, bs n), put_be32 v) in
  let '(env, mem, mmu, s) := prom_init (Script [(bs "/chosen", 7)]
    [h "stdout" 12; h "memory" 13; h "mmu" 14] [] [] [] 0) in
  prom_options env = PROM_INVALID_HANDLE ∧ sc_shown s = [13; 10] ++ bs "Can't open stdin" ++ [13; 10].
Proof. by vm_compute. Qed.
