(* ===== verification/Disk.v ===== *)
(** What the readers of disks rely on of a block device, and a firmware whose devices
    hold an image, on which that is proved and the readers can be run. *)
From S2P Require Import Prelude Ctype CString Numeric Vsprintf Malloc Prom.

(** ** The interface *)

(** [disk] is an open device in every state that satisfies [inv]; [block n] is its block
    [n], [None] when it cannot be read.  Printing does not disturb the device. *)
Class BlockDevice {F : Type} `{Firmware F} (env : prom_env) (disk : Z) (inv : F → Prop)
    (block : Z → option (list Z)) := {
  bd_read f n : inv f → 0 <= n →
    ∃ r b f', prom_readblocks disk n 1 f = (r, b, f') ∧ inv f' ∧ Z.of_nat (length b) <= 2048 ∧
      match block n with Some c => r = 1 ∧ b = c | None => r ≠ 1 end;
  bd_print f fmt args : inv f → inv (prom_printf env fmt args f);
}.

(** ** Disk images *)

Record image := Image {
  im_bytes : list Z;
  im_blksize : Z;
  im_pos : Z;
  im_type : list Z;
  im_shown : list Z;
}.

Definition im_seek (pos : Z) (s : image) : image :=
  Image (im_bytes s) (im_blksize s) pos (im_type s) (im_shown s).

(** a read past the end of the image returns what there is *)
#[export] Instance image_firmware : Firmware image := {|
  of_finddevice _ _ := 5;
  of_getprop _ name len s := (Z.of_nat (length (im_type s)), take (Z.to_nat len) (im_type s));
  of_getproplen _ _ s := Z.of_nat (length (im_type s));
  of_setprop _ _ v s := (Z.of_nat (length v), s);
  of_open _ s := (7, s);
  of_close _ s := s;
  of_seek _ hi lo s := (0, im_seek (hi * 4294967296 + lo) s);
  of_read _ n s :=
    let b := slice (im_bytes s) (im_pos s) n in
    (Z.of_nat (length b), b, im_seek (im_pos s + Z.of_nat (length b)) s);
  of_write _ t s := Image (im_bytes s) (im_blksize s) (im_pos s) (im_type s) (im_shown s ++ t);
  of_block_size _ s := im_blksize s;
  of_load _ s := (Z.of_nat (length (im_bytes s)), im_bytes s, s);
  of_claim a _ _ s := (a, s);
  of_release _ _ s := s;
  of_interpret _ s := s;
  of_milliseconds s := (0, s);
  of_screen s := (0, s);
  of_package h _ := h;
  of_set_color _ _ _ _ _ s := s;
  of_enter s := s;
  of_exit s := s;
|}.

(** block [n] of an image *)
Definition image_block (bytes : list Z) (blksize n : Z) : option (list Z) :=
  let b := slice bytes (u32 (n * blksize)) blksize in
  if Z.of_nat (length b) =? blksize then Some b else None.

Definition holds (bytes : list Z) (blksize : Z) (s : image) : Prop :=
  im_bytes s = bytes ∧ im_blksize s = blksize.

#[export] Instance holds_dec bytes blksize s : Decision (holds bytes blksize s).
Proof. unfold holds. apply _. Defined.

Lemma holds_puts file t bytes k s : holds bytes k s → holds bytes k (prom_puts file t s).
Proof.
  unfold prom_puts. destruct (puts_writes _ t) as [ws| |]; [|done|done].
  revert s. induction ws as [|w ws IH]; intros s Hs; simpl; [done|]. by apply IH.
Qed.

Lemma holds_retry n file k bytes blksize s : holds bytes blksize s → 0 <= k <= 2048 →
  ∃ s', holds bytes blksize s' ∧
    (slice bytes (im_pos s) k = [] ∧ read_retry n file k s = (0, [], s') ∨
     n ≠ O ∧ slice bytes (im_pos s) k ≠ [] ∧
     read_retry n file k s =
       (Z.of_nat (length (slice bytes (im_pos s) k)), slice bytes (im_pos s) k, s')) ∨
  n = O.
Proof.
  intros Hs Hk. destruct (decide (n = O)) as [->|Hn]; [exists s; by right|].
  assert (length (slice bytes (im_pos s) k) <= 2048)%nat as Hlen.
  { unfold slice. rewrite length_take. lia. }
  destruct (decide (slice bytes (im_pos s) k = [])) as [E|E].
  - cut (∃ s', holds bytes blksize s' ∧ read_retry n file k s = (0, [], s')).
    { intros (s' & ? & ?). exists s'. left. split; [done|]. by left. }
    clear Hn. revert s Hs E Hlen. induction n as [|n IH]; intros s Hs E Hlen; cbn [read_retry]; [by eauto|].
    cbn [of_read image_firmware]. destruct Hs as [H1 H2]. rewrite H1, E. cbn [length].
    change (s32 (Z.of_nat 0) =? 0) with true. cbn [negb]. change (Z.of_nat 0) with 0. rewrite Z.add_0_r.
    apply IH; simpl; [done|done|lia].
  - exists (im_seek (im_pos s + Z.of_nat (length (slice bytes (im_pos s) k))) s). left.
    split; [done|]. right. split; [done|]. split; [done|].
    destruct n as [|n]; [done|]. cbn [read_retry of_read image_firmware].
    destruct Hs as [H1 H2]. rewrite H1. rewrite s32_small by (unfold INT_MIN, INT_MAX; lia).
    destruct (Z.eqb_spec (Z.of_nat (length (slice bytes (im_pos s) k))) 0) as [E0|E0]; [|done].
    destruct (slice bytes (im_pos s) k); [done|simpl in E0; lia].
Qed.

Lemma image_device env bytes blksize : 1 < blksize <= 2048 →
  BlockDevice env 7 (holds bytes blksize) (image_block bytes blksize).
Proof.
  intros Hk. split; [|intros f fmt args Hf; unfold prom_printf; by apply holds_puts].
  intros f n Hf Hn. unfold prom_readblocks, prom_getblksize. cbn [of_block_size image_firmware].
  pose proof Hf as [H1 H2]. rewrite H2, (s32_small blksize), (u32_small blksize) by (unfold INT_MIN, INT_MAX; lia).
  destruct (Z.leb_spec blksize 1); [lia|]. unfold prom_seek. cbn [of_seek image_firmware].
  change (s32 0) with 0. cbn [orb Z.eqb Pos.eqb negb].
  rewrite Z.mul_1_l, (u32_small blksize) by lia. unfold prom_read.
  destruct (Z.eqb_spec blksize 0); [lia|].
  set (pos := 0 * 4294967296 + u32 (u32 (n * blksize))).
  assert (pos = u32 (n * blksize)) as Epos.
  { unfold pos. rewrite Z.mul_0_l, Z.add_0_l. unfold u32. by rewrite Z.mod_mod. }
  destruct (holds_retry 9 7 blksize bytes blksize (im_seek pos f)) as (s' & [[Hs' Hr]|?]);
    [by split|lia| |done]. cbn [im_pos im_seek] in Hr.
  set (b := slice bytes pos blksize) in Hr. unfold image_block. rewrite <- Epos.
  assert (length b <= Z.to_nat blksize)%nat as Hlen.
  { unfold b, slice. rewrite length_take. lia. }
  fold b. destruct Hr as [[Eb ->]|(_ & _ & ->)].
  - eexists _, _, _. split; [done|]. split; [done|]. split; [simpl; lia|].
    rewrite Eb. cbn [length]. destruct (Z.eqb_spec (Z.of_nat 0) blksize); [lia|].
    rewrite (u32_small 0) by lia. by destruct (Z.eqb_spec 0 blksize); [lia|].
  - eexists _, _, _. split; [done|]. split; [done|]. split; [lia|].
    rewrite u32_small by lia. by destruct (Z.eqb_spec (Z.of_nat (length b)) blksize).
Qed.

(** ** Devices read at any byte *)

(** [disk] is an open device that holds [data] in every state that satisfies [inv]: what
    lies in it is read in one piece after a seek *)
Class SeekDevice {F : Type} `{Firmware F} (disk : Z) (inv : F → Prop) (data : list Z) := {
  sd_range f p n : inv f → 0 <= p → 0 < n <= INT_MAX → p + n <= Z.of_nat (length data) →
    ∃ r f1 f2, prom_lseek disk p f = (r, f1) ∧ r ≠ 0 ∧
      prom_read disk n f1 = (n, slice data p n, f2) ∧ inv f2;
}.

Definition of_image (data : list Z) (s : image) : Prop := im_bytes s = data.

#[export] Instance of_image_dec data s : Decision (of_image data s).
Proof. unfold of_image. apply _. Defined.

Lemma read_at_once {F : Type} `{Firmware F} tries file n f r b f' :
  of_read file n f = (r, b, f') → s32 r ≠ 0 → read_retry (S tries) file n f = (s32 r, b, f').
Proof. intros E Hr. cbn [read_retry]. by rewrite E, (proj2 (Z.eqb_neq _ _) Hr). Qed.

#[export] Instance image_seeks disk data :
  Z.of_nat (length data) < 18446744073709551616 → SeekDevice disk (of_image data) data.
Proof.
  intros Hlen. split. intros f p n Hf Hp Hn Hin. unfold prom_lseek. cbn [of_seek image_firmware].
  change (s32 0) with 0. cbn [orb Z.eqb]. eexists _, _, _. split; [done|]. split; [done|].
  set (q := u32 (Z.shiftr p 32) * 4294967296 + u32 (Z.land p 4294967295)).
  assert (q = p) as ->.
  { unfold q. change 4294967295 with (Z.ones 32). rewrite Z.land_ones, Z.shiftr_div_pow2 by lia.
    change (2 ^ 32) with 4294967296.
    assert (u32 (p / 4294967296) = p / 4294967296) as ->.
    { apply u32_small. split; [by apply Z.div_pos|]. apply Z.div_lt_upper_bound; lia. }
    rewrite u32_small by (apply Z.mod_pos_bound; lia).
    pose proof (Z.div_mod p 4294967296). lia. }
  unfold prom_read. rewrite (proj2 (Z.eqb_neq n 0)) by lia.
  assert (Z.of_nat (length (slice data p n)) = n) as Hlb by (rewrite length_slice; lia).
  rewrite (read_at_once 8 disk n (im_seek p f) n (slice data p n) (im_seek (p + n) f)).
  - rewrite s32_small by (unfold INT_MIN; lia). split; [reflexivity|exact Hf].
  - cbn [of_read image_firmware im_bytes im_seek im_pos]. unfold of_image in Hf. by rewrite Hf, Hlb.
  - rewrite s32_small by (unfold INT_MIN; lia). lia.
Qed.

(** images put together from parts *)
Definition zeros (n : Z) : list Z := replicate (Z.to_nat n) 0.

Definition layout (size : Z) (parts : list (Z * list Z)) : list Z :=
  foldl (λ im '(o, b), store im o b) (zeros size) parts.
