(* ===== verification/Cfg.v ===== *)
(** [second/cfg.c]: the configuration file.  A lexer over the bytes of the file, the
    parser of items, the option tables of the file and of its images, and the
    queries the boot code makes of them.

    Tokens and values are strings; the blocks [strdup] and [malloc] take for them
    are not modelled, the pool is taken to be large enough. *)
From S2P Require Import Prelude Ctype CString Numeric Vsprintf Prom.

(** ** Data *)

Inductive config_type := cft_strg | cft_flag.

(** an entry of a table; the table ends where the code has [cft_end].  [data] is the
    pointer of the code: [None] is NULL, a flag that is set points to [flag_set],
    the empty string. *)
Record config := Config {
  type : config_type;
  name : list Z;
  data : option (list Z);
}.

Definition MAX_TOKEN : Z := 511.
Definition EOF : Z := -1.
Definition flag_set : list Z := [].

Definition strg (n : list Z) : config := Config cft_strg n None.
Definition flag (n : list Z) : config := Config cft_flag n None.

Definition cf_options : list config :=
  [strg (bs "device"); strg (bs "partition"); strg (bs "default"); strg (bs "timeout");
   strg (bs "password"); flag (bs "restricted"); strg (bs "message"); strg (bs "root");
   strg (bs "ramdisk"); flag (bs "read-only"); flag (bs "read-write"); strg (bs "append");
   strg (bs "initrd"); flag (bs "initrd-prompt"); strg (bs "initrd-size");
   flag (bs "pause-after"); strg (bs "pause-message"); strg (bs "init-code");
   strg (bs "init-message"); strg (bs "fgcolor"); strg (bs "bgcolor");
   strg (bs "ptypewarning")].

Definition cf_image : list config :=
  [strg (bs "image"); strg (bs "label"); strg (bs "alias"); flag (bs "single-key");
   flag (bs "restricted"); strg (bs "device"); strg (bs "partition"); strg (bs "root");
   strg (bs "ramdisk"); flag (bs "read-only"); flag (bs "read-write"); strg (bs "append");
   strg (bs "literal"); strg (bs "initrd"); flag (bs "initrd-prompt");
   strg (bs "initrd-size"); flag (bs "pause-after"); strg (bs "pause-message");
   flag (bs "novideo")].

Record image := Image { table : list config; obsolete : bool }.

(** the lexer's static variables: the bytes from [currp] to [endp], the character
    that can be read again and the line *)
Record lexer := Lexer { rest : list Z; back : Z; line_num : Z }.

(** the tables: [curr_table] is [None] for [cf_options] and the index of an image
    otherwise; [root] and [model] are the static variables of [match_arch] *)
Record tables := Tables {
  options : list config;
  images : list image;
  curr_table : option nat;
  root : Z;
  model : list Z;
}.

Record cfg := Cfg {
  lx : lexer;
  last_token : option (list Z);
  last_item : option (list Z * option (list Z));
  tabs : tables;
  file_name : list Z;
  console : list Z;
}.

(** the static variables as the program is loaded *)
Definition cfg_initial : cfg :=
  Cfg (Lexer [] 0 0) None None (Tables cf_options [] None 0 (replicate 256 0)) [] [].

(** [cfg_error] ends in a [longjmp] to [cfg_parse]; its argument is the message *)
Definition message : Type := list Z.

(** ** The lexer *)

(** a byte is read through a signed [char] *)
Definition getc : stm lexer message Z := λ l,
  match rest l with
  | [] => (Ok EOF, l)
  | c :: r => (Ok (s8 c), Lexer r (back l) (line_num l))
  end.

Definition next : stm lexer message Z := λ l,
  if back l =? 0 then getc l else (Ok (back l), Lexer (rest l) 0 (line_num l)).

Definition again (ch : Z) : stm lexer message unit :=
  modify (λ l, Lexer (rest l) ch (line_num l)).

Definition next_line : stm lexer message unit :=
  modify (λ l, Lexer (rest l) (back l) (s32 (line_num l + 1))).

Definition is_blank (ch : Z) : bool := (ch =? 32) || (ch =? 9).
Definition is_newline (ch : Z) : bool := (ch =? 10) || (ch =? 13).

(** [while (ch = next (), ch == ' ' || ...) if (newline) line_num++;] *)
Fixpoint skip_space (fuel : nat) : stm lexer message Z :=
  match fuel with
  | O => out_of_fuel
  | S fuel =>
      ch ← next;
      if is_blank ch then skip_space fuel
      else if is_newline ch then next_line;; skip_space fuel
      else mret ch
  end.

(** the rest of a comment: [false] when the file ends in it *)
Fixpoint skip_comment (fuel : nat) : stm lexer message bool :=
  match fuel with
  | O => out_of_fuel
  | S fuel =>
      ch ← next;
      if is_newline ch then mret true
      else if ch =? EOF then mret false
      else skip_comment fuel
  end.

(** the [while (1)] loop: the first character of a token *)
Fixpoint skip (fuel : nat) : stm lexer message (option Z) :=
  match fuel with
  | O => out_of_fuel
  | S fuel =>
      ch ← skip_space (S fuel);
      if (ch =? EOF) || (ch =? 0) then mret None
      else if negb (ch =? 35) then mret (Some ch)
      else
        more ← skip_comment (S fuel);
        if more : bool then next_line;; skip fuel else mret None
  end.

(** [while ((ch = next ()), ch == ' ' || ch == '\t');] *)
Fixpoint skip_blanks (fuel : nat) : stm lexer message Z :=
  match fuel with
  | O => out_of_fuel
  | S fuel => ch ← next; if is_blank ch then skip_blanks fuel else mret ch
  end.

(** a quoted string; [buf] are the characters stored so far *)
Fixpoint quoted (fuel : nat) (buf : list Z) : stm lexer message (list Z) :=
  match fuel with
  | O => out_of_fuel
  | S fuel =>
      if negb (Z.of_nat (length buf) <? MAX_TOKEN) then fail (bs "Quoted string is too long")
      else
        ch ← next;
        if ch =? EOF then fail (bs "EOF in quoted string")
        else if ch =? 34 then mret (cstring buf)
        else if ch =? 92 then
          ch ← next;
          if (ch =? 34) || (ch =? 92) then quoted fuel (buf ++ [u8 ch])
          else if is_newline ch then
            ch ← skip_blanks (S fuel);
            if ch =? 0 then quoted fuel buf
            else again ch;; quoted fuel (buf ++ [32])
          else if ch =? 110 then quoted fuel (buf ++ [10])
          else fail (bs "Bad use of \ in quoted string")
        else if is_newline ch then fail (bs "newline is not allowed in quoted strings")
        else quoted fuel (buf ++ [u8 ch])
  end.

Definition is_delimiter (ch : Z) : bool :=
  is_blank ch || is_newline ch || (ch =? 35) || (ch =? 61) || (ch =? EOF).

(** a plain token *)
Fixpoint plain (fuel : nat) (ch : Z) (escaped : bool) (buf : list Z)
    : stm lexer message (list Z) :=
  match fuel with
  | O => out_of_fuel
  | S fuel =>
      if negb (Z.of_nat (length buf) <? MAX_TOKEN) then fail (bs "Token is too long")
      else if escaped then
        if ch =? EOF then fail (bs "\ precedes EOF")
        else if ch =? 10 then next_line;; ch ← next; plain fuel ch false buf
        else ch' ← next; plain fuel ch' false (buf ++ [if ch =? 9 then 32 else u8 ch])
      else if is_delimiter ch then again ch;; mret (cstring buf)
      else
        let escaped := ch =? 92 in
        ch' ← next; plain fuel ch' escaped (if escaped then buf else buf ++ [u8 ch])
  end.

(** fuel for every loop of one token *)
Definition token_fuel (l : lexer) : nat := 2 * length (rest l) + 4.

(** the part of [cfg_get_token] that reads *)
Definition read_token_with (fuel : nat) : stm lexer message (option (list Z)) :=
  start ← skip fuel;
  match start with
  | None => mret None
  | Some ch =>
      if ch =? 61 then mret (Some (bs "="))
      else if ch =? 34 then t ← quoted fuel []; mret (Some t)
      else t ← plain fuel ch false []; mret (Some t)
  end.

Definition read_token : stm lexer message (option (list Z)) := λ l,
  read_token_with (token_fuel l) l.

(** ** Tokens and items *)

Definition set_lx (c : cfg) (l : lexer) : cfg :=
  Cfg l (last_token c) (last_item c) (tabs c) (file_name c) (console c).
Definition set_last_token (t : option (list Z)) (c : cfg) : cfg :=
  Cfg (lx c) t (last_item c) (tabs c) (file_name c) (console c).
Definition set_tabs (t : tables) (c : cfg) : cfg :=
  Cfg (lx c) (last_token c) (last_item c) t (file_name c) (console c).
Definition print (t : list Z) (c : cfg) : cfg :=
  Cfg (lx c) (last_token c) (last_item c) (tabs c) (file_name c) (console c ++ t).

(** run the lexer on its part of the state *)
Definition lex {A} (m : stm lexer message A) : stm cfg message A := λ c,
  let '(r, l) := m (lx c) in (r, set_lx c l).

Definition cfg_get_token : stm cfg message (option (list Z)) := λ c,
  match last_token c with
  | Some here => (Ok (Some here), set_last_token None c)
  | None => lex read_token c
  end.

Definition cfg_return_token (token : list Z) : stm cfg message unit :=
  modify (set_last_token (Some token)).

Definition is_equals (t : list Z) : bool := strcmp t (bs "=") =? 0.

(** the item and its value; [None] at the end of the file *)
Definition cfg_next : stm cfg message (option (list Z * option (list Z))) := λ c,
  match last_item c with
  | Some (item, value) =>
      (Ok (Some (item, value)), Cfg (lx c) (last_token c) None (tabs c) (file_name c) (console c))
  | None =>
      (item ← cfg_get_token;
       match item with
       | None => mret None
       | Some item =>
           if is_equals item then fail (bs "Syntax error")
           else
             this ← cfg_get_token;
             match this with
             | None => mret (Some (item, None))
             | Some this =>
                 if negb (is_equals this) then
                   cfg_return_token this;; mret (Some (item, None))
                 else
                   value ← cfg_get_token;
                   match value with
                   | None => fail (bs "Value expected at EOF")
                   | Some value =>
                       if is_equals value
                       then fail (format (bs "Syntax error after %s") [AStr (Some item)])
                       else mret (Some (item, Some value))
                   end
             end
       end) c
  end.

(** ** The tables *)

Fixpoint cfg_get_strg_i (table : list config) (item : list Z) : option (list Z) :=
  match table with
  | [] => None
  | walk :: table =>
      if strcasecmp (name walk) item =? 0 then data walk else cfg_get_strg_i table item
  end.

(** the position of the entry named [item], without regard to case *)
Fixpoint find_entry (table : list config) (item : list Z) : option (nat * config) :=
  match table with
  | [] => None
  | walk :: table =>
      if strcasecmp (name walk) item =? 0 then Some (0%nat, walk)
      else match find_entry table item with
           | Some (i, e) => Some (S i, e)
           | None => None
           end
  end.

(** the table [curr_table] points to *)
Definition current (t : tables) : list config :=
  match curr_table t with
  | None => options t
  | Some i => match images t !! i with Some p => table p | None => [] end
  end.

(** [walk->data = v] for entry [i] of a table *)
Definition set_data (i : nat) (v : list Z) (table : list config) : list config :=
  alter (λ e, Config (type e) (name e) (Some v)) i table.

(** the same for the table [curr_table] points to *)
Definition set_current (i : nat) (v : list Z) (t : tables) : tables :=
  match curr_table t with
  | None => Tables (set_data i v (options t)) (images t) None (root t) (model t)
  | Some k =>
      Tables (options t) (alter (λ p, Image (set_data i v (table p)) (obsolete p)) k (images t))
        (Some k) (root t) (model t)
  end.

Definition set_images (l : list image) (t : tables) : tables :=
  Tables (options t) l (curr_table t) (root t) (model t).

(** the label of a table, or its image path *)
Definition label_or_image (table : list config) : option (list Z) :=
  match cfg_get_strg_i table (bs "label") with
  | Some l => Some l
  | None => cfg_get_strg_i table (bs "image")
  end.

(** an earlier or later image with the label that is being set is ignored from now
    on, unless the current one is ignored itself *)
Definition check_for_obsolete (label : list Z) (t : tables) : tables :=
  let is_current (k : nat) := bool_decide (curr_table t = Some k) in
  if match curr_table t with
     | Some k => match images t !! k with Some p => obsolete p | None => false end
     | None => false
     end
  then t
  else
    set_images
      (imap (λ k p,
         if is_current k then p
         else match label_or_image (table p) with
              | Some l => if strcasecmp l label =? 0 then Image (table p) true else p
              | None => p
              end) (images t)) t.

(** the strings of the property [compatible], one after the other in [model] *)
Fixpoint compatible (fuel : nat) (p name : list Z) : bool :=
  match fuel with
  | O => false
  | S fuel =>
      if deref p =? 0 then false
      else if strcasecmp (cstring p) name =? 0 then true
      else compatible fuel (drop (S (length (cstring p))) p) name
  end.

(** the parts of [s] between the bars, in order *)
Fixpoint split_bar (s : list Z) : list (list Z) :=
  match s with
  | [] => [[]]
  | c :: r =>
      if c =? 124 then [] :: split_bar r
      else match split_bar r with
           | p :: ps => (c :: p) :: ps
           | [] => [[c]]
           end
  end.

Section machine.
Context {F : Type} `{Firmware F}.
Context (f : F).

(** the handle of the root node and its property are looked up until they are found *)
Definition match_arch (name : list Z) (t : tables) : bool * tables :=
  let r := if root t =? 0 then prom_finddevice (bs "/") f else root t in
  let t := Tables (options t) (images t) (curr_table t) r (model t) in
  if r =? 0 then (false, t)
  else
    let '(found, m) :=
      if deref (model t) =? 0 then
        let '(n, mem) := prom_getprop r (bs "compatible") 256 f in
        (negb (n =? 0), store (model t) 0 mem)
      else (true, model t) in
    let t := Tables (options t) (images t) (curr_table t) r m in
    if found : bool then (compatible 256 m name, t) else (false, t).

(** [for (s = item + 6; q; s = q) ... if (match_arch(s)) goto cfg_set_cont;] *)
Fixpoint match_any (names : list (list Z)) (t : tables) : bool * tables :=
  match names with
  | [] => (false, t)
  | n :: names => let '(b, t) := match_arch n t in if b then (true, t) else match_any names t
  end.

(** a new image table at the end of the list, current from now on *)
Definition new_image (ignore : bool) (t : tables) : tables :=
  Tables (options t) (images t ++ [Image cf_image ignore]) (Some (length (images t))) (root t) (model t).

(** what [cfg_set] does for an item that starts with [image]: the item, shortened
  in place when it carries a list of machines, and the tables *)
Definition open_image (item : list Z) (t : tables) : list Z * tables :=
  let tail5 := drop 5 item in
  if (deref tail5 =? 91) && (byte_at item (strlen item - 1) =? 93) then
    let names := split_bar (take (length tail5 - 2) (tail tail5)) in
    let '(found, t) := match_any names t in
    (take 5 item, new_image (negb found) t)
  else if negb (deref tail5 =? 0) then (item, t)
  else (item, new_image false t).

(** the text of [cfg_warn] *)
Definition warning (fmt arg file : list Z) (line : Z) : list Z :=
  bs "Config file warning: " ++ format fmt [AStr (Some arg)] ++
  format (bs " near line %d in file %s" ++ [10]) [AInt line; AStr (Some file)].

(** the result, the tables and the text printed *)
Definition cfg_set (line : Z) (file item : list Z) (value : option (list Z)) (t : tables)
    : Z * tables * list Z :=
  let '(item, t) := if strncasecmp item (bs "image") 5 =? 0 then open_image item t else (item, t) in
  match find_entry (current t) item with
  | None => (0, t, [])
  | Some (i, walk) =>
      match value, type walk with
      | Some _, cft_flag => (1, t, warning (bs "'%s' doesn't have a value") (name walk) file line)
      | None, cft_strg => (1, t, warning (bs "Value expected for '%s'") (name walk) file line)
      | _, _ =>
          let t := match value with
                   | Some v => if strcasecmp item (bs "label") =? 0 then check_for_obsolete v t else t
                   | None => t
                   end in
          let w := match data walk with
                   | Some _ => warning (bs "Duplicate entry '%s'") (name walk) file line
                   | None => []
                   end in
          (1, set_current i (default flag_set value) t, w)
      end
  end.

(** ** The parser *)

Definition clear (e : config) : config := Config (type e) (name e) None.

Definition cfg_reset (c : cfg) : cfg :=
  Cfg (Lexer (rest (lx c)) (back (lx c)) 0) (last_token c) (last_item c)
    (Tables (map clear (options (tabs c))) [] None (root (tabs c)) (model (tabs c)))
    (file_name c) (console c).

(** the [while (1)] loop of [cfg_parse] *)
Fixpoint parse_loop (fuel : nat) : stm cfg message unit :=
  match fuel with
  | O => out_of_fuel
  | S fuel =>
      item ← cfg_next;
      match item with
      | None => mret tt
      | Some (item, value) =>
          modify (λ c,
            let '(_, t, w) := cfg_set (line_num (lx c)) (file_name c) item value (tabs c) in
            print w (set_tabs t c));;
          parse_loop fuel
      end
  end.

(** what [cfg_error] prints *)
Definition error_text (m : message) (c : cfg) : list Z :=
  bs "Config file error: " ++ m ++
  format (bs " near line %d in file %s" ++ [10]) [AInt (line_num (lx c)); AStr (Some (file_name c))].

(** [buff] are the [len] bytes of the file.  The character to read again and the
  token given back are those of an earlier parse. *)
Definition cfg_parse (cfg_file buff : list Z) (c : cfg) : result Empty_set Z * cfg :=
  let c := Cfg (Lexer buff (back (lx c)) (line_num (lx c))) (last_token c) (last_item c) (tabs c)
             cfg_file (console c) in
  let c := cfg_reset c in
  match parse_loop (4 * length buff + 8) c with
  | (Ok _, c) => (Ok 0, c)
  | (Err m, c) => (Ok (-1), print (error_text m c) c)
  | (Fuel, c) => (Fuel, c)
  end.
End machine.

(** ** Queries

    [Err Null] is the use of a NULL pointer as a string. *)

Inductive null_deref := Null.

#[export] Instance null_deref_eq_dec : EqDecision null_deref.
Proof. solve_decision. Defined.

(** what follows the last slash *)
Definition basename (s : list Z) : list Z :=
  match strrchr s 47 with Some t => tail t | None => s end.

(** the label of an image that is not ignored, its file name without one *)
Definition image_label (table : list config) : result null_deref (list Z) :=
  match cfg_get_strg_i table (bs "label") with
  | Some l => Ok l
  | None =>
      match cfg_get_strg_i table (bs "image") with
      | Some i => Ok (basename i)
      | None => Err Null
      end
  end.

(** the loop of [cfg_get_strg] over the images *)
Fixpoint strg_in (opts : list config) (l : list image) (image item : list Z)
    : result null_deref (option (list Z)) :=
  match l with
  | [] => Ok None
  | p :: l =>
      if obsolete p then strg_in opts l image item
      else
        match image_label (table p) with
        | Err e => Err e
        | Fuel => Fuel
        | Ok label =>
            let alias := cfg_get_strg_i (table p) (bs "alias") in
            if (strcmp label image =? 0) ||
               match alias with Some a => strcmp a image =? 0 | None => false end
            then
              match cfg_get_strg_i (table p) item with
              | Some r => Ok (Some r)
              | None => Ok (cfg_get_strg_i opts item)
              end
            else strg_in opts l image item
        end
  end.

Definition cfg_get_strg (image : option (list Z)) (item : list Z) (t : tables)
    : result null_deref (option (list Z)) :=
  match image with
  | None => Ok (cfg_get_strg_i (options t) item)
  | Some image => strg_in (options t) (images t) image item
  end.

Definition cfg_get_flag (image : option (list Z)) (item : list Z) (t : tables)
    : result null_deref bool :=
  match cfg_get_strg image item t with
  | Ok r => Ok (match r with Some _ => true | None => false end)
  | Err e => Err e
  | Fuel => Fuel
  end.

(** the text of one label and the count of labels on the line afterwards *)
Definition printlabel (label : list Z) (defflag printl_count : Z) : list Z * Z :=
  let a := if defflag =? 1 then 42 else if defflag =? 2 then 38 else 32 in
  let count := printl_count + 1 in
  ((if printl_count =? 0 then [10] else []) ++
   format (bs "%c %s") [AInt a; AStr (Some label)] ++
   replicate (Z.to_nat (25 - strlen label)) 32,
   if count =? 3 then 0 else count).

(** the loop of [cfg_print_images]: [ret] is the default, [once] is [bootoncelabel] *)
Fixpoint print_images (l : list image) (ret : option (list Z)) (once : list Z) (count : Z)
    : result null_deref (list Z) :=
  match l with
  | [] => Ok []
  | p :: l =>
      if obsolete p then print_images l ret once count
      else
        match image_label (table p) with
        | Err e => Err e
        | Fuel => Fuel
        | Ok label =>
            let defflag :=
              if strcmp once label =? 0 then Ok 2
              else match ret with
                   | None => Err Null
                   | Some r => Ok (if strcmp r label =? 0 then 1 else 0)
                   end in
            match defflag with
            | Err e => Err e
            | Fuel => Fuel
            | Ok d =>
                let '(t1, count) := printlabel label d count in
                let '(t2, count) :=
                  match cfg_get_strg_i (table p) (bs "alias") with
                  | Some a => printlabel a 0 count
                  | None => ([], count)
                  end in
                match print_images l ret once count with
                | Ok t => Ok (t1 ++ t2 ++ t)
                | r => r
                end
            end
        end
  end.

Definition cfg_print_images (bootoncelabel : list Z) (t : tables) : result null_deref (list Z) :=
  match print_images (images t) (cfg_get_strg_i (options t) (bs "default")) bootoncelabel 0 with
  | Ok s => Ok (s ++ [10])
  | r => r
  end.

Definition cfg_get_default (t : tables) : result null_deref (option (list Z)) :=
  match cfg_get_strg_i (options t) (bs "default") with
  | Some r => Ok (Some r)
  | None =>
      match list_find (λ p, obsolete p = false) (images t) with
      | None => Ok None
      | Some (_, p) =>
          match image_label (table p) with
          | Ok l => Ok (Some l)
          | Err e => Err e
          | Fuel => Fuel
          end
      end
  end.

(** does an image carry the label [mac_addr]?  Every image is looked at. *)
Fixpoint has_label (l : list image) (mac_addr : list Z) (haslabel : bool) : result null_deref bool :=
  match l with
  | [] => Ok haslabel
  | p :: l =>
      match cfg_get_strg_i (table p) (bs "label") with
      | None => Err Null
      | Some label => has_label l mac_addr (haslabel || (strcmp label mac_addr =? 0))
      end
  end.

Definition cfg_set_default_by_mac (mac_addr : list Z) (t : tables) : result null_deref (Z * tables) :=
  match has_label (images t) mac_addr false with
  | Err e => Err e
  | Fuel => Fuel
  | Ok false => Ok (0, t)
  | Ok true =>
      match find_entry (options t) (bs "default") with
      | None => Ok (0, t)
      | Some (i, _) =>
          Ok (1, Tables (set_data i mac_addr (options t)) (images t) (curr_table t) (root t) (model t))
      end
  end.

(** ** The loops end

    [mu] counts the characters a lexer has left, twice for those of the file, so
    that giving a character back costs less than reading it. *)

Definition mu (l : lexer) : nat :=
  2 * length (rest l) + (if (back l =? 0) || (back l =? EOF) then 0 else 1).

(** the cost of the character at hand *)
Definition weight (ch : Z) : nat := if ch =? EOF then 0 else 1.

Lemma next_spec l :
  returns next l (λ ch l', back l' = 0 ∧ (mu l' <= mu l)%nat ∧
    (ch ≠ EOF → (mu l' < mu l)%nat) ∧
    (back l = 0 → ch ≠ EOF → (mu l' + 2 <= mu l)%nat)).
Proof.
  unfold returns, next, getc, mu, EOF. destruct l as [r b n]. simpl.
  destruct (Z.eqb_spec b 0) as [->|Hb]; simpl.
  - destruct r as [|c r]; simpl; repeat split; lia.
  - destruct (Z.eqb_spec b (-1)); repeat split; intros; lia.
Qed.

Lemma again_mu l ch : back l = 0 →
  (mu (Lexer (rest l) ch (line_num l)) <= mu l + weight ch)%nat.
Proof.
  intros Hb. unfold mu, weight. simpl. rewrite Hb. simpl.
  destruct (Z.eqb_spec ch 0), (Z.eqb_spec ch EOF); simpl; lia.
Qed.

(** run [next] and name the character and the state *)
Ltac step_next ch l :=
  apply returns_bind; eapply returns_mono; [apply next_spec|];
  let Hb := fresh "Hb" in let Hm := fresh "Hm" in let Hs := fresh "Hs" in let H2 := fresh "H2" in
  intros ch l (Hb & Hm & Hs & H2).

Lemma skip_space_spec fuel l : (mu l < fuel)%nat →
  returns (skip_space fuel) l (λ ch l', back l' = 0 ∧ (mu l' <= mu l)%nat ∧
    (ch ≠ EOF → (mu l' < mu l)%nat) ∧ is_blank ch = false ∧ is_newline ch = false).
Proof.
  revert l. induction fuel as [|fuel IH]; intros l Hf; [lia|]. cbn [skip_space].
  step_next ch l1. destruct (is_blank ch) eqn:Eb.
  - assert (ch ≠ EOF) as Hne by (intros ->; done). specialize (Hs Hne).
    eapply returns_mono; [apply IH; lia|]. intros ch' l' (? & ? & ? & ? & ?).
    repeat split; try done; intros; lia.
  - destruct (is_newline ch) eqn:En.
    + assert (ch ≠ EOF) as Hne by (intros ->; done). specialize (Hs Hne).
      apply returns_bind. unfold returns at 1, next_line, modify.
      assert (mu (Lexer (rest l1) (back l1) (s32 (line_num l1 + 1))) = mu l1) as Emu by done.
      eapply returns_mono; [apply IH; lia|]. rewrite Emu. intros ch' l' (? & ? & ? & ? & ?).
      repeat split; try done; intros; lia.
    + unfold returns. simpl. done.
Qed.

Lemma skip_comment_spec fuel l : (mu l < fuel)%nat →
  returns (skip_comment fuel) l (λ b l', back l' = 0 ∧ (mu l' <= mu l)%nat ∧
    (b = true → (mu l' < mu l)%nat)).
Proof.
  revert l. induction fuel as [|fuel IH]; intros l Hf; [lia|]. cbn [skip_comment].
  step_next ch l1. destruct (is_newline ch) eqn:En.
  - assert (ch ≠ EOF) as Hne by (intros ->; done). specialize (Hs Hne). done.
  - destruct (Z.eqb_spec ch EOF) as [->|Hne]; [done|]. specialize (Hs Hne).
    eapply returns_mono; [apply IH; lia|]. intros b l' (? & ? & ?). repeat split; try done; lia.
Qed.

(** a character a token can start with *)
Definition starts_token (ch : Z) : Prop :=
  is_blank ch = false ∧ is_newline ch = false ∧ ch ≠ EOF ∧ ch ≠ 0 ∧ ch ≠ 35.

Lemma skip_spec fuel l : (mu l < fuel)%nat →
  returns (skip fuel) l (λ o l', back l' = 0 ∧ (mu l' <= mu l)%nat ∧
    ∀ ch, o = Some ch → (mu l' < mu l)%nat ∧ starts_token ch).
Proof.
  revert l. induction fuel as [|fuel IH]; intros l Hf; [lia|]. cbn [skip].
  apply returns_bind. eapply returns_mono; [apply skip_space_spec; lia|].
  intros ch l1 (Hb & Hm & Hs & Hbl & Hn).
  destruct (Z.eqb_spec ch EOF) as [->|Hne]; cbn [orb negb]; [done|]. specialize (Hs Hne).
  destruct (Z.eqb_spec ch 0) as [->|Hz]; cbn [orb negb]; [done|].
  destruct (Z.eqb_spec ch 35) as [->|H35]; cbn [orb negb].
  - apply returns_bind. eapply returns_mono; [apply skip_comment_spec; lia|].
    intros b l2 (Hb2 & Hm2 & Hs2). destruct b; [|unfold returns; simpl; split; [done|split; [lia|done]]].
    apply returns_bind. unfold returns at 1, next_line, modify.
    assert (mu (Lexer (rest l2) (back l2) (s32 (line_num l2 + 1))) = mu l2) as Emu by done.
    specialize (Hs2 eq_refl). eapply returns_mono; [apply IH; lia|]. rewrite Emu.
    intros o l' (? & ? & Hsome). split; [done|]. split; [lia|]. intros ch Ho.
    destruct (Hsome ch Ho). split; [lia|done].
  - unfold returns. simpl. split; [done|]. split; [lia|]. intros ch' [= <-].
    split; [lia|]. repeat split; done.
Qed.

Lemma skip_blanks_spec fuel l : (mu l < fuel)%nat →
  returns (skip_blanks fuel) l (λ ch l', back l' = 0 ∧ (mu l' <= mu l)%nat ∧
    (ch ≠ EOF → (mu l' < mu l)%nat)).
Proof.
  revert l. induction fuel as [|fuel IH]; intros l Hf; [lia|]. cbn [skip_blanks].
  step_next ch l1. destruct (is_blank ch) eqn:Eb; [|done].
  assert (ch ≠ EOF) as Hne by (intros ->; done). specialize (Hs Hne).
  eapply returns_mono; [apply IH; lia|]. intros ch' l' (? & ? & ?). repeat split; try done; lia.
Qed.

(** what a token is: short enough for the buffer with its terminator *)
Definition token_ok (t : list Z) : Prop := cstr_ok t ∧ Z.of_nat (length t) < MAX_TOKEN.

Lemma cstring_length l : (length (cstring l) <= length l)%nat.
Proof. induction l as [|b l IH]; simpl; [lia|]. case_match; simpl; lia. Qed.

Lemma token_ok_cstring buf : are_bytes buf → Z.of_nat (length buf) < MAX_TOKEN →
  token_ok (cstring buf).
Proof.
  intros Hb Hl. split; [by apply cstring_ok|]. pose proof (cstring_length buf). lia.
Qed.

Lemma are_bytes_snoc l b : are_bytes l → is_byte b → are_bytes (l ++ [b]).
Proof. intros Hl Hb. apply Forall_app. by split; [|constructor]. Qed.

Lemma u8_byte z : is_byte (u8 z).
Proof. apply u8_range. Qed.

#[local] Hint Resolve are_bytes_snoc u8_byte : cstr.

Lemma quoted_spec fuel l buf : (mu l < fuel)%nat → are_bytes buf →
  returns (quoted fuel buf) l (λ t l', (mu l' <= mu l)%nat ∧ token_ok t).
Proof.
  revert l buf. induction fuel as [|fuel IH]; intros l buf Hf Hbuf; [lia|]. cbn [quoted].
  destruct (Z.ltb_spec (Z.of_nat (length buf)) MAX_TOKEN) as [Hlen|]; cbn [negb]; [|done].
  step_next ch l1. destruct (Z.eqb_spec ch EOF) as [|Hne]; [done|]. specialize (Hs Hne).
  assert (∀ b, is_byte b → returns (quoted fuel (buf ++ [b])) l1
    (λ t l', (mu l' <= mu l)%nat ∧ token_ok t)) as Hpush.
  { intros b Hbyte. eapply returns_mono; [apply IH; [lia|by auto with cstr]|]. intros t l' [? ?]. split; [lia|done]. }
  destruct (ch =? 34).
  { unfold returns. simpl. split; [lia|]. by apply token_ok_cstring. }
  destruct (ch =? 92).
  - step_next ch2 l2. destruct ((ch2 =? 34) || (ch2 =? 92)).
    { eapply returns_mono; [apply IH; [lia|by auto with cstr]|]. intros t l' [? ?]. split; [lia|done]. }
    destruct (is_newline ch2) eqn:En.
    + assert (ch2 ≠ EOF) as Hne2 by (intros ->; done). specialize (Hs0 Hne2).
      apply returns_bind. eapply returns_mono; [apply skip_blanks_spec; lia|].
      intros ch3 l3 (Hb3 & Hm3 & Hs3). destruct (Z.eqb_spec ch3 0).
      { eapply returns_mono; [apply IH; [lia|done]|]. intros t l' [? ?]. split; [lia|done]. }
      apply returns_bind. unfold returns at 1, again, modify.
      pose proof (again_mu l3 ch3 Hb3) as Ha.
      assert (mu (Lexer (rest l3) ch3 (line_num l3)) <= mu l2)%nat as Hle.
      { unfold weight in Ha. destruct (Z.eqb_spec ch3 EOF) as [|Hne3]; [lia|]. specialize (Hs3 Hne3). lia. }
      eapply returns_mono; [apply IH; [lia|]|].
      { apply are_bytes_snoc; [done|by_decision]. }
      intros t l' [? ?]. split; [lia|done].
    + destruct (ch2 =? 110); [|done].
      eapply returns_mono; [apply IH; [lia|apply are_bytes_snoc; [done|by_decision]]|].
      intros t l' [? ?]. split; [lia|done].
  - destruct (is_newline ch); [done|]. apply Hpush, u8_byte.
Qed.

Lemma plain_spec fuel ch (escaped : bool) buf l :
  back l = 0 → are_bytes buf →
  (mu l + weight ch < fuel)%nat →
  returns (plain fuel ch escaped buf) l (λ t l', token_ok t ∧
    (mu l' <= mu l + weight ch)%nat ∧
    (escaped || negb (is_delimiter ch) = true → (mu l' <= mu l)%nat)).
Proof.
  revert ch escaped buf l. induction fuel as [|fuel IH]; intros ch escaped buf l Hb0 Hbuf Hf; [lia|].
  cbn [plain].
  destruct (Z.ltb_spec (Z.of_nat (length buf)) MAX_TOKEN) as [Hlen|]; cbn [negb]; [|done].
  assert (∀ esc buf' l0, ch ≠ EOF → mu l0 = mu l → back l0 = 0 → are_bytes buf' →
    returns (ch' ← next; plain fuel ch' esc buf') l0 (λ t l', token_ok t ∧
      (mu l' <= mu l + weight ch)%nat ∧
      (escaped || negb (is_delimiter ch) = true → (mu l' <= mu l)%nat))) as Hnext.
  { intros esc buf' l0 Hch Hmu Hb' Hbuf'. step_next ch' l1.
    assert (weight ch = 1%nat) as Hw by (unfold weight; destruct (Z.eqb_spec ch EOF); done).
    assert (mu l1 + weight ch' <= mu l)%nat as Hle.
    { unfold weight. destruct (Z.eqb_spec ch' EOF) as [|Hne]; [lia|]. specialize (H2 Hb' Hne). lia. }
    eapply returns_mono; [apply IH; [done|done|lia]|].
    intros t l' (? & ? & ?). split; [done|]. split; [lia|]. intros _. lia. }
  destruct escaped.
  - destruct (Z.eqb_spec ch EOF) as [|Hne]; [done|]. destruct (ch =? 10).
    + apply returns_bind. unfold returns at 1, next_line, modify. by apply Hnext.
    + apply Hnext; [done|done|done|]. apply are_bytes_snoc; [done|].
      destruct (ch =? 9); [by_decision|apply u8_byte].
  - destruct (is_delimiter ch) eqn:Ed.
    + apply returns_bind. unfold returns at 1, again, modify. unfold returns. simpl.
      split; [by apply token_ok_cstring|]. split; [by apply again_mu|done].
    + apply Hnext; [|done|done|].
      * intros ->. done.
      * destruct (ch =? 92); [done|auto with cstr].
Qed.

Lemma read_token_with_spec fuel l : (mu l + 2 < fuel)%nat →
  returns (read_token_with fuel) l (λ o l', (mu l' <= mu l)%nat ∧
    ∀ t, o = Some t → (mu l' < mu l)%nat ∧ token_ok t).
Proof.
  intros Hf. unfold read_token_with.
  apply returns_bind. eapply returns_mono; [apply skip_spec; lia|].
  intros [ch|] l1 (Hb & Hm & Hsome); [|done].
  destruct (Hsome ch eq_refl) as [Hs (Hbl & Hn & He & Hz & H35)].
  destruct (Z.eqb_spec ch 61).
  { unfold returns. simpl. split; [lia|]. intros t [= <-]. split; [lia|]. split; by_decision. }
  destruct (Z.eqb_spec ch 34).
  - apply returns_bind. eapply returns_mono; [apply quoted_spec; [lia|constructor]|].
    intros t l2 [? ?]. unfold returns. simpl. split; [lia|]. intros t' [= <-]. split; [lia|done].
  - apply returns_bind. eapply returns_mono; [apply plain_spec; [done|constructor|unfold weight; destruct (ch =? EOF); lia]|].
    intros t l2 (? & _ & Hle). unfold returns. simpl.
    assert (mu l2 <= mu l1)%nat.
    { apply Hle. unfold is_delimiter. rewrite Hbl, Hn.
      destruct (Z.eqb_spec ch 35), (Z.eqb_spec ch 61), (Z.eqb_spec ch EOF); done. }
    split; [lia|]. intros t' [= <-]. split; [lia|done].
Qed.

Lemma read_token_spec l :
  returns read_token l (λ o l', (mu l' <= mu l)%nat ∧
    ∀ t, o = Some t → (mu l' < mu l)%nat ∧ token_ok t).
Proof.
  apply (read_token_with_spec (token_fuel l)). unfold mu, token_fuel.
  destruct ((back l =? 0) || (back l =? EOF)); lia.
Qed.

(** what a parse has left: a pending token or item counts one *)
Definition left_over (c : cfg) : nat :=
  2 * mu (lx c) + match last_token c with Some _ => 1 | None => 0 end +
  match last_item c with Some _ => 1 | None => 0 end.

Lemma cfg_get_token_spec c :
  returns cfg_get_token c (λ o c', (left_over c' <= left_over c)%nat ∧
    last_item c' = last_item c ∧ last_token c' = None ∧ tabs c' = tabs c ∧
    ∀ t, o = Some t → (left_over c' < left_over c)%nat ∧
      ((last_token c = None → (left_over c' + 2 <= left_over c)%nat ∧ token_ok t))).
Proof.
  unfold returns, cfg_get_token, left_over. destruct (last_token c) as [here|] eqn:E; simpl.
  - repeat split; try done; try lia.
  - pose proof (read_token_spec (lx c)) as Hr. unfold returns in Hr. unfold lex.
    destruct (read_token (lx c)) as [[o|e|] l]; simpl; [|done|done]. rewrite E.
    destruct Hr as [Hle Hs]. split; [lia|]. do 3 (split; [done|]). intros t Ho.
    destruct (Hs t Ho). split; [lia|]. intros _. split; [lia|done].
Qed.

Lemma cfg_next_spec c :
  returns cfg_next c (λ o c', tabs c' = tabs c ∧ (o ≠ None → (left_over c' < left_over c)%nat)).
Proof.
  unfold returns, cfg_next. destruct (last_item c) as [[item value]|] eqn:E.
  - simpl. unfold left_over. rewrite E. simpl. split; [done|]. lia.
  - match goal with |- match ?m c with _ => _ end => change (returns m c (λ o c', tabs c' = tabs c ∧
      (o ≠ None → (left_over c' < left_over c)%nat))) end.
    apply returns_bind. eapply returns_mono; [apply cfg_get_token_spec|].
    intros [item|] c1 (Hle & Hi & Ht & Htab & Hsome); [|unfold returns; simpl; done].
    destruct (Hsome _ eq_refl) as [Hlt _]. destruct (is_equals item); [done|].
    apply returns_bind. eapply returns_mono; [apply cfg_get_token_spec|].
    intros [this|] c2 (Hle2 & Hi2 & Ht2 & Htab2 & Hsome2).
    2: { unfold returns. simpl. split; [congruence|]. lia. }
    destruct (Hsome2 _ eq_refl) as [Hlt2 H2]. destruct (H2 Ht) as [Hlt2' _].
    destruct (is_equals this); cbn [negb].
    + apply returns_bind. eapply returns_mono; [apply cfg_get_token_spec|].
      intros [value|] c3 (Hle3 & _ & _ & Htab3 & _); [|done].
      destruct (is_equals value); [done|]. unfold returns. simpl. split; [congruence|]. lia.
    + apply returns_bind. unfold returns at 1, cfg_return_token, modify. unfold returns. simpl.
      split; [simpl; congruence|]. intros _. unfold left_over in *. simpl in *. rewrite Ht2 in *. lia.
Qed.

Lemma parse_loop_total {F} `{Firmware F} (f : F) fuel c : (left_over c < fuel)%nat →
  returns (parse_loop f fuel) c (λ _ _, True).
Proof.
  revert c. induction fuel as [|fuel IH]; intros c Hf; [lia|]. cbn [parse_loop].
  apply returns_bind. eapply returns_mono; [apply cfg_next_spec|].
  intros [[item value]|] c1 [_ Hlt]; [|done]. apply returns_bind. unfold returns at 1, modify.
  destruct (cfg_set f _ _ item value _) as [[r t] w]. apply IH.
  assert (left_over (print w (set_tabs t c1)) = left_over c1) as -> by done.
  specialize (Hlt ltac:(done)). lia.
Qed.

Lemma cfg_parse_total {F} `{Firmware F} (f : F) file buff c : (cfg_parse f file buff c).1 ≠ Fuel.
Proof.
  unfold cfg_parse. set (c1 := cfg_reset _).
  pose proof (parse_loop_total f (4 * length buff + 8) c1) as Hp. unfold returns in Hp.
  assert (left_over c1 < 4 * length buff + 8)%nat as Hl.
  { unfold left_over, c1, mu. simpl. repeat case_match; lia. }
  specialize (Hp Hl). destruct (parse_loop f _ c1) as [[u|m|] c2]; done.
Qed.

(** ** Writing a configuration *)

(** a character of a value as [quoted] reads it back *)
Definition escape_char (c : Z) : list Z :=
  if c =? 34 then [92; 34] else if c =? 92 then [92; 92] else if c =? 10 then [92; 110] else [c].

Definition quote (v : list Z) : list Z := 34 :: concat (map escape_char v) ++ [34].

(** an item and its value, on a line *)
Definition render_item (iv : list Z * option (list Z)) : list Z :=
  iv.1 ++ match iv.2 with Some v => 61 :: quote v | None => [] end ++ [10].

Definition render (items : list (list Z * option (list Z))) : list Z :=
  concat (map render_item items).

(** a byte the lexer can carry: not the end of a string and not read as [EOF] *)
Definition readable (c : Z) : Prop := 0 < c < 255.

#[export] Instance readable_dec c : Decision (readable c).
Proof. unfold readable. apply _. Defined.

Definition value_ok (v : list Z) : Prop :=
  Forall (λ c, readable c ∧ c ≠ 13) v ∧ Z.of_nat (length v) < MAX_TOKEN ∧ v ≠ bs "=".

Definition name_char (c : Z) : Prop :=
  readable c ∧ is_delimiter (s8 c) = false ∧ c ≠ 92.

Definition name_ok (n : list Z) : Prop :=
  n ≠ [] ∧ Forall name_char n ∧ deref n ≠ 34 ∧ Z.of_nat (length n) < MAX_TOKEN.

Definition item_ok (iv : list Z * option (list Z)) : Prop :=
  name_ok iv.1 ∧ match iv.2 with Some v => value_ok v | None => True end.

#[export] Instance value_ok_dec v : Decision (value_ok v).
Proof. unfold value_ok. apply _. Defined.
#[export] Instance name_char_dec v : Decision (name_char v).
Proof. unfold name_char. apply _. Defined.
#[export] Instance name_ok_dec v : Decision (name_ok v).
Proof. unfold name_ok. apply _. Defined.
#[export] Instance item_ok_dec v : Decision (item_ok v).
Proof. unfold item_ok. destruct v as [n [v|]]; simpl; apply _. Defined.

Lemma u8_s8 c : is_byte c → u8 (s8 c) = c.
Proof.
  unfold is_byte. intros Hc. words.
  destruct (Z.ltb_spec (c mod 256) 128); Z.div_mod_to_equations; lia.
Qed.

Lemma readable_byte c : readable c → is_byte c ∧ is_char c.
Proof. unfold readable, is_byte, is_char. lia. Qed.

(** a comparison of a readable byte with an ASCII character is not changed by the sign *)
Lemma s8_eqb c k : is_byte c → 0 <= k < 128 → (s8 c =? k) = (c =? k).
Proof.
  intros Hc Hk. destruct (Z.eqb_spec c k) as [->|Hne].
  - rewrite s8_ascii by done. apply Z.eqb_refl.
  - apply Z.eqb_neq. intros E. apply Hne. rewrite <- (s8_ascii k) in E by done.
    apply s8_inj in E; [done|done|unfold is_byte; lia].
Qed.

Lemma s8_not_eof c : readable c → (s8 c =? EOF) = false ∧ (s8 c =? 0) = false.
Proof.
  unfold readable, EOF. intros Hc. words. rewrite Z.mod_small by lia.
  split; apply Z.eqb_neq; destruct (Z.ltb_spec c 128); lia.
Qed.

Lemma next_char c r n : next (Lexer (c :: r) 0 n) = (Ok (s8 c), Lexer r 0 n).
Proof. done. Qed.

Lemma quoted_lex fuel v buf r n :
  Forall (λ c, readable c ∧ c ≠ 13) v → cstr_ok buf →
  Z.of_nat (length buf + length v) < MAX_TOKEN → (length v < fuel)%nat →
  quoted fuel buf (Lexer (concat (map escape_char v) ++ 34 :: r) 0 n) = (Ok (buf ++ v), Lexer r 0 n).
Proof.
  intros Hv. revert fuel buf. induction Hv as [|c v [Hc H13] Hv IH]; intros fuel buf Hbuf Hl Hf;
    (destruct fuel as [|fuel]; [simpl in Hf; lia|]); cbn [quoted];
    (destruct (Z.ltb_spec (Z.of_nat (length buf)) MAX_TOKEN); [|simpl in *; lia]); cbn [negb].
  - simpl. unfold mbind, stm_bind. rewrite next_char. simpl.
    by rewrite cstring_id, app_nil_r.
  - destruct (readable_byte c Hc) as [Hbyte Hchar].
    assert (∀ b, is_char b → quoted fuel (buf ++ [b]) (Lexer (concat (map escape_char v) ++ 34 :: r) 0 n)
      = (Ok (buf ++ b :: v), Lexer r 0 n)) as Hpush.
    { intros b Hb. replace (buf ++ b :: v) with ((buf ++ [b]) ++ v) by (by rewrite <- app_assoc).
      apply IH; [|rewrite length_app; simpl in *; lia|simpl in *; lia].
      apply cstr_ok_app. split; [done|]. by constructor. }
    cbn [map concat]. rewrite <- app_assoc. unfold escape_char at 1.
    destruct (Z.eqb_spec c 34) as [->|H34];
      [|destruct (Z.eqb_spec c 92) as [->|H92]; [|destruct (Z.eqb_spec c 10) as [->|H10]]];
      cbn [app]; unfold mbind, stm_bind; rewrite next_char.
    + eval_tests. rewrite next_char. eval_tests. change (u8 (s8 34)) with 34. by apply Hpush.
    + eval_tests. rewrite next_char. eval_tests. change (u8 (s8 92)) with 92. by apply Hpush.
    + eval_tests. rewrite next_char. unfold is_newline. eval_tests. by apply (Hpush 10).
    + destruct (s8_not_eof c Hc) as [-> _]. rewrite !s8_eqb by (done || lia).
      destruct (Z.eqb_spec c 34); [done|]. destruct (Z.eqb_spec c 92); [done|].
      assert (is_newline (s8 c) = false) as ->.
      { unfold is_newline. rewrite !s8_eqb by (done || lia).
        destruct (Z.eqb_spec c 10), (Z.eqb_spec c 13); done. }
      rewrite u8_s8 by done. by apply Hpush.
Qed.

Lemma plain_lex fuel c n' buf d r k :
  Forall name_char (c :: n') → cstr_ok buf → is_byte d → is_delimiter (s8 d) = true →
  Z.of_nat (length buf + length (c :: n')) < MAX_TOKEN → (length (c :: n') < fuel)%nat →
  plain fuel (s8 c) false buf (Lexer (n' ++ d :: r) 0 k) =
    (Ok (buf ++ c :: n'), Lexer r (s8 d) k).
Proof.
  intros Hn. remember (c :: n') as m eqn:Em. revert fuel c n' buf Em.
  induction Hn as [|c0 m Hc Hm IH]; intros fuel c n' buf Em Hbuf Hd Hdel Hl Hf; [done|].
  injection Em as -> ->. destruct fuel as [|fuel]; [simpl in Hf; lia|]. cbn [plain].
  destruct (Z.ltb_spec (Z.of_nat (length buf)) MAX_TOKEN); [|simpl in *; lia]. cbn [negb].
  destruct Hc as (Hr & -> & H92). destruct (readable_byte c Hr) as [Hbyte Hchar].
  rewrite s8_eqb by (done || lia). destruct (Z.eqb_spec c 92); [done|].
  rewrite u8_s8 by done. unfold mbind, stm_bind.
  assert (cstr_ok (buf ++ [c])) as Hbuf' by (apply cstr_ok_app; split; [done|by constructor]).
  destruct n' as [|c' n']; cbn [app]; rewrite next_char.
  - destruct fuel as [|fuel]; [simpl in Hf; lia|]. cbn [plain].
    destruct (Z.ltb_spec (Z.of_nat (length (buf ++ [c]))) MAX_TOKEN);
      [|rewrite length_app in *; simpl in *; lia]. cbn [negb]. rewrite Hdel.
    unfold mbind, stm_bind, again, modify. simpl. by rewrite cstring_id.
  - rewrite (IH fuel c' n'); [|done|done|done|done| |simpl in *; lia].
    + by rewrite <- app_assoc.
    + rewrite length_app. simpl in *. lia.
Qed.

(** the lexer is at the beginning of a line of [text], a newline before it perhaps *)
Definition at_line (text : list Z) (l : lexer) : Prop :=
  (rest l = text ∧ (back l = 10 ∨ back l = 0)) ∨ (rest l = 10 :: text ∧ back l = 0).

Lemma skip_space_char fuel c t k : is_blank (s8 c) = false → is_newline (s8 c) = false →
  skip_space (S fuel) (Lexer (c :: t) 0 k) = (Ok (s8 c), Lexer t 0 k).
Proof.
  intros H1 H2. cbn [skip_space]. unfold mbind, stm_bind. by rewrite next_char, H1, H2.
Qed.

Lemma skip_space_newline fuel ch l l1 : next l = (Ok ch, l1) → is_newline ch = true →
  skip_space (S fuel) l = skip_space fuel (Lexer (rest l1) (back l1) (s32 (line_num l1 + 1))).
Proof.
  intros Hn Hc. cbn [skip_space]. unfold mbind, stm_bind. rewrite Hn, Hc.
  assert (is_blank ch = false) as ->; [|done].
  unfold is_newline, is_blank in *. destruct (Z.eqb_spec ch 32) as [->|]; [done|].
  destruct (Z.eqb_spec ch 9) as [->|]; done.
Qed.

(** the first character of a line *)
Lemma skip_at_line fuel c t l : at_line (c :: t) l → starts_token (s8 c) → (2 <= fuel)%nat →
  ∃ k, skip fuel l = (Ok (Some (s8 c)), Lexer t 0 k).
Proof.
  intros Hl (Hb & Hn & He & Hz & H35) Hf. destruct fuel as [|[|fuel]]; [lia|lia|].
  assert (∃ k, skip_space (S (S fuel)) l = (Ok (s8 c), Lexer t 0 k)) as [k Hs].
  { destruct l as [r b n]. unfold at_line in Hl. simpl in Hl.
    destruct Hl as [[-> [-> | ->]]|[-> ->]].
    - eexists. rewrite (skip_space_newline _ 10 _ (Lexer (c :: t) 0 n)) by done.
      by apply skip_space_char.
    - eexists. by apply skip_space_char.
    - eexists. rewrite (skip_space_newline _ 10 _ (Lexer (c :: t) 0 n)) by done.
      by apply skip_space_char. }
  exists k. cbn [skip]. unfold mbind, stm_bind. rewrite Hs.
  destruct (Z.eqb_spec (s8 c) EOF); [done|]. destruct (Z.eqb_spec (s8 c) 0); [done|].
  destruct (Z.eqb_spec (s8 c) 35); [done|]. done.
Qed.

Lemma token_fuel_at_line text l : at_line text l → (length text + 2 < token_fuel l)%nat.
Proof.
  unfold at_line, token_fuel. intros [[-> _]|[-> _]]; simpl; lia.
Qed.

Lemma name_start c : name_char c → c ≠ 34 → starts_token (s8 c) ∧ (s8 c =? 61) = false ∧
  (s8 c =? 34) = false.
Proof.
  intros (Hr & Hd & _) H34. destruct (readable_byte c Hr) as [Hb _].
  destruct (s8_not_eof c Hr) as [He Hz]. apply Z.eqb_neq in He, Hz.
  unfold is_delimiter in Hd. apply orb_false_iff in Hd as [Hd _].
  apply orb_false_iff in Hd as [Hd H61]. apply orb_false_iff in Hd as [Hd H35].
  apply orb_false_iff in Hd as [Hbl Hn]. apply Z.eqb_neq in H35.
  rewrite (s8_eqb c 34) by (done || lia). repeat split; try done. by apply Z.eqb_neq.
Qed.

Lemma read_name n d r l : name_ok n → is_byte d → is_delimiter (s8 d) = true →
  at_line (n ++ d :: r) l → ∃ k, read_token l = (Ok (Some n), Lexer r (s8 d) k).
Proof.
  intros (Hne & Hn & H34 & Hlen) Hd Hdel Hl. destruct n as [|c n]; [done|]. simpl in H34.
  pose proof (token_fuel_at_line _ _ Hl) as Hf. unfold read_token.
  set (fuel := token_fuel l) in *. clearbody fuel. simpl in Hf. rewrite length_app in Hf. simpl in Hf.
  assert (name_char c) as Hc by (by apply Forall_cons_iff in Hn as [? _]).
  destruct (name_start c Hc H34) as (Hs & E61 & E34).
  destruct (skip_at_line fuel c (n ++ d :: r) l Hl Hs ltac:(lia)) as [k Hk].
  exists k. unfold read_token_with, mbind, stm_bind. rewrite Hk, E61, E34.
  rewrite (plain_lex fuel c n [] d r k); [done|done|constructor|done|done|simpl in *; lia|simpl; lia].
Qed.

Lemma read_equals r k : read_token (Lexer r 61 k) = (Ok (Some (bs "=")), Lexer r 0 k).
Proof.
  unfold read_token. change (token_fuel (Lexer r 61 k)) with (2 * length r + 4)%nat.
  replace (2 * length r + 4)%nat with (S (2 * length r + 3)) by lia.
  generalize (2 * length r + 3)%nat. intros fuel. done.
Qed.

Lemma read_value v r k : value_ok v →
  read_token (Lexer (quote v ++ r) 0 k) = (Ok (Some v), Lexer r 0 k).
Proof.
  intros (Hv & Hl & _). unfold read_token, token_fuel. cbn [rest].
  assert (length v < 2 * length (quote v ++ r) + 4)%nat as Hf.
  { unfold quote. simpl. rewrite !length_app.
    assert (length v <= length (concat (map escape_char v)))%nat; [|simpl; lia].
    clear. induction v as [|c v IH]; simpl; [lia|]. rewrite length_app.
    unfold escape_char at 1. repeat case_match; simpl; lia. }
  assert (2 <= 2 * length (quote v ++ r) + 4)%nat as Hf2 by lia.
  set (fuel := (2 * length (quote v ++ r) + 4)%nat) in *. clearbody fuel.
  unfold quote. cbn [app]. rewrite <- app_assoc. cbn [app].
  unfold read_token_with, mbind, stm_bind.
  assert (skip fuel (Lexer (34 :: concat (map escape_char v) ++ 34 :: r) 0 k) =
    (Ok (Some 34), Lexer (concat (map escape_char v) ++ 34 :: r) 0 k)) as ->.
  { destruct fuel as [|fuel]; [lia|]. cbn [skip]. unfold mbind, stm_bind. by rewrite skip_space_char. }
  eval_tests. rewrite (quoted_lex fuel v [] r k Hv); [done|constructor|simpl; lia|lia].
Qed.

(** ** Parsing what is written *)

(** where a parse stands before the items: at a line, or with the name of the next
    item read and given back *)
Definition pending (items : list (list Z * option (list Z))) (c : cfg) : Prop :=
  last_item c = None ∧
  ((last_token c = None ∧ at_line (render items) (lx c)) ∨
   ∃ n v items', items = (n, v) :: items' ∧ last_token c = Some n ∧
     match v with
     | Some v => back (lx c) = 61 ∧ rest (lx c) = quote v ++ 10 :: render items'
     | None => back (lx c) = 10 ∧ rest (lx c) = render items'
     end).

Lemma is_equals_spec t : cstr_ok t → is_equals t = bool_decide (t = bs "=").
Proof. intros Ht. apply strcmp_eqb; [done|by_decision]. Qed.

Lemma name_cstr n : name_ok n → cstr_ok n ∧ n ≠ bs "=".
Proof.
  intros (_ & Hn & _ & _). split.
  - eapply Forall_impl; [exact Hn|]. intros c (Hr & _). by apply readable_byte.
  - intros ->. apply Forall_cons_iff in Hn as [(_ & Hd & _) _]. done.
Qed.

Lemma value_cstr v : value_ok v → cstr_ok v ∧ v ≠ bs "=".
Proof.
  intros (Hv & _ & Hne). split; [|done]. eapply Forall_impl; [exact Hv|].
  intros c (Hr & _). by apply readable_byte.
Qed.

Lemma is_equals_name n : name_ok n → is_equals n = false.
Proof. intros Hn. apply name_cstr in Hn as [Hc Hne]. rewrite is_equals_spec by done. by apply bool_decide_eq_false. Qed.

Lemma is_equals_value v : value_ok v → is_equals v = false.
Proof. intros Hn. apply value_cstr in Hn as [Hc Hne]. rewrite is_equals_spec by done. by apply bool_decide_eq_false. Qed.

(** the name of the next item, however it is pending *)
Lemma pending_name n v items c : item_ok (n, v) → pending ((n, v) :: items) c →
  ∃ l, cfg_get_token c = (Ok (Some n), set_last_token None (set_lx c l)) ∧
    match v with
    | Some v => back l = 61 ∧ rest l = quote v ++ 10 :: render items
    | None => back l = 10 ∧ rest l = render items
    end.
Proof.
  intros [Hn _] [_ [[Ht Hl]|(n' & v' & items' & [= <- <- <-] & Ht & Hl)]]; simpl in Hn.
  - unfold cfg_get_token. rewrite Ht. unfold lex.
    unfold render in Hl. cbn [map concat] in Hl. unfold render_item in Hl at 1. simpl in Hl.
    rewrite <- app_assoc in Hl. destruct v as [v|]; cbn [app] in Hl.
    + destruct (read_name n 61 _ (lx c) Hn ltac:(by_decision) eq_refl Hl) as [k ->].
      exists (Lexer ((quote v ++ [10]) ++ concat (map render_item items)) (s8 61) k).
      split; [unfold set_last_token, set_lx; simpl; by rewrite Ht|]. simpl. by rewrite <- !app_assoc.
    + destruct (read_name n 10 _ (lx c) Hn ltac:(by_decision) eq_refl Hl) as [k ->].
      exists (Lexer (concat (map render_item items)) (s8 10) k).
      split; [unfold set_last_token, set_lx; simpl; by rewrite Ht|done].
  - exists (lx c). split; [|done]. unfold cfg_get_token. rewrite Ht. done.
Qed.

(** at a line, the next token is a name or the end of the file *)
Lemma read_end l : at_line [] l → ∃ l', read_token l = (Ok None, l') ∧ at_line [] l'.
Proof.
  unfold at_line. destruct l as [r b n]. simpl.
  intros [[-> [-> | ->]]|[-> ->]]; (eexists; split; [reflexivity|by auto]).
Qed.

Lemma cfg_get_token_lex c o l : last_token c = None → read_token (lx c) = (Ok o, l) →
  cfg_get_token c = (Ok o, set_lx c l).
Proof. intros Ht Hr. unfold cfg_get_token. rewrite Ht. unfold lex. by rewrite Hr. Qed.

Lemma cfg_next_pending n v items c : item_ok (n, v) → Forall item_ok items →
  pending ((n, v) :: items) c →
  ∃ c', cfg_next c = (Ok (Some (n, v)), c') ∧ pending items c' ∧ tabs c' = tabs c ∧
        file_name c' = file_name c ∧ console c' = console c.
Proof.
  intros Hok Hall Hp. pose proof Hp as [Hi _]. pose proof Hok as [Hn Hv]. simpl in Hn, Hv.
  destruct (pending_name n v items c Hok Hp) as (l & E & Hl).
  unfold cfg_next. rewrite Hi, (bind_ok _ _ _ _ _ E), is_equals_name by done.
  set (c1 := set_last_token None (set_lx c l)). assert (last_token c1 = None) as Ht1 by done.
  destruct v as [v|]; destruct Hl as [Hb Hr]; destruct l as [r b k]; simpl in Hb, Hr; subst r b.
  - rewrite (bind_ok _ _ _ _ _ (cfg_get_token_lex c1 _ _ Ht1 (read_equals _ k))).
    change (is_equals (bs "=")) with true. cbn [negb].
    set (c2 := set_lx c1 _). assert (last_token c2 = None) as Ht2 by done.
    rewrite (bind_ok _ _ _ _ _ (cfg_get_token_lex c2 _ _ Ht2 (read_value v (10 :: render items) k Hv))).
    rewrite is_equals_value by done. eexists. split; [reflexivity|].
    split; [|done]. split; [done|]. left. split; [done|]. right. done.
  - destruct items as [|[n2 v2] items].
    + destruct (read_end (Lexer (render []) 10 k)) as (l' & Hend & Hl'); [left; simpl; auto|].
      rewrite (bind_ok _ _ _ _ _ (cfg_get_token_lex c1 _ _ Ht1 Hend)).
      eexists. split; [reflexivity|]. split; [|done]. split; [done|]. left. by split.
    + apply Forall_cons_iff in Hall as [Hok2 Hall].
      assert (pending ((n2, v2) :: items) c1) as Hp1.
      { split; [done|]. left. split; [done|]. left. simpl. auto. }
      destruct (pending_name n2 v2 items c1 Hok2 Hp1) as (l2 & E2 & Hl2).
      rewrite (bind_ok _ _ _ _ _ E2), is_equals_name by by destruct Hok2. cbn [negb].
      eexists. split; [reflexivity|]. split; [|done]. split; [done|]. right.
      exists n2, v2, items. repeat split. exact Hl2.
Qed.

(** ** The tables after a parse *)

Section parsing.
Context {F : Type} `{Firmware F}.
Context (f : F).

(** [cfg_set] as a function on the tables *)
Definition apply_item (t : tables) (iv : list Z * option (list Z)) : tables :=
  (cfg_set f 0 [] iv.1 iv.2 t).1.2.

(** the tables do not depend on where a warning is placed *)
Lemma cfg_set_tables line file item value t :
  (cfg_set f line file item value t).1.2 = apply_item t (item, value).
Proof.
  unfold apply_item, cfg_set. cbn [fst snd].
  destruct (if strncasecmp item (bs "image") 5 =? 0 then _ else _) as [item' t'].
  destruct (find_entry (current t') item') as [[i walk]|]; [|done].
  by destruct value, (type walk).
Qed.

Lemma parse_loop_items items fuel c : Forall item_ok items → pending items c →
  (length items < fuel)%nat →
  ∃ c', parse_loop f fuel c = (Ok tt, c') ∧ tabs c' = foldl apply_item (tabs c) items.
Proof.
  intros Hall. revert fuel c. induction Hall as [|[n v] items Hok Hall IH]; intros fuel c Hp Hf;
    (destruct fuel as [|fuel]; [simpl in Hf; lia|]); cbn [parse_loop].
  - destruct Hp as [Hi [[Ht Hl]|(n & v & items' & [=] & _)]].
    destruct (read_end _ Hl) as (l' & Hend & _).
    assert (cfg_next c = (Ok None, set_lx c l')) as E.
    { unfold cfg_next. rewrite Hi. by rewrite (bind_ok _ _ _ _ _ (cfg_get_token_lex c _ _ Ht Hend)). }
    rewrite (bind_ok _ _ _ _ _ E). eexists. split; reflexivity.
  - destruct (cfg_next_pending n v items c Hok Hall Hp) as (c1 & E & Hp1 & Htab & _).
    rewrite (bind_ok _ _ _ _ _ E). cbn iota beta.
    pose proof (cfg_set_tables (line_num (lx c1)) (file_name c1) n v (tabs c1)) as Hset.
    unfold mbind at 1, stm_bind, modify. cbn beta.
    destruct (cfg_set f _ _ n v (tabs c1)) as [[r t] w]. simpl in Hset. subst t.
    destruct (IH fuel (print w (set_tabs (apply_item (tabs c1) (n, v)) c1))) as (c' & -> & Htabs).
    + exact Hp1.
    + simpl in Hf. lia.
    + exists c'. split; [done|]. rewrite Htabs. simpl. by rewrite Htab.
Qed.

Lemma length_render items : (length items <= length (render items))%nat.
Proof.
  unfold render. induction items as [|iv items IH]; [simpl; lia|]. cbn [map concat length].
  rewrite length_app. assert (1 <= length (render_item iv))%nat; [|lia].
  unfold render_item. rewrite !length_app. simpl. lia.
Qed.

(** the tables [cfg_reset] leaves *)
Definition reset_tables (t : tables) : tables :=
  Tables (map clear (options t)) [] None (root t) (model t).

Lemma cfg_parse_items file items c : Forall item_ok items →
  back (lx c) = 0 → last_token c = None → last_item c = None →
  ∃ c', cfg_parse f file (render items) c = (Ok 0, c') ∧
        tabs c' = foldl apply_item (reset_tables (tabs c)) items.
Proof.
  intros Hall Hb Ht Hi. unfold cfg_parse. set (c1 := cfg_reset _).
  destruct (parse_loop_items items (4 * length (render items) + 8) c1) as (c' & -> & Htabs);
    [done| | |].
  - unfold c1. split; [done|]. left. split; [done|]. left. simpl. auto.
  - pose proof (length_render items). lia.
  - exists c'. split; [done|]. exact Htabs.
Qed.
End parsing.

(** ** What the tables hold *)

(** an item fits a table: its name is that of an entry and it has a value exactly
    when the entry takes one *)
Definition fits (table : list config) (iv : list Z * option (list Z)) : bool :=
  match find_entry table iv.1 with
  | Some (_, e) =>
      bool_decide (name e = iv.1) &&
      match type e, iv.2 with
      | cft_strg, Some _ | cft_flag, None => true
      | _, _ => false
      end
  | None => false
  end.

(** the value set last for [item], the empty string for a flag *)
Fixpoint last_value (items : list (list Z * option (list Z))) (item : list Z) : option (list Z) :=
  match items with
  | [] => None
  | (n, v) :: items =>
      match last_value items item with
      | Some r => Some r
      | None => if bool_decide (n = item) then Some (default flag_set v) else None
      end
  end.

(** the names of a table, which no two entries share *)
Definition names (table : list config) : list (list Z) := map name table.

Definition all_names : list (list Z) := names cf_options ++ names cf_image.

(** over the names of the tables, comparison without case is equality *)
Lemma names_strcasecmp n m : n ∈ all_names → m ∈ all_names →
  (strcasecmp n m =? 0) = bool_decide (n = m).
Proof.
  assert (forallb (λ n, forallb (λ m, Bool.eqb (strcasecmp n m =? 0) (bool_decide (n = m))) all_names)
            all_names = true) as Ha by (vm_compute; reflexivity).
  intros Hn Hm. rewrite forallb_forall in Ha. specialize (Ha n).
  rewrite forallb_forall in Ha. apply Bool.eqb_prop, Ha; by apply list_elem_of_In.
Qed.

(** the same entries, with other values *)
Definition same_entries (t u : list config) : Prop :=
  map (λ e, (type e, name e)) t = map (λ e, (type e, name e)) u.

(** the effect of an item on a table it fits *)
Definition put (table : list config) (iv : list Z * option (list Z)) : list config :=
  match find_entry table iv.1 with
  | Some (i, _) => set_data i (default flag_set iv.2) table
  | None => table
  end.

Lemma get_put t iv item : Forall (λ n, n ∈ all_names) (names t) → item ∈ all_names →
  fits t iv = true →
  cfg_get_strg_i (put t iv) item =
    if bool_decide (iv.1 = item) then Some (default flag_set iv.2) else cfg_get_strg_i t item.
Proof.
  intros Hn Hi. unfold fits, put. destruct iv as [n v]. simpl.
  induction t as [|e t IH]; simpl; [done|]. apply Forall_cons_iff in Hn as [He Hn].
  destruct (strcasecmp (name e) n =? 0) eqn:E.
  - intros Hf. apply andb_true_iff in Hf as [Hne _]. apply bool_decide_eq_true in Hne. subst n.
    unfold set_data. simpl. rewrite names_strcasecmp by done.
    by destruct (bool_decide (name e = item)).
  - specialize (IH Hn). destruct (find_entry t n) as [[i e']|] eqn:Ef; [|done].
    intros Hf. specialize (IH Hf). unfold set_data in *. simpl. rewrite IH.
    rewrite (names_strcasecmp (name e) item) by done.
    destruct (bool_decide_reflect (name e = item)) as [Heq|]; [|done].
    destruct (bool_decide_reflect (n = item)) as [Hni|]; [|done].
    subst. rewrite names_strcasecmp in E by done. by rewrite bool_decide_eq_true_2 in E.
Qed.

Lemma set_data_entries i v t : same_entries (set_data i v t) t.
Proof.
  unfold same_entries, set_data. revert i. induction t as [|e t IH]; intros i; [done|].
  destruct i as [|i]; simpl; [done|]. f_equal. apply IH.
Qed.

Lemma put_entries t iv : same_entries (put t iv) t.
Proof. unfold put. destruct (find_entry t iv.1) as [[i e]|]; [apply set_data_entries|done]. Qed.

Lemma same_entries_names t u : same_entries t u → names t = names u.
Proof.
  unfold same_entries, names. revert u. induction t as [|e t IH]; intros [|e' u] [=]; [done|].
  simpl. f_equal; [done|]. by apply IH.
Qed.

Lemma same_entries_fits t u iv : same_entries t u → fits t iv = fits u iv.
Proof.
  unfold same_entries, fits. revert u. induction t as [|[ty nm d] t IH]; intros [|[ty' nm' d'] u] Heq;
    [done|done|done|]. simpl in Heq. injection Heq as -> -> Heq. simpl.
  destruct (strcasecmp nm' iv.1 =? 0); [done|]. specialize (IH u Heq).
  by destruct (find_entry t iv.1) as [[? ?]|], (find_entry u iv.1) as [[? ?]|].
Qed.

Lemma get_puts items t item : Forall (λ n, n ∈ all_names) (names t) → item ∈ all_names →
  Forall (λ iv, fits t iv = true) items →
  cfg_get_strg_i (foldl put t items) item =
    match last_value items item with Some v => Some v | None => cfg_get_strg_i t item end.
Proof.
  intros Hn Hi. revert t Hn. induction items as [|[n v] items IH]; intros t Hn Hf; [done|].
  apply Forall_cons_iff in Hf as [Hf Hfs]. cbn [foldl last_value].
  rewrite IH.
  - destruct (last_value items item); [done|].
    rewrite get_put by done. simpl. by destruct (bool_decide (n = item)).
  - by rewrite (same_entries_names _ _ (put_entries t (n, v))).
  - eapply Forall_impl; [exact Hfs|]. intros iv Hiv.
    by rewrite (same_entries_fits _ _ iv (put_entries t (n, v))).
Qed.

(** ** A whole configuration *)

Record stanza := Stanza {
  st_path : list Z;
  st_label : list Z;
  st_items : list (list Z * option (list Z));
}.

Definition stanza_items (s : stanza) : list (list Z * option (list Z)) :=
  (bs "image", Some (st_path s)) :: (bs "label", Some (st_label s)) :: st_items s.

Definition config_items (globals : list (list Z * option (list Z))) (ss : list stanza) :
    list (list Z * option (list Z)) := globals ++ concat (map stanza_items ss).

(** the other items of an image fit its table; the image and the label come first *)
Definition stanza_ok (s : stanza) : Prop :=
  Forall (λ iv, fits cf_image iv = true ∧ iv.1 ≠ bs "image" ∧ iv.1 ≠ bs "label") (st_items s).

#[export] Instance stanza_ok_dec s : Decision (stanza_ok s).
Proof. unfold stanza_ok. apply _. Defined.

Definition st_table (s : stanza) : list config := foldl put cf_image (stanza_items s).

(** is the label of [s] taken again by one of [ss], without regard to case? *)
Definition retaken (s : stanza) (ss : list stanza) : bool :=
  existsb (λ s', strcasecmp (st_label s) (st_label s') =? 0) ss.

Fixpoint built (ss : list stanza) : list image :=
  match ss with
  | [] => []
  | s :: ss => Image (st_table s) (retaken s ss) :: built ss
  end.

(** the image a label or an alias selects: the first whose label is not retaken *)
Fixpoint pick (ss : list stanza) (lbl : list Z) : option stanza :=
  match ss with
  | [] => None
  | s :: ss =>
      if retaken s ss then pick ss lbl
      else if bool_decide (st_label s = lbl) || bool_decide (last_value (st_items s) (bs "alias") = Some lbl)
      then Some s else pick ss lbl
  end.

Lemma fits_name t iv : fits t iv = true → iv.1 ∈ names t.
Proof.
  unfold fits, names. induction t as [|e t IH]; simpl; [done|].
  destruct (strcasecmp (name e) iv.1 =? 0).
  - intros Hf. apply andb_true_iff in Hf as [Hf _]. apply bool_decide_eq_true in Hf.
    rewrite <- Hf. apply list_elem_of_here.
  - destruct (find_entry t iv.1) as [[? ?]|]; [|done]. intros Hf. right. by apply IH.
Qed.

Lemma options_names : Forall (λ n, n ∈ all_names) (names cf_options).
Proof. apply Forall_forall. intros n Hn. unfold all_names. apply elem_of_app. by left. Qed.

Lemma image_names : Forall (λ n, n ∈ all_names) (names cf_image).
Proof. apply Forall_forall. intros n Hn. unfold all_names. apply elem_of_app. by right. Qed.

(** of the names of the tables, only [image] opens a table *)
Lemma names_image n : n ∈ all_names → n ≠ bs "image" → (strncasecmp n (bs "image") 5 =? 0) = false.
Proof.
  intros Hn Hne.
  assert (forallb (λ n, bool_decide (n = bs "image") || negb (strncasecmp n (bs "image") 5 =? 0)) all_names
    = true) as Ha by (vm_compute; reflexivity).
  rewrite forallb_forall in Ha. specialize (Ha n (proj1 (list_elem_of_In _ _) Hn)).
  rewrite bool_decide_eq_false_2 in Ha by done. by apply negb_true_iff in Ha.
Qed.

Lemma names_label n : n ∈ all_names → n ≠ bs "label" → (strcasecmp n (bs "label") =? 0) = false.
Proof.
  intros Hn Hne. rewrite names_strcasecmp; [by apply bool_decide_eq_false|done|by_decision].
Qed.

Section effects.
Context {F : Type} `{Firmware F}.
Context (f : F).

(** an item that fits the current table and neither opens a table nor sets a label *)
Lemma apply_item_put t iv : iv.1 ∈ all_names → iv.1 ≠ bs "image" → iv.1 ≠ bs "label" →
  fits (current t) iv = true →
  apply_item f t iv =
    match find_entry (current t) iv.1 with
    | Some (i, _) => set_current i (default flag_set iv.2) t
    | None => t
    end.
Proof.
  intros Hn Hi Hl Hf. destruct iv as [n v]. unfold apply_item, cfg_set. cbn [fst snd] in *.
  rewrite names_image by done. unfold fits in Hf. cbn [fst snd] in Hf.
  destruct (find_entry (current t) n) as [[i e]|] eqn:E; [|done].
  apply andb_true_iff in Hf as [_ Hf]. rewrite names_label by done.
  destruct v, (type e); done.
Qed.

Lemma apply_global t iv : curr_table t = None → same_entries (options t) cf_options →
  fits cf_options iv = true →
  apply_item f t iv = Tables (put (options t) iv) (images t) None (root t) (model t).
Proof.
  intros Hc He Hf. pose proof (fits_name _ _ Hf) as Hn.
  assert (current t = options t) as Hcur by (unfold current; by rewrite Hc).
  rewrite apply_item_put.
  - rewrite Hcur. unfold put, set_current. rewrite Hc.
    rewrite <- (same_entries_fits _ _ iv He) in Hf. unfold fits in Hf.
    by destruct (find_entry (options t) iv.1) as [[i e]|].
  - by apply (proj1 (Forall_forall _ _) options_names).
  - intros E. rewrite E in Hn. revert Hn. by_decision.
  - intros E. rewrite E in Hn. revert Hn. by_decision.
  - rewrite Hcur. by rewrite (same_entries_fits _ _ iv He).
Qed.

Lemma apply_globals items t : curr_table t = None → same_entries (options t) cf_options →
  Forall (λ iv, fits cf_options iv = true) items →
  foldl (apply_item f) t items = Tables (foldl put (options t) items) (images t) None (root t) (model t).
Proof.
  intros Hc He Hf. revert t Hc He. induction Hf as [|iv items Hf Hfs IH]; intros t Hc He; simpl.
  - destruct t. simpl in *. by subst.
  - rewrite apply_global by done. rewrite IH; [done|done|]. simpl.
    unfold same_entries in *. rewrite (put_entries (options t) iv). done.
Qed.

(** the state while the last image is read *)
Definition in_image (opts : list config) (pre : list image) (tb : list config) (r : Z) (m : list Z) : tables :=
  Tables opts (pre ++ [Image tb false]) (Some (length pre)) r m.

Lemma current_in_image opts pre tb r m : current (in_image opts pre tb r m) = tb.
Proof. unfold current, in_image. simpl. by rewrite list_lookup_middle. Qed.

Lemma set_current_in_image opts pre tb r m i v :
  set_current i v (in_image opts pre tb r m) = in_image opts pre (set_data i v tb) r m.
Proof. unfold set_current, in_image. simpl. by rewrite alter_app_r_alt, Nat.sub_diag by lia. Qed.

Lemma apply_in_image opts pre tb r m iv : same_entries tb cf_image →
  fits cf_image iv = true → iv.1 ≠ bs "image" → iv.1 ≠ bs "label" →
  apply_item f (in_image opts pre tb r m) iv = in_image opts pre (put tb iv) r m.
Proof.
  intros He Hf Hi Hl. pose proof (fits_name _ _ Hf) as Hn.
  rewrite apply_item_put, current_in_image; [|by apply (proj1 (Forall_forall _ _) image_names)|done|done|].
  - unfold put. rewrite <- (same_entries_fits _ _ iv He) in Hf. unfold fits in Hf.
    destruct (find_entry tb iv.1) as [[i e]|]; [|done]. apply set_current_in_image.
  - by rewrite current_in_image, (same_entries_fits _ _ iv He).
Qed.

Lemma apply_rest items opts pre tb r m : same_entries tb cf_image →
  Forall (λ iv, fits cf_image iv = true ∧ iv.1 ≠ bs "image" ∧ iv.1 ≠ bs "label") items →
  foldl (apply_item f) (in_image opts pre tb r m) items = in_image opts pre (foldl put tb items) r m.
Proof.
  intros He Hf. revert tb He. induction Hf as [|iv items (Hf & Hi & Hl) Hfs IH]; intros tb He; [done|].
  simpl. rewrite apply_in_image by done. apply IH. unfold same_entries in *.
  by rewrite (put_entries tb iv).
Qed.

Lemma apply_image t path :
  apply_item f t (bs "image", Some path) =
    in_image (options t) (images t) (put cf_image (bs "image", Some path)) (root t) (model t).
Proof.
  unfold apply_item, cfg_set. cbn [fst snd].
  change (strncasecmp (bs "image") (bs "image") 5 =? 0) with true. cbn iota.
  unfold open_image. change (drop 5 (bs "image")) with (@nil Z). cbn [deref]. eval_tests.
  change (new_image false t) with (in_image (options t) (images t) cf_image (root t) (model t)).
  rewrite current_in_image.
  change (find_entry cf_image (bs "image")) with (Some (0%nat, strg (bs "image"))). cbn [type strg].
  change (strcasecmp (bs "image") (bs "label") =? 0) with false. cbn [fst snd].
  by rewrite set_current_in_image.
Qed.

(** the mark [check_for_obsolete] leaves on the other images *)
Definition mark (label : list Z) (p : image) : image :=
  match label_or_image (table p) with
  | Some l => if strcasecmp l label =? 0 then Image (table p) true else p
  | None => p
  end.

Lemma imap_not_current {A} (g : A → A) (l : list A) n k : (length l + k <= n)%nat →
  imap (λ i p, if bool_decide (Some n = Some (k + i)%nat) then p else g p) l = map g l.
Proof.
  revert k. induction l as [|x l IH]; intros k Hl; [done|]. cbn [imap map].
  rewrite bool_decide_eq_false_2 by (intros [= ->]; simpl in Hl; lia). f_equal.
  rewrite <- (IH (S k)) by (simpl in Hl; lia). apply imap_ext. intros i y _. simpl.
  by rewrite Nat.add_succ_r.
Qed.

Lemma check_in_image opts pre tb r m label :
  check_for_obsolete label (in_image opts pre tb r m) = in_image opts (map (mark label) pre) tb r m.
Proof.
  unfold check_for_obsolete. cbn [curr_table images in_image].
  rewrite list_lookup_middle by done. cbn [obsolete].
  unfold set_images, in_image. cbn [options curr_table images root model].
  rewrite length_map. f_equal. rewrite imap_app. f_equal.
  - apply (imap_not_current (mark label) pre (length pre) 0). lia.
  - simpl. by rewrite Nat.add_0_r, bool_decide_eq_true_2.
Qed.
Lemma apply_label opts pre path r m label :
  apply_item f (in_image opts pre (put cf_image (bs "image", Some path)) r m)
    (bs "label", Some label) =
  in_image opts (map (mark label) pre)
    (put (put cf_image (bs "image", Some path)) (bs "label", Some label)) r m.
Proof.
  unfold apply_item, cfg_set. cbn [fst snd].
  change (strncasecmp (bs "label") (bs "image") 5 =? 0) with false. cbn iota.
  rewrite current_in_image.
  change (find_entry (put cf_image (bs "image", Some path)) (bs "label"))
    with (Some (1%nat, strg (bs "label"))). cbn [type strg].
  change (strcasecmp (bs "label") (bs "label") =? 0) with true. cbn iota. cbn [fst snd].
  by rewrite check_in_image, set_current_in_image.
Qed.

(** the tables hold the path and the label of a stanza *)
Lemma st_table_get s item : stanza_ok s → item ∈ all_names →
  cfg_get_strg_i (st_table s) item =
    match last_value (stanza_items s) item with
    | Some v => Some v
    | None => cfg_get_strg_i cf_image item
    end.
Proof.
  intros Hs Hi. apply get_puts; [exact image_names|done|].
  constructor; [done|]. constructor; [done|].
  eapply Forall_impl; [exact Hs|]. by intros iv (? & _).
Qed.

Lemma last_value_absent items item : Forall (λ iv, iv.1 ≠ item) items → last_value items item = None.
Proof.
  induction 1 as [|[n v] items Hn Hf IH]; [done|]. simpl in *. rewrite IH.
  by rewrite bool_decide_eq_false_2.
Qed.

Lemma cf_image_unset item : cfg_get_strg_i cf_image item = None.
Proof. unfold cf_image, strg, flag. cbn [cfg_get_strg_i data name]. by repeat case_match. Qed.

Lemma st_table_label s : stanza_ok s → cfg_get_strg_i (st_table s) (bs "label") = Some (st_label s).
Proof.
  intros Hs. rewrite st_table_get by (done || by_decision). unfold stanza_items. simpl.
  rewrite last_value_absent; [done|]. eapply Forall_impl; [exact Hs|]. by intros iv (_ & _ & ?).
Qed.

Lemma label_of_st_table s : stanza_ok s → label_or_image (st_table s) = Some (st_label s).
Proof. intros Hs. unfold label_or_image. by rewrite st_table_label. Qed.

Lemma built_snoc ss s : Forall stanza_ok ss →
  built (ss ++ [s]) = map (mark (st_label s)) (built ss) ++ [Image (st_table s) false].
Proof.
  induction 1 as [|s0 ss Hs0 Hss IH]; [done|]. cbn [app built map]. rewrite IH. f_equal.
  unfold mark. cbn [table]. rewrite label_of_st_table by done.
  unfold retaken. rewrite existsb_app. simpl. rewrite orb_false_r.
  destruct (strcasecmp (st_label s0) (st_label s) =? 0); by rewrite ?orb_true_r, ?orb_false_r.
Qed.

Lemma apply_stanza t s : stanza_ok s →
  foldl (apply_item f) t (stanza_items s) =
    in_image (options t) (map (mark (st_label s)) (images t)) (st_table s) (root t) (model t).
Proof.
  intros Hs. unfold stanza_items. cbn [foldl]. rewrite apply_image, apply_label.
  unfold st_table, stanza_items. cbn [foldl]. apply apply_rest; [|done].
  unfold same_entries. rewrite (put_entries (put cf_image _) _). apply put_entries.
Qed.

Lemma apply_stanzas ss done_ t : Forall stanza_ok done_ → Forall stanza_ok ss →
  images t = built done_ →
  let t' := foldl (apply_item f) t (concat (map stanza_items ss)) in
  options t' = options t ∧ images t' = built (done_ ++ ss).
Proof.
  intros Hd Hss. revert done_ t Hd. induction Hss as [|s ss Hs Hss IH]; intros done_ t Hd Ht; cbn [map concat].
  - by rewrite app_nil_r.
  - rewrite foldl_app, (apply_stanza _ s Hs).
    destruct (IH (done_ ++ [s]) (in_image (options t) (map (mark (st_label s)) (images t))
      (st_table s) (root t) (model t))) as [Ho Hi].
    + apply Forall_app. split; [done|by constructor].
    + unfold in_image. simpl. by rewrite Ht, built_snoc.
    + simpl in Ho. split; [exact Ho|]. rewrite Hi, <- app_assoc. done.
Qed.

(** the tables after a whole configuration *)
Lemma apply_config globals ss t : curr_table t = None → images t = [] →
  same_entries (options t) cf_options →
  Forall (λ iv, fits cf_options iv = true) globals → Forall stanza_ok ss →
  let t' := foldl (apply_item f) t (config_items globals ss) in
  options t' = foldl put (options t) globals ∧ images t' = built ss.
Proof.
  intros Hc Hi He Hg Hss. unfold config_items. rewrite foldl_app, (apply_globals globals t) by done.
  destruct (apply_stanzas ss [] (Tables (foldl put (options t) globals) (images t) None (root t) (model t)))
    as [Ho Him]; [constructor|done|exact Hi|]. by rewrite Ho, Him.
Qed.
End effects.

(** ** Queries of a parsed configuration *)

(** no entry of the table has a value *)
Definition unset (t : list config) : Prop := Forall (λ e, data e = None) t.

Lemma unset_get t item : unset t → cfg_get_strg_i t item = None.
Proof. induction 1 as [|e t He Ht IH]; simpl; [done|]. by case_match. Qed.

Lemma clear_unset t : unset (map clear t).
Proof. induction t as [|e t IH]; constructor; done. Qed.

Lemma clear_entries t : same_entries (map clear t) t.
Proof. unfold same_entries. rewrite map_map. by apply map_ext. Qed.

Lemma globals_get t globals item : unset t → same_entries t cf_options → item ∈ all_names →
  Forall (λ iv, fits cf_options iv = true) globals →
  cfg_get_strg_i (foldl put t globals) item = last_value globals item.
Proof.
  intros Hu He Hi Hg. rewrite get_puts.
  - rewrite unset_get by done. by destruct (last_value globals item).
  - rewrite (same_entries_names _ _ He). apply options_names.
  - done.
  - eapply Forall_impl; [exact Hg|]. intros iv. by rewrite (same_entries_fits _ _ iv He).
Qed.

(** the strings of a stanza are strings *)
Definition stanza_cstr (s : stanza) : Prop := Forall (λ iv, cstr_ok (default flag_set iv.2)) (stanza_items s).

Lemma last_value_cstr items item v : Forall (λ iv : list Z * option (list Z), cstr_ok (default flag_set iv.2)) items →
  last_value items item = Some v → cstr_ok v.
Proof.
  induction 1 as [|[n w] items Hw Hf IH]; [done|]. simpl.
  destruct (last_value items item) as [r|]; [by auto|]. case_bool_decide; [|done]. by intros [= <-].
Qed.

Lemma item_ok_cstr iv : item_ok iv → cstr_ok (default flag_set iv.2).
Proof.
  destruct iv as [n [v|]]; intros [_ Hv]; simpl in *; [by apply value_cstr|constructor].
Qed.

Lemma strg_in_built opts ss lbl item : Forall stanza_ok ss → Forall stanza_cstr ss → cstr_ok lbl →
  item ∈ all_names →
  strg_in opts (built ss) lbl item =
    Ok match pick ss lbl with
       | None => None
       | Some s => match last_value (stanza_items s) item with
                   | Some v => Some v
                   | None => cfg_get_strg_i opts item
                   end
       end.
Proof.
  intros Hss Hc Hl Hi. induction Hss as [|s ss Hs Hss IH]; [done|].
  apply Forall_cons_iff in Hc as [Hcs Hc]. specialize (IH Hc). cbn [built strg_in pick obsolete table].
  destruct (retaken s ss); [done|]. unfold image_label. rewrite st_table_label by done.
  assert (cstr_ok (st_label s)) as Hlab.
  { apply Forall_cons_iff in Hcs as [_ Hcs]. by apply Forall_cons_iff in Hcs as [? _]. }
  rewrite strcmp_eqb by done. rewrite !st_table_get, !cf_image_unset by (done || by_decision).
  assert (last_value (stanza_items s) (bs "alias") = last_value (st_items s) (bs "alias")) as ->.
  { unfold stanza_items. simpl. by destruct (last_value (st_items s) (bs "alias")). }
  assert (match match last_value (st_items s) (bs "alias") with Some v => Some v | None => None end with
          | Some a => strcmp a lbl =? 0 | None => false end =
          bool_decide (last_value (st_items s) (bs "alias") = Some lbl)) as ->.
  { destruct (last_value (st_items s) (bs "alias")) as [a|] eqn:Ea; [|done].
    rewrite strcmp_eqb; [|eapply last_value_cstr; [|exact Ea]|done].
    - apply bool_decide_ext. naive_solver.
    - by do 2 apply Forall_inv_tail in Hcs. }
  destruct (_ || _); [|done]. by destruct (last_value (stanza_items s) item).
Qed.

Lemma stanza_items_cstr ss : Forall item_ok (concat (map stanza_items ss)) → Forall stanza_cstr ss.
Proof.
  induction ss as [|s ss IH]; intros Hf; [constructor|]. cbn [map concat] in Hf.
  apply Forall_app in Hf as [Hs Hf]. constructor; [|by apply IH].
  eapply Forall_impl; [exact Hs|]. apply item_ok_cstr.
Qed.

(** the text of a configuration *)
Definition render_config (globals : list (list Z * option (list Z))) (ss : list stanza) : list Z :=
  render (config_items globals ss).

(** what is asked of the state before a parse: the options are those of the program,
    and nothing is left of an earlier parse *)
Definition ready (c : cfg) : Prop :=
  same_entries (options (tabs c)) cf_options ∧
  back (lx c) = 0 ∧ last_token c = None ∧ last_item c = None.

(** what is asked of a configuration *)
Definition config_ok (globals : list (list Z * option (list Z))) (ss : list stanza) : Prop :=
  Forall item_ok (config_items globals ss) ∧
  Forall (λ iv, fits cf_options iv = true) globals ∧ Forall stanza_ok ss.

#[export] Instance config_ok_dec globals ss : Decision (config_ok globals ss).
Proof. unfold config_ok. apply _. Defined.

Lemma parse_config {F} `{Firmware F} (f : F) file globals ss c : ready c → config_ok globals ss →
  ∃ c' opts, cfg_parse f file (render_config globals ss) c = (Ok 0, c') ∧
    options (tabs c') = foldl put opts globals ∧ images (tabs c') = built ss ∧
    unset opts ∧ same_entries opts cf_options.
Proof.
  intros (He & Hb & Ht & Hi) (Hok & Hg & Hss).
  destruct (cfg_parse_items f file (config_items globals ss) c Hok Hb Ht Hi) as (c' & Hp & Htab).
  assert (same_entries (map clear (options (tabs c))) cf_options) as He'.
  { unfold same_entries in *. by rewrite <- He, clear_entries. }
  destruct (apply_config f globals ss (reset_tables (tabs c))) as [Ho Him]; [done..|].
  exists c', (map clear (options (tabs c))). split; [exact Hp|]. rewrite Htab.
  split; [exact Ho|]. split; [exact Him|]. split; [apply clear_unset|exact He'].
Qed.

(** the first image whose label is not retaken *)
Fixpoint first_kept (ss : list stanza) : option stanza :=
  match ss with
  | [] => None
  | s :: ss => if retaken s ss then first_kept ss else Some s
  end.

Lemma default_built opts ss t : Forall stanza_ok ss → options t = opts → images t = built ss →
  cfg_get_strg_i opts (bs "default") = None →
  cfg_get_default t = Ok (st_label <$> first_kept ss).
Proof.
  intros Hss Ho Him Hd. unfold cfg_get_default. rewrite Ho, Hd, Him. clear Ho Him Hd t.
  induction Hss as [|s ss Hs Hss IH]; [done|]. cbn [built first_kept list_find obsolete].
  destruct (retaken s ss).
  - rewrite decide_False by done. rewrite <- IH.
    by destruct (list_find _ (built ss)) as [[i p]|].
  - rewrite decide_True by done. cbn [table]. unfold image_label. by rewrite st_table_label.
Qed.

Lemma has_label_built ss mac b : Forall stanza_ok ss → Forall stanza_cstr ss → cstr_ok mac →
  has_label (built ss) mac b = Ok (b || existsb (λ s, bool_decide (st_label s = mac)) ss).
Proof.
  intros Hss Hc Hm. revert b. induction Hss as [|s ss Hs Hss IH]; intros b; cbn [built has_label table].
  - simpl. by rewrite orb_false_r.
  - apply Forall_cons_iff in Hc as [Hcs Hc]. rewrite st_table_label, IH by done.
    rewrite strcmp_eqb; [simpl; by rewrite orb_assoc| |done].
    apply Forall_cons_iff in Hcs as [_ Hcs]. by apply Forall_cons_iff in Hcs as [? _].
Qed.

(** the queries after a parse *)
Definition stanza_value (globals : list (list Z * option (list Z))) (ss : list stanza) (lbl item : list Z) :
    option (list Z) :=
  match pick ss lbl with
  | None => None
  | Some s => match last_value (stanza_items s) item with
              | Some v => Some v
              | None => last_value globals item
              end
  end.

Lemma parse_lookup {F} `{Firmware F} (f : F) file globals ss c : ready c → config_ok globals ss →
  ∃ c', cfg_parse f file (render_config globals ss) c = (Ok 0, c') ∧
    (∀ item, item ∈ all_names → cfg_get_strg None item (tabs c') = Ok (last_value globals item)) ∧
    (∀ lbl item, cstr_ok lbl → item ∈ all_names →
       cfg_get_strg (Some lbl) item (tabs c') = Ok (stanza_value globals ss lbl item)).
Proof.
  intros Hr Hok.
  destruct (parse_config f file globals ss c Hr Hok) as (c' & opts & Hp & Ho & Him & Hu & He).
  destruct Hok as (Hall & Hg & Hss). exists c'. split; [exact Hp|]. unfold cfg_get_strg. rewrite Ho, Him. split.
  - intros item Hi. by rewrite (globals_get opts globals item).
  - intros lbl item Hl Hi. rewrite (strg_in_built _ ss lbl item Hss), (globals_get opts globals item); try done.
    apply stanza_items_cstr. unfold config_items in Hall. by apply Forall_app in Hall as [_ ?].
Qed.

(** ** What the configuration file promises *)

(** C1: a configuration written out, with its values quoted, parses without error
    whatever firmware it runs on, and the queries give back what was written: an
    option of the file has the value given last; an image is found by its label or
    its alias, unless a later image takes the label again, and its options default
    to those of the file. *)
Theorem cfg_parse_lookup {F} `{Firmware F} (f : F) file globals ss c lbl item :
  ready c → config_ok globals ss → cstr_ok lbl → item ∈ all_names →
  ∃ c', cfg_parse f file (render_config globals ss) c = (Ok 0, c') ∧
    cfg_get_strg None item (tabs c') = Ok (last_value globals item) ∧
    cfg_get_strg (Some lbl) item (tabs c') =
      Ok match pick ss lbl with
         | None => None
         | Some s => match last_value (stanza_items s) item with
                     | Some v => Some v
                     | None => last_value globals item
                     end
         end.
Proof.
  intros Hr Hok Hl Hi. destruct (parse_lookup f file globals ss c Hr Hok) as (c' & Hp & Hn & Hs).
  exists c'. split; [exact Hp|]. split; [by apply Hn|by apply Hs].
Qed.

Definition example_globals : list (list Z * option (list Z)) :=
  [(bs "default", Some (bs "linux")); (bs "timeout", Some (bs "50")); (bs "read-only", None);
   (bs "append", Some (bs "console=" ++ [34] ++ bs "tty 0\" ++ [34; 10]))].
Definition example_stanzas : list stanza :=
  [Stanza (bs "/boot/vmlinux") (bs "linux") [(bs "root", Some (bs "/dev/hda2"))];
   Stanza (bs "hd:3,/vmlinux.old") (bs "old") [(bs "alias", Some (bs "o")); (bs "append", Some (bs "single"))]].

Lemma cfg_parse_lookup_witness :
  ∃ c', cfg_parse script0 (bs "yaboot.conf") (render_config example_globals example_stanzas) cfg_initial =
      (Ok 0, c') ∧
    cfg_get_strg None (bs "append") (tabs c') = Ok (Some (bs "console=" ++ [34] ++ bs "tty 0\" ++ [34; 10])) ∧
    cfg_get_strg (Some (bs "o")) (bs "append") (tabs c') = Ok (Some (bs "single")).
Proof.
  apply (cfg_parse_lookup script0 (bs "yaboot.conf") example_globals example_stanzas cfg_initial
    (bs "o") (bs "append")); [done|by_decision|by_decision|by_decision].
Defined.

(** after a configuration written out is parsed, the default is the option
    [default], or the label of the first image whose label is not taken again when
    there is no such option. *)
Theorem cfg_default_label {F} `{Firmware F} (f : F) file globals ss c :
  ready c → config_ok globals ss →
  ∃ c', cfg_parse f file (render_config globals ss) c = (Ok 0, c') ∧
    cfg_get_default (tabs c') =
      Ok match last_value globals (bs "default") with
         | Some d => Some d
         | None => st_label <$> first_kept ss
         end.
Proof.
  intros Hr Hok.
  destruct (parse_config f file globals ss c Hr Hok) as (c' & opts & Hp & Ho & Him & Hu & He).
  destruct Hok as (_ & Hg & Hss). exists c'. split; [exact Hp|].
  assert (cfg_get_strg_i (options (tabs c')) (bs "default") = last_value globals (bs "default")) as Hd.
  { rewrite Ho. apply globals_get; [done|done|by_decision|done]. }
  destruct (last_value globals (bs "default")) as [d|].
  - unfold cfg_get_default. by rewrite Hd.
  - apply (default_built _ ss (tabs c') Hss eq_refl Him Hd).
Qed.

Lemma cfg_default_label_witness :
  ∃ c', cfg_parse script0 (bs "yaboot.conf") (render_config [] (example_stanzas ++ example_stanzas)) cfg_initial =
      (Ok 0, c') ∧ cfg_get_default (tabs c') = Ok (Some (bs "linux")).
Proof.
  apply (cfg_default_label script0 (bs "yaboot.conf") [] (example_stanzas ++ example_stanzas) cfg_initial);
    [done|by_decision].
Defined.

(** C25: after a configuration written out is parsed, [cfg_set_default_by_mac]
    changes the default to the hardware address exactly when an image carries it as
    its label. *)
Theorem cfg_mac_default {F} `{Firmware F} (f : F) file globals ss c mac :
  ready c → config_ok globals ss → cstr_ok mac →
  ∃ c', cfg_parse f file (render_config globals ss) c = (Ok 0, c') ∧
    if existsb (λ s, bool_decide (st_label s = mac)) ss
    then ∃ t', cfg_set_default_by_mac mac (tabs c') = Ok (1, t') ∧ cfg_get_default t' = Ok (Some mac)
    else cfg_set_default_by_mac mac (tabs c') = Ok (0, tabs c').
Proof.
  intros Hr Hok Hm.
  destruct (parse_config f file globals ss c Hr Hok) as (c' & opts & Hp & Ho & Him & Hu & He).
  destruct Hok as (Hall & Hg & Hss). exists c'. split; [exact Hp|].
  assert (Forall stanza_cstr ss) as Hc.
  { apply stanza_items_cstr. unfold config_items in Hall. by apply Forall_app in Hall as [_ ?]. }
  unfold cfg_set_default_by_mac. rewrite Him, has_label_built by done. cbn [orb].
  destruct (existsb _ ss); [|done].
  assert (same_entries (options (tabs c')) cf_options) as Heo.
  { rewrite Ho. clear -He. revert opts He. induction globals as [|iv gs IH]; intros opts He; [done|].
    simpl. apply IH. unfold same_entries in *. by rewrite (put_entries opts iv). }
  assert (fits (options (tabs c')) (bs "default", Some mac) = true) as Hf.
  { by rewrite (same_entries_fits _ _ _ Heo). }
  assert (cfg_get_strg_i (put (options (tabs c')) (bs "default", Some mac)) (bs "default") = Some mac) as Hget.
  { rewrite get_put; [done| |by_decision|done]. rewrite (same_entries_names _ _ Heo). apply options_names. }
  unfold fits, put in *. cbn [fst snd] in *.
  destruct (find_entry (options (tabs c')) (bs "default")) as [[i e]|]; [|done].
  eexists. split; [done|]. unfold cfg_get_default. cbn [options]. change (default flag_set (Some mac)) with mac in Hget. by rewrite Hget.
Qed.

Lemma cfg_mac_default_witness :
  ∃ c', cfg_parse script0 (bs "yaboot.conf")
      (render_config example_globals [Stanza (bs "/vmlinux") (bs "00-1a-ff") []]) cfg_initial = (Ok 0, c') ∧
    ∃ t', cfg_set_default_by_mac (bs "00-1a-ff") (tabs c') = Ok (1, t') ∧
          cfg_get_default t' = Ok (Some (bs "00-1a-ff")).
Proof.
  apply (cfg_mac_default script0 (bs "yaboot.conf") example_globals
    [Stanza (bs "/vmlinux") (bs "00-1a-ff") []] cfg_initial (bs "00-1a-ff"));
    [done|by_decision|by_decision].
Defined.

(** C26: the parser always returns, on every file, from every state an earlier parse
    can leave and on every firmware. *)
Theorem cfg_parse_returns {F} `{Firmware F} (f : F) file buff c : (cfg_parse f file buff c).1 ≠ Fuel.
Proof. apply cfg_parse_total. Qed.

(** C27: a token read from any file fits in the buffer of [cfg_get_token] with its
    terminator, and reading it consumes the file. *)
Theorem cfg_token_fits l t l' : read_token l = (Ok (Some t), l') →
  cstr_ok t ∧ Z.of_nat (length t) + 1 <= MAX_TOKEN + 1 ∧ (mu l' < mu l)%nat.
Proof.
  intros Ht. destruct (returns_ok _ _ _ _ _ (read_token_spec l) Ht) as [_ Hs].
  destruct (Hs t eq_refl) as [Hm [Hc Hl]]. split; [done|]. split; [lia|done].
Qed.

Lemma cfg_token_fits_witness :
  let l := Lexer (bs "  label = x") 0 1 in
  let r := read_token l in
  r.1 = Ok (Some (bs "label")) ∧
  cstr_ok (bs "label") ∧ Z.of_nat (length (bs "label")) + 1 <= MAX_TOKEN + 1 ∧ (mu r.2 < mu l)%nat.
Proof.
  intros l r. split; [by vm_compute|]. apply (cfg_token_fits l (bs "label") r.2). by vm_compute.
Defined.

(** an image without a value leaves a table whose label is NULL, which the queries
    use as a string *)
Example image_without_value :
  let c := (cfg_parse script0 (bs "c") (bs "image") cfg_initial).2 in
  cfg_get_strg (Some (bs "linux")) (bs "root") (tabs c) = Err Null ∧ cfg_get_default (tabs c) = Err Null.
Proof. by vm_compute. Qed.

(** without a default, printing the images compares with NULL *)
Example print_without_default :
  let c := (cfg_parse script0 (bs "c") (bs "image=/x") cfg_initial).2 in
  cfg_print_images [] (tabs c) = Err Null.
Proof. by vm_compute. Qed.

(** the byte 255 is read as the end of the file *)
Example byte_255_ends_file :
  let c := (cfg_parse script0 (bs "c") (bs "timeout=" ++ [255] ++ bs "5") cfg_initial).2 in
  (cfg_parse script0 (bs "c") (bs "timeout=" ++ [255] ++ bs "5") cfg_initial).1 = Ok (-1).
Proof. by vm_compute. Qed.
