(* ===== verification/Cmdline.v ===== *)
(** [second/cmdline.c] and the password check of [second/yaboot.c]: the line typed at
    the boot prompt, in its buffer, and what of it reaches the screen. *)
From S2P Require Import Prelude Ctype CString Numeric Vsprintf Malloc Md5Ref Md5 Prom Cfg.

(** ** Data *)

Definition CMD_LENG : Z := 512.

(** the two buffers and the firmware *)
Record cmd (F : Type) := Cmd { cbuff : list Z; passwdbuff : list Z; cmd_fw : F }.
Arguments Cmd {F} _ _ _.
Arguments cbuff {F} _.
Arguments passwdbuff {F} _.
Arguments cmd_fw {F} _.

Section cmdline.
Context {F : Type} `{Firmware F}.
Context (env : prom_env) (useconf : bool) (t : tables).

Definition cmdm (A : Type) : Type := stm (cmd F) fault A.

(** a call of the firmware *)
Definition ask {A} (g : F → A * F) : stm (cmd F) fault A := λ s,
  let '(a, f) := g (cmd_fw s) in (Ok a, Cmd (cbuff s) (passwdbuff s) f).

Definition say (fmt : list Z) (args : list arg) : stm (cmd F) fault unit :=
  ask (λ f, (tt, prom_printf env fmt args f)).

(** a query of the configuration *)
Definition query {A} (r : result null_deref A) : stm (cmd F) fault A :=
  match r with Ok a => mret a | Err _ => fail NullPointer | Fuel => out_of_fuel end.

(** [buff], the buffer of the line or of the password *)
Definition get_buff (password : bool) (s : cmd F) : list Z := if password then passwdbuff s else cbuff s.

Definition set_buff (password : bool) (b : list Z) (s : cmd F) : cmd F :=
  if password then Cmd (cbuff s) b (cmd_fw s) else Cmd b (passwdbuff s) (cmd_fw s).

(** [buff[i] = c], inside the buffer *)
Definition put_char (password : bool) (i c : Z) : stm (cmd F) fault unit := λ s,
  let b := get_buff password s in
  if (0 <=? i) && (i <? Z.of_nat (length b)) then (Ok tt, set_buff password (store b i [u8 c]) s)
  else (Err Overrun, s).

Definition cmdinit : stm (cmd F) fault unit := put_char false 0 0;; put_char true 0 0.

(** a key, within [fuel] reads *)
Definition key (fuel : nat) : stm (cmd F) fault Z :=
  c ← ask (prom_getchar env fuel);
  match c with Some c => mret c | None => out_of_fuel end.

(** the [for] loop that finds the end of the line, [n] bytes to go *)
Fixpoint line_end (n : nat) (x : Z) (password : bool) : stm (cmd F) fault Z :=
  match n with
  | O => mret x
  | S n =>
  b ← gets (get_buff password);
  if byte_at b x =? 0 then mret x
  else (if password then say (bs "*") [] else mret tt);; line_end n (x + 1) password
  end.

(** [prom_printf(buff + x)]: the text at [x] is the format *)
Definition echo (password : bool) (x : Z) : stm (cmd F) fault unit :=
  b ← gets (get_buff password);
  if password then say (bs "*") [] else say (cstring (drop (Z.to_nat x) b)) [].

Fixpoint edit_loop (fuel : nat) (tabfunc : option (stm (cmd F) fault unit)) (password : bool) (x : Z)
  : stm (cmd F) fault Z :=
  match fuel with
  | O => out_of_fuel
  | S fuel =>
  c ← key (S fuel);
  if (c =? -1) || (c =? 10) || (c =? 13) then mret x
  else
    match tabfunc with
    | Some f => if (c =? 9) && (x =? 0) then f else mret tt
    | None => mret tt
    end;;
    if (c =? 8) || (c =? 127) then
      if 0 <? x then
        put_char password (x - 1) 0;;
        say [8; 32; 8] [];;
        edit_loop fuel tabfunc password (x - 1)
      else edit_loop fuel tabfunc password x
    else if negb (Z.land c 224 =? 0) then
      x ← (if x <? CMD_LENG - 1 then
             put_char password x c;;
             put_char password (x + 1) 0;;
             echo password x;;
             mret (x + 1)
           else mret x);
      stop ← (if (x =? 1) && negb password && useconf then
                line ← gets cbuff;
                query (cfg_get_flag (Some (cstring line)) (bs "single-key") t)
              else mret false);
      if stop : bool then mret x else edit_loop fuel tabfunc password x
    else edit_loop fuel tabfunc password x
  end.

Definition cmdedit (fuel : nat) (tabfunc : option (stm (cmd F) fault unit)) (password : bool)
  : stm (cmd F) fault unit :=
  x ← line_end (Z.to_nat (CMD_LENG - 1)) 0 password;
  (if password then mret tt
   else b ← gets cbuff; say (cstring b) [AInt x]);;
  x ← edit_loop fuel tabfunc password x;
  put_char password x 0.

(** ** The password check

[pw] is the string [password] points to; the static state of the digest is [st]. *)

(** [None] when the distance to a missing dollar sign is used *)
Definition password_ok (pw : list Z) (st : md5) (line : list Z) : option (bool * md5) :=
  if strncmp pw (bs "$1$") 3 =? 0 then
  match md5_password line (strcpy pw) true st with
  | Some (r, _, st) => Some (r =? 0, st)
  | None => None
  end
  else Some (strcmp pw line =? 0, st).

Definition Permission_denied : list Z :=
  bs " ___________________" ++ [10] ++ bs "< Permission denied >" ++ [10] ++
  bs " -------------------" ++ [10] ++ bs "        \   ^__^" ++ [10] ++
  bs "         \  (oo)\_______" ++ [10] ++ bs "            (__)\       )\/\" ++ [10] ++
  bs "                ||----w |" ++ [10] ++ bs "                ||     ||" ++ [10].

Definition sleep (fuel : nat) (seconds : Z) : stm (cmd F) fault unit :=
  r ← ask (prom_sleep fuel seconds);
  match r with Ok _ => mret tt | _ => out_of_fuel end.

(** the [for] loop, try [i], [n] tries to go: whether the password was given *)
Fixpoint password_loop (fuel : nat) (n : nat) (i : Z) (pw : list Z) (st : md5) : stm (cmd F) fault (bool * md5) :=
  match n with
  | O => mret (false, st)
  | S n =>
  say ([10] ++ bs "Password: ") [];;
  put_char true 0 0;;
  cmdedit fuel None true;;
  say [10] [];;
  line ← gets passwdbuff;
  match password_ok pw st (cstring line) with
  | None => fail NullPointer
  | Some (true, st) => mret (true, st)
  | Some (false, st) =>
      (if i <? 2 then sleep fuel 1;; say (bs "Incorrect password.  Try again.") [] else mret tt);;
      password_loop fuel n (i + 1) pw st
  end
  end.

Definition check_password (fuel : nat) (str pw : list Z) (st : md5) : stm (cmd F) fault md5 :=
  say ([10] ++ bs "%s") [AStr (Some str)];;
  '(given, st) ← password_loop fuel 3 0 pw st;
  if given : bool then mret st
  else
  say Permission_denied [];;
  sleep fuel 4;;
  ask (λ f, (tt, prom_interpret (bs "reset-all") f));;
  mret st.
End cmdline.

(** ** The line a sequence of keys edits: the reference *)

Definition is_rubout (c : Z) : bool := (c =? 8) || (c =? 127).

(** the keys that end a line: newline, return and the byte 255, which reads as -1 *)
Definition is_end (c : Z) : bool := (c =? 10) || (c =? 13) || (c =? 255).

Definition edit_cmd (line : list Z) (c : Z) : list Z :=
  if is_rubout c then take (length line - 1) line
  else if (32 <=? c) && (Z.of_nat (length line) <? CMD_LENG - 1) then line ++ [c]
  else line.

Definition typed (ks : list Z) : list Z := foldl edit_cmd [] ks.

(** what one key shows *)
Definition echo_cmd (password : bool) (line : list Z) (c : Z) : list Z :=
  if is_rubout c then if (0 <? length line)%nat then [8; 32; 8] else []
  else if (32 <=? c) && (Z.of_nat (length line) <? CMD_LENG - 1) then [if password then 42 else c]
  else [].

Fixpoint echoes (password : bool) (line ks : list Z) : list Z :=
  match ks with
  | [] => []
  | c :: ks => echo_cmd password line c ++ echoes password (edit_cmd line c) ks
  end.

Lemma echoes_hidden ks line : Forall (λ c, c ∈ [42; 8; 32]) (echoes true line ks).
Proof.
  revert line. induction ks as [|c ks IH]; intros line; [constructor|]. simpl.
  apply Forall_app. split; [|apply IH]. unfold echo_cmd. repeat case_match; repeat constructor; set_solver.
Qed.

Lemma edit_cmd_ok line c : cstr_ok line → is_byte c → Z.of_nat (length line) <= CMD_LENG - 1 →
  cstr_ok (edit_cmd line c) ∧ Z.of_nat (length (edit_cmd line c)) <= CMD_LENG - 1.
Proof.
  intros Hl Hc Hn. unfold edit_cmd. destruct (is_rubout c).
  - split; [by apply cstr_ok_take|]. rewrite length_take. lia.
  - destruct (Z.leb_spec 32 c), (Z.ltb_spec (Z.of_nat (length line)) (CMD_LENG - 1)); simpl; try done.
    split; [|rewrite length_app; simpl; lia]. apply cstr_ok_app. split; [done|].
    repeat constructor; unfold is_byte in Hc; lia.
Qed.

Lemma typed_ok ks line : are_bytes ks → cstr_ok line → Z.of_nat (length line) <= CMD_LENG - 1 →
  cstr_ok (foldl edit_cmd line ks) ∧ Z.of_nat (length (foldl edit_cmd line ks)) <= CMD_LENG - 1.
Proof.
  intros Hks. revert line. induction Hks as [|c ks Hc Hks IH]; intros line Hl Hn; [done|]. simpl.
  destruct (edit_cmd_ok line c) as [? ?]; [done..|]. by apply IH.
Qed.

(** ** The buffer holds the line *)

Definition holds_line (b line : list Z) : Prop :=
  cstr_ok line ∧ Z.of_nat (length b) = CMD_LENG ∧ ∃ rest, b = line ++ 0 :: rest.

Lemma holds_line_string b line : holds_line b line → cstring b = line.
Proof. intros (Hl & _ & rest & ->). by apply cstring_terminated. Qed.

Lemma holds_line_length b line : holds_line b line → Z.of_nat (length line) <= CMD_LENG - 1.
Proof. intros (_ & Hb & rest & ->). rewrite length_app in Hb. simpl in Hb. lia. Qed.

(** the stores of a rubout and of a character *)
Lemma holds_line_rubout b line : holds_line b line → (0 < length line)%nat →
  holds_line (store b (Z.of_nat (length line) - 1) [u8 0]) (take (length line - 1) line).
Proof.
  intros (Hl & Hb & rest & ->) Hn. destruct line as [|c line _] using rev_ind; [simpl in Hn; lia|].
  rewrite length_app in *. cbn [length] in *.
  replace (length line + 1 - 1)%nat with (length line) by lia. rewrite take_app_length.
  replace (Z.of_nat (length line + 1) - 1) with (Z.of_nat (length line)) by lia.
  apply cstr_ok_app in Hl as [Hl _]. rewrite <- app_assoc, store_app by done.
  split; [done|]. split; [|by eexists]. rewrite !length_app in *. simpl in *. lia.
Qed.

Lemma holds_line_char b line c : holds_line b line → Z.of_nat (length line) < CMD_LENG - 1 → is_char c →
  holds_line (store (store b (Z.of_nat (length line)) [c]) (Z.of_nat (length line) + 1) [u8 0]) (line ++ [c]).
Proof.
  intros (Hl & Hb & rest & ->) Hn Hc. destruct rest as [|d rest].
  { rewrite length_app in Hb. unfold CMD_LENG in *. simpl in Hb. lia. }
  change (0 :: d :: rest) with ([0] ++ d :: rest) in *. rewrite (store_app line [0] (d :: rest) [c]) by done.
  replace (line ++ [c] ++ d :: rest) with ((line ++ [c]) ++ [d] ++ rest) by (by rewrite <- app_assoc).
  replace (Z.of_nat (length line) + 1) with (Z.of_nat (length (line ++ [c]))) by (rewrite length_app; simpl; lia).
  rewrite store_app by done. split; [apply cstr_ok_app; split; [done|by constructor; [|constructor]]|].
  split; [|by eexists]. rewrite !length_app in *. simpl in *. lia.
Qed.

Lemma holds_line_end b line : holds_line b line → holds_line (store b (Z.of_nat (length line)) [u8 0]) line.
Proof.
  intros (Hl & Hb & rest & ->). change (0 :: rest) with ([0] ++ rest) at 1. rewrite store_app by done.
  split; [done|]. split; [|by eexists]. rewrite !length_app in *. simpl in *. lia.
Qed.

Lemma holds_line_empty b : Z.of_nat (length b) = CMD_LENG → holds_line (store b 0 [u8 0]) [].
Proof.
  intros Hb. destruct b as [|c b]; [simpl in Hb; unfold CMD_LENG in Hb; lia|].
  split; [constructor|]. split; [done|]. by eexists.
Qed.

(** a text of one character, printed as a format, is that character *)
Lemma format_char c : is_char c → format [c] [] = [c].
Proof.
  intros Hc. destruct (Z.eqb_spec c 37) as [->|Hn]; [by vm_compute|].
  unfold is_char in Hc. unfold format, vsprintf, vsprintf_full. cbn [length vsprintf_loop deref].
  destruct (Z.eqb_spec c 0); [lia|]. by destruct (Z.eqb_spec c 37).
Qed.

(** ** The loop *)

(** the machine: [b] the buffer edited, [o] the other one *)
Definition mk {F} (password : bool) (b o : list Z) (f : F) : cmd F :=
  if password then Cmd o b f else Cmd b o f.

Definition with_keys (ks : list Z) (s : script) : script :=
  Script (sc_nodes s) (sc_props s) ks (sc_shown s) (sc_commands s) (sc_clock s).

Section editing.
Context (env : prom_env) (useconf : bool) (t : tables).

Lemma put_char_mk password i c b o (f : script) : 0 <= i < Z.of_nat (length b) →
  put_char password i c (mk password b o f) = (Ok tt, mk password (store b i [u8 c]) o f).
Proof.
  intros Hi. unfold put_char. replace (get_buff password (mk password b o f)) with b by (by destruct password).
  rewrite (proj2 (Z.leb_le 0 i)), (proj2 (Z.ltb_lt i _)) by lia. by destruct password.
Qed.

Lemma say_mk password fmt args b o (f : script) : cstr_ok (format fmt args) →
  say env fmt args (mk password b o f) = (Ok tt, mk password b o (show (screen (format fmt args)) f)).
Proof.
  intros Hc. unfold say, ask, prom_printf.
  replace (cmd_fw (mk password b o f)) with f by (by destruct password).
  rewrite script_puts by done. by destruct password.
Qed.

Lemma key_mk password fuel k ks b o (f : script) : is_byte k → sc_keys f = k :: ks →
  key env (S fuel) (mk password b o f) = (Ok (s8 k), mk password b o (with_keys ks f)).
Proof.
  intros Hk E. unfold key, ask, mbind, stm_bind.
  replace (cmd_fw (mk password b o f)) with f by (by destruct password).
  cbn [prom_getchar of_read script_firmware]. rewrite E.
  change (s32 1 =? 0) with false. change (s32 1 =? -1) with false. cbn [deref].
  rewrite u8_small by done. by destruct password.
Qed.
(** a key as the loop sees it *)
Lemma s8_key c : is_byte c → is_end c = false →
  (s8 c =? -1) || (s8 c =? 10) || (s8 c =? 13) = false ∧
  (s8 c =? 8) || (s8 c =? 127) = is_rubout c ∧ (s8 c =? 9) = (c =? 9) ∧
  negb (Z.land (s8 c) 224 =? 0) = (32 <=? c) ∧ u8 (s8 c) = c.
Proof.
  intros Hc He.
  assert (forallb (λ c, is_end c ||
  (negb ((s8 c =? -1) || (s8 c =? 10) || (s8 c =? 13)) && eqb ((s8 c =? 8) || (s8 c =? 127)) (is_rubout c) &&
   eqb (s8 c =? 9) (c =? 9) && eqb (negb (Z.land (s8 c) 224 =? 0)) (32 <=? c) && (u8 (s8 c) =? c)))
  (seqZ 0 256) = true) as Hall by (by vm_compute).
  rewrite forallb_forall in Hall. specialize (Hall c). rewrite He in Hall. cbn [orb] in Hall.
  assert (In c (seqZ 0 256)) as Hin by (apply list_elem_of_In, elem_of_seqZ; unfold is_byte in Hc; lia).
  specialize (Hall Hin). rewrite !andb_true_iff, negb_true_iff, !eqb_true_iff, Z.eqb_eq in Hall. tauto.
Qed.

Lemma s8_end e : is_byte e → is_end e = true → (s8 e =? -1) || (s8 e =? 10) || (s8 e =? 13) = true.
Proof.
  intros _ He. unfold is_end in He. rewrite !orb_true_iff, !Z.eqb_eq in He.
  by destruct He as [[->| ->]| ->].
Qed.

(** a character is put at the end of the line and echoed *)
Lemma echo_mk password b line c o (f : script) : holds_line b (line ++ [c]) → is_char c → 32 <= c →
  echo env password (Z.of_nat (length line)) (mk password b o f) =
    (Ok tt, mk password b o (show [if password then 42 else c] f)).
Proof.
  intros Hb Hc H32. unfold echo. rewrite gets_bind. destruct password.
  - rewrite (say_mk true) by by_decision. done.
  - assert (cstring (drop (Z.to_nat (Z.of_nat (length line))) (get_buff false (mk false b o f))) = [c]) as ->.
    { destruct Hb as (Hok & _ & rest & E). simpl. rewrite E, Nat2Z.id, <- app_assoc, drop_app_length.
      apply cstring_terminated. by apply cstr_ok_app in Hok as [_ ?]. }
    rewrite (say_mk false), format_char by (rewrite ?format_char by done; repeat constructor; apply Hc).
    unfold screen. cbn [map concat]. destruct (Z.eqb_spec c 10); [lia|]. done.
Qed.

Lemma typed_mk password b line c o (f : script) : holds_line b line → is_byte c → u8 (s8 c) = c → 32 <= c →
  Z.of_nat (length line) < CMD_LENG - 1 →
  ∃ b', holds_line b' (line ++ [c]) ∧
    (put_char password (Z.of_nat (length line)) (s8 c);; put_char password (Z.of_nat (length line) + 1) 0;;
     echo env password (Z.of_nat (length line));; mret (Z.of_nat (length line) + 1)) (mk password b o f) =
    (Ok (Z.of_nat (length (line ++ [c]))), mk password b' o (show [if password then 42 else c] f)).
Proof.
  intros Hb Hc Hu H32 Hlt. assert (length b = Z.to_nat CMD_LENG) as Hbl by (destruct Hb as (_ & ? & _); lia).
  assert (is_char c) as Hcc by (unfold is_byte in Hc; unfold is_char; lia).
  set (b1 := store (store b (Z.of_nat (length line)) [c]) (Z.of_nat (length line) + 1) [u8 0]).
  assert (holds_line b1 (line ++ [c])) as Hb1 by (by apply holds_line_char). exists b1. split; [exact Hb1|].
  erewrite bind_ok by (apply put_char_mk; rewrite Hbl; lia). rewrite Hu.
  erewrite bind_ok by (apply put_char_mk; rewrite length_store; rewrite ?Hbl; cbn [length]; lia).
  fold b1. rewrite (bind_ok _ _ _ _ _ (echo_mk password b1 line c o f Hb1 Hcc H32)). rewrite length_app. cbn [length].
  replace (Z.of_nat (length line) + 1) with (Z.of_nat (length line + 1)) by lia. done.
Qed.

(** a character is rubbed out *)
Lemma rubout_mk password b line o (f : script) : holds_line b line → line ≠ [] →
  ∃ b', holds_line b' (take (length line - 1) line) ∧
    ∀ A (k : stm (cmd script) fault A),
      (put_char password (Z.of_nat (length line) - 1) 0;; say env [8; 32; 8] [];; k) (mk password b o f) =
      k (mk password b' o (show [8; 32; 8] f)).
Proof.
  intros Hb Hne. assert (0 < length line)%nat by (destruct line; [done|cbn; lia]).
  pose proof (holds_line_length b line Hb) as Hlen. assert (length b = Z.to_nat CMD_LENG) as Hbl by (destruct Hb as (_ & ? & _); lia).
  eexists. split; [exact (holds_line_rubout b line Hb ltac:(lia))|]. intros A k.
  erewrite bind_ok by (apply put_char_mk; rewrite Hbl; lia). by erewrite bind_ok by (apply say_mk; by_decision).
Qed.

(** the keys up to the one that ends the line edit the line the buffer holds *)
Lemma edit_loop_spec password tab ks : (password = true ∨ useconf = false) →
  are_bytes ks → Forall (λ c, is_end c = false) ks → (tab = None ∨ 9 ∉ ks) →
  ∀ fuel line b o e rest (f : script), holds_line b line → sc_keys f = ks ++ e :: rest →
  is_byte e → is_end e = true → (length ks < fuel)%nat →
  ∃ b', edit_loop env useconf t fuel tab password (Z.of_nat (length line)) (mk password b o f) =
        (Ok (Z.of_nat (length (foldl edit_cmd line ks))),
         mk password b' o (show (echoes password line ks) (with_keys rest f))) ∧
      holds_line b' (foldl edit_cmd line ks).
Proof.
  intros Hmode Hks. induction Hks as [|c ks Hc Hks IH]; intros Hend Htab fuel line b o e rest f Hb Hf He Hee Hfu;
  (destruct fuel as [|fuel]; [simpl in Hfu; lia|]); cbn [edit_loop foldl echoes].
  - exists b. split; [|done]. rewrite (bind_ok _ _ _ _ _ (key_mk password fuel e rest b o f He Hf)), s8_end by done.
  by rewrite show_nil.
  - inversion_clear Hend as [|? ? Hce Hend'].
  cbn [app] in Hf. rewrite (bind_ok _ _ _ _ _ (key_mk password fuel c _ b o f Hc Hf)).
  destruct (s8_key c Hc Hce) as (-> & -> & -> & -> & Hu).
  set (f1 := with_keys (ks ++ e :: rest) f).
  assert (tab = None ∨ 9 ∉ ks) as Htab' by (destruct Htab; [by left|right; set_solver]).
  assert (∀ line' b' txt, holds_line b' line' →
    ∃ b'', edit_loop env useconf t fuel tab password (Z.of_nat (length line')) (mk password b' o (show txt f1)) =
        (Ok (Z.of_nat (length (foldl edit_cmd line' ks))),
         mk password b'' o (show (txt ++ echoes password line' ks) (with_keys rest f))) ∧
      holds_line b'' (foldl edit_cmd line' ks)) as Hnext.
  { intros line' b' txt Hb'. simpl in Hfu.
    destruct (IH Hend' Htab' fuel line' b' o e rest (show txt f1)) as (b'' & E & Hb''); [done..|lia|].
    exists b''. split; [|done]. rewrite E. do 2 f_equal. unfold show, with_keys. simpl. by rewrite app_assoc. }
  assert ((match tab with Some g => if (c =? 9) && (Z.of_nat (length line) =? 0) then g else mret tt | None => mret tt end)
          (mk password b o f1) = (Ok tt, mk password b o f1)) as Et.
  { destruct tab as [g|]; [|done]. destruct Htab as [?|H9]; [done|].
    destruct (Z.eqb_spec c 9); [subst; set_solver|done]. }
  rewrite (bind_ok _ _ _ _ _ Et). clear Et.
  destruct (is_rubout c) eqn:Er.
  + assert (edit_cmd line c = take (length line - 1) line) as -> by (unfold edit_cmd; by rewrite Er).
    assert (echo_cmd password line c = if (0 <? length line)%nat then [8; 32; 8] else []) as ->
      by (unfold echo_cmd; by rewrite Er).
    destruct (Z.ltb_spec 0 (Z.of_nat (length line))) as [Hl|Hl].
    * rewrite (proj2 (Nat.ltb_lt 0 _)) by lia.
      destruct (rubout_mk password b line o f1 Hb) as (b' & Hb' & E); [by destruct line|].
      assert (Z.of_nat (length line) - 1 = Z.of_nat (length (take (length line - 1) line))) as En
        by (rewrite length_take; lia).
      rewrite E, En. exact (Hnext _ _ _ Hb').
    * destruct line; [|simpl in *; lia].
      destruct (Hnext [] b [] Hb) as (b'' & E & Hb''). rewrite show_nil in E. exists b''. split; [exact E|done].
  + destruct ((32 <=? c) && (Z.of_nat (length line) <? CMD_LENG - 1)) eqn:Ein.
    * assert (edit_cmd line c = line ++ [c]) as -> by (unfold edit_cmd; by rewrite Er, Ein).
      assert (echo_cmd password line c = [if password then 42 else c]) as ->
        by (unfold echo_cmd; by rewrite Er, Ein).
      apply andb_true_iff in Ein as [H32 Hlt]. rewrite H32, Hlt. apply Z.leb_le in H32. apply Z.ltb_lt in Hlt.
      destruct (typed_mk password b line c o f1 Hb Hc Hu H32 Hlt) as (b1 & Hb1 & E). rewrite (bind_ok _ _ _ _ _ E).
      rewrite (bind_ok _ _ _ false (mk password b1 o (show [if password then 42 else c] f1))).
      2:{ destruct Hmode as [-> | ->]; by rewrite ?andb_false_r. }
      apply (Hnext _ _ [if password then 42 else c] Hb1).
    * assert (edit_cmd line c = line) as -> by (unfold edit_cmd; by rewrite Er, Ein).
      assert (echo_cmd password line c = []) as -> by (unfold echo_cmd; by rewrite Er, Ein).
      destruct (Hnext line b [] Hb) as (b'' & E & Hb''). rewrite show_nil in E.
      exists b''. split; [|done]. destruct (32 <=? c); [|exact E]. cbn [andb] in Ein. rewrite Ein.
      rewrite ret_bind.
      rewrite (bind_ok _ _ _ false (mk password b o f1)); [exact E|].
      destruct Hmode as [-> | ->]; by rewrite ?andb_false_r.
Qed.

Lemma line_end_spec password n x b line o (f : script) : holds_line b line →
  Z.of_nat (length line) <= x + Z.of_nat n → 0 <= x <= Z.of_nat (length line) →
  line_end env n x password (mk password b o f) =
  (Ok (Z.of_nat (length line)),
   mk password b o (show (if password then replicate (Z.to_nat (Z.of_nat (length line) - x)) 42 else []) f)).
Proof.
  intros Hb. revert x f. induction n as [|n IH]; intros x f Hn Hx; cbn [line_end].
  - assert (x = Z.of_nat (length line)) as -> by lia. rewrite Z.sub_diag. destruct password; by rewrite show_nil.
  - rewrite gets_bind. replace (get_buff password (mk password b o f)) with b by (by destruct password).
  destruct (decide (x = Z.of_nat (length line))) as [->|Hne].
  + assert (byte_at b (Z.of_nat (length line)) = 0) as ->.
    { destruct Hb as (_ & _ & rest & ->). replace (Z.of_nat (length line)) with (Z.of_nat (length line) + 0) by lia.
      by rewrite byte_at_app. }
    rewrite Z.sub_diag. destruct password; by rewrite show_nil.
  + assert (byte_at b x ≠ 0) as Hnz.
    { destruct Hb as (Hok & _ & rest & ->). unfold byte_at. destruct (Z.ltb_spec x 0); [lia|].
      rewrite app_nth1 by lia. unfold cstr_ok in Hok. rewrite List.Forall_forall in Hok.
      specialize (Hok (nth (Z.to_nat x) line 0) ltac:(apply nth_In; lia)). unfold is_char in Hok. lia. }
    rewrite (proj2 (Z.eqb_neq _ _) Hnz). destruct password.
    * erewrite bind_ok by (apply (say_mk true); by_decision).
      rewrite IH by lia. change (screen (format (bs "*") [])) with [42]. rewrite show_show.
      replace (Z.to_nat (Z.of_nat (length line) - x)) with (S (Z.to_nat (Z.of_nat (length line) - (x + 1)))) by lia.
      done.
    * rewrite ret_bind. apply IH; lia.
Qed.

(** the whole of [cmdedit], from an empty line *)
Lemma cmdedit_spec password tab ks e rest b o fuel (f : script) : (password = true ∨ useconf = false) →
  are_bytes ks → Forall (λ c, is_end c = false) ks → (tab = None ∨ 9 ∉ ks) →
  holds_line b [] → sc_keys f = ks ++ e :: rest → is_byte e → is_end e = true → (length ks < fuel)%nat →
  ∃ b', cmdedit env useconf t fuel tab password (mk password b o f) =
        (Ok tt, mk password b' o (show (echoes password [] ks) (with_keys rest f))) ∧
      holds_line b' (typed ks).
Proof.
  intros Hmode Hks Hend Htab Hb Hf He Hee Hfu. unfold cmdedit.
  erewrite bind_ok by (apply (line_end_spec password _ 0 b []); [done|simpl; lia|simpl; lia]).
  change (if password then replicate (Z.to_nat (Z.of_nat (length (@nil Z)) - 0)) 42 else [])
  with (if password then [] else @nil Z).
  replace (show (if password then [] else []) f) with f by (destruct password; by rewrite show_nil).
  rewrite (bind_ok _ _ _ tt (mk password b o f)).
  2:{ destruct password; [done|]. rewrite gets_bind.
    replace (cbuff (mk false b o f)) with b by done. rewrite (holds_line_string _ _ Hb).
    rewrite (say_mk false) by by_decision. change (screen (format [] [AInt (Z.of_nat (length (@nil Z)))])) with (@nil Z).
    by rewrite show_nil. }
  destruct (edit_loop_spec password tab ks Hmode Hks Hend Htab fuel [] b o e rest f Hb Hf He Hee Hfu) as (b' & E & Hb').
  change (Z.of_nat (length (@nil Z))) with 0 in *. rewrite (bind_ok _ _ _ _ _ E).
  eexists. split; [|apply holds_line_end, Hb'].
  apply put_char_mk. pose proof (holds_line_length _ _ Hb'). destruct Hb' as (_ & -> & _). unfold typed. lia.
Qed.
End editing.

(** ** The password check *)

(** the lines that open the entry [pw] *)
Definition opens (pw line : list Z) : Prop :=
  (starts_with (bs "$1$") pw = false ∧ line = pw) ∨
  (∃ salt hash, 36 ∉ salt ∧ pw = bs "$1$" ++ salt ++ 36 :: hash ∧ hash = crypt_spec line salt).

(** a plain entry, or one with a salt that is ended *)
Definition entry_ok (pw : list Z) : Prop :=
  cstr_ok pw ∧ (starts_with (bs "$1$") pw = false ∨
                ∃ salt hash, 36 ∉ salt ∧ pw = bs "$1$" ++ salt ++ 36 :: hash).

Lemma salt_unique (salt salt' hash hash' : list Z) : 36 ∉ salt → 36 ∉ salt' →
  salt ++ 36 :: hash = salt' ++ 36 :: hash' → salt = salt' ∧ hash = hash'.
Proof.
  revert salt'. induction salt as [|c salt IH]; intros [|c' salt'] H1 H2 E; simpl in *; simplify_eq; [done|set_solver..|].
  destruct (IH salt') as [-> ->]; [set_solver..|done|done].
Qed.

Lemma password_ok_spec pw st line : entry_ok pw → cstr_ok line → length (buffer st) = 64%nat →
  ∃ r st', password_ok pw st line = Some (r, st') ∧ length (buffer st') = 64%nat ∧ (r = true ↔ opens pw line).
Proof.
  intros (Hpw & Hentry) Hl Hst. unfold password_ok, opens.
  assert (strncmp pw (bs "$1$") 3 = 0 ↔ starts_with (bs "$1$") pw = true) as Hpre
    by (apply (strncmp_0_iff pw (bs "$1$")); [done|by_decision|done]).
  destruct Hentry as [Hn|(salt & hash & Hd & ->)].
  - destruct (Z.eqb_spec (strncmp pw (bs "$1$") 3) 0) as [E|_]; [apply Hpre in E; congruence|].
    eexists _, st. split; [done|]. split; [done|]. rewrite strcmp_eqb, bool_decide_eq_true by done.
    split; [by left|]. intros [[_ ->]|(salt & hash & _ & -> & _)]; [done|done].
  - rewrite (proj2 (Z.eqb_eq _ _) (proj2 Hpre eq_refl)).
    unfold strcpy. rewrite cstring_id by done.
    pose proof Hpw as Hpw'. apply cstr_ok_app in Hpw' as [_ Hpw']. apply cstr_ok_app in Hpw' as [Hsalt Hhash].
    apply cstr_ok_cons in Hhash as [_ Hhash].
    replace ((bs "$1$" ++ salt ++ 36 :: hash) ++ [0]) with (bs "$1$" ++ salt ++ 36 :: hash ++ 0 :: [])
      by (by rewrite <- !app_assoc).
    destruct (password_check line salt hash [] st Hl Hsalt Hd Hhash Hst) as [st' E]. rewrite E.
    eexists _, st'. split; [done|]. split; [by eapply md5_password_buffer|].
    rewrite Z.eqb_eq, (compare_chars_spec _ _ _ _); [|done|apply crypt_spec_chars].
    split.
    + intros Hh. right. by exists salt, hash.
    + intros [[? _]|(salt' & hash' & Hd' & E' & ->)]; [done|].
      apply (app_inv_head (bs "$1$")) in E'. by destruct (salt_unique _ _ _ _ Hd Hd' E') as [<- <-].
Qed.

Section passwords.
Context (env : prom_env) (useconf : bool) (t : tables).

(** the lines typed, each ended by return *)
Definition typed_keys (lines : list (list Z)) : list Z := concat (map (λ l, l ++ [13]) lines).

(** the state of the firmware apart from keys, screen and clock *)
Definition same_commands (f g : script) : Prop := sc_commands f = sc_commands g.

Lemma sleep_mk password b o fuel seconds (f : script) : 0 <= seconds → 0 <= sc_clock f →
  sc_clock f + seconds * 1000 + 1 < 2147483648 → seconds * 1000 < Z.of_nat fuel →
  sleep fuel seconds (mk password b o f) =
    (Ok tt, mk password b o (at_time (sc_clock f + seconds * 1000 + 2) f)).
Proof.
  intros. unfold sleep, ask, mbind, stm_bind.
  replace (cmd_fw (mk password b o f)) with f by (by destruct password).
  rewrite script_sleep by done. by destruct password.
Qed.

(** the tries, [n] lines for [n] tries *)
Lemma password_loop_spec pw fuel lines : entry_ok pw → (1001 <= fuel)%nat →
  Forall (λ l, are_bytes l ∧ Forall (λ c, is_end c = false) l ∧ (length l < fuel)%nat) lines →
  ∀ i st b o rest (f : script), length (buffer st) = 64%nat → Z.of_nat (length b) = CMD_LENG →
  sc_keys f = typed_keys lines ++ rest → 0 <= sc_clock f →
  sc_clock f + Z.of_nat (length lines) * 1002 < 2147483648 →
  ∃ r st' b' f', password_loop env useconf t fuel (length lines) i pw st (mk true b o f) = (Ok (r, st'), mk true b' o f') ∧
    (r = true ↔ Exists (λ l, opens pw (typed l)) lines) ∧ same_commands f' f ∧
    sc_clock f <= sc_clock f' <= sc_clock f + Z.of_nat (length lines) * 1002.
Proof.
  intros Hpw Hfu. induction 1 as [|l lines (Hl & Hend & Hlen) Hall IH]; intros i st b o rest f Hst Hb Hf Hc Hmax.
  - exists false, st, b, f. split; [done|]. split; [|simpl; split; [done|lia]].
    split; [done|]. intros Hex. inversion Hex.
  - cbn [length password_loop]. cbn [length] in Hmax.
    erewrite bind_ok by (apply (say_mk env true); by_decision).
    set (f1 := show _ f).
    erewrite bind_ok by (apply (put_char_mk true); unfold CMD_LENG in Hb; lia).
    destruct (cmdedit_spec env useconf t true None l 13 (typed_keys lines ++ rest) (store b 0 [u8 0]) o fuel f1)
      as (b2 & E & Hb2);
      [by left|done|done|by left|by apply holds_line_empty| |by_decision|done|done|].
    { unfold f1. simpl. rewrite Hf. unfold typed_keys. simpl. by rewrite <- !app_assoc. }
    rewrite (bind_ok _ _ _ _ _ E). set (f2 := show _ (with_keys _ f1)).
    erewrite bind_ok by (apply (say_mk env true); by_decision).
    set (f3 := show _ f2). rewrite gets_bind.
    replace (passwdbuff (mk true b2 o f3)) with b2 by done. rewrite (holds_line_string _ _ Hb2).
    destruct (password_ok_spec pw st (typed l)) as (r & st' & -> & Hst' & Hr);
      [done|apply typed_ok; [done|constructor|by_decision]|done|].
    destruct r.
    { exists true, st', b2, f3. split; [done|]. split; [split; [by left; apply Hr|done]|].
      split; [done|]. simpl. lia. }
    assert (∃ f4, (if i <? 2 then sleep fuel 1;; say env (bs "Incorrect password.  Try again.") [] else mret tt)
        (mk true b2 o f3) = (Ok tt, mk true b2 o f4) ∧
        sc_keys f4 = typed_keys lines ++ rest ∧ same_commands f4 f ∧ sc_clock f <= sc_clock f4 <= sc_clock f + 1002)
      as (f4 & E4 & Hk4 & Hc4 & Ht4).
    { destruct (i <? 2).
      - eexists. split; [|split; [|split]].
        + erewrite bind_ok by (apply (sleep_mk true); simpl; lia).
          apply (say_mk env true). by_decision.
        + done.
        + done.
        + simpl. lia.
      - eexists. split; [done|]. split; [done|]. split; [done|]. simpl. lia. }
    rewrite (bind_ok _ _ _ _ _ E4).
    destruct (IH (i + 1) st' b2 o rest f4) as (r & st2 & b5 & f5 & E5 & Hr5 & Hc5 & Ht5);
      [done|by destruct Hb2 as (_ & ? & _)|done|lia|lia|].
    exists r, st2, b5, f5. split; [exact E5|]. split; [|split; [unfold same_commands in *; congruence|lia]].
    rewrite Hr5, Exists_cons. assert (¬ opens pw (typed l)) by (by rewrite <- Hr). tauto.
Qed.
End passwords.

(** the text printed before the tries *)
Lemma format_title str : cstr_ok str → Z.of_nat (length str) < 4294967296 →
  format ([10] ++ bs "%s") [AStr (Some str)] = 10 :: str.
Proof.
  intros Hs Hl. transitivity (10 :: format_s str 0 (-1) (-1)); [|by rewrite format_s_plain].
  unfold format. lazy -[format_s]. done.
Qed.

(** the check, over three lines *)
Lemma check_password_spec env useconf t fuel str pw st l1 l2 l3 rest b o (f : script) :
  entry_ok pw → cstr_ok str → Z.of_nat (length str) < 4294967296 → length (buffer st) = 64%nat → Z.of_nat (length b) = CMD_LENG →
  Forall (λ l, are_bytes l ∧ Forall (λ c, is_end c = false) l ∧ (length l < fuel)%nat) [l1; l2; l3] →
  sc_keys f = typed_keys [l1; l2; l3] ++ rest →
  0 <= sc_clock f < 1000000000 → (4001 <= fuel)%nat →
  ∃ st' b' f', check_password env useconf t fuel str pw st (mk true b o f) = (Ok st', mk true b' o f') ∧
    (Exists (λ l, opens pw (typed l)) [l1; l2; l3] → sc_commands f' = sc_commands f) ∧
    (¬ Exists (λ l, opens pw (typed l)) [l1; l2; l3] → sc_commands f' = sc_commands f ++ [bs "reset-all"]).
Proof.
  intros Hpw Hstr Hstrl Hst Hb Hls Hf Hc Hfu. unfold check_password.
  erewrite bind_ok by (apply (say_mk env true); rewrite format_title by done; apply cstr_ok_cons; split; [by_decision|done]).
  set (f1 := show _ f).
  destruct (password_loop_spec env useconf t pw fuel [l1; l2; l3] Hpw ltac:(lia) Hls 0 st b o rest f1)
    as (r & st' & b' & f2 & E & Hr & Hc2 & Ht2); [done|done|done|simpl; lia|simpl; lia|].
  rewrite (bind_ok _ _ _ _ _ E). simpl in Ht2. destruct r.
  - exists st', b', f2. split; [done|]. split; [done|]. intros Hn. exfalso. by apply Hn, Hr.
  - erewrite bind_ok by (apply (say_mk env true); by_decision).
    erewrite bind_ok by (apply (sleep_mk true); simpl; lia).
    eexists st', b', _. split; [done|]. split; [intros He; apply Hr in He; done|].
    intros _. simpl. unfold same_commands in Hc2. by rewrite Hc2.
Qed.

(** ** What the prompt and the password check promise *)

(** C16: the line editor, with its stores in a buffer of 512 bytes, refines the editing of
    a line: from an empty buffer the keys up to newline, return or 255 leave in the
    buffer, terminated, the line they edit - characters appended up to 511, backspace
    and delete taking the last one back - and the other buffer is not touched.  What
    the screen shows is the echo of the keys; of a password it is stars and rubouts. *)
Theorem cmdedit_refines env useconf t password ks e rest b o fuel (f : script) :
  (password = true ∨ useconf = false) → are_bytes ks → Forall (λ c, is_end c = false) ks →
  Z.of_nat (length b) = CMD_LENG → cstring b = [] → sc_keys f = ks ++ e :: rest →
  is_byte e → is_end e = true → (length ks < fuel)%nat →
  ∃ b', cmdedit env useconf t fuel None password (mk password b o f) =
          (Ok tt, mk password b' o (show (echoes password [] ks) (with_keys rest f))) ∧
    Z.of_nat (length b') = CMD_LENG ∧ cstring b' = typed ks ∧
    (password = true → Forall (λ c, c ∈ [42; 8; 32]) (echoes password [] ks)).
Proof.
  intros Hmode Hks Hend Hb Hs Hf He Hee Hfu.
  assert (holds_line b []) as Hh.
  { split; [constructor|]. split; [done|]. destruct b as [|c b]; [done|]. exists b. simpl in Hs.
    destruct (Z.eqb_spec c 0) as [->|]; [done|discriminate]. }
  destruct (cmdedit_spec env useconf t password None ks e rest b o fuel f) as (b' & E & Hb'); [done|done|done|by left|done|done|done|done|done|].
  exists b'. split; [exact E|]. split; [by destruct Hb' as (_ & ? & _)|]. split; [by apply holds_line_string|].
  intros ->. apply echoes_hidden.
Qed.

Definition env1 : prom_env := PromEnv 0 1 2 3 false.

Lemma cmdedit_refines_witness :
  let f := Script [] [] (bs "seX" ++ [8] ++ bs "cret" ++ [13; 65]) [] [] 0 in
  ∃ b', cmdedit env1 true (tabs cfg_initial) 20 None true (mk true (replicate 512 0) [] f) =
          (Ok tt, mk true b' [] (show (echoes true [] (bs "seX" ++ [8] ++ bs "cret")) (with_keys [65] f))) ∧
    Z.of_nat (length b') = CMD_LENG ∧ cstring b' = bs "secret" ∧
    (true = true → Forall (λ c, c ∈ [42; 8; 32]) (echoes true [] (bs "seX" ++ [8] ++ bs "cret"))).
Proof.
  intros f. apply (cmdedit_refines env1 true (tabs cfg_initial) true (bs "seX" ++ [8] ++ bs "cret") 13 [65]
    (replicate 512 0) [] 20 f);
    first [by left | by_decision | reflexivity].
Defined.

(** C15: the password check lets the boot go on exactly when one of the three lines typed
    is the password - equal to a plain entry, or hashing with its salt to an entry in
    the form of MD5-crypt; otherwise the firmware is asked to reset the machine.  No
    other command is run either way. *)
Theorem check_password_resets env useconf t fuel str pw st l1 l2 l3 rest b o (f : script) :
  entry_ok pw → cstr_ok str → Z.of_nat (length str) < 4294967296 → length (buffer st) = 64%nat → Z.of_nat (length b) = CMD_LENG →
  Forall (λ l, are_bytes l ∧ Forall (λ c, is_end c = false) l ∧ (length l < fuel)%nat) [l1; l2; l3] →
  sc_keys f = typed_keys [l1; l2; l3] ++ rest →
  0 <= sc_clock f < 1000000000 → (4001 <= fuel)%nat →
  ∃ st' b' f', check_password env useconf t fuel str pw st (mk true b o f) = (Ok st', mk true b' o f') ∧
    (Exists (λ l, opens pw (typed l)) [l1; l2; l3] → sc_commands f' = sc_commands f) ∧
    (¬ Exists (λ l, opens pw (typed l)) [l1; l2; l3] → sc_commands f' = sc_commands f ++ [bs "reset-all"]).
Proof. apply check_password_spec. Qed.

Lemma check_password_resets_witness :
  let f := Script [] [] (typed_keys [bs "guess"; bs "secrex" ++ [127; 116]; bs "x"] ++ []) [] [] 0 in
  ∃ st' b' f', check_password env1 true (tabs cfg_initial) 4001 (bs "This image is restricted.") (bs "secret")
      md5_static (mk true (replicate 512 0) [] f) = (Ok st', mk true b' [] f') ∧
    (Exists (λ l, opens (bs "secret") (typed l)) [bs "guess"; bs "secrex" ++ [127; 116]; bs "x"] →
     sc_commands f' = []) ∧
    (¬ Exists (λ l, opens (bs "secret") (typed l)) [bs "guess"; bs "secrex" ++ [127; 116]; bs "x"] →
     sc_commands f' = [] ++ [bs "reset-all"]).
Proof.
  intros f. apply (check_password_resets env1 true (tabs cfg_initial) 4001 (bs "This image is restricted.") (bs "secret")
    md5_static (bs "guess") (bs "secrex" ++ [127; 116]) (bs "x") [] (replicate 512 0) [] f).
  - split; [by_decision|]. left. reflexivity.
  - by_decision.
  - reflexivity.
  - reflexivity.
  - reflexivity.
  - by_decision.
  - reflexivity.
  - simpl. lia.
  - lia.
Defined.

(** three wrong lines, and a right one after a rubout *)
Example three_wrong :
  let f := Script [] [] (typed_keys [bs "a"; bs "b"; bs "c"]) [] [] 0 in
  sc_commands (cmd_fw (check_password env1 true (tabs cfg_initial) 4001 (bs "Restricted command.") (bs "secret")
    md5_static (mk true (replicate 512 0) [] f)).2) = [bs "reset-all"].
Proof. vm_compute. reflexivity. Qed.

Example second_right :
  let f := Script [] [] (typed_keys [bs "a"; bs "secrex" ++ [127; 116]]) [] [] 0 in
  sc_commands (cmd_fw (check_password env1 true (tabs cfg_initial) 4001 (bs "Restricted command.") (bs "secret")
    md5_static (mk true (replicate 512 0) [] f)).2) = [].
Proof. vm_compute. reflexivity. Qed.

(** at an image with [single-key] one key ends the line *)
Example single_key_ends :
  let t := Tables cf_options
             [Image [Config cft_strg (bs "label") (Some (bs "l")); Config cft_flag (bs "single-key") (Some flag_set)]
                false] None 0 (replicate 256 0) in
  let r := cmdedit env1 true t 9 None false (mk false (replicate 512 0) [] (Script [] [] (bs "linux" ++ [13]) [] [] 0)) in
  (cstring (cbuff r.2), sc_keys (cmd_fw r.2)) = (bs "l", bs "inux" ++ [13]).
Proof. vm_compute. reflexivity. Qed.
