(* ===== verification/Devpath.v ===== *)
(** [second/file.c], the device paths: the file a path names is found in the path
    itself, in the arguments of a network boot and in the packet the firmware got.

    The blocks the strings are copied to are taken to be available; what is written
    through [scopy] is bounded by a theorem. *)
From S2P Require Import Prelude Ctype CString Numeric Vsprintf Malloc Prom.

(** ** Data *)

(** [struct boot_fspec_t] *)
Record boot_fspec := Fspec {
  dev : option (list Z);
  part : Z;
  siaddr : option (list Z);
  file : option (list Z);
  ciaddr : option (list Z);
  giaddr : option (list Z);
  bootp_retries : option (list Z);
  tftp_retries : option (list Z);
  subnetmask : option (list Z);
  addl_params : option (list Z);
  is_ipv6 : bool;
  dhcpv6 : option (list Z);
  blksize : option (list Z);
}.

Definition fspec0 : boot_fspec :=
  Fspec None 0 None None None None None None None None false None None.

Definition set_dev v r := Fspec v (part r) (siaddr r) (file r) (ciaddr r) (giaddr r) (bootp_retries r)
  (tftp_retries r) (subnetmask r) (addl_params r) (is_ipv6 r) (dhcpv6 r) (blksize r).
Definition set_part v r := Fspec (dev r) v (siaddr r) (file r) (ciaddr r) (giaddr r) (bootp_retries r)
  (tftp_retries r) (subnetmask r) (addl_params r) (is_ipv6 r) (dhcpv6 r) (blksize r).
Definition set_siaddr v r := Fspec (dev r) (part r) v (file r) (ciaddr r) (giaddr r) (bootp_retries r)
  (tftp_retries r) (subnetmask r) (addl_params r) (is_ipv6 r) (dhcpv6 r) (blksize r).
Definition set_file v r := Fspec (dev r) (part r) (siaddr r) v (ciaddr r) (giaddr r) (bootp_retries r)
  (tftp_retries r) (subnetmask r) (addl_params r) (is_ipv6 r) (dhcpv6 r) (blksize r).
Definition set_ciaddr v r := Fspec (dev r) (part r) (siaddr r) (file r) v (giaddr r) (bootp_retries r)
  (tftp_retries r) (subnetmask r) (addl_params r) (is_ipv6 r) (dhcpv6 r) (blksize r).
Definition set_giaddr v r := Fspec (dev r) (part r) (siaddr r) (file r) (ciaddr r) v (bootp_retries r)
  (tftp_retries r) (subnetmask r) (addl_params r) (is_ipv6 r) (dhcpv6 r) (blksize r).
Definition set_subnetmask v r := Fspec (dev r) (part r) (siaddr r) (file r) (ciaddr r) (giaddr r)
  (bootp_retries r) (tftp_retries r) v (addl_params r) (is_ipv6 r) (dhcpv6 r) (blksize r).

(** computes the fields of a structure after assignments *)
Ltac fspec_simpl :=
  repeat match goal with r : boot_fspec |- _ => destruct r end;
  cbn [set_dev set_part set_siaddr set_file set_ciaddr set_giaddr set_subnetmask fst
       dev part siaddr file ciaddr giaddr bootp_retries tftp_retries subnetmask addl_params is_ipv6
       dhcpv6 blksize].

(** a string field that is NULL or empty *)
Definition missing (s : option (list Z)) : bool :=
  match s with None => true | Some s => deref s =? 0 end.

(** ** Dotted quads *)

Definition ipv4_to_str (ip : Z) : list Z :=
  format (bs "%u.%u.%u.%u")
    [AInt (Z.shiftr (Z.land ip 4278190080) 24); AInt (Z.shiftr (Z.land ip 16711680) 16);
     AInt (Z.shiftr (Z.land ip 65280) 8); AInt (Z.land ip 255)].

(** the [for] loop from octet [i], [n] octets to go: the address, or [None] where the
    code returns NULL.  [strtol] is [simple_strtol] here. *)
Fixpoint ipv4_octets (n : nat) (i : Z) (ptr : list Z) (ip : Z) : option Z :=
  match n with
  | O => Some ip
  | S n =>
      let '(tmp, endptr) := simple_strtol ptr 10 in
      if negb (Z.land tmp 255 =? tmp) then None
      else if (deref endptr =? 0) && negb (i =? 3) then None
      else if negb (deref endptr =? 0) && negb (deref endptr =? 46) then None
      else ipv4_octets n (i + 1) (tail endptr) (u32 (ip + Z.shiftl tmp (24 - i * 8)))
  end.

Definition is_valid_ipv4_str (str : option (list Z)) : option (list Z) :=
  match str with
  | None => None
  | Some s =>
      match ipv4_octets 4 0 s 0 with
      | None => None
      | Some ip => if (ip =? 0) || (ip =? 4294967295) then None else Some s
      end
  end.

(** ** Arguments of a network boot *)

(** the string copied and the source afterwards; the bytes stored through [dest] are
    the string and its terminator *)
Fixpoint scopy_loop (source : list Z) : list Z * list Z :=
  match source with
  | [] => ([], [])
  | c :: r => if (c =? 44) || (c =? 0) then ([], source)
              else let '(s, t) := scopy_loop r in (c :: s, t)
  end.

Definition scopy (source : list Z) : option (list Z) * list Z :=
  if deref source =? 0 then (None, source)
  else
    let '(s, t) := scopy_loop source in
    (Some s, if deref t =? 0 then t else tail t).

(** what [scopy] stores *)
Definition scopy_stored (s : option (list Z)) : list Z :=
  match s with Some s => s ++ [0] | None => [] end.

(** [tmp = strstr(args, word); if (tmp && tmp > args) args = tmp + strlen(word);] *)
Definition skip_word (args word : list Z) : list Z :=
  match strstr_ptr args word with
  | Some tmp => if Nat.ltb (length tmp) (length args) then drop (length word) tmp else args
  | None => args
  end.

(** the byte before the suffix [args] of [path]; before the first byte of the copy
    [strdup] made there is the last byte of the size of its block *)
Definition byte_before (path args : list Z) : Z :=
  if Nat.eqb (length args) (length path) then u8 (Z.of_nat (length path) + 1)
  else byte_at path (Z.of_nat (length path - length args) - 1).

(** the list of the arguments, after [:] and the words, and the room allocated for
    their copies; [None] when there are none *)
Definition ipv4_args (imagepath : list Z) : option (list Z * Z) :=
  match strrchr imagepath 58 with
  | None => None
  | Some start =>
      let args := skip_word start (bs "promiscuous") in
      let args := skip_word args (bs "speed=") in
      let args := skip_word args (bs "duplex=") in
      let args := skip_word args (bs "bootp") in
      let args := skip_word args (bs "rarp") in
      let args := if Nat.eqb (length args) (length start) then Some args else strchr args 44 in
      match args with
      | None => None
      | Some args =>
          Some (if byte_before imagepath args =? 58 then args else tail args, strlen args + 1)
      end
  end.

Definition extract_ipv4_args (imagepath : list Z) (r : boot_fspec) : boot_fspec :=
  match ipv4_args imagepath with
  | None => r
  | Some (args, _) =>
      let '(f1, args) := scopy args in
      let '(f2, args) := scopy args in
      let '(f3, args) := scopy args in
      let '(f4, args) := scopy args in
      let '(f5, args) := scopy args in
      let '(f6, args) := scopy args in
      let '(f7, args) := scopy args in
      Fspec (dev r) (part r) (is_valid_ipv4_str f1) f2 (is_valid_ipv4_str f3) (is_valid_ipv4_str f4)
        f5 f6 (is_valid_ipv4_str f7)
        (if deref args =? 0 then addl_params r else Some args)
        (is_ipv6 r) (dhcpv6 r) (blksize r)
  end.

(** [if ((tmp = strstr(imagepath, word)) != NULL) field = scopy(&str, &tmp);] *)
Definition ipv6_field (imagepath word : list Z) (old : option (list Z)) : option (list Z) :=
  match strstr_ptr imagepath word with
  | Some tmp => (scopy tmp).1
  | None => old
  end.

Definition extract_ipv6_args (imagepath : list Z) (r : boot_fspec) : boot_fspec :=
  Fspec (dev r) (part r)
    (ipv6_field imagepath (bs "siaddr=") (siaddr r))
    (ipv6_field imagepath (bs "filename=") (file r))
    (ipv6_field imagepath (bs "ciaddr=") (ciaddr r))
    (ipv6_field imagepath (bs "giaddr=") (giaddr r))
    (bootp_retries r)
    (ipv6_field imagepath (bs "tftp-retries=") (tftp_retries r))
    (subnetmask r) (addl_params r) true
    (ipv6_field imagepath (bs "dhcpv6=") (dhcpv6 r))
    (ipv6_field imagepath (bs "blksize=") (blksize r)).

(** ** The reply packet *)

Definition DHCP_PAD : Z := 0.
Definition DHCP_NETMASK : Z := 1.
Definition DHCP_ROUTERS : Z := 3.
Definition DHCP_END : Z := 255.
Definition DHCP_COOKIE : Z := 1669485411.

(** the word [memcpy] of the first [len] bytes, at most four, makes of a zero *)
Definition option_value (options : list Z) (i len : Z) : Z :=
  let n := if 4 <? len then 4 else len in
  be32 (slice options i n ++ replicate 4 0) 0.

(** the [while] loop from offset [i]; a read past the packet is [Err Overrun] *)
Fixpoint vendor_loop (fuel : nat) (options : list Z) (i : Z) (r : boot_fspec)
    : result fault boot_fspec :=
  match fuel with
  | O => Fuel
  | S fuel =>
      let size := Z.of_nat (length options) in
      if size <=? i then Err Overrun
      else if byte_at options i =? DHCP_END then Ok r
      else
        let tag := byte_at options i in
        let i := i + 1 in
        if tag =? DHCP_PAD then vendor_loop fuel options i r
        else if size <=? i then Err Overrun
        else
          let len := byte_at options i in
          let i := i + 1 in
          if size <? i + (if 4 <? len then 4 else len) then Err Overrun
          else
            let value := option_value options i len in
            let r :=
              if tag =? DHCP_NETMASK then
                if missing (subnetmask r) && negb (value =? 0)
                then set_subnetmask (Some (ipv4_to_str value)) r else r
              else if tag =? DHCP_ROUTERS then
                if missing (giaddr r) && negb (value =? 0)
                then set_giaddr (Some (ipv4_to_str value)) r else r
              else r in
            vendor_loop fuel options (i + len) r
  end.

Section firmware.
Context {F : Type} `{Firmware F}.
Context (env : prom_env).

Definition extract_vendor_options (packet : list Z) (r : boot_fspec) (f : F)
    : result fault boot_fspec * F :=
  let options := drop (Z.to_nat packet_size) packet in
  if Z.of_nat (length options) <? 4 then (Err Overrun, f)
  else
    let cookie := be32 options 0 in
    if negb (cookie =? DHCP_COOKIE) then
      (Ok r, prom_printf env (bs "EEEK! cookie is fubar got %08x expected %08x" ++ [10])
               [AInt cookie; AInt DHCP_COOKIE] f)
    else (vendor_loop (S (length options)) options 4 r, f).

Definition packet_ciaddr (packet : list Z) : Z := be32 packet 12.
Definition packet_siaddr (packet : list Z) : Z := be32 packet 20.
Definition packet_giaddr (packet : list Z) : Z := be32 packet 24.

(** a missing field takes the address of the packet *)
Definition fill (old : option (list Z)) (addr : Z) : option (list Z) :=
  if missing old && negb (addr =? 0) then Some (ipv4_to_str addr) else old.

Definition extract_netinfo_args (r : boot_fspec) (h : heap) (f : F)
    : result fault boot_fspec * heap * F :=
  let '(packet, h, f) := prom_get_netinfo env h f in
  match packet with
  | None => (Ok r, h, f)
  | Some packet =>
      let c := packet_ciaddr packet in
      let y := packet_yiaddr packet in
      let c := if (c =? 0) && negb (y =? 0) then y else c in
      let r := set_siaddr (fill (siaddr r) (packet_siaddr packet)) r in
      let r := set_ciaddr (fill (ciaddr r) c) r in
      let r := set_giaddr (fill (giaddr r) (packet_giaddr packet)) r in
      match extract_vendor_options packet r f with
      | (Ok r, f) =>
          (Ok match giaddr r with
              | None => set_giaddr (Some (ipv4_to_str (packet_siaddr packet))) r
              | Some _ => r
              end, h, f)
      | (Err e, f) => (Err e, h, f)
      | (Fuel, f) => (Fuel, h, f)
      end
  end.

Definition extract_netboot_args (imagepath : list Z) (r : boot_fspec) (h : heap) (f : F)
    : result fault boot_fspec * heap * F :=
  let r := match strstr_ptr imagepath TOK_IPV6 with
           | Some _ => extract_ipv6_args imagepath r
           | None => extract_ipv4_args imagepath r
           end in
  extract_netinfo_args r h f.

(** the path up to the first colon, which is kept *)
Definition netdev_path_to_dev (path : list Z) : list Z :=
  match strchr path 58 with
  | None => path
  | Some tmp => take (length path - length tmp + 1) path
  end.

(** ** [parse_device_path] *)

(** [if ((ptr = strrchr(s, c)) != NULL) *ptr = 0;] *)
Definition cut_last (s : list Z) (c : Z) : list Z :=
  match strrchr s c with Some ptr => take (length s - length ptr) s | None => s end.

(** a file name after the last comma, when no colon follows it: the path left and the
    name *)
Definition split_file (ipath : list Z) : list Z * option (list Z) :=
  match strchr ipath 58, strrchr ipath 44 with
  | Some _, Some ptr =>
      match strrchr ipath 58 with
      | Some colon =>
          if Nat.ltb (length ptr) (length colon)
          then (take (length ipath - length ptr) ipath, Some (tail ptr))
          else (ipath, None)
      | None => (take (length ipath - length ptr) ipath, Some (tail ptr))
      end
  | _, _ => (ipath, None)
  end.

(** the device kinds whose paths are not split *)
Definition splits (device_kind : Z) : bool :=
  negb (device_kind =? FILE_DEVICE_NET) && negb (device_kind =? FILE_DEVICE_ISCSI).

(** [defdev] without the colon that may end it.  Without a default device it is NULL, and the
    scan for a colon goes over the string at address 0, [low]: nothing is done when it has
    none, and otherwise the byte of the colon is stored to at that address. *)
Definition trim_defdev (low : list Z) (defdevice : option (list Z)) (device_kind : Z) : result fault (option (list Z)) :=
  if splits device_kind then
    match defdevice with
    | Some d => Ok (Some (cut_last d 58))
    | None => if bool_decide (strchr low 58 = None) then Ok None else Err NullPointer
    end
  else Ok defdevice.

(** the result, the structure, the buffer [bootdevice] and the machine *)
Definition parse_device_path (low bootdevice : list Z) (imagepath defdevice : option (list Z))
    (defpart : Z) (deffile : list Z) (r : boot_fspec) (h : heap) (f : F)
    : result fault (Z * boot_fspec * list Z) * heap * F :=
  let r := set_file None (set_part (-1) (set_dev None r)) in
  match imagepath with
  | None => (Ok (0, r, bootdevice), h, f)
  | Some imagepath =>
      (* the path parsed, with the kind an iSCSI path has *)
      let '(start, bootdevice) :=
        match strstr_ptr imagepath TOK_ISCSI with
        | Some _ =>
            let '(n, m) := prom_get_chosen env (bs "nas-bootdevice") 2048 f in
            if n =? 0 then (None, bootdevice)
            else let b := store bootdevice 0 m in (Some (cstring b, FILE_DEVICE_ISCSI), b)
        | None => (Some (imagepath, -1), bootdevice)
        end in
      match start with
      | None => (Ok (0, r, bootdevice), h, f)
      | Some (ipath, device_kind) =>
          let '(device_kind, f) :=
            match defdevice with
            | Some d => prom_get_devtype env d f
            | None => if device_kind =? -1 then prom_get_devtype env ipath f else (Some device_kind, f)
            end in
          match device_kind with
          | None => (Err Overrun, h, f)
          | Some device_kind =>
              match trim_defdev low defdevice device_kind with
              | Err e => (Err e, h, f)
              | Fuel => (Fuel, h, f)
              | Ok defdev =>
                  let '(ipath, name) := if splits device_kind then split_file ipath else (ipath, None) in
                  let r := set_file name r in
                  (* the device, the partition and the file of the path *)
                  let '(parsed, h, f) :=
                    if device_kind =? FILE_DEVICE_NET then
                      let '(r, h, f) :=
                        match strchr ipath 58 with
                        | Some _ => extract_netboot_args ipath r h f
                        | None =>
                            match extract_netinfo_args r h f with
                            | (Ok r, h, f) => (Ok (set_file (Some ipath) r), h, f)
                            | e => e
                            end
                        end in
                      (match r with
                       | Ok r => Ok (Some match defdev with
                                          | None => set_dev (Some (netdev_path_to_dev ipath)) r
                                          | Some _ => r
                                          end)
                       | Err e => Err e
                       | Fuel => Fuel
                       end, h, f)
                    else
                      (Ok match (if device_kind =? FILE_DEVICE_ISCSI then None else strrchr ipath 58), defdev with
                          | Some ptr, _ =>
                              let r := set_dev (Some (take (length ipath - length ptr) ipath)) r in
                              Some (if deref (tail ptr) =? 0 then r
                                    else set_part (simple_strtol (tail ptr) 10).1 r)
                          | None, None => Some (set_dev (Some ipath) r)
                          | None, Some _ =>
                              if strlen ipath =? 0 then None else Some (set_file (Some ipath) r)
                          end, h, f) in
                  match parsed with
                  | Err e => (Err e, h, f)
                  | Fuel => (Fuel, h, f)
                  | Ok None => (Ok (0, r, bootdevice), h, f)
                  | Ok (Some r) =>
                      let r := match dev r, defdev with None, Some d => set_dev (Some d) r | _, _ => r end in
                      let r := if part r <? 0 then set_part defpart r else r in
                      let r := match file r with None => set_file (Some deffile) r | Some _ => r end in
                      (Ok (1, r, bootdevice), h, f)
                  end
              end
          end
      end
  end.
End firmware.

(** ** Dotted quads *)

Definition octet (ip k : Z) : Z := (ip / 2 ^ k) mod 256.

Lemma octet_range ip k : 0 <= octet ip k < 256.
Proof. apply Z.mod_pos_bound. lia. Qed.

Lemma octets_sum ip : 0 <= ip < 4294967296 →
  octet ip 24 * 16777216 + octet ip 16 * 65536 + octet ip 8 * 256 + octet ip 0 = ip.
Proof.
  intros Hip. unfold octet. change (2 ^ 24) with 16777216. change (2 ^ 16) with 65536.
  change (2 ^ 8) with 256. change (2 ^ 0) with 1. Z.div_mod_to_equations. lia.
Qed.

Lemma shift_octet ip k m : 0 <= k → m = 255 * 2 ^ k →
  Z.shiftr (Z.land ip m) k = octet ip k.
Proof.
  intros Hk ->. rewrite land_field, Z.shiftr_div_pow2 by done.
  apply Z.div_mul. apply Z.pow_nonzero; lia.
Qed.

Lemma ipv4_to_str_spec ip :
  ipv4_to_str ip = udec (octet ip 24) ++ [46] ++ udec (octet ip 16) ++ [46] ++
                   udec (octet ip 8) ++ [46] ++ udec (octet ip 0).
Proof.
  unfold ipv4_to_str. rewrite !(shift_octet ip) by done.
  assert (Z.land ip 255 = octet ip 0) as ->.
  { rewrite land_255. unfold octet. by rewrite Z.div_1_r. }
  pose proof (octet_range ip 24). pose proof (octet_range ip 16).
  pose proof (octet_range ip 8). pose proof (octet_range ip 0).
  unfold format, vsprintf, vsprintf_full.
  change (bs "%u.%u.%u.%u") with ([37; 117] ++ [46] ++ [37; 117] ++ [46] ++ [37; 117] ++ [46] ++ [37; 117]).
  cbn [app length].
  assert (∀ fuel rest args o, vsprintf_loop (S fuel) (46 :: rest) args o =
    vsprintf_loop fuel rest args (emit o [46])) as Hdot by done.
  rewrite vsprintf_loop_u by lia. rewrite Hdot. rewrite vsprintf_loop_u by lia. rewrite Hdot.
  rewrite vsprintf_loop_u by lia. rewrite Hdot. rewrite vsprintf_loop_u by lia.
  cbn [vsprintf_loop deref]. eval_tests. unfold emit. cbn [fo_text text_of app].
  by rewrite <- !app_assoc.
Qed.

(** an octet read back *)
Lemma strtol_octet z r : 0 <= z < 256 → r = [] ∨ deref r = 46 →
  simple_strtol (udec z ++ r) 10 = (z, r).
Proof.
  intros Hz Hr. destruct (udec_spec z) as (_ & ds & -> & Hds & Hev & Hne); [lia|].
  destruct (digits_first 10 ds r ltac:(lia) Hne Hds) as [_ Hf]. unfold simple_strtol.
  destruct (Z.eqb_spec (deref (map digit_char ds ++ r)) 45); [done|].
  rewrite simple_strtoul_digits; [|lia|done|].
  - rewrite Hev, s32_u32, s32_small by (unfold INT_MIN, INT_MAX; lia). done.
  - destruct Hr as [->|Hr]; [done|]. destruct r as [|c r]; [done|]. simpl in Hr. by subst.
Qed.

Lemma ipv4_step n i z ptr r ip : 0 <= z < 256 → ptr = udec z ++ r →
  (i = 3 ∧ r = [] ∨ i ≠ 3 ∧ deref r = 46) →
  ipv4_octets (S n) i ptr ip = ipv4_octets n (i + 1) (tail r) (u32 (ip + Z.shiftl z (24 - i * 8))).
Proof.
  intros Hz -> Hr. cbn [ipv4_octets]. rewrite strtol_octet by (tauto || done).
  rewrite land_255, Z.mod_small, Z.eqb_refl by done. cbn [negb].
  destruct Hr as [[-> ->]|[Hi Hr]]; [done|]. rewrite Hr. by eval_tests.
Qed.

Lemma ipv4_octets_str ip : 0 <= ip < 4294967296 → ipv4_octets 4 0 (ipv4_to_str ip) 0 = Some ip.
Proof.
  intros Hip. rewrite ipv4_to_str_spec.
  pose proof (octets_sum ip Hip) as Hsum. pose proof (octet_range ip 24). pose proof (octet_range ip 16).
  pose proof (octet_range ip 8). pose proof (octet_range ip 0).
  rewrite (ipv4_step _ 0 (octet ip 24) _ ([46] ++ udec (octet ip 16) ++ [46] ++ udec (octet ip 8) ++
    [46] ++ udec (octet ip 0))) by (done || (right; done)). cbn [app tail].
  rewrite (ipv4_step _ (0 + 1) (octet ip 16) _ ([46] ++ udec (octet ip 8) ++ [46] ++ udec (octet ip 0)))
    by (done || (right; done)). cbn [app tail].
  rewrite (ipv4_step _ (0 + 1 + 1) (octet ip 8) _ ([46] ++ udec (octet ip 0)))
    by (done || (right; done)). cbn [app tail].
  rewrite (ipv4_step _ (0 + 1 + 1 + 1) (octet ip 0) _ []); [|done|by rewrite app_nil_r|by left].
  cbn [ipv4_octets]. f_equal. rewrite !Z.shiftl_mul_pow2 by lia.
  change (24 - 0 * 8) with 24. change (24 - (0 + 1) * 8) with 16. change (24 - (0 + 1 + 1) * 8) with 8.
  change (24 - (0 + 1 + 1 + 1) * 8) with 0. change (2 ^ 24) with 16777216. change (2 ^ 16) with 65536.
  change (2 ^ 8) with 256. change (2 ^ 0) with 1. rewrite !u32_add_l, <- Z.add_assoc, u32_add_l, u32_small; lia.
Qed.

Lemma length_udec z : is_byte z → (1 <= length (udec z) <= 3)%nat.
Proof.
  intros Hz. apply (bool_decide_unpack _), Is_true_true. by_bytes z Hz.
Qed.

Lemma udec_cstr z : 0 <= z < 4294967296 → cstr_ok (udec z).
Proof.
  intros Hz. destruct (udec_spec z Hz) as (_ & ds & -> & Hds & _). apply List.Forall_map.
  eapply Forall_impl; [exact Hds|]. intros d Hd. apply digit_char_char. simpl in Hd. lia.
Qed.

Lemma length_ipv4_to_str ip : (length (ipv4_to_str ip) <= 15)%nat.
Proof.
  rewrite ipv4_to_str_spec, !length_app. simpl.
  pose proof (length_udec _ (octet_range ip 24)). pose proof (length_udec _ (octet_range ip 16)).
  pose proof (length_udec _ (octet_range ip 8)). pose proof (length_udec _ (octet_range ip 0)). lia.
Qed.

(** ** Copies *)

Lemma scopy_loop_spec s : cstr_ok s →
  let '(t, r) := scopy_loop s in
  s = t ++ r ∧ Forall (λ c, c ≠ 44) t ∧ (r = [] ∨ deref r = 44).
Proof.
  induction 1 as [|c s Hc Hs IH]; simpl; [by auto|]. unfold is_char in Hc.
  destruct (Z.eqb_spec c 44); simpl; [by auto|]. destruct (Z.eqb_spec c 0); [lia|].
  destruct (scopy_loop s) as [t r]. destruct IH as (-> & Ht & Hr). split; [done|].
  split; [by constructor|done].
Qed.

(** a copy takes what is before the comma, and the comma *)
Lemma scopy_field s r : cstr_ok s → Forall (λ c, c ≠ 44) s → s ≠ [] →
  scopy (s ++ 44 :: r) = (Some s, r).
Proof.
  intros Hs Hc Hne. unfold scopy.
  assert (scopy_loop (s ++ 44 :: r) = (s, 44 :: r)) as E.
  { clear Hne. induction Hs as [|c s Hch Hs IH]; [done|]. apply Forall_cons_iff in Hc as [Hc1 Hc].
    simpl. unfold is_char in Hch. destruct (Z.eqb_spec c 44); [done|]. destruct (Z.eqb_spec c 0); [lia|].
    simpl. by rewrite IH. }
  rewrite E. destruct Hs as [|c s Hch Hs]; [done|]. simpl. unfold is_char in Hch.
  destruct (Z.eqb_spec c 0); [lia|done].
Qed.

(** what a copy stores and what it leaves never exceed what it was given *)
Lemma scopy_stored_length s : cstr_ok s →
  cstr_ok (scopy s).2 ∧
  (length (scopy_stored (scopy s).1) + length (scopy s).2 <=
   length s + if bool_decide (s = []) then 0 else match (scopy s).2 with [] => 1 | _ => 0 end)%nat.
Proof.
  intros Hs. unfold scopy. destruct s as [|c s]; [simpl; split; [done|lia]|].
  pose proof Hs as Hs'. apply cstr_ok_cons in Hs' as [Hc _]. unfold is_char in Hc. simpl deref.
  destruct (Z.eqb_spec c 0); [lia|].
  pose proof (scopy_loop_spec (c :: s) Hs) as Hl. destruct (scopy_loop (c :: s)) as [t r].
  destruct Hl as (E & _ & Hr). rewrite E in Hs. apply cstr_ok_app in Hs as [_ Hr'].
  rewrite E, length_app. cbn [fst snd scopy_stored]. rewrite length_app. simpl.
  assert (bool_decide (t ++ r = []) = false) as ->.
  { apply bool_decide_eq_false. rewrite <- E. done. }
  destruct Hr as [->|Hr]; simpl; [split; [constructor|lia]|].
  destruct r as [|b r]; [done|]. simpl in *. subst b. simpl.
  apply cstr_ok_cons in Hr' as [_ Hr']. split; [done|]. destruct r; simpl; lia.
Qed.

(** the first [n] copies of an argument list *)
Fixpoint copies (n : nat) (s : list Z) : list (option (list Z)) :=
  match n with
  | O => []
  | S n => (scopy s).1 :: copies n (scopy s).2
  end.

Definition stored (l : list (option (list Z))) : list Z := concat (map scopy_stored l).

Lemma copies_stored n s : cstr_ok s →
  (length (stored (copies n s)) <= length s + if bool_decide (s = []) then 0 else 1)%nat.
Proof.
  revert s. induction n as [|n IH]; intros s Hs; [simpl; lia|].
  unfold stored in *. cbn [copies map concat]. rewrite length_app.
  destruct (scopy_stored_length s Hs) as [Hr Hle]. specialize (IH _ Hr).
  destruct (bool_decide_reflect (s = [])) as [->|Hne].
  - simpl in *. lia.
  - destruct (bool_decide_reflect ((scopy s).2 = [])) as [E|E].
    + rewrite E in *. simpl in *. lia.
    + destruct (scopy s).2; [done|]. lia.
Qed.

Lemma skip_word_suffix args word : cstr_ok args → cstr_ok word → suffix (skip_word args word) args.
Proof.
  intros Ha Hw. unfold skip_word. rewrite strstr_ptr_spec by done.
  destruct (first_suffix _ args) as [t|] eqn:E; [|done].
  apply first_suffix_Some in E as (p & -> & _). destruct (Nat.ltb _ _); [|done].
  etrans; [apply suffix_drop|]. by exists p.
Qed.

Lemma ipv4_args_room path args room : cstr_ok path → ipv4_args path = Some (args, room) →
  cstr_ok args ∧ Z.of_nat (length args) + 1 <= room.
Proof.
  intros Hp. unfold ipv4_args. destruct (strrchr path 58) as [start|] eqn:Es; [|done].
  assert (cstr_ok start) as Hstart.
  { eapply cstr_ok_suffix; [|exact Hp]. revert Es. unfold strrchr.
    assert (∀ s acc, suffix s path → (∀ a, acc = Some a → suffix a path) →
      strrchr_loop s 58 acc = Some start → suffix start path) as Hl.
    { induction s as [|b s IH]; intros acc Hsuf Hacc; simpl; [by auto|].
      destruct (b =? 0); [by auto|]. apply IH; [by eapply suffix_cons_l|].
      intros a. destruct (b =? 58); [by intros [= <-]|by auto]. }
    by apply Hl. }
  set (a1 := skip_word start (bs "promiscuous")). set (a2 := skip_word a1 (bs "speed=")).
  set (a3 := skip_word a2 (bs "duplex=")). set (a4 := skip_word a3 (bs "bootp")).
  set (a5 := skip_word a4 (bs "rarp")).
  assert (∀ a w, cstr_ok a → cstr_ok w → cstr_ok (skip_word a w)) as Hskip.
  { intros a w Ha Hw. eapply cstr_ok_suffix; [by apply skip_word_suffix|done]. }
  assert (cstr_ok a5) as H5.
  { unfold a5, a4, a3, a2, a1. repeat (apply Hskip; [|by_decision]). done. }
  clearbody a5. clear a1 a2 a3 a4.
  destruct (if Nat.eqb _ _ then Some a5 else strchr a5 44) as [a|] eqn:Ea; [|done].
  assert (cstr_ok a) as Ha.
  { destruct (Nat.eqb _ _); simplify_eq; [done|].
    apply strchr_Some in Ea as (p & r & -> & -> & _); [|done|done]. by apply cstr_ok_app in H5 as [_ ?]. }
  intros [= <- <-]. rewrite strlen_length by done.
  destruct (byte_before path a =? 58); [split; [done|lia]|].
  split; [by apply cstr_ok_tail|]. destruct a; simpl; lia.
Qed.

(** ** Block devices *)

(** the path of a partition of a block device, with a file perhaps *)
Definition block_path (d ds : list Z) (fl : option (list Z)) : list Z :=
  d ++ 58 :: map digit_char ds ++ match fl with Some fl => 44 :: fl | None => [] end.

Lemma digits_not c ds : Forall (λ d, 0 <= d < 10) ds → (c < 48 ∨ 57 < c) → c ∉ map digit_char ds.
Proof.
  intros Hds Hc Hin. apply list_elem_of_In, in_map_iff in Hin as (d & <- & Hd).
  apply list_elem_of_In in Hd. rewrite Forall_forall in Hds. apply Hds in Hd.
  unfold digit_char in Hc. destruct (Z.ltb_spec d 10); lia.
Qed.

Lemma digits_cstr ds : Forall (λ d, 0 <= d < 10) ds → cstr_ok (map digit_char ds).
Proof.
  intros Hds. apply List.Forall_map. eapply Forall_impl; [exact Hds|].
  intros d Hd. apply digit_char_char. simpl in Hd. lia.
Qed.

Lemma split_file_path d ds fl : cstr_ok d → Forall (λ x, 0 <= x < 10) ds →
  match fl with Some fl => cstr_ok fl ∧ 44 ∉ fl ∧ 58 ∉ fl | None => True end →
  split_file (block_path d ds fl) = (d ++ 58 :: map digit_char ds, fl).
Proof.
  intros Hd Hds Hfl. unfold split_file, block_path.
  pose proof (digits_cstr ds Hds) as Hc. pose proof (digits_not 58 ds Hds ltac:(lia)) as H58.
  pose proof (digits_not 44 ds Hds ltac:(lia)) as H44.
  set (rest := map digit_char ds ++ match fl with Some fl => 44 :: fl | None => [] end).
  assert (cstr_ok rest ∧ 58 ∉ rest) as [Hrest Hr58].
  { unfold rest. destruct fl as [fl|]; [destruct Hfl as (? & ? & ?)|rewrite app_nil_r; done].
    split; [apply cstr_ok_app; split; [done|by constructor]|]. set_solver. }
  assert (∃ t, strchr (d ++ 58 :: rest) 58 = Some t) as [t ->].
  { destruct (strchr (d ++ 58 :: rest) 58) as [t|] eqn:E; [by eauto|].
    apply strchr_None in E; [set_solver| |done]. apply cstr_ok_app. split; [done|]. by constructor. }
  rewrite (strrchr_app d 58 rest) by (done || by_decision).
  destruct fl as [fl|].
  - destruct Hfl as (Hf & Hf44 & Hf58).
    assert (d ++ 58 :: rest = (d ++ 58 :: map digit_char ds) ++ 44 :: fl) as E.
    { unfold rest. by rewrite <- app_assoc. }
    rewrite E, strrchr_app; [|apply cstr_ok_app; split; [done|by constructor]|done|by_decision|done].
    assert (Nat.ltb (length (44%Z :: fl)) (length (58%Z :: rest)) = true) as ->.
    { apply Nat.ltb_lt. unfold rest. simpl. rewrite length_app. simpl. lia. }
    f_equal. rewrite length_app. apply take_app_length'. lia.
  - unfold rest in *. rewrite app_nil_r in *.
    destruct (strrchr (d ++ 58 :: map digit_char ds) 44) as [ptr|] eqn:E; [|done].
    assert (Nat.ltb (length ptr) (length (58%Z :: map digit_char ds)) = false) as ->; [|done].
    apply Nat.ltb_ge.
    apply strrchr_Some in E as (p & r & E & -> & _).
    2: { apply cstr_ok_app. split; [done|by constructor]. }
    apply app_eq_inv in E as [(k & -> & E)|(k & -> & E)].
    + rewrite E, length_app. lia.
    + exfalso. assert (44 ∈ 58 :: map digit_char ds) as Hin by (rewrite E; set_solver).
      apply elem_of_cons in Hin as [?|?]; [lia|done].
Qed.

Lemma strtol_digits ds : Forall (λ d, 0 <= d < 10) ds → ds ≠ [] → eval 10 ds <= INT_MAX →
  simple_strtol (map digit_char ds) 10 = (eval 10 ds, []).
Proof.
  intros Hds Hne Hmax. destruct (digits_first 10 ds [] ltac:(lia) Hne Hds) as [_ Hf].
  rewrite app_nil_r in Hf. unfold simple_strtol.
  destruct (Z.eqb_spec (deref (map digit_char ds)) 45); [done|].
  rewrite <- (app_nil_r (map digit_char ds)), simple_strtoul_digits by (lia || done).
  assert (0 <= eval 10 ds).
  { apply eval_nonneg; [lia|]. eapply Forall_impl; [exact Hds|]. simpl. lia. }
  rewrite s32_u32, s32_small by (unfold INT_MIN; lia). done.
Qed.

Section parsing.
Context {F : Type} `{Firmware F}.
Context (env : prom_env).

Lemma parse_block_path low bd d ds fl defpart deffile r h (f f' : F) :
  cstr_ok d → Forall (λ x, 0 <= x < 10) ds → ds ≠ [] → eval 10 ds <= INT_MAX →
  match fl with Some fl => cstr_ok fl ∧ 44 ∉ fl ∧ 58 ∉ fl | None => True end →
  strstr_ptr (block_path d ds fl) TOK_ISCSI = None →
  prom_get_devtype env (block_path d ds fl) f = (Some FILE_DEVICE_BLOCK, f') → strchr low 58 = None →
  parse_device_path env low bd (Some (block_path d ds fl)) None defpart deffile r h f =
    (Ok (1, set_file (Some (default deffile fl)) (set_part (eval 10 ds) (set_dev (Some d) r)), bd), h, f').
Proof.
  intros Hd Hds Hne Hmax Hfl Hiscsi Hdev Hlow. unfold parse_device_path, trim_defdev. rewrite Hiscsi. cbn iota.
  change (-1 =? -1) with true. cbn iota. rewrite Hdev. change (splits FILE_DEVICE_BLOCK) with true. cbn iota.
  rewrite bool_decide_eq_true_2 by done.
  rewrite split_file_path by done.
  change (FILE_DEVICE_BLOCK =? FILE_DEVICE_NET) with false.
  change (FILE_DEVICE_BLOCK =? FILE_DEVICE_ISCSI) with false. cbn iota.
  rewrite strrchr_app; [|done|apply digits_not; [done|lia]|by_decision|by apply digits_cstr].
  cbn [tail]. destruct (digits_first 10 ds [] ltac:(lia) Hne Hds) as [Hf _]. rewrite app_nil_r in Hf.
  destruct (Z.eqb_spec (deref (map digit_char ds)) 0); [lia|]. rewrite strtol_digits by done.
  assert (0 <= eval 10 ds) as H0.
  { apply eval_nonneg; [lia|]. eapply Forall_impl; [exact Hds|]. simpl. lia. }
  assert (take (length (d ++ 58 :: map digit_char ds) - length (58%Z :: map digit_char ds))
            (d ++ 58 :: map digit_char ds) = d) as ->.
  { rewrite length_app. apply take_app_length'. lia. }
  fspec_simpl.
  destruct (Z.ltb_spec (eval 10 ds) 0); [lia|]. by destruct fl.
Qed.

Lemma parse_colon_at_0 low bd path defpart deffile r h (f f' : F) :
  strstr_ptr path TOK_ISCSI = None → prom_get_devtype env path f = (Some FILE_DEVICE_BLOCK, f') → strchr low 58 ≠ None →
  parse_device_path env low bd (Some path) None defpart deffile r h f = (Err NullPointer, h, f').
Proof.
  intros Hiscsi Hdev Hlow. unfold parse_device_path, trim_defdev. rewrite Hiscsi. cbn iota. change (-1 =? -1) with true. cbn iota.
  rewrite Hdev. change (splits FILE_DEVICE_BLOCK) with true. cbn iota. by rewrite bool_decide_eq_false_2.
Qed.

(** a plain file name on a default device *)
Lemma parse_plain_file low bd path dd defpart deffile r h (f f' : F) :
  cstr_ok path → path ≠ [] → 58 ∉ path → strstr_ptr path TOK_ISCSI = None →
  prom_get_devtype env dd f = (Some FILE_DEVICE_BLOCK, f') →
  parse_device_path env low bd (Some path) (Some dd) defpart deffile r h f =
    (Ok (1, set_file (Some path) (set_part defpart (set_dev (Some (cut_last dd 58)) r)), bd), h, f').
Proof.
  intros Hp Hne H58 Hiscsi Hdev. unfold parse_device_path, trim_defdev. rewrite Hiscsi, Hdev. cbn iota.
  change (splits FILE_DEVICE_BLOCK) with true. cbn iota.
  assert (split_file path = (path, None)) as ->.
  { unfold split_file. by rewrite (proj2 (strchr_None path 58 Hp ltac:(lia))). }
  change (FILE_DEVICE_BLOCK =? FILE_DEVICE_NET) with false.
  change (FILE_DEVICE_BLOCK =? FILE_DEVICE_ISCSI) with false. cbn iota.
  rewrite (proj2 (strrchr_None path 58 Hp)) by done.
  rewrite strlen_length by done. destruct path as [|c path]; [done|].
  destruct (Z.eqb_spec (Z.of_nat (length (c :: path))) 0); [simpl in *; lia|].
  by fspec_simpl.
Qed.
End parsing.

(** ** Network boot arguments *)

Definition ipv4_words : list (list Z) :=
  [bs "promiscuous"; bs "speed="; bs "duplex="; bs "bootp"; bs "rarp"].

(** fields with a comma after each but the last *)
Fixpoint join (fields : list (list Z)) : list Z :=
  match fields with
  | [] => []
  | [s] => s
  | s :: fields => s ++ 44 :: join fields
  end.

Definition field_ok (s : list Z) : Prop := cstr_ok s ∧ s ≠ [] ∧ 44 ∉ s ∧ 58 ∉ s.

#[export] Instance field_ok_dec s : Decision (field_ok s).
Proof. unfold field_ok. apply _. Defined.

Lemma scopy_last s : cstr_ok s → s ≠ [] → 44 ∉ s → scopy s = (Some s, []).
Proof.
  intros Hs Hne H44. unfold scopy.
  assert (scopy_loop s = (s, [])) as ->.
  { clear Hne. induction Hs as [|c s Hc Hs IH]; [done|]. simpl. unfold is_char in Hc.
    destruct (Z.eqb_spec c 44) as [->|]; [set_solver|]. destruct (Z.eqb_spec c 0); [lia|]. simpl.
    rewrite IH; [done|set_solver]. }
  destruct Hs as [|c s Hc Hs]; [done|]. simpl. unfold is_char in Hc. by destruct (Z.eqb_spec c 0); [lia|].
Qed.

Lemma scopy_join s t fields : field_ok s → scopy (join (s :: t :: fields)) = (Some s, join (t :: fields)).
Proof.
  intros (Hs & Hne & H44 & _). apply scopy_field; [done| |done].
  apply Forall_forall. intros c Hc ->. done.
Qed.

Lemma skip_word_absent args word : strstr_ptr args word = None → skip_word args word = args.
Proof. unfold skip_word. by intros ->. Qed.

Lemma join_not_colon fields : Forall field_ok fields → 58 ∉ join fields ∧ cstr_ok (join fields).
Proof.
  induction 1 as [|s fields (Hs & Hne & H44 & H58) Hf IH]; [split; [set_solver|constructor]|].
  destruct IH as [IH1 IH2]. destruct fields as [|t fields]; [by split|].
  change (join (s :: t :: fields)) with (s ++ 44 :: join (t :: fields)).
  split; [set_solver|]. apply cstr_ok_app. split; [done|]. by constructor.
Qed.

Lemma ipv4_args_plain d fields : cstr_ok d → d ≠ [] → List.last d 0 ≠ 58 → Forall field_ok fields →
  Forall (λ w, strstr_ptr (58 :: join fields) w = None) ipv4_words →
  ipv4_args (d ++ 58 :: join fields) = Some (join fields, Z.of_nat (length (join fields)) + 2).
Proof.
  intros Hd Hne Hlast Hf Hw. destruct (join_not_colon fields Hf) as [H58 Hj].
  unfold ipv4_args. rewrite strrchr_app by (done || by_decision).
  unfold ipv4_words in Hw. repeat (apply Forall_cons_iff in Hw as [? Hw]).
  repeat (rewrite (skip_word_absent (58 :: join fields)) by done). rewrite Nat.eqb_refl.
  assert (byte_before (d ++ 58 :: join fields) (58 :: join fields) = List.last d 0) as ->.
  { unfold byte_before. destruct (exists_last Hne) as (d0 & x & ->). rewrite last_last.
    destruct (Nat.eqb_spec (length (58 :: join fields)) (length ((d0 ++ [x]) ++ 58 :: join fields))) as [E|_].
    { rewrite !length_app in E. simpl in E. lia. }
    unfold byte_at. rewrite !length_app. simpl.
    destruct (Z.ltb_spec (Z.of_nat (length d0 + 1 + S (length (join fields)) - S (length (join fields))) - 1) 0);
      [lia|].
    rewrite <- app_assoc, app_nth2 by lia. match goal with |- nth ?n _ _ = _ => replace n with O by lia end. done. }
  destruct (Z.eqb_spec (List.last d 0) 58); [done|]. cbn [tail].
  rewrite strlen_length by (by constructor). do 2 f_equal. simpl. lia.
Qed.

(** the seven arguments of a network boot *)
Lemma extract_seven d a1 a2 a3 a4 a5 a6 a7 r :
  cstr_ok d → d ≠ [] → List.last d 0 ≠ 58 → Forall field_ok [a1; a2; a3; a4; a5; a6; a7] →
  Forall (λ w, strstr_ptr (58 :: join [a1; a2; a3; a4; a5; a6; a7]) w = None) ipv4_words →
  extract_ipv4_args (d ++ 58 :: join [a1; a2; a3; a4; a5; a6; a7]) r =
    Fspec (dev r) (part r) (is_valid_ipv4_str (Some a1)) (Some a2) (is_valid_ipv4_str (Some a3))
      (is_valid_ipv4_str (Some a4)) (Some a5) (Some a6) (is_valid_ipv4_str (Some a7))
      (addl_params r) (is_ipv6 r) (dhcpv6 r) (blksize r).
Proof.
  intros Hd Hne Hlast Hf Hw. unfold extract_ipv4_args. rewrite ipv4_args_plain by done.
  repeat (apply Forall_cons_iff in Hf as [? Hf]). rewrite !scopy_join by done.
  destruct H5 as (? & ? & ? & _). change (join [a7]) with a7. rewrite scopy_last by done. done.
Qed.

(** the seven copies fit in the block allocated for them *)
Lemma copies_fit path args room : cstr_ok path → ipv4_args path = Some (args, room) →
  Z.of_nat (length (stored (copies 7 args))) <= room.
Proof.
  intros Hp E. destruct (ipv4_args_room path args room Hp E) as [Ha Hr].
  pose proof (copies_stored 7 args Ha). destruct (bool_decide (args = [])); lia.
Qed.

(** ** The options of a reply *)

(** an option as it lies in the packet *)
Definition put_option (o : Z * list Z) : list Z := o.1 :: Z.of_nat (length o.2) :: o.2.

Definition option_ok (o : Z * list Z) : Prop :=
  0 < o.1 < 255 ∧ are_bytes o.2 ∧ Z.of_nat (length o.2) < 256.

(** the word of an option: its first four bytes, zeros for those it has not *)
Definition option_word (bytes : list Z) : Z := be32 (take 4 bytes ++ replicate 4 0) 0.

(** what an option does *)
Definition take_option (r : boot_fspec) (o : Z * list Z) : boot_fspec :=
  let value := option_word o.2 in
  if o.1 =? DHCP_NETMASK then
    if missing (subnetmask r) && negb (value =? 0) then set_subnetmask (Some (ipv4_to_str value)) r else r
  else if o.1 =? DHCP_ROUTERS then
    if missing (giaddr r) && negb (value =? 0) then set_giaddr (Some (ipv4_to_str value)) r else r
  else r.

Lemma option_value_put pre bytes rest : are_bytes bytes →
  option_value (pre ++ bytes ++ rest) (Z.of_nat (length pre)) (Z.of_nat (length bytes)) =
    option_word bytes.
Proof.
  intros Hb. unfold option_value, option_word, slice. f_equal. f_equal.
  rewrite Nat2Z.id, drop_app_length. destruct (Z.ltb_spec 4 (Z.of_nat (length bytes))).
  - change (Z.to_nat 4) with 4%nat. rewrite take_app_le; [done|lia].
  - rewrite Nat2Z.id, take_app_length. by rewrite take_ge by lia.
Qed.

Lemma vendor_loop_options os fuel pre post r : Forall option_ok os → (length os < fuel)%nat →
  vendor_loop fuel (pre ++ concat (map put_option os) ++ DHCP_END :: post) (Z.of_nat (length pre)) r =
    Ok (foldl take_option r os).
Proof.
  intros Hos. revert fuel pre r. induction Hos as [|[tag bytes] os (Ht & Hb & Hl) Hos IH];
    intros fuel pre r Hf; (destruct fuel as [|fuel]; [simpl in Hf; lia|]); cbn [vendor_loop].
  - simpl. rewrite length_app. simpl.
    destruct (Z.leb_spec (Z.of_nat (length pre + S (length post))) (Z.of_nat (length pre))); [lia|].
    rewrite <- (Z.add_0_r (Z.of_nat (length pre))), byte_at_app by lia. by rewrite Z.eqb_refl.
  - simpl in Ht, Hb, Hl. cbn [map concat].
    set (rest := concat (map put_option os) ++ DHCP_END :: post).
    assert (pre ++ (put_option (tag, bytes) ++ concat (map put_option os)) ++ DHCP_END :: post =
      (pre ++ [tag; Z.of_nat (length bytes)]) ++ bytes ++ rest) as E.
    { unfold put_option, rest. simpl. by rewrite <- !app_assoc. }
    rewrite E. set (l := (pre ++ [tag; Z.of_nat (length bytes)]) ++ bytes ++ rest).
    assert (Z.of_nat (length l) = Z.of_nat (length pre) + 2 + Z.of_nat (length bytes) +
      Z.of_nat (length rest)) as Hlen.
    { unfold l. rewrite !length_app. simpl. lia. }
    assert (byte_at l (Z.of_nat (length pre)) = tag) as ->.
    { unfold l. rewrite <- app_assoc.
      rewrite <- (Z.add_0_r (Z.of_nat (length pre))), byte_at_app by lia. done. }
    assert (byte_at l (Z.of_nat (length pre) + 1) = Z.of_nat (length bytes)) as ->.
    { unfold l. rewrite <- app_assoc. rewrite byte_at_app by lia. done. }
    unfold DHCP_END, DHCP_PAD.
    destruct (Z.leb_spec (Z.of_nat (length l)) (Z.of_nat (length pre))); [lia|].
    destruct (Z.eqb_spec tag 255); [lia|]. destruct (Z.eqb_spec tag 0); [lia|].
    destruct (Z.leb_spec (Z.of_nat (length l)) (Z.of_nat (length pre) + 1)); [lia|].
    match goal with |- (if ?b then _ else _) = _ => destruct b eqn:Eb end.
    { apply Z.ltb_lt in Eb. destruct (Z.ltb_spec 4 (Z.of_nat (length bytes))); lia. }
    assert (Z.of_nat (length pre) + 1 + 1 = Z.of_nat (length (pre ++ [tag; Z.of_nat (length bytes)]))) as ->.
    { rewrite length_app. simpl. lia. }
    unfold l. rewrite option_value_put by done.
    rewrite app_assoc. unfold rest.
    rewrite <- Nat2Z.inj_add, <- length_app. rewrite IH; [|simpl in Hf; lia]. done.
Qed.

Lemma vendor_options_spec {F} `{Firmware F} env fixed os post r (f : F) :
  Z.of_nat (length fixed) = packet_size → Forall option_ok os →
  extract_vendor_options env
    (fixed ++ put_be32 DHCP_COOKIE ++ concat (map put_option os) ++ DHCP_END :: post) r f =
    (Ok (foldl take_option r os), f).
Proof.
  intros Hfix Hos. unfold extract_vendor_options. rewrite <- Hfix, Nat2Z.id, drop_app_length.
  set (rest := concat (map put_option os) ++ DHCP_END :: post).
  assert (length (put_be32 DHCP_COOKIE) = 4%nat) as H4 by done.
  destruct (Z.ltb_spec (Z.of_nat (length (put_be32 DHCP_COOKIE ++ rest))) 4) as [Hlt|_];
    [rewrite length_app, H4 in Hlt; lia|].
  rewrite be32_put by done. rewrite Z.eqb_refl. cbn [negb]. f_equal.
  change 4 with (Z.of_nat (length (put_be32 DHCP_COOKIE))) at 1. apply vendor_loop_options; [done|].
  assert (length os <= length rest)%nat.
  { unfold rest. clear. induction os as [|o os IH]; [simpl; lia|]. cbn [map concat].
    rewrite <- app_assoc, length_app.
    assert (2 <= length (put_option o))%nat by (simpl; lia). cbn [length]. lia. }
  rewrite length_app, H4. lia.
Qed.

(** ** Theorems *)

(** C38: an address printed as a dotted quad has at most the 15 characters of the block
    it is printed to, reads back as the same address, and is accepted by the check of
    the addresses given by the user unless it is 0.0.0.0 or 255.255.255.255. *)
Theorem ipv4_roundtrip ip :
  0 <= ip < 4294967296 →
  (length (ipv4_to_str ip) <= 15)%nat ∧
  ipv4_octets 4 0 (ipv4_to_str ip) 0 = Some ip ∧
  is_valid_ipv4_str (Some (ipv4_to_str ip)) =
    if (ip =? 0) || (ip =? 4294967295) then None else Some (ipv4_to_str ip).
Proof.
  intros Hip. split; [apply length_ipv4_to_str|]. pose proof (ipv4_octets_str ip Hip) as E.
  split; [done|]. unfold is_valid_ipv4_str. by rewrite E.
Qed.

Lemma ipv4_roundtrip_witness :
  ipv4_to_str 3232235777 = bs "192.168.1.1" ∧
  (length (ipv4_to_str 3232235777) <= 15)%nat ∧
  ipv4_octets 4 0 (ipv4_to_str 3232235777) 0 = Some 3232235777 ∧
  is_valid_ipv4_str (Some (ipv4_to_str 3232235777)) = Some (ipv4_to_str 3232235777).
Proof.
  split; [by vm_compute|]. apply (ipv4_roundtrip 3232235777). by_decision.
Defined.

(** the device part of a network path whose last character is not a colon *)
Definition netboot_prefix (d : list Z) : Prop := cstr_ok d ∧ d ≠ [] ∧ List.last d 0 ≠ 58.

#[export] Instance netboot_prefix_dec d : Decision (netboot_prefix d).
Proof. unfold netboot_prefix. apply _. Defined.

(** the seven arguments after the colon of a network path, separated by commas and
    without the optional words before them, become the server, the file, the client,
    the gateway, the two retry counts and the netmask, each address only when it is
    valid; the rest of the structure is left alone. *)
Theorem netboot_arguments d a1 a2 a3 a4 a5 a6 a7 r :
  netboot_prefix d → Forall field_ok [a1; a2; a3; a4; a5; a6; a7] →
  Forall (λ w, strstr_ptr (58 :: join [a1; a2; a3; a4; a5; a6; a7]) w = None) ipv4_words →
  extract_ipv4_args (d ++ 58 :: join [a1; a2; a3; a4; a5; a6; a7]) r =
    Fspec (dev r) (part r) (is_valid_ipv4_str (Some a1)) (Some a2) (is_valid_ipv4_str (Some a3))
      (is_valid_ipv4_str (Some a4)) (Some a5) (Some a6) (is_valid_ipv4_str (Some a7))
      (addl_params r) (is_ipv6 r) (dhcpv6 r) (blksize r).
Proof. intros (? & ? & ?). by apply extract_seven. Qed.

Lemma netboot_arguments_witness :
  extract_ipv4_args (bs "enet:10.0.0.11,bootme,10.0.0.12,10.0.0.1,5,6,255.0.0.0") fspec0 =
    Fspec None 0 (Some (bs "10.0.0.11")) (Some (bs "bootme")) (Some (bs "10.0.0.12"))
      (Some (bs "10.0.0.1")) (Some (bs "5")) (Some (bs "6")) (Some (bs "255.0.0.0")) None false None None.
Proof.
  apply (netboot_arguments (bs "enet") (bs "10.0.0.11") (bs "bootme") (bs "10.0.0.12")
    (bs "10.0.0.1") (bs "5") (bs "6") (bs "255.0.0.0") fspec0); by_decision.
Defined.

(** The strings copied out of a network path, terminators included, fit in the one
    block that was allocated for them, whatever the path. *)
Theorem netboot_copies_fit path args room :
  cstr_ok path → ipv4_args path = Some (args, room) →
  Z.of_nat (length (stored (copies 7 args))) <= room.
Proof. apply copies_fit. Qed.

Lemma netboot_copies_fit_witness :
  let args := bs "10.0.0.11,bootme,,,5" in
  ipv4_args (bs "enet:speed=100,10.0.0.11,bootme,,,5") = Some (args, 22) ∧
  Z.of_nat (length (stored (copies 7 args))) <= 22.
Proof.
  intros args. split; [by vm_compute|].
  apply (netboot_copies_fit (bs "enet:speed=100,10.0.0.11,bootme,,,5")); by_decision.
Defined.

(** C23: a path with a partition on a block device, with or without a file after a comma,
    gives the device, the partition and the file, or the default file; when there is a
    default device, a path without a colon is a file of the default partition.  Without a
    default device this is so as long as the string at address 0, which is then scanned in
    its place, has no colon; with one, the colon is stored to and the call is a fault. *)
Theorem device_path_parsed {F} `{Firmware F} env low bd d ds fl path dd defpart deffile r h (f f1 f2 : F) :
  cstr_ok d → Forall (λ x, 0 <= x < 10) ds → ds ≠ [] → eval 10 ds <= INT_MAX →
  match fl with Some fl => cstr_ok fl ∧ 44 ∉ fl ∧ 58 ∉ fl | None => True end →
  strstr_ptr (block_path d ds fl) TOK_ISCSI = None →
  prom_get_devtype env (block_path d ds fl) f = (Some FILE_DEVICE_BLOCK, f1) →
  cstr_ok path → path ≠ [] → 58 ∉ path → strstr_ptr path TOK_ISCSI = None →
  prom_get_devtype env dd f = (Some FILE_DEVICE_BLOCK, f2) →
  parse_device_path env low bd (Some (block_path d ds fl)) None defpart deffile r h f =
    (if bool_decide (strchr low 58 = None)
     then Ok (1, set_file (Some (default deffile fl)) (set_part (eval 10 ds) (set_dev (Some d) r)), bd)
     else Err NullPointer, h, f1) ∧
  parse_device_path env low bd (Some path) (Some dd) defpart deffile r h f =
    (Ok (1, set_file (Some path) (set_part defpart (set_dev (Some (cut_last dd 58)) r)), bd), h, f2).
Proof.
  intros. split; [|by apply parse_plain_file]. case_bool_decide; [by apply parse_block_path|by apply parse_colon_at_0].
Qed.

(** a tree in which [hd:3,/boot/vmlinux] and [hd:2] are paths of a disk *)
Definition disk_tree : script :=
  Script [(bs "hd:3,/boot/vmlinux", 5); (bs "hd:2", 5)] [((5, bs "device_type"), bs "block" ++ [0])] [] [] [] 0.

Lemma device_path_parsed_witness :
  let env := PromEnv 0 0 7 0 false in
  parse_device_path env (bs "low") [] (Some (bs "hd:3,/boot/vmlinux")) None 1 [] fspec0 heap0 disk_tree =
    (Ok (1, set_file (Some (bs "/boot/vmlinux")) (set_part 3 (set_dev (Some (bs "hd")) fspec0)), []),
     heap0, disk_tree) ∧
  parse_device_path env (bs "low") [] (Some (bs "/etc/yaboot.conf")) (Some (bs "hd:2")) 2 [] fspec0 heap0 disk_tree =
    (Ok (1, set_file (Some (bs "/etc/yaboot.conf")) (set_part 2 (set_dev (Some (bs "hd")) fspec0)), []),
     heap0, disk_tree).
Proof.
  intros env. split.
  - apply (device_path_parsed env (bs "low") [] (bs "hd") [3] (Some (bs "/boot/vmlinux")) (bs "/etc/yaboot.conf")
      (bs "hd:2") 1 [] fspec0 heap0 disk_tree disk_tree disk_tree); try reflexivity; by_decision.
  - apply (device_path_parsed env (bs "low") [] (bs "hd") [3] (Some (bs "/boot/vmlinux")) (bs "/etc/yaboot.conf")
      (bs "hd:2") 2 [] fspec0 heap0 disk_tree disk_tree disk_tree); try reflexivity; by_decision.
Defined.

(** C39: the options of a well-formed reply are read in order up to the end marker, each
    through at most its first four bytes: the first non-zero netmask and the first
    non-zero router are kept when the structure has none, nothing else changes, and no
    byte after the marker is read. *)
Theorem vendor_options_read {F} `{Firmware F} env fixed os post r (f : F) :
  Z.of_nat (length fixed) = packet_size → Forall option_ok os →
  extract_vendor_options env
    (fixed ++ put_be32 DHCP_COOKIE ++ concat (map put_option os) ++ DHCP_END :: post) r f =
    (Ok (foldl take_option r os), f).
Proof. apply vendor_options_spec. Qed.

Lemma vendor_options_read_witness :
  extract_vendor_options (F := script) (PromEnv 0 0 7 0 false)
    (replicate 236 0 ++ put_be32 DHCP_COOKIE ++
     concat (map put_option [(53, [5]); (1, [255; 255; 255; 0]); (3, [10; 0; 0; 1; 10; 0; 0; 2]); (3, [1; 2; 3; 4])])
     ++ DHCP_END :: [7; 7]) fspec0 script0 =
    (Ok (set_giaddr (Some (bs "10.0.0.1")) (set_subnetmask (Some (bs "255.255.255.0")) fspec0)), script0).
Proof.
  etrans; [apply (vendor_options_read (F := script) (PromEnv 0 0 7 0 false) (replicate 236 0)
    [(53, [5]); (1, [255; 255; 255; 0]); (3, [10; 0; 0; 1; 10; 0; 0; 2]); (3, [1; 2; 3; 4])] [7; 7] fspec0 script0);
    by_decision|by vm_compute].
Defined.

(** ** Behaviour outside the theorems *)

(** octets are taken modulo 2^32, may be empty, and what follows a fourth [.] is not
    looked at *)
Example ipv4_accepts :
  is_valid_ipv4_str (Some (bs "4294967306.0.0.1")) = Some (bs "4294967306.0.0.1") ∧
  is_valid_ipv4_str (Some (bs "10...1")) = Some (bs "10...1") ∧
  is_valid_ipv4_str (Some (bs "10.0.0.1.boot")) = Some (bs "10.0.0.1.boot").
Proof. by vm_compute. Qed.

(** a packet without an end marker is read past its end *)
Example vendor_overrun :
  (extract_vendor_options (F := script) (PromEnv 0 0 7 0 false)
     (replicate 236 0 ++ put_be32 DHCP_COOKIE ++ [1; 4; 255; 255; 255; 0]) fspec0 script0).1 = Err Overrun.
Proof. by vm_compute. Qed.

(** the copies of the IPv6 fields are made one after the other in a block of the size of
    the path: keywords inside one field make them longer than it *)
Example ipv6_overrun :
  let path := bs "ipv6,filename=blksize=siaddr=ciaddr=1" in
  let r := extract_ipv6_args path fspec0 in
  (S (length path) <
   length (stored [ciaddr r; siaddr r; file r; blksize r]))%nat.
Proof. intros path. apply (bool_decide_unpack _). by vm_compute. Qed.
