(* ===== verification/Partition.v ===== *)
(** [second/partition.c]: the partition tables of a disk.

    The blocks of a disk are read into one static buffer, which the lookups share; it
    is part of their state, with the list of partitions found so far (newest first),
    the heap and the firmware.  The structures of partitions are taken to be available. *)
From S2P Require Import Prelude Ctype CString Numeric Vsprintf Malloc Prom Disk.

Definition MAX_BLOCK_SIZE : Z := 2048.
Definition MAX_PART_NAME : nat := 32.

(** [struct partition_t].  The names are the bytes [strncpy] stored; [None] when the
    name given was NULL, and the array holds what lies at address 0. *)
Record partition_t := Partition {
  part_number : Z;
  part_type : option (list Z);
  part_name : option (list Z);
  part_start : Z;
  part_size : Z;
  blocksize : Z;
  sys_ind : Z;
}.

#[export] Instance partition_eq_dec : EqDecision partition_t.
Proof. solve_decision. Defined.

(** mac-part.h *)
Definition MAC_PARTITION_MAGIC : Z := 20557.
Definition MAC_DRIVER_MAGIC : Z := 17746.
Definition desc_signature (b : list Z) : Z := be16 b 0.
Definition desc_block_size (b : list Z) : Z := be16 b 2.
Definition mac_signature (b : list Z) : Z := be16 b 0.
Definition mac_map_count (b : list Z) : Z := be32 b 4.
Definition mac_start_block (b : list Z) : Z := be32 b 8.
Definition mac_name (b : list Z) : list Z := slice b 16 32.
Definition mac_type (b : list Z) : list Z := slice b 48 32.
Definition mac_data_start (b : list Z) : Z := be32 b 80.
Definition mac_data_count (b : list Z) : Z := be32 b 84.

(** fdisk-part.h *)
Definition LINUX_NATIVE : Z := 131.
Definition LINUX_RAID : Z := 253.
Definition fdisk_sys_ind (p : list Z) : Z := byte_at p 4.
Definition fdisk_start4 (p : list Z) : Z := be32 p 8.
Definition fdisk_size4 (p : list Z) : Z := be32 p 12.

(** swab.h; the machine is big-endian, [le32_to_cpu] swaps *)
Definition swab32 (x : Z) : Z :=
  u32 (Z.lor (Z.lor (Z.lor (u32 (Z.shiftl (Z.land x 255) 24)) (Z.shiftl (Z.land x 65280) 8))
         (Z.shiftr (Z.land x 16711680) 8)) (Z.shiftr (Z.land x 4278190080) 24)).
Definition le32_to_cpu (x : Z) : Z := swab32 x.

(** amiga-part.h *)
Definition AMIGA_RDB_MAX : nat := 16.
Definition AMIGA_ID_RDB : Z := 1380209483.
Definition AMIGA_ID_PART : Z := 1346458196.
Definition AMIGA_END : Z := 4294967295.
Definition AMIGA_ID : Z := 0.
Definition AMIGA_LENGTH : Z := 1.
Definition AMIGA_PARTITIONS : Z := 7.
Definition AMIGA_SECT : Z := 17.
Definition AMIGA_HEADS : Z := 18.
Definition AMIGA_RDBLIMIT : Z := 33.
Definition AMIGA_PART_NEXT : Z := 4.
Definition AMIGA_PART_LOWCYL : Z := 41.
Definition AMIGA_PART_HIGHCYL : Z := 42.

Definition ISO_STANDARD_ID : list Z := bs "CD001".

(** [amiga_block[i]] *)
Definition amiga_block (b : list Z) (i : Z) : Z := be32 b (4 * i).

Section lookup.
Context {F : Type} `{Firmware F}.
Context (env : prom_env).

Record pstate := PState {
  block_buffer : list Z;
  plist : list partition_t;
  pheap : heap;
  pfw : F;
}.

Definition io (g : F → F) : stm pstate fault unit := λ s,
  (Ok tt, PState (block_buffer s) (plist s) (pheap s) (g (pfw s))).

Definition printf (fmt : list Z) (args : list arg) : stm pstate fault unit :=
  io (prom_printf env fmt args).

(** [prom_readblocks(disk, block, 1, block_buffer)] *)
Definition readblock (disk block : Z) : stm pstate fault Z := λ s,
  let '(r, b, f) := prom_readblocks disk block 1 (pfw s) in
  if MAX_BLOCK_SIZE <? Z.of_nat (length b) then
    (Err Overrun, PState (block_buffer s) (plist s) (pheap s) f)
  else (Ok r, PState (store (block_buffer s) 0 b) (plist s) (pheap s) f).

Definition add_new_partition (number : Z) (type name : option (list Z)) (start size block sys : Z)
    : stm pstate fault unit := λ s,
  (Ok tt,
   PState (block_buffer s)
     (Partition number (option_map (λ t, strncpy t MAX_PART_NAME) type)
        (option_map (λ n, strncpy n MAX_PART_NAME) name) start size (u16 block) sys :: plist s)
     (pheap s) (pfw s)).

(** ** Macintosh partition maps *)

Fixpoint mac_loop (fuel : nat) (disk ptable_block_size block map_size : Z) : stm pstate fault unit :=
  match fuel with
  | O => out_of_fuel
  | S fuel =>
      if negb (block <? s32 (map_size + 1)) then mret tt
      else
        r ← readblock disk block;
        if negb (r =? 1) then printf (bs "Can't read partition %d" ++ [10]) [AInt block]
        else
          b ← gets block_buffer;
          if negb (mac_signature b =? MAC_PARTITION_MAGIC) then mret tt
          else
            let map_size := if block =? 1 then s32 (mac_map_count b) else map_size in
            add_new_partition block (Some (mac_type b)) (Some (mac_name b))
              (u32 (mac_start_block b + mac_data_start b)) (mac_data_count b) ptable_block_size 0;;
            mac_loop fuel disk ptable_block_size (block + 1) map_size
  end.

Definition partition_mac_lookup (fuel : nat) (disk : Z) : stm pstate fault unit :=
  b ← gets block_buffer;
  mac_loop fuel disk (desc_block_size b) 1 1.

(** ** PC partition tables *)

Definition fdisk_entry (partition : Z) : stm pstate fault unit :=
  b ← gets block_buffer;
  let part := slice b (446 + (partition - 1) * 16) 16 in
  if (fdisk_sys_ind part =? LINUX_NATIVE) || (fdisk_sys_ind part =? LINUX_RAID) then
    add_new_partition partition (Some (bs "Linux")) None (le32_to_cpu (fdisk_start4 part))
      (le32_to_cpu (fdisk_size4 part)) 512 (fdisk_sys_ind part)
  else mret tt.

Definition partition_fdisk_lookup : stm pstate fault unit :=
  fdisk_entry 1;; fdisk_entry 2;; fdisk_entry 3;; fdisk_entry 4.

(** ** CD-ROMs *)

(** the [for] loop from [block] on, [n] blocks to go; the block of the volume descriptor *)
Fixpoint iso_loop (n : nat) (device block : Z) : stm pstate fault (option Z) :=
  match n with
  | O => mret None
  | S n =>
      r ← readblock device block;
      if negb (r =? 1) then
        printf (bs "Can't read volume desc block %d" ++ [10]) [AInt block];; mret None
      else
        b ← gets block_buffer;
        if strncmp (drop 1 b) ISO_STANDARD_ID 5 =? 0 then mret (Some block)
        else iso_loop n device (block + 1)
  end.

Definition identify_iso_fs (device : Z) : stm pstate fault (option Z) := iso_loop 84 device 16.

(** ** Amiga partition tables *)

(** the words [i] to [i + n - 1] of the buffer, added to [sum] *)
Fixpoint sum_words (n : nat) (b : list Z) (i sum : Z) : Z :=
  match n with
  | O => sum
  | S n => sum_words n b (i + 1) (u32 (sum + amiga_block b i))
  end.

(** [None] when words past the buffer are read *)
Definition _amiga_checksum (blk_size : Z) (b : list Z) : option Z :=
  let end_ := if blk_size <? amiga_block b AMIGA_LENGTH then s32 blk_size
              else s32 (amiga_block b AMIGA_LENGTH) in
  if MAX_BLOCK_SIZE <? 4 * end_ then None
  else Some (s32 (sum_words (Z.to_nat (end_ - 1)) b 1 (amiga_block b 0))).

Definition amiga_checksum (blk_size : Z) : stm pstate fault Z := λ s,
  match _amiga_checksum blk_size (block_buffer s) with
  | Some c => (Ok c, s)
  | None => (Err Overrun, s)
  end.

(** the [for] loop from block [i] on, [n] blocks to go: whether the block was found *)
Fixpoint rdb_loop (n : nat) (disk prom_blksize i : Z) : stm pstate fault bool :=
  match n with
  | O => mret false
  | S n =>
      r ← (if negb (i =? 0) then readblock disk i else mret 1);
      if negb (r =? 1) then printf (bs "Can't read boot block %d" ++ [10]) [AInt i];; mret false
      else
        b ← gets block_buffer;
        found ← (if amiga_block b AMIGA_ID =? AMIGA_ID_RDB then
                   c ← amiga_checksum prom_blksize; mret (c =? 0)
                 else mret false);
        if found : bool then mret true else rdb_loop n disk prom_blksize (i + 1)
  end.

Definition _amiga_find_rdb (disk prom_blksize : Z) : stm pstate fault Z :=
  found ← rdb_loop AMIGA_RDB_MAX disk prom_blksize 0;
  if found : bool then mret 1
  else
    r ← readblock disk 0;
    if negb (r =? 1) then printf (bs "Can't read boot blocks" ++ [10]) [];; mret 0
    else mret 0.

(** [used[part/32] & (0x1 << (part % 32))]; [None] outside the words the code cleared *)
Definition used_bit (used : list Z) (part : Z) : option bool :=
  if part <? 0 then None
  else
    match used !! Z.to_nat (part / 32) with
    | Some w => Some (negb (Z.land w (Z.shiftl 1 (part mod 32)) =? 0))
    | None => None
    end.

(** [used[part/32] |= (0x1 << (part % 32))] *)
Definition set_used (used : list Z) (part : Z) : list Z :=
  alter (λ w, Z.lor w (Z.shiftl 1 (part mod 32))) (Z.to_nat (part / 32)) used.

Definition report_corrupted (part checksum : Z) (bit : bool) : stm pstate fault unit :=
  b ← gets block_buffer;
  printf (bs "Amiga partition table corrupted at block %d" ++ [10]) [AInt part];;
  (if negb (amiga_block b AMIGA_ID =? AMIGA_ID_PART) then
     printf (bs "block type is not partition but %08x" ++ [10]) [AInt (amiga_block b AMIGA_ID)]
   else mret tt);;
  (if negb (checksum =? 0) then printf (bs "block checsum is bad : %d" ++ [10]) [AInt checksum]
   else mret tt);;
  (if bit then
     printf (bs "partition table is looping, block %d already traveled" ++ [10]) [AInt part]
   else mret tt).

Fixpoint amiga_loop (fuel : nat) (disk prom_blksize blockspercyl part partition : Z) (used : list Z)
    : stm pstate fault unit :=
  match fuel with
  | O => out_of_fuel
  | S fuel =>
      if u32 part =? AMIGA_END then mret tt
      else
        r ← readblock disk part;
        if negb (r =? 1) then printf (bs "Can't read partition block %d" ++ [10]) [AInt part]
        else
          checksum ← amiga_checksum prom_blksize;
          b ← gets block_buffer;
          match used_bit used part with
          | None => fail Overrun
          | Some bit =>
              if (amiga_block b AMIGA_ID =? AMIGA_ID_PART) && (checksum =? 0) && negb bit then
                add_new_partition partition (Some (bs "Linux")) None
                  (u32 (blockspercyl * amiga_block b AMIGA_PART_LOWCYL))
                  (u32 (blockspercyl *
                        u32 (amiga_block b AMIGA_PART_HIGHCYL - amiga_block b AMIGA_PART_LOWCYL + 1)))
                  prom_blksize 0;;
                amiga_loop fuel disk prom_blksize blockspercyl (s32 (amiga_block b AMIGA_PART_NEXT))
                  (s32 (partition + 1)) (set_used used part)
              else report_corrupted part checksum bit
          end
  end.

Definition part_malloc (size : Z) : stm pstate fault Z := λ s,
  let '(p, h) := malloc size (pheap s) in (Ok p, PState (block_buffer s) (plist s) h (pfw s)).

Definition part_free (p : Z) : stm pstate fault unit := λ s,
  (Ok tt, PState (block_buffer s) (plist s) (free p (pheap s)) (pfw s)).

(** the nodes of a list are freed in order; the next is read before a node is freed.  The
    lists of this model are values: their nodes are given by their addresses *)
Fixpoint partitions_free (nodes : list Z) : stm pstate fault unit :=
  match nodes with
  | [] => mret tt
  | p :: nodes => part_free p;; partitions_free nodes
  end.

Definition partition_amiga_lookup (fuel : nat) (disk prom_blksize : Z) : stm pstate fault unit :=
  b ← gets block_buffer;
  let blockspercyl := u32 (amiga_block b AMIGA_SECT * amiga_block b AMIGA_HEADS) in
  let possible := amiga_block b AMIGA_RDBLIMIT / 32 + 1 in
  used ← part_malloc (u32 (4 * (possible + 1)));
  if used =? 0 then printf (bs "Can't allocate memory" ++ [10]) []
  else
    amiga_loop fuel disk prom_blksize blockspercyl (s32 (amiga_block b AMIGA_PARTITIONS)) 1
      (replicate (Z.to_nat possible) 0);;
    part_free used.

(** ** [partitions_lookup] *)

(** the path opened, made in the buffer *)
Definition device_spec (bplan : bool) (device : list Z) : stm pstate fault (list Z) := λ s,
  let buf := store (block_buffer s) 0 (strncpy device 2040) in
  let path := cstring buf in
  let tail := if bplan then [] else bs ":0" in
  let set b := PState b (plist s) (pheap s) (pfw s) in
  if Z.of_nat (length (path ++ tail)) <? MAX_BLOCK_SIZE
  then (Ok (path ++ tail), set (store buf (Z.of_nat (length path)) (if bplan then [] else tail ++ [0])))
  else (Err Overrun, set buf).

(** the table of an open disk whose blocks have a supported size *)
Definition read_table (fuel : nat) (disk prom_blksize : Z) : stm pstate fault unit :=
  r ← readblock disk 0;
  if negb (r =? 1) then printf (bs "Can't read boot blocks" ++ [10]) []
  else
    b ← gets block_buffer;
    if desc_signature b =? MAC_DRIVER_MAGIC then partition_mac_lookup fuel disk
    else if (byte_at b 510 =? 85) && (byte_at b 511 =? 170) then partition_fdisk_lookup
    else
      iso ← (if prom_blksize =? 2048 then identify_iso_fs disk else mret None);
      match iso with
      | Some iso_root_block =>
          add_new_partition 0 None None iso_root_block 0 prom_blksize 0;;
          printf (bs "ISO9660 disk" ++ [10]) []
      | None =>
          rdb ← _amiga_find_rdb disk prom_blksize;
          if negb (rdb =? -1) then partition_amiga_lookup fuel disk prom_blksize
          else printf (bs "No supported partition table detected" ++ [10]) []
      end.

Definition open_device (path : list Z) : stm pstate fault Z := λ s,
  let '(d, f) := prom_open path (pfw s) in (Ok d, PState (block_buffer s) (plist s) (pheap s) f).

Definition partitions_lookup (fuel : nat) (bplan : bool) (device : list Z)
    : stm pstate fault (list partition_t) :=
  modify (λ s, PState (block_buffer s) [] (pheap s) (pfw s));;
  path ← device_spec bplan device;
  disk ← open_device path;
  (if disk =? 0 then printf (bs "Can't open device <%s>" ++ [10]) [AStr (Some path)]
   else
     blksize ← gets (λ s, u32 (prom_getblksize disk (pfw s)));
     let prom_blksize := if blksize <=? 1 then 512 else blksize in
     if MAX_BLOCK_SIZE <? prom_blksize then
       printf (bs "block_size %d not supported !" ++ [10]) [AInt prom_blksize]
     else read_table fuel disk prom_blksize);;
  io (prom_close disk);;
  gets plist.

(** the name [strdup(p->part_type)] copies: it runs on into [part_name] when the type
    fills its array *)
Definition type_string (p : partition_t) : option (list Z) :=
  match part_type p with
  | None => None
  | Some t =>
      let text := if Nat.eqb (length (cstring t)) MAX_PART_NAME
                  then match part_name p with Some n => Some (t ++ n) | None => None end
                  else Some t in
      match text with
      | Some text => if Nat.ltb (length (cstring text)) (2 * MAX_PART_NAME) then Some (cstring text) else None
      | None => None
      end
  end.

Definition find_partition (partition : Z) (l : list partition_t) : option partition_t :=
  snd <$> list_find (λ p, 0 <= partition ∧ partition = part_number p) l.

Definition device_kind (device : list Z) : stm pstate fault Z := λ s,
  let '(k, f) := prom_get_devtype env device (pfw s) in
  (match k with Some k => Ok k | None => Err Overrun end,
   PState (block_buffer s) (plist s) (pheap s) f).

Definition get_part_type (fuel : nat) (bplan : bool) (device : list Z) (partition : Z)
    : stm pstate fault (option (list Z)) :=
  kind ← device_kind device;
  if negb (kind =? FILE_DEVICE_BLOCK) && negb (kind =? FILE_DEVICE_ISCSI) then mret None
  else
    parts ← partitions_lookup fuel bplan device;
    match find_partition partition parts with
    | None => mret None
    | Some p => match type_string p with Some t => mret (Some t) | None => fail Overrun end
    end.
End lookup.
Arguments pstate F : clear implicits.

(** ** The tables as lists *)

Definition le32 (l : list Z) (i : Z) : Z :=
  byte_at l i + 256 * byte_at l (i + 1) + 65536 * byte_at l (i + 2) + 16777216 * byte_at l (i + 3).

Lemma swab32_bytes a b c d : is_byte a → is_byte b → is_byte c → is_byte d →
  swab32 (a * 16777216 + b * 65536 + c * 256 + d) = a + 256 * b + 65536 * c + 16777216 * d.
Proof.
  unfold is_byte. intros. unfold swab32.
  change 255 with (255 * 2 ^ 0). change 65280 with (255 * 2 ^ 8).
  change 16711680 with (255 * 2 ^ 16). change 4278190080 with (255 * 2 ^ 24).
  rewrite !land_field, !Z.shiftr_div_pow2, !(Z.shiftl_mul_pow2 _ _) by lia.
  set (x := a * 16777216 + b * 65536 + c * 256 + d).
  assert ((x / 2 ^ 0) mod 256 = d) as ->.
  { unfold x. change (2 ^ 0) with 1. Z.div_mod_to_equations. lia. }
  assert ((x / 2 ^ 8) mod 256 = c) as ->.
  { unfold x. change (2 ^ 8) with 256. Z.div_mod_to_equations. lia. }
  assert ((x / 2 ^ 16) mod 256 = b) as ->.
  { unfold x. change (2 ^ 16) with 65536. Z.div_mod_to_equations. lia. }
  assert ((x / 2 ^ 24) mod 256 = a) as ->.
  { unfold x. change (2 ^ 24) with 16777216. Z.div_mod_to_equations. lia. }
  replace (u32 (d * 2 ^ 0 * 2 ^ 24)) with (Z.shiftl d 24)
    by (rewrite Z.shiftl_mul_pow2, Z.mul_1_r, u32_small by lia; done).
  replace (c * 2 ^ 8 * 2 ^ 8) with (Z.shiftl c 16) by (rewrite Z.shiftl_mul_pow2 by lia; lia).
  replace (b * 2 ^ 16 / 2 ^ 8) with (Z.shiftl b 8)
    by (rewrite Z.shiftl_mul_pow2 by lia; change (2 ^ 16) with (2 ^ 8 * 2 ^ 8);
        rewrite Z.mul_assoc, Z.div_mul by done; done).
  replace (a * 2 ^ 24 / 2 ^ 24) with a by (by rewrite Z.div_mul).
  rewrite <- !Z.lor_assoc.
  rewrite (lor_shiftl_add b a 8), (lor_shiftl_add c _ 16), (lor_shiftl_add d _ 24) by lia.
  rewrite u32_small; lia.
Qed.

Lemma swab32_be32 l i : are_bytes l → le32_to_cpu (be32 l i) = le32 l i.
Proof. intros Hl. unfold le32_to_cpu, be32, le32. rewrite swab32_bytes by (by apply byte_at_range). lia. Qed.

(** the partition of entry [k] of a Macintosh map *)
Definition mac_entry (ptable_block_size k : Z) (b : list Z) : partition_t :=
  Partition k (Some (strncpy (mac_type b) MAX_PART_NAME)) (Some (strncpy (mac_name b) MAX_PART_NAME))
    (u32 (mac_start_block b + mac_data_start b)) (mac_data_count b) ptable_block_size 0.

(** a map of [n] entries *)
Definition mac_map (blocks : list (list Z)) : Prop :=
  0 < Z.of_nat (length blocks) < INT_MAX ∧
  Forall (λ b, are_bytes b ∧ 512 <= Z.of_nat (length b) ∧ mac_signature b = MAC_PARTITION_MAGIC) blocks ∧
  mac_map_count (hd [] blocks) = Z.of_nat (length blocks).

(** the partition of entry [k] of a PC table, when it is one of Linux *)
Definition fdisk_partition (b : list Z) (k : Z) : option partition_t :=
  let o := 446 + (k - 1) * 16 in
  let sys := byte_at b (o + 4) in
  if bool_decide (sys = LINUX_NATIVE ∨ sys = LINUX_RAID)
  then Some (Partition k (Some (bs "Linux" ++ [0])) None (le32 b (o + 8)) (le32 b (o + 12)) 512 sys)
  else None.

(** ** The blocks already visited *)

Lemma test_bit w k : 0 <= k → negb (Z.land w (Z.shiftl 1 k) =? 0) = Z.testbit w k.
Proof.
  intros Hk. assert (Z.shiftl 1 k = 2 ^ k) as -> by (rewrite Z.shiftl_mul_pow2 by lia; lia).
  destruct (Z.testbit w k) eqn:E.
  - destruct (Z.eqb_spec (Z.land w (2 ^ k)) 0) as [E0|]; [|done].
    assert (Z.testbit (Z.land w (2 ^ k)) k = true) as Ht.
    { rewrite Z.land_spec, E, Z.pow2_bits_true by done. done. }
    rewrite E0, Z.testbit_0_l in Ht. done.
  - destruct (Z.eqb_spec (Z.land w (2 ^ k)) 0) as [E0|E0]; [done|]. exfalso. apply E0.
    apply Z.bits_inj_iff'. intros i Hi. rewrite Z.land_spec, Z.testbit_0_l.
    destruct (decide (i = k)) as [->|]; [by rewrite E|].
    rewrite Z.pow2_bits_false by lia. by rewrite andb_false_r.
Qed.

Lemma used_bit_range used p b : used_bit used p = Some b → 0 <= p < 32 * Z.of_nat (length used).
Proof.
  unfold used_bit. destruct (Z.ltb_spec p 0); [done|].
  destruct (used !! Z.to_nat (p / 32)) as [w|] eqn:E; [|done]. intros _.
  apply lookup_lt_Some in E. Z.div_mod_to_equations. lia.
Qed.

Lemma used_bit_set used p q : 0 <= p < 32 * Z.of_nat (length used) →
  used_bit (set_used used p) q = if decide (q = p) then Some true else used_bit used q.
Proof.
  intros Hp. unfold used_bit, set_used.
  assert (Z.to_nat (p / 32) < length used)%nat as Hlt by (Z.div_mod_to_equations; lia).
  destruct (Z.ltb_spec q 0); [by destruct (decide (q = p)); [lia|]|].
  pose proof (Z.mod_pos_bound q 32 ltac:(lia)) as Hq. pose proof (Z.mod_pos_bound p 32 ltac:(lia)) as Hm.
  destruct (decide (Z.to_nat (q / 32) = Z.to_nat (p / 32))) as [E|E].
  - rewrite E, list_lookup_alter. apply lookup_lt_is_Some in Hlt as [w ->]. simpl.
    rewrite decide_True by done. rewrite !test_bit, Z.lor_spec by lia.
    assert (Z.shiftl 1 (p mod 32) = 2 ^ (p mod 32)) as -> by (rewrite Z.shiftl_mul_pow2 by lia; lia).
    destruct (decide (q = p)) as [->|Hne].
    + rewrite Z.pow2_bits_true by lia. by rewrite orb_true_r.
    + rewrite Z.pow2_bits_false; [by rewrite orb_false_r|]. Z.div_mod_to_equations. lia.
  - rewrite list_lookup_alter, decide_False by done. by destruct (decide (q = p)) as [->|].
Qed.

Lemma length_set_used used p : length (set_used used p) = length used.
Proof. apply length_alter. Qed.

(** the blocks visited so far: distinct, and marked *)
Definition visited_ok (used visited : list Z) : Prop :=
  NoDup visited ∧ Forall (λ q, used_bit used q = Some true) visited.

Lemma visited_bound used visited : visited_ok used visited → (length visited <= 32 * length used)%nat.
Proof.
  intros [Hnd Hv].
  assert (length visited <= length (seqZ 0 (32 * Z.of_nat (length used))))%nat as Hle.
  { apply NoDup_incl_length; [by apply NoDup_ListNoDup|]. intros q Hq. apply list_elem_of_In.
    apply list_elem_of_In in Hq. rewrite Forall_forall in Hv. apply Hv, used_bit_range in Hq.
    apply elem_of_seqZ. lia. }
  rewrite length_seqZ in Hle. lia.
Qed.

Lemma visited_cons used visited p : visited_ok used visited → used_bit used p = Some false →
  visited_ok (set_used used p) (p :: visited).
Proof.
  intros [Hnd Hv] Hp. pose proof (used_bit_range _ _ _ Hp) as Hr. rewrite Forall_forall in Hv. split.
  - constructor; [|done]. intros Hin. apply Hv in Hin. congruence.
  - apply Forall_forall. intros q Hq. rewrite used_bit_set by done.
    destruct (decide (q = p)); [done|]. apply elem_of_cons in Hq as [?|Hq]; [done|]. by apply Hv.
Qed.

Section tables.
Context {F : Type} `{Firmware F} (env : prom_env) (disk : Z) (inv : F → Prop) (block : Z → option (list Z)).
Context {BD : BlockDevice env disk inv block}.

Implicit Types s : pstate F.

Lemma readblock_some s n b : inv (pfw s) → 0 <= n → block n = Some b →
  ∃ f', inv f' ∧ readblock disk n s = (Ok 1, PState (store (block_buffer s) 0 b) (plist s) (pheap s) f').
Proof.
  intros Hs Hn Hb. destruct (bd_read (pfw s) n Hs Hn) as (r & c & f' & E & Hf' & Hlen & Hr).
  rewrite Hb in Hr. destruct Hr as [-> ->]. exists f'. split; [done|].
  unfold readblock. rewrite E. unfold MAX_BLOCK_SIZE. by destruct (Z.ltb_spec 2048 (Z.of_nat (length b))); [lia|].
Qed.

Lemma readblock_none s n : inv (pfw s) → 0 <= n → block n = None →
  ∃ r c f', r ≠ 1 ∧ inv f' ∧ Z.of_nat (length c) <= 2048 ∧
    readblock disk n s = (Ok r, PState (store (block_buffer s) 0 c) (plist s) (pheap s) f').
Proof.
  intros Hs Hn Hb. destruct (bd_read (pfw s) n Hs Hn) as (r & c & f' & E & Hf' & Hlen & Hr).
  rewrite Hb in Hr. exists r, c, f'. split; [done|]. split; [done|]. split; [done|].
  unfold readblock. rewrite E. unfold MAX_BLOCK_SIZE. by destruct (Z.ltb_spec 2048 (Z.of_nat (length c))); [lia|].
Qed.

Lemma mac_fields_store buf b : 512 <= Z.of_nat (length b) →
  mac_signature (store buf 0 b) = mac_signature b ∧ mac_map_count (store buf 0 b) = mac_map_count b ∧
  ∀ z k, mac_entry z k (store buf 0 b) = mac_entry z k b.
Proof.
  intros Hb. unfold mac_entry, mac_signature, mac_map_count, mac_type, mac_name, mac_start_block,
    mac_data_start, mac_data_count.
  rewrite be16_store, be32_store by lia. split; [done|]. split; [done|]. intros z k.
  by rewrite !slice_store, !be32_store by lia.
Qed.

Lemma mac_loop_entries bl fuel z k n s :
  (∀ i b, bl !! i = Some b → block (k + Z.of_nat i) = Some b) →
  Forall (λ b, are_bytes b ∧ 512 <= Z.of_nat (length b) ∧ mac_signature b = MAC_PARTITION_MAGIC) bl →
  0 < k → n = k - 1 + Z.of_nat (length bl) → n < INT_MAX → 0 <= z < 65536 →
  (k = 1 → mac_map_count (hd [] bl) = n ∧ bl ≠ []) →
  inv (pfw s) → (length bl < fuel)%nat →
  ∃ s', mac_loop env fuel disk z k (if k =? 1 then 1 else n) s = (Ok tt, s') ∧
    plist s' = rev (imap (λ i b, mac_entry z (k + Z.of_nat i) b) bl) ++ plist s.
Proof.
  intros Hbl Hok. revert fuel k s Hbl. induction Hok as [|b bl (Hb & Hlen & Hsig) Hok IH];
    intros fuel k s Hbl Hk Hn Hmax Hz Hfirst Hs Hf; (destruct fuel as [|fuel]; [simpl in Hf; lia|]);
    cbn [mac_loop].
  - destruct (Z.eqb_spec k 1) as [->|]; [by destruct (Hfirst eq_refl)|].
    rewrite s32_small by (unfold INT_MIN, INT_MAX in *; simpl in *; lia).
    destruct (Z.ltb_spec k (n + 1)); [simpl in *; lia|]. cbn [negb]. by eexists.
  - assert (block k = Some b) as Hbk.
    { rewrite <- (Hbl O b eq_refl). f_equal. lia. }
    assert (k < s32 ((if k =? 1 then 1 else n) + 1)) as Hlt.
    { destruct (Z.eqb_spec k 1); rewrite s32_small; unfold INT_MIN, INT_MAX in *; simpl in *; lia. }
    destruct (Z.ltb_spec k (s32 ((if k =? 1 then 1 else n) + 1))); [|lia]. cbn [negb].
    destruct (readblock_some s k b Hs ltac:(lia) Hbk) as (f' & Hf' & E).
    rewrite (bind_ok _ _ _ _ _ E). eval_tests. rewrite gets_bind. cbn [block_buffer].
    destruct (mac_fields_store (block_buffer s) b Hlen) as (Es & Ec & Ee). rewrite Es, Hsig, Z.eqb_refl. cbn [negb].
    unfold add_new_partition at 1. erewrite bind_ok by reflexivity. rewrite (u16_small z) by done.
    set (s1 := PState _ _ _ _).
    assert ((if k =? 1 then s32 (mac_map_count (store (block_buffer s) 0 b)) else if k =? 1 then 1 else n) =
      (if k + 1 =? 1 then 1 else n)) as ->.
    { destruct (Z.eqb_spec (k + 1) 1); [lia|]. destruct (Z.eqb_spec k 1) as [Hk1|]; [|done].
      destruct (Hfirst Hk1) as [Hc _]. simpl in Hc. rewrite Ec, Hc. apply s32_small.
      unfold INT_MIN, INT_MAX in *. lia. }
    destruct (IH fuel (k + 1) s1) as (s' & E' & El); [|lia|simpl in Hn; lia|done|done|lia|done|simpl in Hf; lia|].
    { intros i c Hc. rewrite <- (Hbl (S i) c Hc). f_equal. lia. }
    exists s'. split; [done|]. rewrite El. unfold s1. cbn [plist imap]. cbn [rev]. rewrite <- app_assoc. cbn [app].
    rewrite Z.add_0_r, <- (Ee z k).
    rewrite (imap_ext ((λ i c, mac_entry z (k + Z.of_nat i) c) ∘ S) (λ i c, mac_entry z (k + 1 + Z.of_nat i) c));
      [done|].
    intros i c _. unfold compose. by replace (k + Z.of_nat (S i)) with (k + 1 + Z.of_nat i) by lia.
Qed.

Lemma read_table_mac fuel b0 bl s :
  block 0 = Some b0 → are_bytes b0 → 512 <= Z.of_nat (length b0) → desc_signature b0 = MAC_DRIVER_MAGIC →
  mac_map bl → (∀ i b, bl !! i = Some b → block (1 + Z.of_nat i) = Some b) →
  inv (pfw s) → (length bl < fuel)%nat →
  ∃ s', read_table env fuel disk 512 s = (Ok tt, s') ∧
    plist s' = rev (imap (λ i b, mac_entry (desc_block_size b0) (1 + Z.of_nat i) b) bl) ++ plist s.
Proof.
  intros H0 Hb0 Hlen Hsig (Hn & Hok & Hc) Hbl Hs Hf. unfold read_table.
  destruct (readblock_some s 0 b0 Hs ltac:(lia) H0) as (f' & Hf' & E).
  rewrite (bind_ok _ _ _ _ _ E). eval_tests. rewrite gets_bind. cbn [block_buffer].
  unfold desc_signature. rewrite be16_store by lia. fold (desc_signature b0). rewrite Hsig, Z.eqb_refl.
  unfold partition_mac_lookup. rewrite gets_bind. cbn [block_buffer].
  unfold desc_block_size. rewrite be16_store by lia.
  match goal with |- ∃ s', mac_loop _ _ _ _ _ _ ?s1 = _ ∧ _ =>
    apply (mac_loop_entries bl fuel _ 1 (Z.of_nat (length bl)) s1) end;
    [done|done|lia|lia|lia|exact (be16_range b0 2 Hb0)| |done|done].
  intros _. split; [lia|]. intros ->. simpl in Hn. lia.
Qed.
End tables.

(** ** The walk over an Amiga table *)

Section walk.
Context {F : Type} `{Firmware F} (env : prom_env).

Implicit Types s : pstate F.

(** [m] leaves the list of partitions alone *)
Definition keeps {A} (m : stm (pstate F) fault A) : Prop :=
  ∀ s, returns m s (λ _ s', plist s' = plist s).

Lemma untouched_bind {A B} (m : stm (pstate F) fault A) (k : A → stm (pstate F) fault B) :
  keeps m → (∀ a, keeps (k a)) → keeps (mbind (M := stm (pstate F) fault) k m).
Proof.
  intros Hm Hk s. apply returns_bind. eapply returns_mono; [apply Hm|].
  intros a s' E. eapply returns_mono; [apply Hk|]. simpl. intros _ s'' ->. done.
Qed.

Lemma keeps_printf fmt args : keeps (printf env fmt args).
Proof. intros s. done. Qed.

Lemma untouched_ret {A} (a : A) : keeps (mret (M := stm (pstate F) fault) a).
Proof. intros s. done. Qed.

Lemma keeps_gets {A} (g : pstate F → A) : keeps (gets g).
Proof. intros s. done. Qed.

Lemma keeps_readblock disk n : keeps (readblock disk n).
Proof.
  intros s. unfold returns, readblock. destruct (prom_readblocks disk n 1 (pfw s)) as [[r b] f].
  by destruct (MAX_BLOCK_SIZE <? _).
Qed.

Lemma keeps_checksum k : keeps (amiga_checksum k).
Proof. intros s. unfold returns, amiga_checksum. by destruct (_amiga_checksum _ _). Qed.

Lemma keeps_if {A} (b : bool) (m m' : stm (pstate F) fault A) : keeps m → keeps m' → keeps (if b then m else m').
Proof. by destruct b. Qed.

Lemma keeps_report part checksum bit : keeps (report_corrupted env part checksum bit).
Proof.
  unfold report_corrupted. apply untouched_bind; [apply keeps_gets|]. intros b.
  repeat first [apply untouched_bind; [|intros ?]|apply keeps_if|apply keeps_printf|apply untouched_ret].
Qed.

Lemma amiga_loop_returns fuel disk k bpc part c used visited s :
  visited_ok used visited → (32 * length used < fuel + length visited)%nat →
  returns (amiga_loop env fuel disk k bpc part (s32 c) used) s
    (λ _ s', ∃ ps, plist s' = ps ++ plist s ∧
       map part_number ps = rev (map s32 (seqZ c (Z.of_nat (length ps)))) ∧
       (length ps + length visited <= 32 * length used)%nat).
Proof.
  revert part c used visited s.
  induction fuel as [|fuel IH]; intros part c used visited s Hv Hf; pose proof (visited_bound _ _ Hv);
    [lia|]. cbn [amiga_loop].
  assert (∀ s1, plist s1 = plist s → ∃ ps : list partition_t, plist s1 = ps ++ plist s ∧
    map part_number ps = rev (map s32 (seqZ c (Z.of_nat (length ps)))) ∧
    (length ps + length visited <= 32 * length used)%nat) as Hnone.
  { intros s1 ->. exists []. done. }
  destruct (u32 part =? AMIGA_END); [by apply Hnone|].
  apply returns_bind. eapply returns_mono; [apply keeps_readblock|]. simpl. intros r s1 E1.
  destruct (negb (r =? 1)); [by apply Hnone|].
  apply returns_bind. eapply returns_mono; [apply keeps_checksum|]. simpl. intros sum s2 E2.
  apply returns_bind. eapply returns_mono; [apply keeps_gets|]. simpl. intros b s3 E3.
  destruct (used_bit used part) as [bit|] eqn:Eb; [|done].
  destruct (_ && _ && negb bit) eqn:Et.
  - apply andb_prop in Et as [_ Et]. destruct bit; [done|].
    apply returns_bind. unfold add_new_partition at 1, returns at 1.
    assert (s32 (s32 c + 1) = s32 (c + 1)) as ->.
    { unfold s32. words. ztest; Z.div_mod_to_equations; lia. }
    eapply returns_mono; [apply (IH _ (c + 1) _ (part :: visited)); [by apply visited_cons|]|].
    { rewrite length_set_used. simpl. lia. }
    intros _ s4 (ps & El & En & Hlen). cbn [plist] in El. rewrite length_set_used in Hlen. cbn [length] in Hlen.
    eexists (ps ++ [_]). split; [rewrite El, <- app_assoc, E3, E2, E1; done|].
    rewrite map_app, En, length_app. cbn [map part_number length]. split; [|lia].
    replace (Z.of_nat (length ps + 1)) with (Z.succ (Z.of_nat (length ps))) by lia.
    rewrite (seqZ_cons c) by lia. rewrite Z.pred_succ. done.
  - eapply returns_mono; [apply keeps_report|]. simpl. intros _ s4 E4. apply Hnone. congruence.
Qed.
End walk.

(** ** The other tables of a device *)

Lemma sum_words_store n buf b i sum : 0 <= i → 4 * (i + Z.of_nat n) <= Z.of_nat (length b) →
  sum_words n (store buf 0 b) i sum = sum_words n b i sum.
Proof.
  revert i sum. induction n as [|n IH]; intros i sum Hi Hn; [done|]. cbn [sum_words].
  unfold amiga_block. rewrite be32_store by lia. rewrite IH by lia. done.
Qed.

(** a block of an Amiga table: the checksum covers no more than the block *)
Definition amiga_block_ok (id : Z) (b : list Z) : Prop :=
  512 <= Z.of_nat (length b) ∧ amiga_block b AMIGA_ID = id ∧ 0 <= amiga_block b AMIGA_LENGTH <= 128 ∧
  _amiga_checksum 512 b = Some 0.

Lemma amiga_checksum_store buf b id : amiga_block_ok id b → _amiga_checksum 512 (store buf 0 b) = Some 0.
Proof.
  intros (Hlen & _ & Hl & Hc). revert Hc. unfold _amiga_checksum.
  assert (∀ i, 0 <= i < 128 → amiga_block (store buf 0 b) i = amiga_block b i) as E.
  { intros i Hi. unfold amiga_block. apply be32_store; lia. }
  unfold AMIGA_LENGTH in *. rewrite !E by lia.
  destruct (Z.ltb_spec 512 (amiga_block b 1)); [lia|]. rewrite s32_small by (unfold INT_MIN, INT_MAX; lia).
  destruct (_ <? _); [done|]. by rewrite sum_words_store by lia.
Qed.

Definition amiga_entry (blockspercyl number : Z) (b : list Z) : partition_t :=
  Partition number (Some (bs "Linux" ++ [0])) None
    (u32 (blockspercyl * amiga_block b AMIGA_PART_LOWCYL))
    (u32 (blockspercyl * (amiga_block b AMIGA_PART_HIGHCYL - amiga_block b AMIGA_PART_LOWCYL + 1))) 512 0.

(** the partition blocks linked from [part] on *)
Fixpoint amiga_chain (block : Z → option (list Z)) (part : Z) (l : list (Z * list Z)) : Prop :=
  match l with
  | [] => part = AMIGA_END
  | (p, b) :: l =>
      part = p ∧ 0 <= p < INT_MAX ∧ block p = Some b ∧ amiga_block_ok AMIGA_ID_PART b ∧
      amiga_chain block (amiga_block b AMIGA_PART_NEXT) l
  end.

Section other_tables.
Context {F : Type} `{Firmware F} (env : prom_env) (disk : Z) (inv : F → Prop) (block : Z → option (list Z)).
Context {BD : BlockDevice env disk inv block}.

Implicit Types s : pstate F.

Lemma fdisk_entry_spec b0 buf k s : block_buffer s = store buf 0 b0 → are_bytes b0 →
  512 <= Z.of_nat (length b0) → 1 <= k <= 4 →
  fdisk_entry k s =
    (Ok tt, PState (block_buffer s) (option_list (fdisk_partition b0 k) ++ plist s) (pheap s) (pfw s)).
Proof.
  intros Eb Hb Hlen Hk. unfold fdisk_entry. rewrite gets_bind, Eb. rewrite slice_store by lia.
  unfold fdisk_sys_ind, fdisk_start4, fdisk_size4, fdisk_partition.
  set (o := 446 + (k - 1) * 16). rewrite !swab32_be32 by (by apply are_bytes_slice).
  unfold le32. rewrite !byte_at_slice by lia. rewrite <- !Z.add_assoc. cbn [Z.add Pos.add Pos.succ].
  destruct (Z.eqb_spec (byte_at b0 (o + 4)) LINUX_NATIVE);
    [rewrite bool_decide_true by auto; cbn [orb]; unfold add_new_partition; by rewrite Eb|].
  destruct (Z.eqb_spec (byte_at b0 (o + 4)) LINUX_RAID);
    [rewrite bool_decide_true by auto; cbn [orb]; unfold add_new_partition; by rewrite Eb|].
  rewrite bool_decide_false by tauto. destruct s; simpl in *. by subst.
Qed.

Lemma read_table_fdisk fuel k b0 s :
  block 0 = Some b0 → are_bytes b0 → 512 <= Z.of_nat (length b0) →
  desc_signature b0 ≠ MAC_DRIVER_MAGIC → byte_at b0 510 = 85 → byte_at b0 511 = 170 → inv (pfw s) →
  ∃ s', read_table env fuel disk k s = (Ok tt, s') ∧
    plist s' = rev (omap (fdisk_partition b0) [1; 2; 3; 4]) ++ plist s.
Proof.
  intros H0 Hb Hlen Hsig H1 H2 Hs. unfold read_table.
  destruct (readblock_some env disk inv block s 0 b0 Hs ltac:(lia) H0) as (f' & Hf' & E).
  rewrite (bind_ok _ _ _ _ _ E). eval_tests. rewrite gets_bind. cbn [block_buffer].
  unfold desc_signature. rewrite be16_store by lia. fold (desc_signature b0).
  destruct (Z.eqb_spec (desc_signature b0) MAC_DRIVER_MAGIC); [done|].
  rewrite !byte_at_store, H1, H2 by lia. eval_tests. unfold partition_fdisk_lookup.
  do 3 (erewrite bind_ok by (by eapply fdisk_entry_spec; [|done|done|lia])).
  erewrite fdisk_entry_spec by (done || lia). eexists. split; [done|]. cbn [plist block_buffer omap list_omap].
  destruct (fdisk_partition b0 1), (fdisk_partition b0 2), (fdisk_partition b0 3), (fdisk_partition b0 4); done.
Qed.

(** a block that is the primary volume descriptor of a CD-ROM *)
Definition iso_block (b : list Z) : Prop := strncmp (drop 1 b) ISO_STANDARD_ID 5 = 0.

Lemma strncmp_drop_store buf b : 512 <= Z.of_nat (length b) →
  strncmp (drop 1 (store buf 0 b)) ISO_STANDARD_ID 5 = strncmp (drop 1 b) ISO_STANDARD_ID 5.
Proof.
  intros Hlen. unfold store.
  do 6 (destruct b as [|? b]; [simpl in Hlen; lia|]). reflexivity.
Qed.

Lemma iso_loop_finds n m d s :
  (∀ i, m <= i < m + Z.of_nat n →
    ∃ b, block i = Some b ∧ 512 <= Z.of_nat (length b) ∧ ¬ iso_block b) →
  (∃ b, block (m + Z.of_nat n) = Some b ∧ 512 <= Z.of_nat (length b) ∧ iso_block b) →
  0 <= m → inv (pfw s) →
  ∃ s', iso_loop env (n + S d) disk m s = (Ok (Some (m + Z.of_nat n)), s') ∧ plist s' = plist s.
Proof.
  revert m s. induction n as [|n IH]; intros m s Hno (b & Hb & Hlen & Hiso) Hm Hs.
  - rewrite Z.add_0_r in *. cbn [Nat.add iso_loop].
    destruct (readblock_some env disk inv block s m b Hs Hm Hb) as (f' & Hf' & E).
    rewrite (bind_ok _ _ _ _ _ E). eval_tests. rewrite gets_bind. cbn [block_buffer].
    rewrite strncmp_drop_store, Hiso by done. by eexists.
  - cbn [Nat.add iso_loop]. destruct (Hno m ltac:(lia)) as (c & Hc & Hclen & Hciso).
    destruct (readblock_some env disk inv block s m c Hs Hm Hc) as (f' & Hf' & E).
    rewrite (bind_ok _ _ _ _ _ E). eval_tests. rewrite gets_bind. cbn [block_buffer].
    rewrite strncmp_drop_store by done. unfold iso_block in Hciso.
    destruct (Z.eqb_spec (strncmp (drop 1 c) ISO_STANDARD_ID 5) 0); [done|].
    replace (m + Z.of_nat (S n)) with (m + 1 + Z.of_nat n) in * by lia.
    destruct (IH (m + 1) (PState (store (block_buffer s) 0 c) (plist s) (pheap s) f')) as (s' & E' & El);
      [intros i Hi; apply Hno; lia|by eauto|lia|done|]. exists s'. by split.
Qed.

Lemma read_table_iso fuel b0 n s :
  block 0 = Some b0 → 512 <= Z.of_nat (length b0) →
  desc_signature b0 ≠ MAC_DRIVER_MAGIC → (byte_at b0 510 ≠ 85 ∨ byte_at b0 511 ≠ 170) →
  16 <= n < 100 →
  (∀ i, 16 <= i < n → ∃ b, block i = Some b ∧ 512 <= Z.of_nat (length b) ∧ ¬ iso_block b) →
  (∃ b, block n = Some b ∧ 512 <= Z.of_nat (length b) ∧ iso_block b) → inv (pfw s) →
  ∃ s', read_table env fuel disk 2048 s = (Ok tt, s') ∧
    plist s' = Partition 0 None None n 0 2048 0 :: plist s.
Proof.
  intros H0 Hlen Hsig H510 Hn Hno Hyes Hs. unfold read_table.
  destruct (readblock_some env disk inv block s 0 b0 Hs ltac:(lia) H0) as (f' & Hf' & E).
  rewrite (bind_ok _ _ _ _ _ E). eval_tests. rewrite gets_bind. cbn [block_buffer].
  unfold desc_signature. rewrite be16_store by lia. fold (desc_signature b0).
  destruct (Z.eqb_spec (desc_signature b0) MAC_DRIVER_MAGIC); [done|].
  rewrite !byte_at_store by lia.
  replace ((byte_at b0 510 =? 85) && (byte_at b0 511 =? 170)) with false; [|ztest; simpl; tauto].
  unfold identify_iso_fs. set (s1 := PState _ _ _ _).
  destruct (iso_loop_finds (Z.to_nat (n - 16)) 16 (83 - Z.to_nat (n - 16)) s1) as (s' & E' & El).
  1, 2: replace (16 + Z.of_nat (Z.to_nat (n - 16))) with n by lia; done.
  1, 2: done.
  replace (Z.to_nat (n - 16) + S (83 - Z.to_nat (n - 16)))%nat with 84%nat in E' by lia.
  replace (16 + Z.of_nat (Z.to_nat (n - 16))) with n in E' by lia.
  rewrite (bind_ok _ _ _ _ _ E'). eexists. split; [done|]. cbn [plist]. by rewrite El.
Qed.

Lemma amiga_loop_chain l fuel bpc part number used s :
  amiga_chain block part l → NoDup l.*1 →
  Forall (λ p, used_bit used p = Some false) l.*1 →
  0 <= number → number + Z.of_nat (length l) <= INT_MAX → inv (pfw s) → (length l < fuel)%nat →
  ∃ s', amiga_loop env fuel disk 512 bpc (s32 part) number used s = (Ok tt, s') ∧
    plist s' = rev (imap (λ i e, amiga_entry bpc (number + Z.of_nat i) e.2) l) ++ plist s.
Proof.
  revert fuel part number used s. induction l as [|[p b] l IH];
    intros fuel part number used s Hl Hnd Hu Hn Hmax Hs Hf; (destruct fuel as [|fuel]; [simpl in Hf; lia|]);
    cbn [amiga_loop]; rewrite u32_s32.
  - simpl in Hl. subst part. by eexists.
  - destruct Hl as (-> & Hp & Hb & Hok & Hl). cbn [fmap list_fmap fst] in Hnd, Hu.
    apply NoDup_cons in Hnd as [Hni Hnd]. apply Forall_cons_iff in Hu as [Hup Hu].
    rewrite (s32_small p) by (unfold INT_MIN, INT_MAX in *; lia).
    rewrite u32_small by (unfold INT_MAX in Hp; lia). unfold AMIGA_END.
    destruct (Z.eqb_spec p 4294967295); [unfold INT_MAX in Hp; lia|].
    destruct (readblock_some env disk inv block s p b Hs ltac:(lia) Hb) as (f' & Hf' & E).
    rewrite (bind_ok _ _ _ _ _ E). eval_tests. unfold amiga_checksum.
    erewrite bind_ok; [|cbn [block_buffer]; by erewrite amiga_checksum_store by exact Hok].
    rewrite gets_bind. cbn [block_buffer]. rewrite Hup. pose proof Hok as (Hlen & Hid & _).
    assert (∀ i, 0 <= i < 128 → amiga_block (store (block_buffer s) 0 b) i = amiga_block b i) as Ea.
    { intros i Hi. unfold amiga_block. apply be32_store; lia. }
    unfold AMIGA_ID, AMIGA_PART_LOWCYL, AMIGA_PART_HIGHCYL, AMIGA_PART_NEXT in *. rewrite !Ea, Hid by lia.
    rewrite Z.eqb_refl. eval_tests. unfold add_new_partition at 1. erewrite bind_ok by reflexivity.
    rewrite (s32_small (number + 1)) by (unfold INT_MIN; simpl in Hmax; lia).
    match goal with |- ∃ s', amiga_loop _ _ _ _ _ _ _ _ ?s1 = _ ∧ _ =>
      destruct (IH fuel (amiga_block b 4) (number + 1) (set_used used p) s1) as (s' & E' & El) end;
      [done|done| |lia|simpl in Hmax; lia|done|simpl in Hf; lia|].
    { apply Forall_forall. intros q Hq. rewrite used_bit_set by (by eapply used_bit_range).
      rewrite decide_False by congruence. rewrite Forall_forall in Hu. by apply Hu. }
    exists s'. split; [exact E'|]. rewrite El. cbn [plist imap]. cbn [rev]. rewrite <- app_assoc. cbn [app].
    rewrite Z.add_0_r, u32_mul_r.
    rewrite (imap_ext ((λ i e, amiga_entry bpc (number + Z.of_nat i) e.2) ∘ S)
      (λ i e, amiga_entry bpc (number + 1 + Z.of_nat i) e.2)); [done|].
    intros i c _. unfold compose. by replace (number + Z.of_nat (S i)) with (number + 1 + Z.of_nat i) by lia.
Qed.

Lemma used_bit_clear n p : 0 <= p → p / 32 < Z.of_nat n → used_bit (replicate n 0) p = Some false.
Proof.
  intros Hp Hn. unfold used_bit. destruct (Z.ltb_spec p 0); [lia|].
  rewrite lookup_replicate_2 by (pose proof (Z.div_pos p 32); lia).
  by rewrite Z.land_0_l.
Qed.

Lemma amiga_chain_nonneg part l : amiga_chain block part l → Forall (λ p, 0 <= p) l.*1.
Proof.
  revert part. induction l as [|[p b] l IH]; intros part Hl; [constructor|].
  destruct Hl as (_ & Hp & _ & _ & Hl). constructor; [simpl; lia|by eapply IH].
Qed.

Lemma read_table_amiga fuel b0 l s :
  block 0 = Some b0 → are_bytes b0 → amiga_block_ok AMIGA_ID_RDB b0 →
  (byte_at b0 510 ≠ 85 ∨ byte_at b0 511 ≠ 170) →
  amiga_chain block (amiga_block b0 AMIGA_PARTITIONS) l → NoDup l.*1 →
  Forall (λ p, p / 32 <= amiga_block b0 AMIGA_RDBLIMIT / 32) l.*1 →
  (malloc (u32 (4 * (amiga_block b0 AMIGA_RDBLIMIT / 32 + 2))) (pheap s)).1 ≠ 0 →
  inv (pfw s) → (length l < fuel)%nat → Z.of_nat (length l) < INT_MAX →
  ∃ s', read_table env fuel disk 512 s = (Ok tt, s') ∧
    plist s' = rev (imap (λ i e,
      amiga_entry (u32 (amiga_block b0 AMIGA_SECT * amiga_block b0 AMIGA_HEADS)) (1 + Z.of_nat i) e.2) l)
      ++ plist s.
Proof.
  intros H0 Hb0 Hok H510 Hl Hnd Hlim Hm Hs Hf Hmax. pose proof Hok as (Hlen & Hid & _).
  unfold read_table.
  destruct (readblock_some env disk inv block s 0 b0 Hs ltac:(lia) H0) as (f' & Hf' & E).
  rewrite (bind_ok _ _ _ _ _ E). eval_tests. rewrite gets_bind. cbn [block_buffer].
  assert (∀ i, 0 <= i < 128 → amiga_block (store (block_buffer s) 0 b0) i = amiga_block b0 i) as Ea.
  { intros i Hi. unfold amiga_block. apply be32_store; lia. }
  unfold desc_signature. rewrite be16_store by lia.
  destruct (Z.eqb_spec (be16 b0 0) MAC_DRIVER_MAGIC) as [Em|_].
  { exfalso. unfold amiga_block, AMIGA_ID, AMIGA_ID_RDB, MAC_DRIVER_MAGIC, be32, be16 in *.
    rewrite Z.mul_0_r in Hid.
    pose proof (byte_at_range b0 0 Hb0) as R0. pose proof (byte_at_range b0 (0 + 1) Hb0) as R1.
    pose proof (byte_at_range b0 (0 + 2) Hb0) as R2. pose proof (byte_at_range b0 (0 + 3) Hb0) as R3.
    unfold is_byte in *. lia. }
  rewrite !byte_at_store by lia.
  replace ((byte_at b0 510 =? 85) && (byte_at b0 511 =? 170)) with false; [|ztest; simpl; tauto].
  rewrite ret_bind. unfold _amiga_find_rdb.
  assert (rdb_loop env AMIGA_RDB_MAX disk 512 0
    (PState (store (block_buffer s) 0 b0) (plist s) (pheap s) f') =
    (Ok true, PState (store (block_buffer s) 0 b0) (plist s) (pheap s) f')) as Er.
  { unfold AMIGA_RDB_MAX. cbn [rdb_loop]. eval_tests. rewrite ret_bind. eval_tests. rewrite gets_bind. cbn [block_buffer].
    rewrite Ea, Hid, Z.eqb_refl by (unfold AMIGA_ID; lia). unfold amiga_checksum.
    erewrite bind_ok; [|erewrite bind_ok; [|cbn [block_buffer]; by erewrite amiga_checksum_store by exact Hok]; done].
    done. }
  erewrite bind_ok by (erewrite bind_ok by exact Er; done). eval_tests.
  unfold partition_amiga_lookup. rewrite gets_bind. cbn [block_buffer].
  unfold AMIGA_SECT, AMIGA_HEADS, AMIGA_RDBLIMIT, AMIGA_PARTITIONS in *. rewrite !Ea by lia.
  rewrite <- Z.add_assoc. change (1 + 1) with 2.
  destruct (malloc _ (pheap s)) as [p h] eqn:Eh. cbn [fst] in Hm.
  erewrite bind_ok by (unfold part_malloc; cbn [pheap]; by rewrite Eh). destruct (Z.eqb_spec p 0); [done|].
  pose proof (amiga_chain_nonneg _ _ Hl) as Hpos.
  match goal with |- ∃ s', mbind _ (amiga_loop _ _ _ _ _ _ _ ?u) ?s1 = _ ∧ _ =>
    destruct (amiga_loop_chain l fuel (u32 (amiga_block b0 17 * amiga_block b0 18)) (amiga_block b0 7) 1 u s1)
      as (s' & E' & El) end; [done|done| |lia|lia|done|done|].
  { apply Forall_forall. intros q Hq. rewrite Forall_forall in Hpos, Hlim.
    specialize (Hpos q Hq). specialize (Hlim q Hq). apply used_bit_clear; [done|].
    pose proof (Z.div_pos q 32 Hpos). lia. }
  erewrite bind_ok by exact E'. eexists. split; [done|]. cbn [plist]. by rewrite El.
Qed.
End other_tables.

(** ** Theorems *)

(** C21: on a disk with a Macintosh map of [n] entries, the lookup lists the [n] entries,
    the last first, with their numbers, types, names, starts and sizes as they are in
    the map; fuel above the number of entries is enough. *)
Theorem mac_table_read {F} `{Firmware F} env disk (inv : F → Prop) block
    `{!BlockDevice env disk inv block} fuel b0 bl (s : pstate F) :
  block 0 = Some b0 → are_bytes b0 → 512 <= Z.of_nat (length b0) → desc_signature b0 = MAC_DRIVER_MAGIC →
  mac_map bl → (∀ i b, bl !! i = Some b → block (1 + Z.of_nat i) = Some b) →
  inv (pfw s) → (length bl < fuel)%nat →
  ∃ s', read_table env fuel disk 512 s = (Ok tt, s') ∧
    plist s' = rev (imap (λ i b, mac_entry (desc_block_size b0) (1 + Z.of_nat i) b) bl) ++ plist s.
Proof. by eapply read_table_mac. Qed.

(** a block with the bytes [l] at its start and [fill] behind them *)
Definition block_of (n : nat) (l : list Z) : list Z := l ++ replicate (n - length l) 0.

Definition mac_block (count start size : Z) (name type : string) : list Z :=
  block_of 512 (put_be16 20557 ++ [0; 0] ++ put_be32 count ++ put_be32 start ++ put_be32 size ++
    block_of 32 (bs name) ++ block_of 32 (bs type) ++ put_be32 0 ++ put_be32 size).

Definition mac_disk : list Z :=
  block_of 512 (put_be16 17746 ++ put_be16 512) ++ mac_block 2 1 63 "Apple" "Apple_partition_map" ++
  mac_block 2 64 1600 "bootstrap" "Apple_Bootstrap".

Definition disk0 (bytes : list Z) (blksize : Z) : pstate image :=
  PState (replicate 2048 0) [] heap0 (Image bytes blksize 0 (bs "block" ++ [0]) []).

Lemma mac_table_read_witness :
  let env := PromEnv 0 0 7 0 false in
  ∃ s', read_table env 3 7 512 (disk0 mac_disk 512) = (Ok tt, s') ∧
    plist s' = [Partition 2 (Some (bs "Apple_Bootstrap" ++ [0])) (Some (bs "bootstrap" ++ [0])) 64 1600 512 0;
                Partition 1 (Some (bs "Apple_partition_map" ++ [0])) (Some (bs "Apple" ++ [0])) 1 63 512 0].
Proof.
  intros env.
  destruct (@mac_table_read image _ env 7 (holds mac_disk 512) (image_block mac_disk 512)
    (image_device env mac_disk 512 ltac:(lia)) 3
    (slice mac_disk 0 512) [slice mac_disk 512 512; slice mac_disk 1024 512] (disk0 mac_disk 512))
    as (s' & E & El); [by vm_compute|by_decision|by_decision|by vm_compute| | |by_decision| |
                       exists s'; split; [exact E|rewrite El; by vm_compute]].
  - split; [by_decision|]. split; [by_decision|by vm_compute].
  - intros [|[|i]] b [= <-]; by vm_compute.
  - simpl. lia.
Defined.

(** C22: on a disk with a PC partition table the lookup lists exactly the entries of type
    Linux or Linux RAID, each with its number and its little-endian start and size. *)
Theorem fdisk_table_read {F} `{Firmware F} env disk (inv : F → Prop) block
    `{!BlockDevice env disk inv block} fuel k b0 (s : pstate F) :
  block 0 = Some b0 → are_bytes b0 → 512 <= Z.of_nat (length b0) →
  desc_signature b0 ≠ MAC_DRIVER_MAGIC → byte_at b0 510 = 85 → byte_at b0 511 = 170 → inv (pfw s) →
  ∃ s', read_table env fuel disk k s = (Ok tt, s') ∧
    plist s' = rev (omap (fdisk_partition b0) [1; 2; 3; 4]) ++ plist s.
Proof. by eapply read_table_fdisk. Qed.

Definition pc_disk : list Z :=
  replicate 446 0 ++ [0; 0; 0; 0; 7; 0; 0; 0; 63; 0; 0; 0; 1; 0; 0; 0] ++
  [0; 0; 0; 0; 131; 0; 0; 0; 0; 8; 0; 0; 0; 0; 16; 0] ++ replicate 16 0 ++
  [128; 0; 0; 0; 253; 0; 0; 0; 4; 3; 2; 1; 8; 7; 6; 5] ++ [85; 170].

Lemma fdisk_table_read_witness :
  let env := PromEnv 0 0 7 0 false in
  ∃ s', read_table env 0 7 512 (disk0 pc_disk 512) = (Ok tt, s') ∧
    plist s' = [Partition 4 (Some (bs "Linux" ++ [0])) None 16909060 84281096 512 253;
                Partition 2 (Some (bs "Linux" ++ [0])) None 2048 1048576 512 131].
Proof.
  intros env.
  destruct (@fdisk_table_read image _ env 7 (holds pc_disk 512) (image_block pc_disk 512)
    (image_device env pc_disk 512 ltac:(lia)) 0 512 pc_disk (disk0 pc_disk 512)) as (s' & E & El);
    [by vm_compute|by_decision|by_decision|by vm_compute|by vm_compute|by vm_compute|by_decision|].
  exists s'. split; [exact E|rewrite El; by vm_compute].
Defined.

(** on a device with 2048-byte blocks and neither of those tables, the lookup finds
    the first block from 16 to 99 that is an ISO9660 volume descriptor and lists one
    partition 0 that starts there. *)
Theorem iso_table_read {F} `{Firmware F} env disk (inv : F → Prop) block
    `{!BlockDevice env disk inv block} fuel b0 n (s : pstate F) :
  block 0 = Some b0 → 512 <= Z.of_nat (length b0) →
  desc_signature b0 ≠ MAC_DRIVER_MAGIC → (byte_at b0 510 ≠ 85 ∨ byte_at b0 511 ≠ 170) →
  16 <= n < 100 →
  (∀ i, 16 <= i < n → ∃ b, block i = Some b ∧ 512 <= Z.of_nat (length b) ∧ ¬ iso_block b) →
  (∃ b, block n = Some b ∧ 512 <= Z.of_nat (length b) ∧ iso_block b) → inv (pfw s) →
  ∃ s', read_table env fuel disk 2048 s = (Ok tt, s') ∧
    plist s' = Partition 0 None None n 0 2048 0 :: plist s.
Proof. by eapply read_table_iso. Qed.

Definition cd : list Z := replicate (17 * 2048) 0 ++ block_of 2048 (1 :: bs "CD001").

Lemma iso_table_read_witness :
  let env := PromEnv 0 0 7 0 false in
  ∃ s', read_table env 0 7 2048 (disk0 cd 2048) = (Ok tt, s') ∧
    plist s' = [Partition 0 None None 17 0 2048 0].
Proof.
  intros env.
  destruct (@iso_table_read image _ env 7 (holds cd 2048) (image_block cd 2048)
    (image_device env cd 2048 ltac:(lia)) 0 (replicate 2048 0) 17 (disk0 cd 2048)) as (s' & E & El);
    [by vm_compute|by_decision|by vm_compute|left; by vm_compute|lia| | |by_decision|
     exists s'; split; [exact E|rewrite El; by vm_compute]].
  - intros i Hi. assert (i = 16) as -> by lia. exists (replicate 2048 0).
    split; [by vm_compute|]. split; [by vm_compute|]. by vm_compute.
  - exists (block_of 2048 (1 :: bs "CD001")). split; [by vm_compute|]. split; by vm_compute.
Defined.

(** C30: on a disk whose block 0 is an Amiga rigid disk block, the lookup follows the
    list of partition blocks to its end and lists each, numbered from 1, with the
    start and the size its cylinders give. *)
Theorem amiga_table_read {F} `{Firmware F} env disk (inv : F → Prop) block
    `{!BlockDevice env disk inv block} fuel b0 l (s : pstate F) :
  block 0 = Some b0 → are_bytes b0 → amiga_block_ok AMIGA_ID_RDB b0 →
  (byte_at b0 510 ≠ 85 ∨ byte_at b0 511 ≠ 170) →
  amiga_chain block (amiga_block b0 AMIGA_PARTITIONS) l → NoDup l.*1 →
  Forall (λ p, p / 32 <= amiga_block b0 AMIGA_RDBLIMIT / 32) l.*1 →
  (malloc (u32 (4 * (amiga_block b0 AMIGA_RDBLIMIT / 32 + 2))) (pheap s)).1 ≠ 0 →
  inv (pfw s) → (length l < fuel)%nat → Z.of_nat (length l) < INT_MAX →
  ∃ s', read_table env fuel disk 512 s = (Ok tt, s') ∧
    plist s' = rev (imap (λ i e,
      amiga_entry (u32 (amiga_block b0 AMIGA_SECT * amiga_block b0 AMIGA_HEADS)) (1 + Z.of_nat i) e.2) l)
      ++ plist s.
Proof. by eapply read_table_amiga. Qed.

(** the words of an Amiga block with their checksum in word 2 *)
Definition amiga_block_of (words : list (Z * Z)) : list Z :=
  let put := foldl (λ b w, store b (4 * w.1) (put_be32 w.2)) (replicate 512 0) ((AMIGA_LENGTH, 64) :: words) in
  store put 8 (put_be32 (u32 (- sum_words 63 put 1 (amiga_block put 0)))).

Definition amiga_disk : list Z :=
  amiga_block_of [(0, AMIGA_ID_RDB); (7, 2); (17, 16); (18, 4); (33, 40)] ++
  amiga_block_of [(0, AMIGA_ID_PART); (4, AMIGA_END); (41, 100); (42, 199)] ++
  amiga_block_of [(0, AMIGA_ID_PART); (4, 1); (41, 2); (42, 99)].

Lemma amiga_table_read_witness :
  let env := PromEnv 0 0 7 0 false in
  ∃ s', read_table env 3 7 512 (disk0 amiga_disk 512) = (Ok tt, s') ∧
    plist s' = [Partition 2 (Some (bs "Linux" ++ [0])) None 6400 6400 512 0;
                Partition 1 (Some (bs "Linux" ++ [0])) None 128 6272 512 0].
Proof.
  intros env.
  destruct (@amiga_table_read image _ env 7 (holds amiga_disk 512) (image_block amiga_disk 512)
    (image_device env amiga_disk 512 ltac:(lia)) 3 (slice amiga_disk 0 512)
    [(2, slice amiga_disk 1024 512); (1, slice amiga_disk 512 512)] (disk0 amiga_disk 512)) as (s' & E & El);
    [by vm_compute|by_decision| |left; by vm_compute| |by_decision|by_decision|by vm_compute|by_decision|
     simpl; lia|by vm_compute|exists s'; split; [exact E|rewrite El; by vm_compute]].
  - split; [by vm_compute|]. split; [by vm_compute|]. split; by vm_compute.
  - repeat match goal with |- _ ∧ _ => split end; by vm_compute.
Defined.

(** C31: whatever the blocks of the disk hold, the walk over an Amiga table ends: it
    never takes a block twice, so with fuel for the blocks the table has room for it
    returns, and it lists at most that many partitions, numbered in order. *)
Theorem amiga_walk_ends {F} `{Firmware F} env fuel disk k bpc part n (s : pstate F) :
  (32 * n < fuel)%nat →
  returns (amiga_loop env fuel disk k bpc part 1 (replicate n 0)) s
    (λ _ s', ∃ ps, plist s' = ps ++ plist s ∧
       map part_number ps = rev (map s32 (seqZ 1 (Z.of_nat (length ps)))) ∧
       (length ps <= 32 * n)%nat).
Proof.
  intros Hf. change 1 with (s32 1) at 1. eapply returns_mono.
  - apply (amiga_loop_returns env fuel disk k bpc part 1 (replicate n 0) []).
    + split; [constructor|by apply Forall_nil].
    + rewrite length_replicate. simpl. lia.
  - simpl. intros _ s' (ps & El & En & Hlen). exists ps. rewrite length_replicate in Hlen.
    split; [done|]. split; [done|lia].
Qed.

(** a table whose only partition block is linked to itself *)
Definition amiga_loop_disk : list Z :=
  replicate 512 0 ++ amiga_block_of [(0, AMIGA_ID_PART); (4, 1); (41, 2); (42, 99)].

Lemma amiga_walk_ends_witness :
  let env := PromEnv 0 0 7 0 false in
  let m := amiga_loop env 33 7 512 64 1 1 (replicate 1 0) in
  length (plist (m (disk0 amiga_loop_disk 512)).2) = 1%nat ∧
  returns m (disk0 amiga_loop_disk 512)
    (λ _ s', ∃ ps, plist s' = ps ++ [] ∧
       map part_number ps = rev (map s32 (seqZ 1 (Z.of_nat (length ps)))) ∧ (length ps <= 32 * 1)%nat).
Proof.
  intros env m. split; [by vm_compute|].
  apply (amiga_walk_ends env 33 7 512 64 1 1 (disk0 amiga_loop_disk 512)). lia.
Defined.

(** ** The code run on images *)

(** the type of a partition of a disk, from its path *)
Example bootstrap_type :
  (get_part_type (PromEnv 0 0 7 0 false) 3 false (bs "hd") 2 (disk0 mac_disk 512)).1 =
    Ok (Some (bs "Apple_Bootstrap")).
Proof. by vm_compute. Qed.

(** the search for an Amiga table never answers -1, so a disk without any table is read
    as an Amiga one: the message for unknown tables is never printed *)
Example blank_disk_is_amiga :
  im_shown (pfw (read_table (PromEnv 0 0 7 0 false) 3 7 512 (disk0 (replicate (16 * 512) 0) 512)).2) =
    bs "Amiga partition table corrupted at block 0" ++ [13; 10] ++
    bs "block type is not partition but 00000000" ++ [13; 10].
Proof. by vm_compute. Qed.

(** the block size is compared as a number of words: with blocks of 2048 bytes a length
    above 512 makes the checksum read past the buffer *)
Example checksum_overrun : _amiga_checksum 2048 (store (replicate 2048 0) 4 (put_be32 513)) = None.
Proof. by vm_compute. Qed.
