(* ===== verification/Fs.v ===== *)
(** The file layer: [second/fs.c], [second/fs_of.c], [second/fs_swap.c],
    [second/fs_iso.c] and the second half of [second/file.c].

    A file system is a record of operations, as [struct fs_t]; a file carries the name
    of its file system.  The three file systems of disks are arguments here: what
    [fs_open] needs of them is the operation that opens a file.  The tables themselves are
    in [System].  Blocks for strings are
    taken to be available; a NULL pointer used as a string reads the bytes at address
    0, which are the parameter [low]. *)
From S2P Require Import Prelude Ctype CString Numeric Vsprintf Malloc Prom Disk Devpath Partition.

(** ** Data *)

Inductive fs_name := FsDefault | FsSwap | FsExt2 | FsXfs | FsReiserfs | FsOf | FsNet.

#[export] Instance fs_name_eq_dec : EqDecision fs_name.
Proof. solve_decision. Defined.

(** [struct boot_file_t]; [buffer] is its address and the bytes there, zeros behind them *)
Record boot_file := BFile {
  fs : option fs_name;
  device_kind : Z;
  of_device : Z;
  inode : Z;
  pos : Z;
  buffer : option (Z * list Z);
  len : Z;
}.

Definition set_fs v b := BFile v (device_kind b) (of_device b) (inode b) (pos b) (buffer b) (len b).
Definition set_device_kind v b := BFile (fs b) v (of_device b) (inode b) (pos b) (buffer b) (len b).
Definition set_of_device v b := BFile (fs b) (device_kind b) v (inode b) (pos b) (buffer b) (len b).
Definition set_pos v b := BFile (fs b) (device_kind b) (of_device b) (inode b) v (buffer b) (len b).
Definition set_buffer v b := BFile (fs b) (device_kind b) (of_device b) (inode b) (pos b) v (len b).
Definition set_len v b := BFile (fs b) (device_kind b) (of_device b) (inode b) (pos b) (buffer b) v.

(** the static buffers paths are made in *)
Inductive sbuf := OfBuffer | NetBuffer | SwapName.

#[export] Instance sbuf_eq_dec : EqDecision sbuf.
Proof. solve_decision. Defined.

Definition LOAD_BUFFER_SIZE : Z := 25165824.
Definition BLKCOUNT : Z := 2.

(** the signatures of swap space: magic and offset, each of 10 bytes *)
Definition signatures : list (list Z * Z) :=
  [(bs "SWAP-SPACE", 4086); (bs "SWAPSPACE2", 4086); (bs "SWAP-SPACE", 65526); (bs "SWAPSPACE2", 65526)].

(** [for (p = filename; *p; p++) if ( *p == '/') *p = '\\';] *)
Definition backslashes (s : list Z) : list Z := map (λ c, if c =? 47 then 92 else c) s.

Section fs.
Context {F : Type} `{Firmware F} {X : Type}.
Context (env : prom_env) (low : list Z) (bplan : bool).

(** the machine: what the lookup of partitions keeps, the static buffers, [fserrorno]
    and what the file systems keep *)
Record fstate := FState {
  f_base : pstate F;
  f_bufs : sbuf → list Z;
  fserrorno : Z;
  f_priv : X;
}.

Definition fsm (A : Type) : Type := stm fstate fault A.

Definition on_base {A} (m : stm (pstate F) fault A) : stm fstate fault A := λ s,
  let '(r, b) := m (f_base s) in (r, FState b (f_bufs s) (fserrorno s) (f_priv s)).

Definition set_fw (f : F) (b : pstate F) : pstate F := PState (block_buffer b) (plist b) (pheap b) f.

(** a call of the firmware *)
Definition call {A} (g : F → A * F) : stm fstate fault A :=
  on_base (λ b, let '(a, f) := g (pfw b) in (Ok a, set_fw f b)).

Definition print (fmt : list Z) (args : list arg) : stm fstate fault unit :=
  call (λ f, (tt, prom_printf env fmt args f)).

Definition set_errno (e : Z) : stm fstate fault unit :=
  modify (λ s, FState (f_base s) (f_bufs s) e (f_priv s)).

(** a string that may be NULL *)
Definition cstr (p : option (list Z)) : list Z := match p with Some s => s | None => low end.

Definition set_buf (i : sbuf) (b : list Z) : stm fstate fault unit :=
  modify (λ s, FState (f_base s) (λ j, if decide (j = i) then b else f_bufs s j) (fserrorno s) (f_priv s)).

(** [strncpy(buffer, s, n)] *)
Definition buf_strncpy (i : sbuf) (s : list Z) (n : nat) : stm fstate fault unit :=
  b ← gets (λ st, f_bufs st i); set_buf i (store b 0 (strncpy s n)).

(** [strcat(buffer, s)] *)
Definition buf_strcat (i : sbuf) (s : list Z) : stm fstate fault unit :=
  b ← gets (λ st, f_bufs st i);
  let n := Z.of_nat (length (cstring b)) in
  let added := cstring s ++ [0] in
  if n + Z.of_nat (length added) <=? Z.of_nat (length b) then set_buf i (store b n added) else fail Overrun.

Fixpoint buf_strcats (i : sbuf) (l : list (list Z)) : stm fstate fault unit :=
  match l with
  | [] => mret tt
  | s :: l => buf_strcat i s;; buf_strcats i l
  end.

Definition buf_string (i : sbuf) : stm fstate fault (list Z) := gets (λ st, cstring (f_bufs st i)).

(** the operation that opens a file of a file system *)
Definition open_fn : Type := boot_file → option partition_t → boot_fspec → stm fstate fault (Z * boot_file).

(** a file name that is present and not empty *)
Definition named (fspec : boot_fspec) : option (list Z) :=
  match file fspec with Some f => if strlen f =? 0 then None else Some f | None => None end.

Definition invalid_device (d : Z) : bool := (d =? PROM_INVALID_HANDLE) || (d =? 0).

(** ** Files of the firmware *)

Definition of_open : open_fn := λ file part fspec,
  buf_strncpy OfBuffer (cstr (dev fspec)) 768;;
  buf_strcat OfBuffer (bs ":");;
  let skip := match part with
              | Some p => (sys_ind p =? LINUX_RAID) || (sys_ind p =? LINUX_NATIVE)
              | None => false
              end in
  if skip : bool then mret (FILE_ERR_BAD_FSYS, file)
  else
    match part with
    | Some p =>
        let pn := format (bs "%02d") [AInt (part_number p)] in
        if 3 <=? Z.of_nat (length pn) then fail Overrun else buf_strcat OfBuffer pn
    | None => mret tt
    end;;
    match named fspec with
    | Some name =>
        match part with Some _ => buf_strcat OfBuffer (bs ",") | None => mret tt end;;
        buf_strcat OfBuffer (backslashes name)
    | None => mret tt
    end;;
    path ← buf_string OfBuffer;
    d ← call (prom_open path);
    let file := set_buffer None (set_pos 0 (set_of_device d file)) in
    mret (if invalid_device d then FILE_ERR_BAD_FSYS else FILE_ERR_OK, file).

(** the result, the bytes read and the file *)
Definition of_read (file : boot_file) (size : Z) : stm fstate fault (Z * list Z * boot_file) :=
  '(n, b) ← call (λ f, let '(n, b, f) := prom_read (of_device file) size f in ((n, b), f));
  let count := u32 n in
  mret (s32 count, b, set_pos (u64 (pos file + count)) file).

Definition of_seek (file : boot_file) (newpos : Z) : stm fstate fault (Z * boot_file) :=
  r ← call (prom_seek (of_device file) newpos);
  mret (if negb (r =? 0) then (FILE_ERR_OK, set_pos newpos file) else (FILE_CANT_SEEK, file)).

Definition of_close (file : boot_file) : stm fstate fault Z :=
  match buffer file with
  | Some (a, _) => call (λ f, (tt, prom_release env a LOAD_BUFFER_SIZE f))
  | None => mret tt
  end;;
  call (λ f, (0, prom_close (of_device file) f)).

(** ** Files of the network *)

(** the arguments of the path, when [/packages/cas] exists and when it does not *)
Definition tftp_arguments (new_tftp : bool) (filename : list Z) (fspec : boot_fspec) : list (list Z) :=
  if new_tftp then
    [cstr (siaddr fspec); bs ","] ++
    (if is_ipv6 fspec && negb (bool_decide (is_Some (strstr_ptr filename (bs "filename="))))
     then [bs "filename="] else []) ++
    [filename; bs ","; cstr (ciaddr fspec); bs ","; cstr (giaddr fspec); bs ",";
     cstr (bootp_retries fspec); bs ","; cstr (tftp_retries fspec); bs ",";
     cstr (subnetmask fspec); bs ","; cstr (addl_params fspec)]
  else [bs ","; filename].

Definition of_net_open : open_fn := λ file part fspec,
  let filename := cstr (option_map backslashes (named fspec)) in
  let d := cstr (dev fspec) in
  buf_strncpy NetBuffer d 768;;
  match d with
  | [] => fail Overrun
  | _ => if negb (byte_at d (strlen d - 1) =? 58) then buf_strcat NetBuffer (bs ":") else mret tt
  end;;
  cas ← call (λ f, (prom_finddevice (bs "/packages/cas") f, f));
  buf_strcats NetBuffer (tftp_arguments (negb (cas =? PROM_INVALID_HANDLE)) filename fspec);;
  path ← buf_string NetBuffer;
  device ← call (prom_open path);
  let file := set_pos 0 (set_of_device device file) in
  if invalid_device device then mret (FILE_ERR_BAD_FSYS, file)
  else
    claimed ← call (prom_claim_chunk_top env LOAD_BUFFER_SIZE);
    match claimed with
    | Ok a =>
        if a =? PROM_INVALID_HANDLE then
          print (bs "Can't claim memory for TFTP download" ++ [10]) [];;
          call (λ f, (tt, prom_close device f));;
          mret (FILE_IOERR, set_buffer (Some (a, [])) file)
        else
          '(n, data) ← call (λ f, let '(n, b, f) := prom_loadmethod device f in ((n, b), f));
          mret (FILE_ERR_OK, set_len (u64 n) (set_buffer (Some (a, data)) file))
    | _ => out_of_fuel
    end.

(** [n] bytes from offset [i] of what was loaded *)
Definition loaded (data : list Z) (i n : Z) : list Z := map (byte_at data) (seqZ i n).

Definition of_net_read (file : boot_file) (size : Z) : stm fstate fault (Z * list Z * boot_file) :=
  let av := u32 (len file - pos file) in
  let count := if av <? size then av else size in
  match buffer file with
  | Some (_, data) =>
      if LOAD_BUFFER_SIZE <? pos file + count then fail Overrun
      else mret (s32 count, loaded data (pos file) count, set_pos (u64 (pos file + count)) file)
  | None => fail NullPointer
  end.

Definition of_net_seek (file : boot_file) (newpos : Z) : stm fstate fault (Z * boot_file) :=
  mret (FILE_ERR_OK, set_pos (if len file <? newpos then len file else newpos) file).

Definition of_net_ino_size (file : boot_file) : Z := u32 (len file).

(** ** Swap space *)

(** [prom_readblocks(device, blk, BLKCOUNT, buffer)] into the block at [a] *)
Definition read_into (device blk a size : Z) : stm fstate fault unit :=
  b ← call (λ f, let '(_, b, f) := prom_readblocks device (u32 blk) BLKCOUNT f in (b, f));
  if size <? Z.of_nat (length b) then fail Overrun
  else on_base (λ p, let h := pheap p in
         (Ok tt, PState (block_buffer p) (plist p)
                   (Heap (malloc_ptr h) (malloc_top h) (last_alloc h) (mem_store (mem h) a b)) (pfw p))).

(** the [for] loop over the signatures: whether one was found *)
Fixpoint probe (l : list (list Z * Z)) (device a : Z) (part : partition_t) : stm fstate fault bool :=
  match l with
  | [] => mret false
  | (magic, offset) :: l =>
      let size := blocksize part * BLKCOUNT in
      let o := offset mod blocksize part in
      read_into device (s32 (u32 (part_start part + offset / blocksize part))) a size;;
      if size <? o + 10 then fail Overrun
      else
        found ← on_base (gets (λ p, memcmp (mem_load (mem (pheap p)) (a + o) 10) magic 10 =? 0));
        if found : bool then mret true else probe l device a part
  end.

Definition swap_open : open_fn := λ file part fspec,
  match part with
  | None => mret (FILE_ERR_BADDEV, file)
  | Some p =>
      if negb (device_kind file =? FILE_DEVICE_BLOCK) then mret (FILE_ERR_BADDEV, file)
      else
        buf_strncpy SwapName (cstr (dev fspec)) 1020;;
        (if bplan then mret tt else buf_strcat SwapName (bs ":0"));;
        name ← buf_string SwapName;
        device ← call (prom_open name);
        let file := set_of_device device file in
        if device =? 0 then mret (FILE_IOERR, file)
        else
          a ← on_base (part_malloc (blocksize p * BLKCOUNT));
          if a =? 0 then mret (FILE_ERR_NOMEM, file)
          else if blocksize p =? 0 then fail DivideByZero
          else
            found ← probe signatures device a p;
            on_base (part_free a);;
            if found : bool then mret (FILE_ERR_NOTFOUND, file)
            else
              call (λ f, (tt, prom_close device f));;
              mret (FILE_ERR_BAD_FSYS, set_of_device 0 file)
  end.

(** ** CD-ROMs, which the firmware reads *)

Definition iso_open : open_fn := λ file part fspec, mret (FILE_ERR_BAD_FSYS, file).
Definition iso_read (file : boot_file) (size : Z) : stm fstate fault (Z * list Z * boot_file) :=
  mret (FILE_ERR_BAD_FSYS, [], file).
Definition iso_seek (file : boot_file) (newpos : Z) : stm fstate fault (Z * boot_file) :=
  mret (FILE_ERR_BAD_FSYS, file).
Definition iso_close (file : boot_file) : stm fstate fault Z := mret 0.

(** ** The choice of a file system *)

(** the [for] loop of [fs_open] *)
Fixpoint open_first (l : list (fs_name * open_fn)) (file : boot_file) (part : option partition_t)
    (fspec : boot_fspec) : stm fstate fault (option fs_name * boot_file) :=
  match l with
  | [] => mret (None, file)
  | (n, o) :: l =>
      '(r, file) ← o file part fspec;
      set_errno r;;
      if negb (r =? FILE_ERR_BAD_FSYS) then mret (Some n, file) else open_first l file part fspec
  end.

Context (ext2_open xfs_open reiserfs_open : open_fn).

Definition block_filesystems : list (fs_name * open_fn) :=
  [(FsSwap, swap_open); (FsExt2, ext2_open); (FsXfs, xfs_open); (FsReiserfs, reiserfs_open); (FsOf, of_open)].

Definition fs_open (file : boot_file) (part : option partition_t) (fspec : boot_fspec)
    : stm fstate fault (option fs_name * boot_file) := open_first block_filesystems file part fspec.

(** the [for] loop of [file_block_open]: the file when a file system opened it, or the
    partition found *)
Fixpoint block_loop (parts : list partition_t) (partition : Z) (file : boot_file) (fspec : boot_fspec)
    : stm fstate fault (bool * option partition_t * boot_file) :=
  match parts with
  | [] => mret (false, None, file)
  | p :: parts =>
      if partition =? -1 then
        '(n, file) ← fs_open file (Some p) fspec;
        e ← gets fserrorno;
        let file := set_fs n file in
        if bool_decide (n = None) || negb (e =? FILE_ERR_OK) then block_loop parts partition file fspec
        else mret (true, None, file)
      else if (0 <=? partition) && (partition =? part_number p) then mret (false, Some p, file)
      else block_loop parts partition file fspec
  end.

(** the partition list is a value, and [partitions_free] at the end has no nodes to free *)
Definition file_block_open (fuel : nat) (file : boot_file) (fspec : boot_fspec) (partition : Z)
    : stm fstate fault (Z * boot_file) :=
  parts ← on_base (partitions_lookup env fuel bplan (cstr (dev fspec)));
  '(opened, found, file) ← block_loop parts partition file fspec;
  file ← (if opened : bool then mret file
          else '(n, file) ← fs_open file found fspec; mret (set_fs n file));
  e ← gets fserrorno;
  mret (e, file).

Definition file_net_open (file : boot_file) (fspec : boot_fspec) : stm fstate fault (Z * boot_file) :=
  of_net_open (set_fs (Some FsNet) file) None fspec.

Definition default_read (file : boot_file) (size : Z) : stm fstate fault (Z * list Z * boot_file) :=
  print (bs "WARNING ! default_read called !" ++ [10]) [];; mret (FILE_ERR_EOF, [], file).
Definition default_seek (file : boot_file) (newpos : Z) : stm fstate fault (Z * boot_file) :=
  print (bs "WARNING ! default_seek called !" ++ [10]) [];; mret (FILE_ERR_EOF, file).
Definition default_close (file : boot_file) : stm fstate fault Z :=
  print (bs "WARNING ! default_close called !" ++ [10]) [];; mret FILE_ERR_OK.

(** [file] is the structure of the caller, of which only the file system is set *)
Definition open_file (fuel : nat) (spec : boot_fspec) (file : boot_file) : stm fstate fault (Z * boot_file) :=
  let file := set_fs (Some FsDefault) file in
  kind ← call (prom_get_devtype env (cstr (dev spec)));
  match kind with
  | None => fail Overrun
  | Some result =>
      if negb (0 <? result) then mret (result, file)
      else
        let file := set_device_kind result file in
        if (result =? FILE_DEVICE_BLOCK) || (result =? FILE_DEVICE_ISCSI)
        then file_block_open fuel file spec (part spec)
        else if result =? FILE_DEVICE_NET then file_net_open file spec
        else mret (0, file)
  end.
End fs.
Arguments fstate F X : clear implicits.
Arguments open_fn F X : clear implicits.

(** ** Paths *)

Lemma cstring_strncpy s n buf : cstr_ok s → (length s < n)%nat → cstring (store buf 0 (strncpy s n)) = s.
Proof.
  intros Hs Hn. assert (strncpy s n = s ++ [0]) as ->.
  { revert n Hn. induction Hs as [|c s Hc Hs IH]; intros [|n] Hn; simpl in *; try lia; [done|].
    unfold is_char in Hc. destruct (Z.eqb_spec c 0); [lia|]. rewrite IH; [done|lia]. }
  unfold store. simpl. rewrite <- app_assoc. by apply cstring_terminated.
Qed.

Lemma length_strncpy s n : (length (strncpy s n) <= n)%nat.
Proof.
  revert s. induction n as [|n IH]; intros s; simpl; [lia|]. destruct (deref s =? 0); simpl; [lia|].
  specialize (IH (tail s)). lia.
Qed.

Lemma cstring_prefix b : ∃ rest, b = cstring b ++ rest.
Proof.
  induction b as [|c b [rest E]]; [by exists []|]. simpl. destruct (c =? 0); [by exists (c :: b)|].
  exists rest. simpl. by rewrite <- E.
Qed.

Lemma cstring_append b t : cstr_ok (cstring b) → cstr_ok t →
  cstring (store b (Z.of_nat (length (cstring b))) (t ++ [0])) = cstring b ++ t.
Proof.
  intros Hb Ht. destruct (cstring_prefix b) as [rest E]. unfold store. rewrite Nat2Z.id.
  rewrite E at 2. rewrite take_app_length, <- app_assoc, app_assoc. cbn [app].
  apply cstring_terminated. by apply cstr_ok_app.
Qed.

Section paths.
Context {F : Type} `{Firmware F} {X : Type}.
Context (env : prom_env) (low : list Z) (bplan : bool).
Implicit Types s : fstate F X.

(** the buffer [i] holds the string [x] in [n] bytes *)
Definition holds_string (i : sbuf) (n : nat) (x : list Z) (st : fstate F X) : Prop :=
  length (f_bufs st i) = n ∧ cstring (f_bufs st i) = x ∧ cstr_ok x.

(** [m] goes from [s] to a state that differs in the buffer [i] only, which holds [x] *)
Definition makes (i : sbuf) (n : nat) (x : list Z) (m : stm (fstate F X) fault unit) (s : fstate F X) : Prop :=
  ∃ s', m s = (Ok tt, s') ∧ holds_string i n x s' ∧ f_base s' = f_base s.

Lemma makes_strncpy i n t k s : length (f_bufs s i) = n → (k <= n)%nat → cstr_ok t → (length t < k)%nat →
  makes i n t (buf_strncpy i t k) s.
Proof.
  intros Hn Hk Ht Hlen. eexists. split; [done|]. split; [|done]. unfold holds_string. cbn [f_bufs].
  rewrite decide_True by done. split; [|split; [by apply cstring_strncpy|done]].
  rewrite length_store; [done|lia|]. pose proof (length_strncpy t k). lia.
Qed.

Lemma makes_strcat i n x t s : holds_string i n x s → cstr_ok t → (length x + length t < n)%nat →
  makes i n (x ++ t) (buf_strcat i t) s.
Proof.
  intros (Hn & Hx & Hok) Ht Hlen. unfold makes, buf_strcat. rewrite gets_bind, Hx, (cstring_id t) by done.
  rewrite length_app. cbn [length].
  destruct (Z.leb_spec (Z.of_nat (length x) + Z.of_nat (length t + 1)) (Z.of_nat (length (f_bufs s i)))); [|lia].
  eexists. split; [done|]. split; [|done]. unfold holds_string. cbn [f_bufs]. rewrite decide_True by done.
  split; [rewrite length_store; [done|lia|rewrite length_app; simpl; lia]|].
  split; [|by apply cstr_ok_app]. rewrite <- Hx at 1. rewrite cstring_append, Hx by congruence. done.
Qed.

Lemma makes_strcats i n l x s : holds_string i n x s → Forall cstr_ok l →
  (length x + length (concat l) < n)%nat → makes i n (x ++ concat l) (buf_strcats i l) s.
Proof.
  intros Hx Hl. revert x s Hx. induction Hl as [|t l Ht Hl IH]; intros x s Hx Hlen; cbn [buf_strcats concat].
  - exists s. by rewrite app_nil_r.
  - simpl in Hlen. rewrite length_app in Hlen.
    destruct (makes_strcat i n x t s Hx Ht ltac:(lia)) as (s1 & E1 & Hs1 & Eb1).
    destruct (IH (x ++ t) s1 Hs1) as (s2 & E2 & Hs2 & Eb2); [rewrite length_app; lia|].
    exists s2. split; [by rewrite (bind_ok _ _ _ _ _ E1)|]. rewrite app_assoc. by rewrite Eb2.
Qed.

Lemma backslashes_ok t : cstr_ok t → cstr_ok (backslashes t).
Proof.
  intros Ht. unfold backslashes. apply List.Forall_map. eapply Forall_impl; [exact Ht|].
  intros c Hc. unfold is_char in *. destruct (Z.eqb_spec c 47); lia.
Qed.

(** the number of a partition, in two digits *)
Definition two_digits (n : Z) : list Z := [48 + n / 10; 48 + n mod 10].

Lemma partition_digits n : 0 <= n < 100 → format (bs "%02d") [AInt n] = two_digits n.
Proof.
  intros Hn. assert (is_byte n) as Hb by (unfold is_byte; lia). cut (n < 100 → format (bs "%02d") [AInt n] = two_digits n).
  { intros E. apply E. lia. }
  clear Hn. apply (bool_decide_unpack _), Is_true_true. by_bytes n Hb.
Qed.

(** the path of a file on a partition: device, colon, number, comma and the name with
    backslashes *)
Definition of_path (d : list Z) (n : Z) (name : list Z) : list Z :=
  d ++ bs ":" ++ two_digits n ++ bs "," ++ backslashes name.

Lemma of_open_spec file p fspec d name s :
  dev fspec = Some d → named fspec = Some name → cstr_ok d → cstr_ok name →
  (length d < 768)%nat → length (f_bufs s OfBuffer) = 1024%nat →
  0 <= part_number p < 100 → sys_ind p ≠ LINUX_RAID → sys_ind p ≠ LINUX_NATIVE →
  (length (of_path d (part_number p) name) < 1024)%nat →
  ∃ s', of_open low file (Some p) fspec s =
      (let '(h, f) := prom_open (of_path d (part_number p) name) (pfw (f_base s)) in
       Ok (if invalid_device h then FILE_ERR_BAD_FSYS else FILE_ERR_OK,
           set_buffer None (set_pos 0 (set_of_device h file))), s') ∧
    pfw (f_base s') = (prom_open (of_path d (part_number p) name) (pfw (f_base s))).2.
Proof.
  intros Hd Hname Hdok Hnok Hlen Hbuf Hn Hr Hl Htot. unfold of_open. rewrite Hd, Hname. cbn [cstr].
  assert (length (of_path d (part_number p) name) = (length d + 4 + length (backslashes name))%nat) as Epath.
  { unfold of_path. rewrite !length_app. change (length (bs ":")) with 1%nat. change (length (bs ",")) with 1%nat.
    change (length (two_digits (part_number p))) with 2%nat. lia. }
  destruct (makes_strncpy OfBuffer 1024 d 768 s Hbuf ltac:(lia) Hdok Hlen) as (s1 & E1 & H1 & B1).
  rewrite (bind_ok _ _ _ _ _ E1).
  destruct (makes_strcat OfBuffer 1024 d (bs ":") s1 H1 ltac:(by_decision)) as (s2 & E2 & H2 & B2).
  { change (length (bs ":")) with 1%nat. lia. }
  rewrite (bind_ok _ _ _ _ _ E2).
  destruct (Z.eqb_spec (sys_ind p) LINUX_RAID); [done|]. destruct (Z.eqb_spec (sys_ind p) LINUX_NATIVE); [done|].
  cbn [orb]. rewrite partition_digits by done. change (3 <=? Z.of_nat (length (two_digits (part_number p)))) with false.
  cbn iota.
  assert (cstr_ok (two_digits (part_number p))) as Hdig.
  { unfold two_digits. repeat constructor; unfold is_char; Z.div_mod_to_equations; lia. }
  destruct (makes_strcat OfBuffer 1024 _ (two_digits (part_number p)) s2 H2 Hdig) as (s3 & E3 & H3 & B3).
  { rewrite length_app. change (length (bs ":")) with 1%nat.
    change (length (two_digits (part_number p))) with 2%nat. lia. }
  rewrite (bind_ok _ _ _ _ _ E3).
  destruct (makes_strcat OfBuffer 1024 _ (bs ",") s3 H3 ltac:(by_decision)) as (s4 & E4 & H4 & B4).
  { rewrite !length_app. change (length (bs ":")) with 1%nat. change (length (bs ",")) with 1%nat.
    change (length (two_digits (part_number p))) with 2%nat. lia. }
  destruct (makes_strcat OfBuffer 1024 _ (backslashes name) s4 H4 (backslashes_ok name Hnok)) as (s5 & E5 & H5 & B5).
  { rewrite !length_app. change (length (bs ":")) with 1%nat. change (length (bs ",")) with 1%nat.
    change (length (two_digits (part_number p))) with 2%nat. lia. }
  erewrite bind_ok by (rewrite (bind_ok _ _ _ _ _ E4); exact E5).
  unfold buf_string. rewrite gets_bind. destruct H5 as (_ & -> & _).
  rewrite <- !app_assoc. fold (of_path d (part_number p) name).
  assert (f_base s5 = f_base s) as Eb by congruence.
  unfold call, on_base, mbind, stm_bind. rewrite Eb.
  destruct (prom_open _ (pfw (f_base s))) as [h f]. eexists. split; [done|]. done.
Qed.
End paths.

(** ** Files of the network *)

Lemma loaded_slice data i n : 0 <= i → 0 <= n → i + n <= Z.of_nat (length data) →
  loaded data i n = slice data i n.
Proof.
  intros Hi Hn Hlen. apply list_eq. intros k. unfold loaded, slice.
  rewrite list_lookup_fmap. destruct (decide (k < Z.to_nat n)%nat) as [Hk|Hk].
  - rewrite lookup_seqZ_lt, lookup_take, decide_True, lookup_drop by lia. simpl.
    destruct (lookup_lt_is_Some_2 data (Z.to_nat i + k)) as [x Hx]; [lia|]. rewrite Hx. f_equal.
    unfold byte_at. destruct (Z.ltb_spec (i + Z.of_nat k) 0); [lia|].
    rewrite Z2Nat.inj_add, Nat2Z.id by lia. by apply nth_lookup_Some.
  - rewrite lookup_seqZ_ge, lookup_take, decide_False by lia. done.
Qed.

Section network.
Context {F : Type} `{Firmware F} {X : Type}.
Implicit Types s : fstate F X.

Lemma net_read_spec file a data newpos size s :
  buffer file = Some (a, data) → len file = Z.of_nat (length data) →
  Z.of_nat (length data) <= LOAD_BUFFER_SIZE → 0 <= newpos → 0 <= size < 4294967296 →
  let p := Z.min newpos (len file) in
  let n := Z.min size (len file - p) in
  ('(_, file) ← of_net_seek file newpos; of_net_read file size) s =
    (Ok (n, slice data p n, set_pos (p + n) file), s).
Proof.
  intros Hb Hl Hmax Hp Hs p n. unfold of_net_seek. rewrite ret_bind. unfold of_net_read.
  cbn [set_pos len pos buffer]. unfold LOAD_BUFFER_SIZE in *.
  assert ((if len file <? newpos then len file else newpos) = p) as ->.
  { unfold p. destruct (Z.ltb_spec (len file) newpos); lia. }
  rewrite u32_small by (unfold p; lia).
  assert ((if len file - p <? size then len file - p else size) = n) as ->.
  { unfold n. destruct (Z.ltb_spec (len file - p) size); lia. }
  assert (0 <= p ∧ 0 <= n ∧ p + n <= Z.of_nat (length data)) as (? & ? & ?) by (unfold p, n; lia).
  rewrite Hb. destruct (Z.ltb_spec 25165824 (p + n)); [lia|].
  rewrite loaded_slice by lia. rewrite s32_small by (unfold INT_MIN, INT_MAX; lia).
  rewrite u64_small by lia. done.
Qed.
End network.

(** ** iSCSI disks *)

Section iscsi.
Context {F : Type} `{Firmware F} {X : Type}.
Context (env : prom_env) (low : list Z) (bplan : bool) (ext2_open xfs_open reiserfs_open : open_fn F X).
Implicit Types s : fstate F X.

Let fs_open := fs_open low bplan ext2_open xfs_open reiserfs_open.

(** the swap checker comes first and refuses what is not a partition of a block device *)
Lemma fs_open_refused file part fspec s :
  (part = None ∨ device_kind file ≠ FILE_DEVICE_BLOCK) →
  fs_open file part fspec s =
    (Ok (Some FsSwap, file), FState (f_base s) (f_bufs s) FILE_ERR_BADDEV (f_priv s)).
Proof.
  intros Hk. unfold fs_open, Fs.fs_open, block_filesystems. cbn [open_first].
  assert (swap_open low bplan file part fspec s = (Ok (FILE_ERR_BADDEV, file), s)) as E.
  { unfold swap_open. destruct part as [p|]; [|done]. destruct Hk as [?|Hk]; [done|].
    destruct (Z.eqb_spec (device_kind file) FILE_DEVICE_BLOCK); [done|]. done. }
  rewrite (bind_ok _ _ _ _ _ E). done.
Qed.

Lemma block_loop_refused parts partition file fspec s : device_kind file = FILE_DEVICE_ISCSI →
  ∃ found file' s', block_loop low bplan ext2_open xfs_open reiserfs_open parts partition file fspec s =
    (Ok (false, found, file'), s') ∧ device_kind file' = FILE_DEVICE_ISCSI.
Proof.
  revert file s. induction parts as [|p parts IH]; intros file s Hk; cbn [block_loop]; [by eauto|].
  destruct (partition =? -1).
  - assert (device_kind file ≠ FILE_DEVICE_BLOCK) as Hb by (by rewrite Hk).
    rewrite (bind_ok _ _ _ _ _ (fs_open_refused file (Some p) fspec s (or_intror Hb))).
    rewrite gets_bind. cbn [fserrorno]. rewrite bool_decide_false by done. cbn [orb].
    change (negb (FILE_ERR_BADDEV =? FILE_ERR_OK)) with true. cbn iota. by apply IH.
  - destruct (_ && _); [by eauto|]. by apply IH.
Qed.

Lemma open_file_refused fuel spec file parts b s f' :
  prom_get_devtype env (cstr low (dev spec)) (pfw (f_base s)) = (Some FILE_DEVICE_ISCSI, f') →
  partitions_lookup env fuel bplan (cstr low (dev spec)) (set_fw f' (f_base s)) = (Ok parts, b) →
  ∃ file' s', open_file env low bplan ext2_open xfs_open reiserfs_open fuel spec file s =
    (Ok (FILE_ERR_BADDEV, file'), s').
Proof.
  intros Hd Hp. unfold open_file, call, on_base. unfold mbind at 1, stm_bind at 1. rewrite Hd.
  change (negb (0 <? FILE_DEVICE_ISCSI)) with false. cbn iota.
  change ((FILE_DEVICE_ISCSI =? FILE_DEVICE_BLOCK) || (FILE_DEVICE_ISCSI =? FILE_DEVICE_ISCSI)) with true.
  cbn iota. unfold file_block_open.
  set (file1 := set_device_kind FILE_DEVICE_ISCSI _). set (s1 := FState _ _ _ _).
  assert (on_base (partitions_lookup env fuel bplan (cstr low (dev spec))) s1 =
    (Ok parts, FState b (f_bufs s) (fserrorno s) (f_priv s))) as E1.
  { unfold on_base, s1. cbn [f_base]. by rewrite Hp. }
  rewrite (bind_ok _ _ _ _ _ E1).
  destruct (block_loop_refused parts (part spec) file1 spec (FState b (f_bufs s) (fserrorno s) (f_priv s)))
    as (found & file2 & s2 & E2 & Hk); [done|].
  rewrite (bind_ok _ _ _ _ _ E2).
  assert (device_kind file2 ≠ FILE_DEVICE_BLOCK) as Hb by (by rewrite Hk).
  erewrite bind_ok by (rewrite (bind_ok _ _ _ _ _ (fs_open_refused file2 found spec s2 (or_intror Hb))); done).
  rewrite gets_bind. eexists _, _. done.
Qed.
End iscsi.

(** ** Theorems *)

(** the path [of_open] gives to the firmware is the device, a colon, the number of
    the partition in two digits, a comma and the file name with its slashes turned to
    backslashes; the file is open at position 0 when the firmware returns a valid handle,
    and the file system is declined when it does not. *)
Theorem of_open_path {F} `{Firmware F} {X} low file p fspec d name (s : fstate F X) :
  dev fspec = Some d → named fspec = Some name → cstr_ok d → cstr_ok name →
  (length d < 768)%nat → length (f_bufs s OfBuffer) = 1024%nat →
  0 <= part_number p < 100 → sys_ind p ≠ LINUX_RAID → sys_ind p ≠ LINUX_NATIVE →
  (length (of_path d (part_number p) name) < 1024)%nat →
  ∃ s', of_open low file (Some p) fspec s =
      (let '(h, f) := prom_open (of_path d (part_number p) name) (pfw (f_base s)) in
       Ok (if invalid_device h then FILE_ERR_BAD_FSYS else FILE_ERR_OK,
           set_buffer None (set_pos 0 (set_of_device h file))), s') ∧
    pfw (f_base s') = (prom_open (of_path d (part_number p) name) (pfw (f_base s))).2.
Proof. apply of_open_spec. Qed.

Definition file0 : boot_file := BFile None 0 0 0 0 None 0.

Definition fs0 (bytes : list Z) (blksize : Z) : fstate image unit :=
  FState (disk0 bytes blksize) (λ _, replicate 1024 0) 0 tt.

Lemma of_open_path_witness :
  let p := Partition 7 None None 64 100 512 0 in
  let fspec := set_file (Some (bs "/boot/vmlinux")) (set_dev (Some (bs "hd")) fspec0) in
  of_path (bs "hd") 7 (bs "/boot/vmlinux") = bs "hd:07,\boot\vmlinux" ∧
  ∃ s', of_open [] file0 (Some p) fspec (fs0 [] 512) =
    (Ok (FILE_ERR_OK, set_of_device 7 file0), s') ∧ pfw (f_base s') = pfw (disk0 [] 512).
Proof.
  intros p fspec. split; [by vm_compute|].
  destruct (of_open_path [] file0 p fspec (bs "hd") (bs "/boot/vmlinux") (fs0 [] 512)) as (s' & E & Ef);
    [done|done|by_decision|by_decision|by_decision|by_decision|by_decision|done|done|by_decision|].
  exists s'. split; [rewrite E; by vm_compute|rewrite Ef; by vm_compute].
Defined.

(** C24: a file loaded from the network is read like its contents: after a seek a read
    returns the bytes from there on, as many as were asked for or are left, and the
    position is behind them; neither ever goes past the end. *)
Theorem net_file_read {F X} file a data newpos size (s : fstate F X) :
  buffer file = Some (a, data) → len file = Z.of_nat (length data) →
  Z.of_nat (length data) <= LOAD_BUFFER_SIZE → 0 <= newpos → 0 <= size < 4294967296 →
  let p := Z.min newpos (len file) in
  let n := Z.min size (len file - p) in
  ('(_, file) ← of_net_seek file newpos; of_net_read file size) s =
    (Ok (n, slice data p n, set_pos (p + n) file), s).
Proof. apply net_read_spec. Qed.

Lemma net_file_read_witness :
  let file := set_len 5 (set_buffer (Some (4096, bs "hello")) file0) in
  ('(_, file) ← of_net_seek file 3; of_net_read file 10) (fs0 [] 512) =
    (Ok (2, bs "lo", set_pos 5 file), fs0 [] 512).
Proof.
  intros file.
  apply (net_file_read file 4096 (bs "hello") 3 10 (fs0 [] 512)); try by_decision; by vm_compute.
Defined.

(** C40: opening a file on an iSCSI device always fails with FILE_ERR_BADDEV, whatever the
    partitions and the file systems: the swap checker is asked first and refuses every
    device that is not a block device, which ends the search. *)
Theorem iscsi_refused {F} `{Firmware F} {X} env low bplan (ext2_open xfs_open reiserfs_open : open_fn F X)
    fuel spec file parts b s f' :
  prom_get_devtype env (cstr low (dev spec)) (pfw (f_base s)) = (Some FILE_DEVICE_ISCSI, f') →
  partitions_lookup env fuel bplan (cstr low (dev spec)) (set_fw f' (f_base s)) = (Ok parts, b) →
  ∃ file' s', open_file env low bplan ext2_open xfs_open reiserfs_open fuel spec file s =
    (Ok (FILE_ERR_BADDEV, file'), s').
Proof. apply open_file_refused. Qed.

Lemma iscsi_refused_witness :
  let opens : open_fn image unit := λ file part fspec, mret (FILE_ERR_OK, file) in
  ∃ file' s', open_file (PromEnv 0 0 7 0 false) [] false opens opens opens 3
      (set_dev (Some (bs "/vdevice/iscsi")) fspec0) file0 (fs0 mac_disk 512) = (Ok (FILE_ERR_BADDEV, file'), s').
Proof.
  intros opens. set (env := PromEnv 0 0 7 0 false). set (st := fs0 mac_disk 512).
  set (m := partitions_lookup env 3 false (bs "/vdevice/iscsi") (set_fw (pfw (f_base st)) (f_base st))).
  assert ((match m.1 with Ok _ => true | _ => false end) = true) as Hm by (by vm_compute).
  destruct m as [[parts|e|] b] eqn:E; [|done|done].
  apply (iscsi_refused env [] false opens opens opens 3 (set_dev (Some (bs "/vdevice/iscsi")) fspec0) file0
    parts b st (pfw (f_base st))); [by vm_compute|exact E].
Defined.
