(* ===== verification/Iso.v ===== *)
(** [second/iso_util.c]: the numbers of ISO9660 structures.  [p] is the list of bytes from
    the pointer on; [char] is signed, and what the functions return is an [int]. *)
From S2P Require Import Prelude Ctype.

(** [p[i] & 0xff] *)
Definition iso_byte (p : list Z) (i : Z) : Z := Z.land (s8 (byte_at p i)) 255.

Definition isonum_711 (p : list Z) : Z := iso_byte p 0.

Definition isonum_712 (p : list Z) : Z :=
  let val := s8 (byte_at p 0) in
  if negb (Z.land val 128 =? 0) then s32 (Z.lor (u32 val) 4294967040) else val.

Definition isonum_721 (p : list Z) : Z := s32 (Z.lor (iso_byte p 0) (Z.shiftl (iso_byte p 1) 8)).
Definition isonum_722 (p : list Z) : Z := s32 (Z.lor (Z.shiftl (iso_byte p 0) 8) (iso_byte p 1)).
Definition isonum_723 (p : list Z) : Z := isonum_721 p.

Definition isonum_731 (p : list Z) : Z :=
  s32 (Z.lor (Z.lor (Z.lor (iso_byte p 0) (Z.shiftl (iso_byte p 1) 8)) (Z.shiftl (iso_byte p 2) 16))
         (Z.shiftl (iso_byte p 3) 24)).
Definition isonum_732 (p : list Z) : Z :=
  s32 (Z.lor (Z.lor (Z.lor (Z.shiftl (iso_byte p 0) 24) (Z.shiftl (iso_byte p 1) 16)) (Z.shiftl (iso_byte p 2) 8))
         (iso_byte p 3)).
Definition isonum_733 (p : list Z) : Z := isonum_731 p.

Lemma iso_byte_byte p i : are_bytes p → iso_byte p i = byte_at p i.
Proof.
  intros Hp. pose proof (byte_at_range p i Hp) as Hb. unfold is_byte in Hb. unfold iso_byte.
  rewrite land_255. words. destruct (Z.ltb_spec (byte_at p i mod 256) 128); Z.div_mod_to_equations; lia.
Qed.

(** four bytes joined, the first the lowest *)
Lemma lor_bytes a b c d : is_byte a → is_byte b → is_byte c → is_byte d →
  Z.lor (Z.lor (Z.lor a (Z.shiftl b 8)) (Z.shiftl c 16)) (Z.shiftl d 24) =
    a + 256 * b + 65536 * c + 16777216 * d.
Proof.
  unfold is_byte. intros. rewrite (Z.lor_comm a), (Z.lor_comm _ (Z.shiftl c 16)), (Z.lor_comm _ (Z.shiftl d 24)).
  rewrite (lor_shiftl_add b a 8), (lor_shiftl_add c _ 16), (lor_shiftl_add d _ 24) by lia. lia.
Qed.

Lemma isonum_731_value p : are_bytes p →
  isonum_731 p = s32 (byte_at p 0 + 256 * byte_at p 1 + 65536 * byte_at p 2 + 16777216 * byte_at p 3).
Proof.
  intros Hp. unfold isonum_731. rewrite !iso_byte_byte by done.
  by rewrite lor_bytes by (by apply byte_at_range).
Qed.

Lemma isonum_732_value p : are_bytes p → isonum_732 p = s32 (be32 p 0).
Proof.
  intros Hp. unfold isonum_732, be32. rewrite !iso_byte_byte by done. rewrite !Z.add_0_l.
  pose proof (byte_at_range p 0 Hp). pose proof (byte_at_range p 1 Hp).
  pose proof (byte_at_range p 2 Hp). pose proof (byte_at_range p 3 Hp). unfold is_byte in *.
  rewrite <- !Z.lor_assoc.
  rewrite (lor_shiftl_add _ (byte_at p 3) 8), (lor_shiftl_add _ _ 16), (lor_shiftl_add _ _ 24) by lia.
  f_equal. lia.
Qed.

Lemma isonum_721_value p : are_bytes p → isonum_721 p = byte_at p 0 + 256 * byte_at p 1.
Proof.
  intros Hp. unfold isonum_721. rewrite !iso_byte_byte by done.
  pose proof (byte_at_range p 0 Hp). pose proof (byte_at_range p 1 Hp). unfold is_byte in *.
  rewrite Z.lor_comm, lor_shiftl_add by lia. rewrite s32_small by (unfold INT_MIN, INT_MAX; lia). lia.
Qed.

Lemma isonum_722_value p : are_bytes p → isonum_722 p = be16 p 0.
Proof.
  intros Hp. unfold isonum_722, be16. rewrite !iso_byte_byte, Z.add_0_l by done.
  pose proof (byte_at_range p 0 Hp). pose proof (byte_at_range p 1 Hp). unfold is_byte in *.
  rewrite lor_shiftl_add by lia. rewrite s32_small by (unfold INT_MIN, INT_MAX; lia). lia.
Qed.

Lemma isonum_712_byte b : is_byte b → isonum_712 [b] = s8 b ∧ isonum_711 [b] = b.
Proof. intros Hb. apply (bool_decide_unpack _), Is_true_true. by_bytes b Hb. Qed.

Lemma put_be32_bytes n : are_bytes (put_be32 n).
Proof. unfold put_be32. repeat constructor; apply u8_range. Qed.

(** The numbers of a volume read back: a byte as itself or as a signed byte, 16-bit
    and 32-bit numbers from either byte order, and the numbers recorded in both orders
    from their first, little-endian half. *)
Theorem isonum_reads b m n rest :
  is_byte b → 0 <= m < 65536 → 0 <= n < 4294967296 → are_bytes rest →
  isonum_711 (b :: rest) = b ∧ isonum_712 (b :: rest) = s8 b ∧
  isonum_723 (rev (put_be16 m) ++ put_be16 m ++ rest) = m ∧ isonum_722 (put_be16 m ++ rest) = m ∧
  isonum_733 (put_le32 n ++ put_be32 n ++ rest) = s32 n ∧ isonum_732 (put_be32 n ++ rest) = s32 n.
Proof.
  intros Hb Hm Hn Hr. pose proof (isonum_712_byte b Hb) as [E2 E1].
  pose proof (put_be32_bytes n) as Hbe.
  assert (are_bytes (put_be16 m)) as Hbm by (repeat constructor; apply u8_range).
  split; [exact E1|]. split; [exact E2|].
  unfold isonum_723, isonum_733. rewrite isonum_721_value, isonum_722_value, isonum_731_value, isonum_732_value.
  - rewrite be32_put by done. unfold put_be16, put_le32, put_be32, be16, byte_at. simpl.
    split; [words; Z.div_mod_to_equations; lia|]. split; [words; Z.div_mod_to_equations; lia|].
    split; [|done]. f_equal. words. Z.div_mod_to_equations. lia.
  - by apply Forall_app_2.
  - apply Forall_app_2; [by apply Forall_rev|]. by apply Forall_app_2.
  - by apply Forall_app_2.
  - apply Forall_app_2; [by apply Forall_rev|]. by apply Forall_app_2.
Qed.

Lemma isonum_reads_witness :
  isonum_733 [120; 86; 52; 18; 18; 52; 86; 120] = 305419896 ∧
  isonum_712 [200; 120; 86; 52; 18; 18; 52; 86; 120] = -56.
Proof.
  destruct (isonum_reads 200 4660 305419896 [120; 86; 52; 18; 18; 52; 86; 120]) as (_ & E1 & _ & _ & E2 & _);
    [by_decision|lia|lia|by_decision|]. split; [|exact E1].
  destruct (isonum_reads 200 4660 305419896 []) as (_ & _ & _ & _ & E3 & _);
    [by_decision|lia|lia|by_decision|]. rewrite app_nil_r in E3. exact E3.
Defined.
