(* ===== verification/Paths.v ===== *)
(** Path names as the readers of [second/fs_xfs.c] and [second/fs_reiserfs.c] walk them:
    positions in buffers, slashes and components. *)
From S2P Require Import Prelude Ctype.

(** a position in the buffer the name was copied to, or in [linkbuf] *)
Record path := Path { in_link : bool; path_at : Z }.

Definition path_from (arg linkbuf : list Z) (p : path) : list Z :=
  drop (Z.to_nat (path_at p)) (if in_link p then linkbuf else arg).

Definition advance (p : path) (n : nat) : path := Path (in_link p) (path_at p + Z.of_nat n).

Fixpoint slashes (d : list Z) : nat :=
  match d with c :: d => if c =? 47 then S (slashes d) else O | [] => O end.

(** the length of a component *)
Fixpoint component (d : list Z) : nat :=
  match d with
  | c :: d => if (c =? 0) || isspace c || (c =? 47) then O else S (component d)
  | [] => O
  end.

(** ** Lemmas *)

(** components, each behind one slash or several *)
Definition path_text (comps : list (nat * list Z)) : list Z :=
  concat (map (λ '(k, c), replicate (S k) 47 ++ c) comps).

Definition comp_char (c : Z) : Prop := is_char c ∧ isspace c = false ∧ c ≠ 47.
Definition comp_ok (c : list Z) : Prop := c ≠ [] ∧ Forall comp_char c.

#[export] Instance comp_char_dec c : Decision (comp_char c).
Proof. unfold comp_char. apply _. Defined.
#[export] Instance comp_ok_dec c : Decision (comp_ok c).
Proof. unfold comp_ok. apply _. Defined.

(** the end of a path: its terminator, or white space behind it *)
Definition path_end (r : list Z) : Prop :=
  match r with c :: _ => c = 0 ∨ isspace c = true | [] => False end.

Lemma slashes_replicate k l : (match l with c :: _ => c ≠ 47 | [] => True end) →
  slashes (replicate k 47 ++ l) = k.
Proof.
  intros Hl. induction k as [|k IH]; cbn [replicate app slashes]; [|by rewrite IH].
  destruct l as [|c l]; [done|]. cbn [slashes]. by rewrite (proj2 (Z.eqb_neq c 47)).
Qed.

Lemma component_app c r : Forall comp_char c → path_end r ∨ deref r = 47 → component (c ++ r) = length c.
Proof.
  intros Hc Hr. induction Hc as [|b c (Hb & Hsp & H47) _ IH]; cbn [app component length].
  - destruct r as [|b r]; [by destruct Hr|]. cbn [component]. cbn [path_end deref] in Hr.
    destruct Hr as [[->| ->]| ->]; [done| |]; rewrite ?orb_true_r; cbn [orb]; done.
  - unfold is_char in Hb. rewrite (proj2 (Z.eqb_neq b 0)), Hsp, (proj2 (Z.eqb_neq b 47)) by lia. cbn [orb]. by rewrite IH.
Qed.

Lemma comp_head c l : comp_ok c → match c ++ l with x :: _ => x ≠ 47 | [] => True end.
Proof. intros [Hne Hc]. destruct Hc as [|x c (_ & _ & Hx)]; [done|exact Hx]. Qed.

Lemma path_text_next comps r : Forall (λ c, comp_ok c.2) comps → path_end r →
  path_end (path_text comps ++ r) ∨ deref (path_text comps ++ r) = 47.
Proof. intros Hc Hr. destruct comps as [|[k c] comps]; [by left|by right]. Qed.

Lemma path_advance arg lb p n : 0 <= path_at p → path_from arg lb (advance p n) = drop n (path_from arg lb p).
Proof.
  intros Hp. unfold path_from, advance. cbn [in_link path_at]. rewrite drop_drop. f_equal. lia.
Qed.
