(* ===== verification/Xfs.v ===== *)
(** The XFS reader, [second/fs_xfs.c], with the structures of [xfs/xfs.h] it looks at.

    The static variables of the file are the record [xst]; [struct xfs_info] is cut in
    three, what [xfs_mount] sets ([geometry]) and the two cursors, over the extents of a
    file and over the entries of a directory.  [FSYS_BUF] is kept as its three parts,
    each access being checked to stay in its part.  The file given to [xfs_read] is the
    one [xfs_open] kept the address of.  Shifts by amounts of the disk that C leaves
    undefined are shifts of integers cut to their width.  [stack] is what local variables
    hold before they are set. *)
From S2P Require Import Prelude Ctype CString Numeric Vsprintf Malloc Prom Disk Devpath Partition Fs Paths.

(** ** Data *)

Definition SECTOR_BITS : Z := 9.
Definition MAX_LINK_COUNT : Z := 8.
Definition XFS_SB_MAGIC : Z := 1481003842.
Definition XFS_SB_VERSION_4 : Z := 4.
Definition XFS_SB_VERSION_NUMBITS : Z := 15.
Definition XFS_DIR2_LEAF1_MAGIC : Z := 54001.
Definition XFS_DIR2_LEAFN_MAGIC : Z := 54015.
Definition XFS_DIR2_DATA_FREE_TAG : Z := 65535.
Definition XFS_DIR2_BLOCK_MAGIC : Z := 1480864322.
Definition XFS_DINODE_FMT_LOCAL : Z := 1.
Definition XFS_DINODE_FMT_EXTENTS : Z := 2.
Definition XFS_DINODE_FMT_BTREE : Z := 3.
Definition IFMT : Z := 61440.
Definition IFDIR : Z := 16384.
Definition IFREG : Z := 32768.
Definition IFLNK : Z := 40960.

(** sizes of structures of the disk *)
Definition sizeof_sb : Z := 200.
Definition sizeof_btree_lblock : Z := 24.
Definition sizeof_btree_block : Z := 24.
Definition sizeof_bmdr_block : Z := 4.
Definition sizeof_bmbt_key : Z := 8.
Definition sizeof_bmbt_ptr : Z := 8.
Definition sizeof_bmbt_rec : Z := 16.
Definition sizeof_data_hdr : Z := 16.
Definition sizeof_block_tail : Z := 8.
Definition sizeof_sf_hdr : Z := 10.

(** the offset of the union behind the core of an inode *)
Definition di_u : Z := 100.

(** the room of the inode in [FSYS_BUF] *)
Definition INODE_ROOM : Z := 24576.

(** [struct xad] *)
Record xad := Xad { xad_offset : Z; xad_start : Z; xad_len : Z }.

(** the fields of [struct xfs_info] that [xfs_mount] sets *)
Record geometry := Geometry {
  bsize : Z;
  dirbsize : Z;
  isize : Z;
  agblocks : Z;
  bdlog : Z;
  blklog : Z;
  inopblog : Z;
  agblklog : Z;
  agnolog : Z;
  dirblklog : Z;
  btnode_ptr0_off : Z;
  rootino : Z;
}.

(** the extents still to come; [xt] points into the inode or into [filebuf] *)
Record extents := Extents {
  nextents : Z;
  next : Z;
  daddr : Z;
  in_filebuf : bool;
  xt : Z;
  ptr0 : Z;
  fpos : Z;
}.

(** the position in a directory; [sfe] is the static pointer of [next_dentry] *)
Record entries := Entries {
  forw : Z;
  dablk : Z;
  i8param : Z;
  dirpos : Z;
  dirmax : Z;
  blkoff : Z;
  sfe : option Z;
}.

(** the static variables and the machine *)
Record xst (W : Type) := XSt {
  x_fw : W;
  xfs_file : boot_file;
  dirbuf : list Z;
  filebuf : list Z;
  inode_buf : list Z;
  open_buffer : list Z;
  partition_offset : Z;
  errnum : Z;
  geo : geometry;
  ext : extents;
  dir : entries;
}.
Arguments XSt {W}. Arguments x_fw {W}. Arguments xfs_file {W}. Arguments dirbuf {W}. Arguments filebuf {W}.
Arguments inode_buf {W}. Arguments open_buffer {W}. Arguments partition_offset {W}. Arguments errnum {W}.
Arguments geo {W}. Arguments ext {W}. Arguments dir {W}.

Section setters.
Context {V W : Type} (s : xst V).
Definition with_fw (v : W) : xst W := XSt v (xfs_file s) (dirbuf s) (filebuf s) (inode_buf s) (open_buffer s) (partition_offset s) (errnum s) (geo s) (ext s) (dir s).
Definition with_file (v : boot_file) : xst V := XSt (x_fw s) v (dirbuf s) (filebuf s) (inode_buf s) (open_buffer s) (partition_offset s) (errnum s) (geo s) (ext s) (dir s).
Definition with_dirbuf (v : list Z) : xst V := XSt (x_fw s) (xfs_file s) v (filebuf s) (inode_buf s) (open_buffer s) (partition_offset s) (errnum s) (geo s) (ext s) (dir s).
Definition with_filebuf (v : list Z) : xst V := XSt (x_fw s) (xfs_file s) (dirbuf s) v (inode_buf s) (open_buffer s) (partition_offset s) (errnum s) (geo s) (ext s) (dir s).
Definition with_inode (v : list Z) : xst V := XSt (x_fw s) (xfs_file s) (dirbuf s) (filebuf s) v (open_buffer s) (partition_offset s) (errnum s) (geo s) (ext s) (dir s).
Definition with_open_buffer (v : list Z) : xst V := XSt (x_fw s) (xfs_file s) (dirbuf s) (filebuf s) (inode_buf s) v (partition_offset s) (errnum s) (geo s) (ext s) (dir s).
Definition with_offset (v : Z) : xst V := XSt (x_fw s) (xfs_file s) (dirbuf s) (filebuf s) (inode_buf s) (open_buffer s) v (errnum s) (geo s) (ext s) (dir s).
Definition with_errnum (v : Z) : xst V := XSt (x_fw s) (xfs_file s) (dirbuf s) (filebuf s) (inode_buf s) (open_buffer s) (partition_offset s) v (geo s) (ext s) (dir s).
Definition with_geo (v : geometry) : xst V := XSt (x_fw s) (xfs_file s) (dirbuf s) (filebuf s) (inode_buf s) (open_buffer s) (partition_offset s) (errnum s) v (ext s) (dir s).
Definition with_ext (v : extents) : xst V := XSt (x_fw s) (xfs_file s) (dirbuf s) (filebuf s) (inode_buf s) (open_buffer s) (partition_offset s) (errnum s) (geo s) v (dir s).
Definition with_dir (v : entries) : xst V := XSt (x_fw s) (xfs_file s) (dirbuf s) (filebuf s) (inode_buf s) (open_buffer s) (partition_offset s) (errnum s) (geo s) (ext s) v.
End setters.

(** the core of the inode in [FSYS_BUF] *)
Definition di_mode (i : list Z) : Z := be16 i 2.
Definition di_format (i : list Z) : Z := s8 (byte_at i 5).
Definition di_size (i : list Z) : Z := s64 (be64 i 56).
Definition di_nextents (i : list Z) : Z := be32 i 76.
Definition di_forkoff (i : list Z) : Z := byte_at i 82.

(** ** Numbers of inodes and blocks *)

(** [((__uint32_t)1 << n) - 1] *)
Definition mask32lo (n : Z) : Z := u32 (u32 (Z.shiftl 1 n) - 1).
Definition XFS_INO_MASK (k : Z) : Z := u32 (u64 (Z.shiftl 1 k) - 1).

Definition agino2agbno (g : geometry) (agino : Z) : Z := Z.shiftr agino (inopblog g).
Definition ino2agno (g : geometry) (ino : Z) : Z := u32 (Z.shiftr ino (agblklog g + inopblog g)).
Definition ino2agino (g : geometry) (ino : Z) : Z := u32 (Z.land ino (XFS_INO_MASK (agblklog g + inopblog g))).
Definition ino2offset (g : geometry) (ino : Z) : Z := s32 (Z.land ino (XFS_INO_MASK (inopblog g))).

Definition xt_start (r : list Z) : Z :=
  Z.lor (Z.lor (u64 (Z.shiftl (Z.land (be32 r 4) (mask32lo 9)) 43)) (Z.shiftl (be32 r 8) 11))
    (Z.shiftr (be32 r 12) 21).

Definition xt_offset (r : list Z) : Z :=
  Z.lor (Z.shiftl (Z.land (be32 r 0) (mask32lo 31)) 23) (Z.shiftr (be32 r 4) 9).

Definition xt_len (r : list Z) : Z := Z.land (be32 r 12) (mask32lo 21).

Definition xfs_highbit : list Z :=
  [-1; 0] ++ replicate 2 1 ++ replicate 4 2 ++ replicate 8 3 ++ replicate 16 4 ++ replicate 32 5 ++
  replicate 64 6 ++ replicate 128 7.

Definition xfs_highbit32 (v : Z) : Z :=
  let at_byte i := i + nth (Z.to_nat (Z.land (Z.shiftr v i) 255)) xfs_highbit 0 in
  if negb (Z.land v 4294901760 =? 0) then
    if negb (Z.land v 4278190080 =? 0) then at_byte 24 else at_byte 16
  else if negb (Z.land v 65535 =? 0) then
    if negb (Z.land v 65280 =? 0) then at_byte 8 else at_byte 0
  else -1.

Definition isinxt (key offset len : Z) : bool := (offset <=? key) && (key <? u64 (offset + len)).

Definition agb2daddr (g : geometry) (agno agbno : Z) : Z :=
  s64 (u64 (Z.shiftl (u64 (agno * agblocks g + agbno)) (bdlog g))).

Definition fsb2daddr (g : geometry) (fsbno : Z) : Z :=
  agb2daddr g (u32 (Z.shiftr fsbno (agblklog g))) (u32 (Z.land fsbno (mask32lo (agblklog g)))).

Definition btroot_maxrecs (g : geometry) (i : list Z) : Z :=
  let tmp := if di_forkoff i =? 0 then isize g else Z.shiftl (di_forkoff i) 3 in
  s32 (u32 (tmp - sizeof_bmdr_block - di_u) / (sizeof_bmbt_key + sizeof_bmbt_ptr)).

Definition roundup8 (n : Z) : Z := Z.land (n + 7) (Z.lnot 7).

Definition put_be64 (z : Z) : list Z := put_be32 (z / 4294967296) ++ put_be32 z.

Section xfs.
Context {F : Type} `{Firmware F}.
Context (low stack : list Z).

Definition xm (A : Type) : Type := stm (xst F) fault A.

(** ** The disk *)

(** the result and the bytes read *)
Definition read_disk_block (block start length : Z) : stm (xst F) fault (Z * list Z) := λ s,
  let pos := u64 (u64 (block * 512) + u64 (partition_offset s + start)) in
  let '(ok, f) := prom_lseek (of_device (xfs_file s)) pos (x_fw s) in
  if ok =? 0 then (Ok (0, []), with_fw s f)
  else
    let '(n, b, f) := prom_read (of_device (xfs_file s)) length f in
    (Ok (n, take (Z.to_nat length) b), with_fw s f).

(** bytes stored at an offset of a buffer *)
Definition put_at (buf : list Z) (at_ : Z) (b : list Z) : stm (xst F) fault (list Z) :=
  if (at_ <? 0) || (Z.of_nat (length buf) <? at_ + Z.of_nat (length b)) then fail Overrun
  else mret (store buf at_ b).

Definition set_pos_to (v : Z) : stm (xst F) fault unit := modify (λ s, with_file s (set_pos (u64 v) (xfs_file s))).
Definition set_extents (e : extents) : stm (xst F) fault unit := modify (λ s, with_ext s e).
Definition set_entries (d : entries) : stm (xst F) fault unit := modify (λ s, with_dir s d).

Definition di_read (ino : Z) : stm (xst F) fault unit :=
  g ← gets geo;
  let agino := ino2agino g ino in
  '(_, b) ← read_disk_block (agb2daddr g (ino2agno g ino) (agino2agbno g agino))
              (s32 (ino2offset g ino * isize g)) (isize g);
  i ← gets inode_buf;
  i ← put_at i 0 b;
  modify (λ s, with_inode s i);;
  let p := di_u + sizeof_bmdr_block + u32 (btroot_maxrecs g i * sizeof_bmbt_key) in
  if INODE_ROOM <? p + sizeof_bmbt_ptr then fail Overrun
  else
    e ← gets ext;
    set_extents (Extents (nextents e) (next e) (daddr e) (in_filebuf e) (xt e) (be64 i p) (fpos e)).

(** ** Extents *)

(** the extents of the leaf of the tree at [d], whose head is [h] *)
Definition start_leaf (d : Z) (h : list Z) : stm (xst F) fault unit :=
  g ← gets geo; e ← gets ext;
  set_extents (Extents (be16 h 6) (fsb2daddr g (be64 h 8)) d (in_filebuf e) (xt e) (ptr0 e) sizeof_btree_block).

(** the [for] loop of [init_extents], down the tree from the block [p] *)
Fixpoint descend (fuel : nat) (p : Z) (h : list Z) : stm (xst F) fault unit :=
  match fuel with
  | O => out_of_fuel
  | S fuel =>
      g ← gets geo;
      let d := fsb2daddr g p in
      '(_, b) ← read_disk_block d 0 sizeof_btree_lblock;
      let h := store h 0 b in
      if be16 h 4 =? 0 then start_leaf d h
      else
        '(_, b) ← read_disk_block d (btnode_ptr0_off g) sizeof_bmbt_ptr;
        descend fuel (be64 (store (put_be64 p) 0 b) 0) h
  end.

Definition init_extents (fuel : nat) : stm (xst F) fault unit :=
  i ← gets inode_buf; e ← gets ext;
  if di_format i =? XFS_DINODE_FMT_EXTENTS then
    set_extents (Extents (di_nextents i) (next e) (daddr e) false di_u (ptr0 e) (fpos e))
  else if di_format i =? XFS_DINODE_FMT_BTREE then
    descend fuel (ptr0 e) (loaded stack 0 sizeof_btree_lblock)
  else mret tt.

(** [xt_offset (xfs.xt)] to [--xfs.nextents] *)
Definition take_extent : stm (xst F) fault (option xad) :=
  e ← gets ext;
  b ← gets (λ s, if in_filebuf e then filebuf s else inode_buf s);
  if Z.of_nat (length b) <? xt e + sizeof_bmbt_rec then fail Overrun
  else
    let r := slice b (xt e) sizeof_bmbt_rec in
    set_extents (Extents (u32 (nextents e - 1)) (next e) (daddr e) (in_filebuf e) (xt e + sizeof_bmbt_rec)
                   (ptr0 e) (fpos e));;
    mret (Some (Xad (xt_offset r) (xt_start r) (xt_len r))).

(** the next leaf of the tree *)
Definition next_leaf : stm (xst F) fault unit :=
  e ← gets ext;
  '(_, b) ← read_disk_block (next e) 0 sizeof_btree_lblock;
  start_leaf (next e) (store (loaded stack 0 sizeof_btree_lblock) 0 b).

(** a record of a leaf, in [filebuf] *)
Definition read_record : stm (xst F) fault unit :=
  e ← gets ext;
  '(_, b) ← read_disk_block (daddr e) (fpos e) sizeof_bmbt_rec;
  f ← gets filebuf;
  f ← put_at f 0 b;
  modify (λ s, with_filebuf s f);;
  set_extents (Extents (nextents e) (next e) (daddr e) true 0 (ptr0 e) (s32 (fpos e + sizeof_bmbt_rec))).

Definition next_extent : stm (xst F) fault (option xad) :=
  i ← gets inode_buf; e ← gets ext;
  if di_format i =? XFS_DINODE_FMT_EXTENTS then
    if nextents e =? 0 then mret None else take_extent
  else if di_format i =? XFS_DINODE_FMT_BTREE then
    if (nextents e =? 0) && (next e =? 0) then mret None
    else
      (if nextents e =? 0 then next_leaf else mret tt);;
      read_record;;
      take_extent
  else mret None.

(** ** File contents *)

(** [buf] from the position [at_] on; [fuel] bounds the extents looked at *)
Fixpoint read_loop (fuel : nat) (endpos endofprev : Z) (buf : list Z) (at_ len : Z)
    : stm (xst F) fault (list Z) :=
  if negb (0 <? len) then mret buf
  else
    match fuel with
    | O => out_of_fuel
    | S fuel =>
        x ← next_extent;
        match x with
        | None => mret buf
        | Some x =>
            g ← gets geo;
            p ← gets (λ s, pos (xfs_file s));
            let offset := xad_offset x in
            let xadlen := xad_len x in
            let start := u64 (Z.shiftl offset (blklog g)) in
            if isinxt (Z.shiftr p (blklog g)) offset xadlen then
              let endofcur := u64 (Z.shiftl (u64 (offset + xadlen)) (blklog g)) in
              let toread := if u64 endpos <=? endofcur then len else s32 (u64 (endofcur - p)) in
              '(_, b) ← read_disk_block (fsb2daddr g (xad_start x)) (s32 (u64 (p - start))) toread;
              buf ← put_at buf at_ b;
              set_pos_to (p + toread);;
              read_loop fuel endpos (u64 (offset + xadlen)) buf (at_ + toread) (s32 (len - toread))
            else if endofprev <? offset then
              let toread := if u64 endpos <=? start then len
                            else s32 (u64 (Z.shiftl (u64 (offset - endofprev)) (blklog g))) in
              set_pos_to (p + toread);;
              if toread <? 0 then fail Overrun
              else
                buf ← put_at buf at_ (replicate (Z.to_nat toread) 0);
                read_loop fuel endpos endofprev buf (at_ + toread) (s32 (len - toread))
            else read_loop fuel endpos (u64 (offset + xadlen)) buf at_ len
        end
    end.

(** the result and what [buf] holds then *)
Definition xfs_read_data (fuel : nat) (buf : list Z) (n : Z) : stm (xst F) fault (Z * list Z) :=
  i ← gets inode_buf;
  p ← gets (λ s, pos (xfs_file s));
  if di_format i =? XFS_DINODE_FMT_LOCAL then
    if (n <? 0) || (INODE_ROOM <? di_u + p + n) then fail Overrun
    else
      buf ← put_at buf 0 (slice i (di_u + p) n);
      set_pos_to (p + n);;
      mret (n, buf)
  else
    l ← gets (λ s, len (xfs_file s));
    let startpos := s32 p in
    let endpos := s32 (p + n) in
    let endpos := if l <? u64 endpos then s32 l else endpos in
    init_extents fuel;;
    buf ← read_loop fuel endpos (u64 (-1)) buf 0 n;
    p ← gets (λ s, pos (xfs_file s));
    mret (s32 (p - startpos), buf).

(** ** Directories *)

(** the loop of [xfs_dabread] *)
Fixpoint dabread_loop (fuel : nat) : stm (xst F) fault unit :=
  match fuel with
  | O => out_of_fuel
  | S fuel =>
      x ← next_extent;
      match x with
      | None => mret tt
      | Some x =>
          g ← gets geo; d ← gets dir;
          if isinxt (dablk d) (xad_offset x) (xad_len x) then
            '(_, b) ← read_disk_block (fsb2daddr g (u64 (xad_start x + dablk d - xad_offset x))) 0 100;
            f ← gets dirbuf;
            f ← put_at f 0 b;
            modify (λ s, with_dirbuf s f)
          else dabread_loop fuel
      end
  end.

Definition xfs_dabread (fuel : nat) : stm (xst F) fault unit := init_extents fuel;; dabread_loop fuel.

Definition sf_ino (i : list Z) (i8 p namelen : Z) : Z :=
  if i8 =? 0 then be64 i (p + namelen + 3) else be32 i (p + namelen + 3).

Definition sf_parent_ino (i : list Z) (i8 : Z) : Z :=
  if i8 =? 0 then be64 i (di_u + 2) else be32 i (di_u + 2).

(** [xfs_read_data (dirbuf + off, n)]: the reading does not look at [dirbuf] *)
Definition read_dirbuf (fuel : nat) (off : Z) (n : Z) : stm (xst F) fault unit :=
  b ← gets dirbuf;
  '(_, v) ← xfs_read_data fuel (drop (Z.to_nat off) b) n;
  modify (λ s, with_dirbuf s (take (Z.to_nat off) b ++ v)).

Definition set_blkoff (v : Z) : stm (xst F) fault unit :=
  modify (λ s, let d := dir s in
    with_dir s (Entries (forw d) (dablk d) (i8param d) (dirpos d) (dirmax d) (s32 v) (sfe d))).

(** a block of leaf entries: how many there are and the block that follows *)
Definition leaf_header : stm (xst F) fault unit :=
  modify (λ s, let d := dir s in let h := dirbuf s in
    with_dir s (Entries (be32 h 0) (dablk d) (i8param d) (dirpos d) (be16 h 12 - be16 h 14) (blkoff d) (sfe d))).

Definition set_dablk (v : Z) : stm (xst F) fault unit :=
  modify (λ s, let d := dir s in
    with_dir s (Entries (forw d) (u32 v) (i8param d) (dirpos d) (dirmax d) (blkoff d) (sfe d))).

Definition set_dirpos (v : Z) : stm (xst F) fault unit :=
  modify (λ s, let d := dir s in
    with_dir s (Entries (forw d) (dablk d) (i8param d) (s32 v) (dirmax d) (blkoff d) (sfe d))).

Definition set_sfe (v : Z) : stm (xst F) fault unit :=
  modify (λ s, let d := dir s in
    with_dir s (Entries (forw d) (dablk d) (i8param d) (dirpos d) (dirmax d) (blkoff d) (Some v))).

(** the entry [dirpos] of a directory in its inode: the name and the number.  The name
    of the parent is taken one byte into the string of one character that names the
    directory itself: it is empty, and the terminator stored falls behind the string, on
    one that nothing reads *)
Definition sf_dentry : stm (xst F) fault (list Z * Z) :=
  d ← gets dir; i ← gets inode_buf;
  if dirpos d =? -2 then mret (bs ".", 0)
  else if dirpos d =? -1 then
    set_sfe (di_u + sizeof_sf_hdr - i8param d);;
    mret ([], sf_parent_ino i (i8param d))
  else
    match sfe d with
    | None => fail NullPointer
    | Some p =>
        if INODE_ROOM <=? p then fail Overrun
        else
          let namelen := byte_at i p in
          if INODE_ROOM <? p + namelen + 11 - i8param d then fail Overrun
          else
            set_sfe (p + namelen + 11 - i8param d);;
            modify (λ s, with_inode s (store i (p + 3 + namelen) [0]));;
            mret (cstring (slice i (p + 3) namelen), sf_ino i (i8param d) p namelen)
    end.

(** the loop over the free space of a directory block, up to an entry, whose first four
    bytes are read *)
Fixpoint skip_free (fuel : nat) : stm (xst F) fault unit :=
  match fuel with
  | O => out_of_fuel
  | S fuel' =>
      g ← gets geo; d ← gets dir; p ← gets (λ s, pos (xfs_file s));
      (if dirbsize g <=? blkoff d then
         set_blkoff sizeof_data_hdr;;
         set_pos_to (Z.lor (Z.land p (u64 (Z.lnot (dirbsize g - 1)))) sizeof_data_hdr)
       else mret tt);;
      read_dirbuf fuel 0 4;;
      d ← gets dir; b ← gets dirbuf; p ← gets (λ s, pos (xfs_file s));
      set_blkoff (blkoff d + 4);;
      if be16 b 0 =? XFS_DIR2_DATA_FREE_TAG then
        let toread := roundup8 (be16 b 2) - 4 in
        set_blkoff (blkoff d + 4 + toread);;
        set_pos_to (p + toread);;
        skip_free fuel'
      else mret tt
  end.

(** the next entry of a directory in blocks *)
Definition block_dentry (fuel : nat) : stm (xst F) fault (list Z * Z) :=
  skip_free fuel;;
  read_dirbuf fuel 4 5;;
  b ← gets dirbuf;
  let ino := be64 b 0 in
  let namelen := byte_at b 8 in
  let toread := roundup8 (namelen + 11) - 9 in
  read_dirbuf fuel 0 toread;;
  d ← gets dir; b ← gets dirbuf;
  set_blkoff (blkoff d + toread + 5);;
  modify (λ s, with_dirbuf s (store b namelen [0]));;
  mret (cstring (slice b 0 namelen), ino).

(** the name and [*ino], which is [ino] before the call *)
Definition next_dentry (fuel : nat) (ino : Z) : stm (xst F) fault (option (list Z) * Z) :=
  d ← gets dir;
  if (dirmax d <=? dirpos d) && (forw d =? 0) then mret (None, ino)
  else
    (if dirmax d <=? dirpos d then
       set_dablk (forw d);; xfs_dabread fuel;; leaf_header;; set_dirpos 0
     else mret tt);;
    i ← gets inode_buf;
    '(name, ino) ←
      (if di_format i =? XFS_DINODE_FMT_LOCAL then sf_dentry
       else if (di_format i =? XFS_DINODE_FMT_BTREE) || (di_format i =? XFS_DINODE_FMT_EXTENTS)
       then block_dentry fuel
       else mret (bs ".", ino));
    d ← gets dir;
    set_dirpos (dirpos d + 1);;
    mret (Some name, ino).

(** down the tree of a directory to its first block of leaf entries *)
Fixpoint first_leaf (fuel : nat) : stm (xst F) fault unit :=
  match fuel with
  | O => out_of_fuel
  | S fuel' =>
      xfs_dabread fuel;;
      b ← gets dirbuf;
      if (be16 b 8 =? XFS_DIR2_LEAFN_MAGIC) || (be16 b 8 =? XFS_DIR2_LEAF1_MAGIC) then leaf_header
      else set_dablk (be32 b 20);; first_leaf fuel'
  end.

Definition set_file_len (v : Z) : stm (xst F) fault unit := modify (λ s, with_file s (set_len (u64 v) (xfs_file s))).

Definition set_dirmax (v : Z) : stm (xst F) fault unit :=
  modify (λ s, let d := dir s in
    with_dir s (Entries (forw d) (dablk d) (i8param d) (dirpos d) (s32 v) (blkoff d) (sfe d))).

Definition first_dentry (fuel : nat) (ino : Z) : stm (xst F) fault (option (list Z) * Z) :=
  i ← gets inode_buf; d ← gets dir; g ← gets geo;
  set_entries (Entries 0 (dablk d) (i8param d) (dirpos d) (dirmax d) (blkoff d) (sfe d));;
  (if di_format i =? XFS_DINODE_FMT_LOCAL then
     set_entries (Entries 0 (dablk d) (if byte_at i (di_u + 1) =? 0 then 4 else 0) (-2) (byte_at i di_u)
                    (blkoff d) (sfe d))
   else if (di_format i =? XFS_DINODE_FMT_EXTENTS) || (di_format i =? XFS_DINODE_FMT_BTREE) then
     set_pos_to 0;;
     set_file_len (di_size i);;
     read_dirbuf fuel 0 sizeof_data_hdr;;
     b ← gets dirbuf;
     (if be32 b 0 =? XFS_DIR2_BLOCK_MAGIC then
        set_pos_to (dirbsize g - sizeof_block_tail);;
        read_dirbuf fuel 0 sizeof_block_tail;;
        b ← gets dirbuf;
        set_dirmax (be32 b 0 - be32 b 4)
      else
        set_dablk (Z.shiftr (Z.shiftl 1 35) (blklog g));;
        first_leaf fuel);;
     set_blkoff sizeof_data_hdr;;
     set_pos_to sizeof_data_hdr;;
     set_dirpos 0
   else mret tt);;
  next_dentry fuel ino.

(** ** Mounting *)

Definition geometry_of (b : list Z) : geometry :=
  let bs := s32 (be32 b 4) in
  {| bsize := bs; blklog := byte_at b 120; bdlog := byte_at b 120 - SECTOR_BITS; rootino := be64 b 56;
     isize := be16 b 104; agblocks := be32 b 84; dirblklog := byte_at b 192;
     dirbsize := s32 (Z.shiftl bs (byte_at b 192)); inopblog := byte_at b 123; agblklog := byte_at b 124;
     agnolog := xfs_highbit32 (u32 (be32 b 88 - 1)) + 1;
     btnode_ptr0_off :=
       s32 (u32 (bs - sizeof_btree_block) / (sizeof_bmbt_key + sizeof_bmbt_ptr) * sizeof_bmbt_key +
            sizeof_btree_block) |}.

Definition xfs_mount : stm (xst F) fault bool :=
  '(n, b) ← read_disk_block 0 0 sizeof_sb;
  if negb (n =? sizeof_sb) then mret false
  else if negb (be32 b 0 =? XFS_SB_MAGIC) then mret false
  else if negb (Z.land (be16 b 100) XFS_SB_VERSION_NUMBITS =? XFS_SB_VERSION_4) then mret false
  else modify (λ s, with_geo s (geometry_of b));; mret true.

(** ** Paths

    The path is in the buffer [xfs_open] copied the name to, or in [linkbuf], where the
    target of a link and what follows the link are put. *)

(** [while (n < (xfs.bsize - 1) && (linkbuf[n++] = *dirname++))], [k] places being left:
    [dirname] may point into [linkbuf] *)
Fixpoint append_rest (k : nat) (arg linkbuf : list Z) (n : Z) (p : path)
    : stm (xst F) fault (Z * list Z) :=
  match k with
  | O => mret (n, linkbuf)
  | S k =>
      match path_from arg linkbuf p with
      | [] => fail Overrun
      | c :: _ =>
          linkbuf ← put_at linkbuf n [c];
          if c =? 0 then mret (n + 1, linkbuf) else append_rest k arg linkbuf (n + 1) (advance p 1)
      end
  end.

Definition dir_error (e : Z) : stm (xst F) fault bool := modify (λ s, with_errnum s e);; mret false.

(** the loop over the entries of a directory: the number found with the name, and
    [new_ino] when there is none *)
Fixpoint find_name (fuel : nat) (comp : list Z) (name : option (list Z)) (new_ino : Z)
    : stm (xst F) fault (bool * Z) :=
  match fuel with
  | O => out_of_fuel
  | S fuel' =>
      if negb (strlen comp =? 0) && (strcmp comp (cstr low name) =? 0) then mret (true, new_ino)
      else
        '(name, new_ino) ← next_dentry fuel new_ino;
        match name with
        | None => mret (false, new_ino)
        | Some _ => find_name fuel' comp name new_ino
        end
  end.

(** the target of a link put before what follows it: whether it is absolute, and [linkbuf] *)
Definition follow_link (fuel : nat) (arg linkbuf : list Z) (p : path) (size : Z)
    : stm (xst F) fault (bool * list Z) :=
  g ← gets geo;
  set_pos_to 0;;
  set_file_len size;;
  '(n, linkbuf) ← xfs_read_data fuel linkbuf (s32 (u64 size));
  if n <? 0 then fail Overrun
  else
    let absolute := byte_at linkbuf 0 =? 47 in
    '(n, linkbuf) ← append_rest (Z.to_nat (bsize g - 1 - n)) arg linkbuf n p;
    linkbuf ← put_at linkbuf n [0];
    mret (absolute, linkbuf).

(** the [for] loop of [xfs_dir] at the inode [ino] *)
Fixpoint walk (fuel : nat) (arg linkbuf : list Z) (p : path) (ino parent_ino new_ino link_count : Z)
    : stm (xst F) fault bool :=
  match fuel with
  | O => out_of_fuel
  | S fuel' =>
      di_read ino;;
      i ← gets inode_buf; g ← gets geo;
      let size := di_size i in
      let type := Z.land (di_mode i) IFMT in
      if type =? IFLNK then
        if MAX_LINK_COUNT <? link_count + 1 then dir_error FILE_ERR_SYMLINK_LOOP
        else if size <? bsize g - 1 then
          '(absolute, linkbuf) ← follow_link fuel arg linkbuf p size;
          walk fuel' arg linkbuf (Path true 0) (if absolute : bool then rootino g else parent_ino) parent_ino new_ino
            (link_count + 1)
        else dir_error FILE_ERR_LENGTH
      else
        let d := path_from arg linkbuf p in
        match d with
        | [] => fail Overrun
        | c :: _ =>
            if (c =? 0) || isspace c then
              if negb (type =? IFREG) then dir_error FILE_ERR_BAD_TYPE
              else set_pos_to 0;; set_file_len size;; mret true
            else if negb (type =? IFDIR) then dir_error FILE_ERR_NOTDIR
            else
              let p := advance p (slashes d) in
              let d := path_from arg linkbuf p in
              let n := component d in
              if (length d <=? n)%nat then fail Overrun
              else
                '(name, new_ino) ← first_dentry fuel new_ino;
                '(found, new_ino) ← find_name fuel (take n d) name new_ino;
                if found : bool then
                  walk fuel' arg linkbuf (advance p n) (if new_ino =? 0 then ino else new_ino) ino new_ino
                    link_count
                else dir_error FILE_ERR_NOTFOUND
        end
  end.

Definition xfs_dir (fuel : nat) (dirname : list Z) : stm (xst F) fault bool :=
  g ← gets geo;
  walk fuel dirname (loaded stack 0 (bsize g)) (Path false 0) (rootino g) (rootino g) (be64 stack 0) 0.

(** ** The operations of the file system *)

Context (bplan : bool).

Definition xfs_open_file (fuel : nat) (file : boot_file) (part : option partition_t) (fspec : boot_fspec)
    : stm (xst F) fault (Z * boot_file) :=
  modify (λ s, with_offset s
    match part with Some p => u64 (part_start p * blocksize p) | None => 0 end);;
  b ← gets open_buffer;
  let b := store b 0 (strncpy (cstr low (dev fspec)) 1020) in
  let name := cstring b ++ (if bplan then [] else bs ":0") in
  b ← put_at b 0 (name ++ [0]);
  modify (λ s, with_open_buffer s b);;
  d ← (λ s, let '(d, f) := prom_open name (x_fw s) in (Ok d, with_fw s f));
  let file := set_of_device d file in
  if invalid_device d then mret (FILE_ERR_BADDEV, file)
  else
    modify (λ s, with_file s file);;
    mounted ← xfs_mount;
    if negb mounted then
      modify (λ s, with_fw s (prom_close d (x_fw s)));;
      mret (FILE_ERR_BAD_FSYS, file)
    else
      b ← gets open_buffer;
      b ← put_at b 0 (cstr low (Devpath.file fspec) ++ [0]);
      modify (λ s, with_open_buffer s b);;
      found ← xfs_dir fuel b;
      file ← gets xfs_file;
      if negb found then
        modify (λ s, with_fw s (prom_close d (x_fw s)));;
        e ← gets errnum;
        mret (e, file)
      else mret (FILE_ERR_OK, file).

(** the file is the one kept by [xfs_open]; the result, [buffer] and the file *)
Definition xfs_read (fuel : nat) (file : boot_file) (size : Z) (buffer : list Z)
    : stm (xst F) fault (Z * list Z * boot_file) :=
  modify (λ s, with_file s file);;
  '(n, b) ← xfs_read_data fuel buffer (s32 size);
  file ← gets xfs_file;
  mret (n, b, file).

Definition xfs_seek (file : boot_file) (newpos : Z) : Z * boot_file := (FILE_ERR_OK, set_pos newpos file).

Definition xfs_close (file : boot_file) : stm (xst F) fault (Z * boot_file) :=
  if of_device file =? 0 then mret (FILE_ERR_OK, file)
  else
    modify (λ s, with_fw s (prom_close (of_device file) (x_fw s)));;
    mret (FILE_ERR_OK, set_of_device 0 file).
End xfs.

(** ** In the file layer *)

(** the place of the static variables among those of the file systems *)
Class XfsState (X : Type) := {
  xfs_static : X → xst unit;
  set_xfs_static : xst unit → X → X;
}.

Section layer.
Context {F : Type} `{Firmware F} {X : Type} `{XfsState X}.

Definition on_xfs {A} (m : stm (xst F) fault A) : stm (fstate F X) fault A := λ s,
  let '(r, x) := m (with_fw (xfs_static (f_priv s)) (pfw (f_base s))) in
  (r, FState (set_fw (x_fw x) (f_base s)) (f_bufs s) (fserrorno s)
        (set_xfs_static (with_fw x tt) (f_priv s))).

Definition xfs_open (low stack : list Z) (bplan : bool) (fuel : nat) : open_fn F X := λ file part fspec,
  on_xfs (xfs_open_file low stack bplan fuel file part fspec).
End layer.

Lemma put_at_ok {F} buf i b (s : xst F) : 0 <= i → i + Z.of_nat (length b) <= Z.of_nat (length buf) →
  put_at buf i b s = (Ok (store buf i b), s).
Proof.
  intros Hi Hl. unfold put_at. rewrite (proj2 (Z.ltb_ge i 0)), (proj2 (Z.ltb_ge _ _)) by lia. done.
Qed.

(** ** The disk *)

Section disk.
Context {F : Type} `{Firmware F} (disk : Z) (inv : F → Prop) (data : list Z) `{!SeekDevice disk inv data}.
Implicit Types s : xst F.

Lemma read_disk_block_ok s block start n pos :
  of_device (xfs_file s) = disk → inv (x_fw s) → pos = block * 512 + (partition_offset s + start) →
  0 <= pos → 0 < n <= INT_MAX → pos + n <= Z.of_nat (length data) < 18446744073709551616 →
  ∃ f, read_disk_block block start n s = (Ok (n, slice data pos n), with_fw s f) ∧ inv f.
Proof.
  intros Hd Hs Ep H0 Hn Hin. unfold read_disk_block.
  assert (u64 (u64 (block * 512) + u64 (partition_offset s + start)) = pos) as ->.
  { unfold u64. rewrite <- Z.add_mod by lia. rewrite <- Ep. apply Z.mod_small. lia. }
  destruct (sd_range (x_fw s) pos n Hs H0 Hn (proj1 Hin)) as (r & f1 & f2 & E1 & Hr & E2 & Hf2).
  rewrite Hd, E1. destruct (Z.eqb_spec r 0); [done|]. rewrite E2. exists f2. split; [|done].
  rewrite take_ge; [done|]. unfold slice. rewrite length_take. lia.
Qed.
End disk.

(** ** Extents *)

(** a record of the list of extents; the flag is 0 *)
Definition put_extent (x : xad) : list Z :=
  put_be32 (xad_offset x / 8388608) ++
  put_be32 (xad_offset x mod 8388608 * 512 + xad_start x / 8796093022208) ++
  put_be32 (xad_start x / 2048 mod 4294967296) ++
  put_be32 (xad_start x mod 2048 * 2097152 + xad_len x).

Definition xad_ok (x : xad) : Prop :=
  0 <= xad_offset x < 18014398509481984 ∧ 0 <= xad_start x < 4503599627370496 ∧ 0 < xad_len x < 2097152.

#[export] Instance xad_ok_dec x : Decision (xad_ok x).
Proof. unfold xad_ok. apply _. Defined.

Lemma put_extent_words x rest : xad_ok x →
  be32 (put_extent x ++ rest) 0 = xad_offset x / 8388608 ∧
  be32 (put_extent x ++ rest) 4 = xad_offset x mod 8388608 * 512 + xad_start x / 8796093022208 ∧
  be32 (put_extent x ++ rest) 8 = xad_start x / 2048 mod 4294967296 ∧
  be32 (put_extent x ++ rest) 12 = xad_start x mod 2048 * 2097152 + xad_len x.
Proof.
  intros (Ho & Hs & Hl). repeat split.
  - etransitivity; [|apply (be32_put _ [])]; [reflexivity|]. Z.div_mod_to_equations; lia.
  - etransitivity; [|apply (be32_put _ [])]; [reflexivity|]. Z.div_mod_to_equations; lia.
  - etransitivity; [|apply (be32_put _ [])]; [reflexivity|]. Z.div_mod_to_equations; lia.
  - etransitivity; [|apply (be32_put _ [])]; [reflexivity|]. Z.div_mod_to_equations; lia.
Qed.

Lemma mask32lo_9 z : Z.land z (mask32lo 9) = z mod 512.
Proof. change (mask32lo 9) with (Z.ones 9). by rewrite Z.land_ones. Qed.
Lemma mask32lo_21 z : Z.land z (mask32lo 21) = z mod 2097152.
Proof. change (mask32lo 21) with (Z.ones 21). by rewrite Z.land_ones. Qed.
Lemma mask32lo_31 z : Z.land z (mask32lo 31) = z mod 2147483648.
Proof. change (mask32lo 31) with (Z.ones 31). by rewrite Z.land_ones. Qed.

Lemma extent_reads x rest : xad_ok x →
  Xad (xt_offset (put_extent x ++ rest)) (xt_start (put_extent x ++ rest)) (xt_len (put_extent x ++ rest)) = x.
Proof.
  intros Hx. destruct (put_extent_words x rest Hx) as (W0 & W1 & W2 & W3). destruct Hx as (Ho & Hs & Hl).
  unfold xt_offset, xt_start, xt_len. rewrite W0, W1, W2, W3, mask32lo_9, mask32lo_21, mask32lo_31.
  destruct x as [o st l]. cbn [xad_offset xad_start xad_len] in *.
  assert (st / 8796093022208 < 512 ∧ 0 <= st / 8796093022208) as [Hst1 Hst2] by (Z.div_mod_to_equations; lia).
  f_equal.
  - rewrite Z.shiftr_div_pow2 by lia. change (2 ^ 9) with 512. rewrite Z.div_add_l by lia.
    rewrite (Z.div_small (st / 8796093022208) 512), Z.add_0_r by lia.
    rewrite lor_shiftl_add by (try lia; change (2 ^ 23) with 8388608; apply Z.mod_pos_bound; lia).
    rewrite Z.mod_small by (Z.div_mod_to_equations; lia).
    change (2 ^ 23) with 8388608. pose proof (Z.div_mod o 8388608). lia.
  - rewrite Z.shiftr_div_pow2 by lia. change (2 ^ 21) with 2097152. rewrite (Z.div_add_l (st mod 2048)) by lia.
    rewrite (Z.div_small l), Z.add_0_r by lia.
    rewrite <- Z.lor_assoc.
    rewrite (lor_shiftl_add _ (st mod 2048)) by (try lia; change (2 ^ 11) with 2048; apply Z.mod_pos_bound; lia).
    rewrite Z.add_comm, Z.mod_add by lia. rewrite Z.mod_small by lia.
    assert (u64 (Z.shiftl (st / 8796093022208) 43) = Z.shiftl (st / 8796093022208) 43) as ->.
    { apply u64_small. rewrite Z.shiftl_mul_pow2 by lia. change (2 ^ 43) with 8796093022208. lia. }
    change (2 ^ 11) with 2048.
    rewrite lor_shiftl_add by (try lia; change (2 ^ 43) with 8796093022208; Z.div_mod_to_equations; lia).
    change (2 ^ 43) with 8796093022208. Z.div_mod_to_equations. lia.
  - rewrite Z.add_comm, Z.mod_add by lia. apply Z.mod_small. lia.
Qed.

(** [b] holds the records of the extents [xs] from offset [i] on *)
Definition records (b : list Z) (i : Z) (xs : list xad) : Prop :=
  0 <= i ∧ i + 16 * Z.of_nat (length xs) <= Z.of_nat (length b) ∧
  slice b i (16 * Z.of_nat (length xs)) = concat (map put_extent xs).

Lemma records_cons b i x xs : records b i (x :: xs) →
  i + 16 <= Z.of_nat (length b) ∧ slice b i 16 = put_extent x ∧ records b (i + 16) xs.
Proof.
  unfold records. cbn [length map concat]. intros (Hi & Hl & E). split; [lia|].
  replace (16 * Z.of_nat (S (length xs))) with (16 + 16 * Z.of_nat (length xs)) in E by lia.
  rewrite slice_app in E by lia. apply app_inj_1 in E as [E1 E2]; [auto with lia|].
  rewrite length_slice by lia. done.
Qed.

Section extents.
Context {F : Type} `{Firmware F}.
Implicit Types s : xst F.

(** the extents still to come of a file whose inode lists them *)
Definition pending (xs : list xad) (s : xst F) : Prop :=
  di_format (inode_buf s) = XFS_DINODE_FMT_EXTENTS ∧ Forall xad_ok xs ∧ Z.of_nat (length xs) < 4294967296 ∧
  nextents (ext s) = Z.of_nat (length xs) ∧ in_filebuf (ext s) = false ∧ records (inode_buf s) (xt (ext s)) xs.

Lemma next_extent_nil stack s : pending [] s → next_extent stack s = (Ok None, s).
Proof.
  intros (Hf & _ & _ & Hn & _). unfold next_extent. rewrite !gets_bind, Hf, Hn. done.
Qed.

Lemma next_extent_cons stack x xs s : pending (x :: xs) s →
  ∃ e, next_extent stack s = (Ok (Some x), with_ext s e) ∧ pending xs (with_ext s e).
Proof.
  intros (Hf & Hok & Hlen & Hn & Hb & Hr). cbn [length] in *.
  destruct (records_cons _ _ _ _ Hr) as (Hin & Ex & Hr').
  inversion Hok as [|?? Hx Hxs]; subst.
  unfold next_extent. rewrite !gets_bind, Hf, Hn. change (XFS_DINODE_FMT_EXTENTS =? XFS_DINODE_FMT_EXTENTS) with true.
  cbn iota. rewrite (proj2 (Z.eqb_neq (Z.of_nat (S (length xs))) 0)) by lia.
  unfold take_extent. rewrite !gets_bind, Hb. change sizeof_bmbt_rec with 16. rewrite Ex.
  rewrite (proj2 (Z.ltb_ge (Z.of_nat (length (inode_buf s))) (xt (ext s) + 16))) by lia.
  eexists. split.
  - erewrite bind_ok by reflexivity. rewrite <- (app_nil_r (put_extent x)), (extent_reads x []) by done. done.
  - unfold pending. cbn [with_ext inode_buf ext nextents in_filebuf xt]. rewrite Hn.
    split; [done|]. split; [done|]. split; [lia|]. split; [|done]. rewrite u32_small by lia. lia.
Qed.

Lemma init_extents_ok stack fuel xs s :
  di_format (inode_buf s) = XFS_DINODE_FMT_EXTENTS → Forall xad_ok xs → Z.of_nat (length xs) < 4294967296 →
  di_nextents (inode_buf s) = Z.of_nat (length xs) → records (inode_buf s) di_u xs →
  ∃ e, init_extents stack fuel s = (Ok tt, with_ext s e) ∧ pending xs (with_ext s e).
Proof.
  intros Hf Hok Hl Hn Hr. unfold init_extents. rewrite !gets_bind, Hf. eexists. split; [done|].
  repeat split; try done; apply Hr.
Qed.
End extents.

(** ** The contents of a file *)

(** the bytes of a block *)
Definition block_bytes (g : geometry) : Z := 2 ^ blklog g.

Definition extent_address (g : geometry) (poff : Z) (x : xad) : Z := fsb2daddr g (xad_start x) * 512 + poff.

Definition extent_bytes (g : geometry) (poff : Z) (data : list Z) (x : xad) : list Z :=
  slice data (extent_address g poff x) (xad_len x * block_bytes g).

(** what a file whose extents follow each other without holes contains, up to the end of
    its last block *)
Definition contents (g : geometry) (poff : Z) (data : list Z) (xs : list xad) : list Z :=
  concat (map (extent_bytes g poff data) xs).

Fixpoint contiguous (o : Z) (xs : list xad) : Prop :=
  match xs with [] => True | x :: xs => xad_offset x = o ∧ contiguous (o + xad_len x) xs end.

#[export] Instance contiguous_dec xs : ∀ o, Decision (contiguous o xs).
Proof. induction xs as [|x xs IH]; intros o; simpl; apply _. Defined.

(** the extent lies on the disk *)
Definition extent_on (g : geometry) (poff : Z) (data : list Z) (x : xad) : Prop :=
  0 <= extent_address g poff x ∧
  extent_address g poff x + xad_len x * block_bytes g <= Z.of_nat (length data).

#[export] Instance extent_on_dec g poff data x : Decision (extent_on g poff data x).
Proof. unfold extent_on. apply _. Defined.

Fixpoint blocks (xs : list xad) : Z := match xs with [] => 0 | x :: xs => xad_len x + blocks xs end.

Lemma blocks_nonneg xs : Forall xad_ok xs → 0 <= blocks xs.
Proof. induction 1 as [|x xs (_ & _ & Hx) _ IH]; simpl; lia. Qed.

Lemma isinxt_block k p o l : 0 <= k → 0 <= o → 0 <= l → (o + l) * 2 ^ k < 18446744073709551616 → o * 2 ^ k <= p →
  isinxt (Z.shiftr p k) o l = (p <? (o + l) * 2 ^ k).
Proof.
  intros Hk Ho Hl Hb Hp. assert (0 < 2 ^ k) by (by apply Z.pow_pos_nonneg). unfold isinxt.
  rewrite Z.shiftr_div_pow2 by done. rewrite (proj2 (Z.leb_le o (p / 2 ^ k))) by (by apply Z.div_le_lower_bound; [|lia]).
  rewrite u64_small by nia. cbn [andb].
  destruct (Z.ltb_spec p ((o + l) * 2 ^ k)).
  - apply Z.ltb_lt. apply Z.div_lt_upper_bound; lia.
  - apply Z.ltb_ge. apply Z.div_le_lower_bound; lia.
Qed.

Section contents.
Context {F : Type} `{Firmware F} (disk : Z) (inv : F → Prop) (data : list Z) `{!SeekDevice disk inv data}.
Context (g : geometry) (poff : Z) (stack : list Z).
Context (blklog_nonneg : 0 <= blklog g) (data_bounded : Z.of_nat (length data) < 18446744073709551616).
Implicit Types s : xst F.

(** the volume is mounted on the device *)
Definition mounted (s : xst F) : Prop :=
  geo s = g ∧ partition_offset s = poff ∧ of_device (xfs_file s) = disk ∧ inv (x_fw s).

(** what reading a file leaves alone *)
Definition same_inode (s s' : xst F) : Prop :=
  inode_buf s' = inode_buf s ∧ dirbuf s' = dirbuf s ∧ dir s' = dir s ∧ len (xfs_file s') = len (xfs_file s) ∧
  of_device (xfs_file s') = of_device (xfs_file s) ∧ Fs.fs (xfs_file s') = Fs.fs (xfs_file s).

Lemma length_extent_bytes x : xad_ok x → extent_on g poff data x →
  Z.of_nat (length (extent_bytes g poff data x)) = xad_len x * block_bytes g.
Proof.
  intros (_ & _ & Hl) [H1 H2]. assert (0 < block_bytes g) by (by apply Z.pow_pos_nonneg).
  unfold extent_bytes. rewrite length_slice; nia.
Qed.

(** the bytes of the extent that holds [p], as far as [t] of them *)
Lemma extent_read x o p t s : mounted s → xad_ok x → extent_on g poff data x → xad_offset x = o → 0 <= o →
  o * block_bytes g <= p → 0 < t → p + t <= (o + xad_len x) * block_bytes g → p + t <= INT_MAX →
  ∃ f, read_disk_block (fsb2daddr g (xad_start x)) (s32 (u64 (p - o * block_bytes g))) t s =
      (Ok (t, slice (extent_bytes g poff data x) (p - o * block_bytes g) t), with_fw s f) ∧ inv f.
Proof.
  intros (Hg & Hp & Hd & Hs) Hx [H1 H2] Eo Ho Hop Ht Hin Hmax.
  assert (0 < block_bytes g) by (by apply Z.pow_pos_nonneg). unfold INT_MAX in Hmax.
  assert (0 <= o * block_bytes g) by nia.
  rewrite u64_small, s32_small by (unfold INT_MIN, INT_MAX; lia).
  unfold extent_bytes. rewrite slice_slice by nia.
  apply (read_disk_block_ok disk inv data); try done; unfold extent_address, INT_MAX in *; try lia; rewrite ?Hp; nia.
Qed.

Lemma shifted o : 0 <= o → o * block_bytes g < 18446744073709551616 →
  u64 (Z.shiftl o (blklog g)) = o * block_bytes g.
Proof.
  intros Ho Hb. rewrite Z.shiftl_mul_pow2 by done. apply u64_small. unfold block_bytes in *.
  assert (0 < 2 ^ blklog g) by (by apply Z.pow_pos_nonneg). nia.
Qed.

(** what is left to read after the part of the first extent *)
Lemma contents_split x xs o p t n : xad_ok x → extent_on g poff data x →
  let B := block_bytes g in
  0 <= o → o * B <= p → 0 <= t <= n → p + t <= (o + xad_len x) * B → (t = n ∨ p + t = (o + xad_len x) * B) →
  slice (contents g poff data (x :: xs)) (p - o * B) n =
  slice (extent_bytes g poff data x) (p - o * B) t ++
  slice (contents g poff data xs) (p + t - (o + xad_len x) * B) (n - t).
Proof.
  intros Hx Hon B Ho Hop Ht Hin Hend. pose proof (length_extent_bytes x Hx Hon) as Hlen. fold B in Hlen.
  unfold contents. cbn [map concat]. fold (contents g poff data xs).
  replace n with (t + (n - t)) at 1 by lia. rewrite slice_app by lia.
  rewrite slice_app_l by lia. f_equal. destruct Hend as [->|Hend].
  - unfold slice. by rewrite Z.sub_diag.
  - replace (p - o * B + t) with (Z.of_nat (length (extent_bytes g poff data x)) + 0) by lia.
    rewrite slice_app_r by lia. f_equal. lia.
Qed.

Lemma contents_skip x xs o p n : xad_ok x → extent_on g poff data x →
  let B := block_bytes g in
  (o + xad_len x) * B <= p →
  slice (contents g poff data (x :: xs)) (p - o * B) n =
  slice (contents g poff data xs) (p - (o + xad_len x) * B) n.
Proof.
  intros Hx Hon B Hp. pose proof (length_extent_bytes x Hx Hon) as Hlen. fold B in Hlen.
  unfold contents. cbn [map concat].
  replace (p - o * B) with (Z.of_nat (length (extent_bytes g poff data x)) + (p - (o + xad_len x) * B)) by lia.
  apply slice_app_r. lia.
Qed.

(** after the part of one extent: the state the loop goes on in *)
Definition read_on (s : xst F) (e : extents) (f : F) (p : Z) : xst F :=
  let s := with_fw (with_ext s e) f in with_file s (set_pos p (xfs_file s)).

Lemma same_refl s : same_inode s s.
Proof. done. Qed.

(** nothing left to read *)
Lemma read_loop_done fuel endpos eop buf at_ C i s :
  read_loop stack fuel endpos eop buf at_ 0 s = (Ok (store buf at_ (slice C i 0)), s).
Proof. unfold slice. change (Z.to_nat 0) with O. rewrite take_0, store_nil. by destruct fuel. Qed.

(** one turn of the loop: the extent that holds the position *)
Lemma read_loop_hit x xs o p n eop buf at_ s fuel :
  let B := block_bytes g in
  pending (x :: xs) s → mounted s → xad_ok x → extent_on g poff data x → xad_offset x = o → 0 <= o →
  (o + xad_len x) * B < 18446744073709551616 → pos (xfs_file s) = p → 0 < n → p + n <= INT_MAX →
  o * B <= p < (o + xad_len x) * B → 0 <= at_ → at_ + n <= Z.of_nat (length buf) →
  ∃ t e f, 0 < t <= n ∧ p + t <= (o + xad_len x) * B ∧ (t = n ∨ p + t = (o + xad_len x) * B) ∧ inv f ∧
    pending xs (with_ext s e) ∧
    read_loop stack (S fuel) (p + n) eop buf at_ n s =
    read_loop stack fuel (p + n) (o + xad_len x) (store buf at_ (slice (extent_bytes g poff data x) (p - o * B) t))
      (at_ + t) (n - t) (read_on s e f (p + t)).
Proof.
  intros B Hpend Hm Hx Hxon Eo Ho Htot Hpos Hn Hmax [Hp Hit] Hat Hbuf.
  pose proof Hm as (Hg & _). pose proof Hx as (Hxo & _ & Hxl).
  assert (0 < B) as HB by (by apply Z.pow_pos_nonneg). unfold INT_MAX in Hmax.
  assert (0 <= o * B ∧ (o + xad_len x) * B = o * B + xad_len x * B) as [HB1 HB4] by (split; [nia|ring]).
  destruct (next_extent_cons stack x xs s Hpend) as (e & Ee & Hpend').
  set (t := if p + n <=? (o + xad_len x) * B then n else (o + xad_len x) * B - p).
  assert (0 < t <= n ∧ p + t <= (o + xad_len x) * B ∧ (t = n ∨ p + t = (o + xad_len x) * B)) as (Ht & Hpt & Hend)
    by (unfold t; destruct (Z.leb_spec (p + n) ((o + xad_len x) * B)); lia).
  destruct (extent_read x o p t (with_ext s e) Hm Hx Hxon Eo Ho Hp) as (f & Er & Hf); [lia|done|unfold INT_MAX; lia|].
  fold B in Er. exists t, e, f. split_and!; try done; try lia.
  cbn [read_loop]. rewrite (proj2 (Z.ltb_lt 0 n)) by lia. cbn [negb].
  rewrite (bind_ok _ _ _ _ _ Ee). rewrite !gets_bind.
  change (geo (with_ext s e)) with (geo s). change (xfs_file (with_ext s e)) with (xfs_file s).
  rewrite Hg, Hpos, Eo, (shifted o) by (fold B; lia).
  rewrite (isinxt_block (blklog g) p o (xad_len x)) by (fold (block_bytes g); fold B; lia).
  rewrite (u64_small (o + xad_len x)) by nia.
  rewrite (shifted (o + xad_len x)), (u64_small (p + n)) by (fold B; lia).
  fold (block_bytes g). fold B. rewrite (proj2 (Z.ltb_lt _ _) Hit).
  assert ((if p + n <=? (o + xad_len x) * B then n else s32 (u64 ((o + xad_len x) * B - p))) = t) as ->.
  { unfold t. destruct (Z.leb_spec (p + n) ((o + xad_len x) * B)); [done|].
    by rewrite u64_small, s32_small by (unfold INT_MIN, INT_MAX; lia). }
  clearbody t. rewrite (bind_ok _ _ _ _ _ Er).
  assert (Z.of_nat (length (slice (extent_bytes g poff data x) (p - o * B) t)) = t) as Hsl.
  { pose proof (length_extent_bytes x Hx Hxon) as Hle. fold B in Hle. rewrite length_slice; lia. }
  pose proof (put_at_ok buf at_ (slice (extent_bytes g poff data x) (p - o * B) t) (with_fw (with_ext s e) f) Hat
    ltac:(lia)) as Ew.
  rewrite (bind_ok _ _ _ _ _ Ew), (s32_small (n - t)) by (unfold INT_MIN, INT_MAX; lia).
  rewrite (bind_ok _ _ _ tt (read_on s e f (u64 (p + t)))) by done. by rewrite u64_small by lia.
Qed.

(** one turn of the loop: an extent before the position *)
Lemma read_loop_miss x xs o p n eop buf at_ s fuel :
  let B := block_bytes g in
  pending (x :: xs) s → mounted s → xad_ok x → xad_offset x = o → 0 <= o → (eop = o ∨ eop = u64 (-1)) →
  (o + xad_len x) * B < 18446744073709551616 → pos (xfs_file s) = p → 0 < n → (o + xad_len x) * B <= p →
  ∃ e, pending xs (with_ext s e) ∧
    read_loop stack (S fuel) (p + n) eop buf at_ n s =
    read_loop stack fuel (p + n) (o + xad_len x) buf at_ n (with_ext s e).
Proof.
  intros B Hpend Hm Hx Eo Ho Heop Htot Hpos Hn Hp. pose proof Hm as (Hg & _). pose proof Hx as (Hxo & _ & Hxl).
  assert (0 < B) as HB by (by apply Z.pow_pos_nonneg).
  assert (0 <= o * B ∧ o * B <= (o + xad_len x) * B) as [HB1 HB2] by nia.
  destruct (next_extent_cons stack x xs s Hpend) as (e & Ee & Hpend').
  exists e. split; [done|]. cbn [read_loop]. rewrite (proj2 (Z.ltb_lt 0 n)) by lia. cbn [negb].
  rewrite (bind_ok _ _ _ _ _ Ee). rewrite !gets_bind.
  change (geo (with_ext s e)) with (geo s). change (xfs_file (with_ext s e)) with (xfs_file s).
  rewrite Hg, Hpos, Eo, (isinxt_block (blklog g) p o (xad_len x)) by (fold (block_bytes g); fold B; lia).
  fold (block_bytes g). fold B. rewrite (proj2 (Z.ltb_ge _ _) Hp).
  assert ((eop <? o) = false) as ->.
  { apply Z.ltb_ge. destruct Heop as [->| ->]; [lia|]. change (u64 (-1)) with 18446744073709551615. lia. }
  by rewrite (u64_small (o + xad_len x)) by nia.
Qed.

Lemma read_loop_ok xs : ∀ o p n eop buf at_ s fuel,
  let B := block_bytes g in
  pending xs s → mounted s → contiguous o xs → Forall (extent_on g poff data) xs → 0 <= o →
  (eop = o ∨ eop = u64 (-1)) → (o + blocks xs) * B < 18446744073709551616 →
  pos (xfs_file s) = p → 0 <= n → (n = 0 ∨ o * B <= p) → p + n <= (o + blocks xs) * B → p + n <= INT_MAX →
  0 <= p → 0 <= at_ → at_ + n <= Z.of_nat (length buf) → (length xs < fuel)%nat →
  ∃ s', read_loop stack fuel (p + n) eop buf at_ n s =
      (Ok (store buf at_ (slice (contents g poff data xs) (p - o * B) n)), s') ∧
    mounted s' ∧ same_inode s s' ∧ pos (xfs_file s') = p + n.
Proof.
  induction xs as [|x xs IH]; intros o p n eop buf at_ s fuel B Hpend Hm Hc Hon Ho Heop Htot Hpos Hn Hp Hin Hmax Hp0
    Hat Hbuf Hfuel; (destruct (decide (n = 0)) as [->|Hn0];
    [exists s; rewrite Z.add_0_r; split; [apply read_loop_done|]; split; [exact Hm|]; split; [apply same_refl|exact Hpos]|]).
  - simpl in Hin. destruct Hp; lia.
  - destruct fuel as [|fuel]; [lia|]. destruct Hp as [?|Hp]; [lia|]. destruct Hc as [Eo Hc]. cbn [blocks length] in *.
    assert (0 < B) as HB by (by apply Z.pow_pos_nonneg).
    pose proof Hpend as (_ & Hok & _). inversion Hok as [|?? Hx Hxs]; subst x0 l.
    inversion Hon as [|?? Hxon Hxson]; subst x0 l. pose proof (blocks_nonneg xs Hxs) as Hbl.
    pose proof Hx as (_ & _ & Hxl).
    assert ((o + xad_len x) * B <= (o + (xad_len x + blocks xs)) * B) as HB3 by (apply Z.mul_le_mono_nonneg_r; lia).
    assert (o + (xad_len x + blocks xs) = o + xad_len x + blocks xs) as Eb by ring. rewrite Eb in *.
    destruct (Z.lt_ge_cases p ((o + xad_len x) * B)) as [Hit|Hmiss].
    + destruct (read_loop_hit x xs o p n eop buf at_ s fuel Hpend Hm Hx Hxon Eo Ho ltac:(fold B; lia) Hpos ltac:(lia) Hmax
        ltac:(fold B; lia) Hat Hbuf) as (t & e & f & Ht & Hpt & Hend & Hf & Hpend' & ->).
      fold B in Hpt, Hend |- *.
      assert (Z.of_nat (length (slice (extent_bytes g poff data x) (p - o * B) t)) = t) as Hsl.
      { pose proof (length_extent_bytes x Hx Hxon) as Hle. fold B in Hle. rewrite length_slice; lia. }
      destruct (IH (o + xad_len x) (p + t) (n - t) (o + xad_len x)
        (store buf at_ (slice (extent_bytes g poff data x) (p - o * B) t)) (at_ + t) (read_on s e f (p + t)) fuel)
        as (s' & Es & Hm' & Hsame & Hpos'); try done; try (fold B; lia).
      * destruct Hm as (? & ? & ? & ?). split; [assumption|]. split; [assumption|]. by split.
      * rewrite length_store; lia.
      * exists s'. fold B in Es. replace (p + t + (n - t)) with (p + n) in * by lia. split; [|done].
        rewrite Es. do 2 f_equal. assert (0 <= t <= n) as Ht' by lia.
        pose proof (contents_split x xs o p t n Hx Hxon Ho Hp Ht' Hpt Hend) as Esp. cbn zeta in Esp. fold B in Esp.
        by rewrite Esp, <- store_store, Hsl by lia.
    + destruct (read_loop_miss x xs o p n eop buf at_ s fuel Hpend Hm Hx Eo Ho Heop ltac:(fold B; lia) Hpos ltac:(lia)
        Hmiss) as (e & Hpend' & ->).
      destruct (IH (o + xad_len x) p n (o + xad_len x) buf at_ (with_ext s e) fuel)
        as (s' & Es & Hm' & Hsame & Hpos'); try done; try (fold B; lia).
      exists s'. split; [|done]. fold B in Es. rewrite Es. do 3 f_equal. symmetry. by apply contents_skip.
Qed.

(** the inode of a file or directory whose extents [xs] it lists, without holes *)
Definition listed (b : list Z) (xs : list xad) : Prop :=
  di_format b = XFS_DINODE_FMT_EXTENTS ∧ di_nextents b = Z.of_nat (length xs) ∧ records b di_u xs ∧
  Forall xad_ok xs ∧ Z.of_nat (length xs) < 4294967296 ∧ contiguous 0 xs.

Lemma length_contents xs : Forall xad_ok xs → Forall (extent_on g poff data) xs →
  Z.of_nat (length (contents g poff data xs)) = blocks xs * block_bytes g.
Proof.
  induction 1 as [|x xs Hx Hxs IH]; intros Hon; [done|]. inversion Hon; subst.
  unfold contents in *. cbn [map concat blocks]. rewrite length_app, Nat2Z.inj_add, IH by done.
  rewrite length_extent_bytes by done. ring.
Qed.

Lemma read_data_ok xs buf n fuel s :
  mounted s → listed (inode_buf s) xs → Forall (extent_on g poff data) xs →
  blocks xs * block_bytes g < 18446744073709551616 →
  0 <= pos (xfs_file s) → 0 <= n → pos (xfs_file s) + n <= len (xfs_file s) →
  len (xfs_file s) <= blocks xs * block_bytes g → len (xfs_file s) <= INT_MAX →
  n <= Z.of_nat (length buf) → (length xs < fuel)%nat →
  ∃ s', xfs_read_data stack fuel buf n s =
      (Ok (n, slice (contents g poff data xs) (pos (xfs_file s)) n ++ drop (Z.to_nat n) buf), s') ∧
    mounted s' ∧ same_inode s s' ∧ pos (xfs_file s') = pos (xfs_file s) + n.
Proof.
  intros Hm (Hf & Hn & Hr & Hok & Hcount & Hc) Hon Htot Hp Hn0 Hend Hl Hmax Hbuf Hfuel.
  set (p := pos (xfs_file s)) in *. unfold INT_MAX in Hmax.
  unfold xfs_read_data. rewrite !gets_bind, Hf. fold p.
  change (XFS_DINODE_FMT_EXTENTS =? XFS_DINODE_FMT_LOCAL) with false. cbn iota. rewrite gets_bind.
  rewrite (s32_small p), (s32_small (p + n)) by (unfold INT_MIN, INT_MAX; lia).
  rewrite (u64_small (p + n)), (proj2 (Z.ltb_ge _ _)) by lia.
  destruct (init_extents_ok stack fuel xs s Hf Hok Hcount Hn Hr) as (e & Ee & Hpend).
  rewrite (bind_ok _ _ _ _ _ Ee).
  destruct (read_loop_ok xs 0 p n (u64 (-1)) buf 0 (with_ext s e) fuel) as (s' & Es & Hm' & Hsame & Hpos');
    try assumption; try (unfold INT_MAX; lia); [reflexivity|].
  rewrite (bind_ok _ _ _ _ _ Es), gets_bind, Hpos'. exists s'. split; [|done].
  rewrite (s32_small (p + n - p)) by (unfold INT_MIN, INT_MAX; lia).
  replace (p + n - p) with n by lia. rewrite Z.sub_0_r. unfold store.
  rewrite length_slice by (rewrite ?length_contents by done; lia).
  change (Z.to_nat 0) with O. by rewrite take_0.
Qed.
End contents.

(** ** Directories kept in their inode *)

(** the entries [es], names and numbers of four bytes, at offset [p] *)
Fixpoint sf_list (b : list Z) (p : Z) (es : list (list Z * Z)) : Prop :=
  match es with
  | [] => True
  | (name, ino) :: es =>
      let n := Z.of_nat (length name) in
      byte_at b p = n ∧ slice b (p + 3) n = name ∧ be32 b (p + n + 3) = ino ∧ cstr_ok name ∧
      p + n + 7 <= Z.of_nat (length b) ∧ sf_list b (p + n + 7) es
  end.

#[export] Instance sf_list_dec b es : ∀ p, Decision (sf_list b p es).
Proof. induction es as [|[name ino] es IH]; intros p; cbn [sf_list]; apply _. Defined.

(** a directory in its inode *)
Definition sf_directory (b : list Z) (es : list (list Z * Z)) : Prop :=
  di_format b = XFS_DINODE_FMT_LOCAL ∧ byte_at b di_u = Z.of_nat (length es) ∧ byte_at b (di_u + 1) = 0 ∧
  Z.of_nat (length es) < 256 ∧ di_u + 6 <= Z.of_nat (length b) ∧ sf_list b (di_u + 6) es.

Fixpoint sf_lookup (comp : list Z) (es : list (list Z * Z)) : option Z :=
  match es with
  | [] => None
  | (name, ino) :: es => if decide (name = comp) then Some ino else sf_lookup comp es
  end.

(** what a name means in a directory; 0 is the directory itself *)
Definition dir_lookup (comp : list Z) (es : list (list Z * Z)) : option Z :=
  if decide (comp = bs ".") then Some 0 else sf_lookup comp es.

Lemma sf_list_store b q es : ∀ p, 0 <= q < p → q < Z.of_nat (length b) → sf_list b p es → sf_list (store b q [0]) p es.
Proof.
  induction es as [|[name ino] es IH]; intros p Hq Hl; cbn [sf_list]; [done|].
  intros (H1 & H2 & H3 & H4 & H5 & H6). unfold be32 in *.
  rewrite !byte_at_store_after, slice_store_after, length_store by (cbn [length]; lia).
  repeat split; try done. apply IH; [lia|done|done].
Qed.

Lemma sf_list_buffer old b es : ∀ p, 0 <= p → sf_list b p es → (length b <= length old)%nat → sf_list (store old 0 b) p es.
Proof.
  induction es as [|[name ino] es IH]; intros p Hp; cbn [sf_list]; [done|].
  intros (H1 & H2 & H3 & H4 & H5 & H6) Hl.
  rewrite byte_at_store, slice_store, be32_store, length_store by lia.
  repeat split; try done; [lia|]. apply IH; [lia|done|done].
Qed.

Section shortform.
Context {F : Type} `{Firmware F} (low stack : list Z).
Implicit Types s : xst F.

(** the scan of a directory with the entries [es] to come *)
Definition scanning (es : list (list Z * Z)) (s : xst F) : Prop :=
  di_format (inode_buf s) = XFS_DINODE_FMT_LOCAL ∧ Z.of_nat (length (inode_buf s)) = INODE_ROOM ∧
  i8param (dir s) = 4 ∧ forw (dir s) = 0 ∧
  0 <= dirpos (dir s) ∧ dirmax (dir s) = dirpos (dir s) + Z.of_nat (length es) ∧ dirmax (dir s) < 256 ∧
  ∃ p, sfe (dir s) = Some p ∧ di_u < p ∧ sf_list (inode_buf s) p es.

(** what a scan leaves alone *)
Definition scanned (s s' : xst F) : Prop :=
  x_fw s' = x_fw s ∧ xfs_file s' = xfs_file s ∧ geo s' = geo s ∧ partition_offset s' = partition_offset s ∧
  length (inode_buf s') = length (inode_buf s).

Lemma scanned_trans s1 s2 s3 : scanned s1 s2 → scanned s2 s3 → scanned s1 s3.
Proof. unfold scanned. intuition congruence. Qed.

Lemma next_dentry_nil fuel ino s : scanning [] s → next_dentry stack fuel ino s = (Ok (None, ino), s).
Proof.
  intros (_ & _ & _ & Hf & Hp & Hm & _). unfold next_dentry. rewrite gets_bind, Hf. cbn [length] in Hm.
  rewrite (proj2 (Z.leb_le _ _)) by lia. done.
Qed.

(** the state after the entry at [p] *)
Definition past_entry (s : xst F) (p n : Z) : xst F :=
  let d := dir s in
  with_inode (with_dir s (Entries (forw d) (dablk d) (i8param d) (dirpos d) (dirmax d) (blkoff d) (Some (p + n + 7))))
    (store (inode_buf s) (p + 3 + n) [0]).

Lemma sf_dentry_ok name ino es s p : scanning ((name, ino) :: es) s → sfe (dir s) = Some p → 
  sf_list (inode_buf s) p ((name, ino) :: es) →
  sf_dentry s = (Ok (name, ino), past_entry s p (Z.of_nat (length name))).
Proof.
  intros (_ & Hroom & H8 & _ & Hp & _) Esfe (E1 & E2 & E3 & Hname & Hin & _).
  unfold sf_dentry. rewrite !gets_bind, (proj2 (Z.eqb_neq _ (-2))), (proj2 (Z.eqb_neq _ (-1))), Esfe by lia.
  rewrite (proj2 (Z.leb_gt INODE_ROOM p)), E1, H8 by lia.
  rewrite (proj2 (Z.ltb_ge INODE_ROOM (p + Z.of_nat (length name) + 11 - 4))) by lia.
  unfold sf_ino. change (4 =? 0) with false. cbn iota. rewrite E2, E3, (cstring_id name) by done.
  unfold past_entry. replace (p + Z.of_nat (length name) + 7) with (p + Z.of_nat (length name) + 11 - 4) by lia.
  by rewrite <- H8.
Qed.

Lemma next_dentry_cons fuel name ino new es s : scanning ((name, ino) :: es) s →
  ∃ s', next_dentry stack fuel new s = (Ok (Some name, ino), s') ∧ scanning es s' ∧ scanned s s'.
Proof.
  intros Hs. pose proof Hs as (Hfmt & Hroom & H8 & Hforw & Hp & Hm & H256 & p & Esfe & Hpu & Hl).
  pose proof (sf_dentry_ok name ino es s p Hs Esfe Hl) as Ed. cbn [length] in Hm.
  destruct Hl as (E1 & E2 & E3 & Hname & Hin & Hrest). unfold di_u in Hpu.
  set (n := Z.of_nat (length name)) in *.
  assert (length (store (inode_buf s) (p + 3 + n) [0]) = length (inode_buf s)) as Els
    by (rewrite length_store; cbn [length]; lia).
  unfold next_dentry. rewrite gets_bind, (proj2 (Z.leb_gt _ _)) by lia. cbn [andb].
  rewrite ret_bind, gets_bind, Hfmt. change (XFS_DINODE_FMT_LOCAL =? XFS_DINODE_FMT_LOCAL) with true. cbn iota.
  rewrite (bind_ok _ _ _ _ _ Ed), gets_bind. eexists. split; [reflexivity|]. split; [|by split_and!].
  split; [|split; [cbn; by rewrite Els|]].
  - cbn [inode_buf past_entry with_inode with_dir]. unfold di_format in *. rewrite <- Hfmt. f_equal.
    unfold store, byte_at. change (5 <? 0) with false. cbn iota.
    rewrite !nth_lookup, lookup_app_l, lookup_take, decide_True; [done|lia|rewrite length_take; lia].
  - cbn. rewrite s32_small by (unfold INT_MIN, INT_MAX; lia). do 2 (split; [done|]). split; [lia|].
    split; [lia|]. split; [lia|]. exists (p + n + 7). split; [done|]. split; [unfold di_u; lia|].
    apply sf_list_store; [lia|lia|done].
Qed.

Lemma find_name_ok comp es : ∀ name new s fuel, scanning es s → comp ≠ [] → cstr_ok comp → cstr_ok name →
  (length es + 1 < fuel)%nat →
  ∃ i s', find_name low stack fuel comp (Some name) new s =
      (Ok (bool_decide (is_Some (sf_lookup comp ((name, new) :: es))), i), s') ∧
    (∀ j, sf_lookup comp ((name, new) :: es) = Some j → i = j) ∧ scanned s s'.
Proof.
  induction es as [|[nm j] es IH]; intros name new s fuel Hs Hne Hcomp Hname Hfuel;
    (destruct fuel as [|fuel]; [lia|]); cbn [find_name cstr].
  - rewrite strlen_length by done. rewrite (proj2 (Z.eqb_neq (Z.of_nat (length comp)) 0)) by (destruct comp; cbn [length]; [done|lia]).
    cbn [negb andb sf_lookup]. rewrite strcmp_eqb by done. case_decide as Hd.
    + rewrite bool_decide_true by (by symmetry). exists new, s. split; [done|]. split; [by intros ? [=]|done].
    + rewrite bool_decide_false by (by intros ?; subst). rewrite (bind_ok _ _ _ _ _ (next_dentry_nil (S fuel) new s Hs)).
      exists new, s. split; [done|]. done.
  - rewrite strlen_length by done. rewrite (proj2 (Z.eqb_neq (Z.of_nat (length comp)) 0)) by (destruct comp; cbn [length]; [done|lia]).
    cbn [negb andb]. rewrite strcmp_eqb by done. cbn [sf_lookup]. case_decide as Hd.
    + rewrite bool_decide_true by (by symmetry). exists new, s. split; [done|]. split; [by intros ? [=]|done].
    + rewrite bool_decide_false by (by intros ?; subst).
      destruct (next_dentry_cons (S fuel) nm j new es s Hs) as (s1 & E1 & Hs1 & Hsc).
      rewrite (bind_ok _ _ _ _ _ E1). pose proof Hs as (_ & _ & _ & _ & _ & _ & _ & p & _ & _ & Hl).
      destruct Hl as (_ & _ & _ & Hnm & _).
      destruct (IH nm j s1 fuel Hs1 Hne Hcomp Hnm ltac:(cbn [length] in Hfuel; lia)) as (i & s2 & E2 & Hj & Hsc2).
      exists i, s2. rewrite E2. split; [done|]. split; [done|]. by apply (scanned_trans s s1).
Qed.

(** a name looked up in a directory kept in its inode: first itself, then its parent,
    whose name is empty, and the entries *)
Lemma lookup_ok comp es new s fuel :
  sf_directory (inode_buf s) es → Z.of_nat (length (inode_buf s)) = INODE_ROOM → comp ≠ [] → cstr_ok comp →
  (length es + 3 < fuel)%nat →
  ∃ i s', ('(name, new) ← first_dentry stack fuel new; find_name low stack fuel comp name new) s =
      (Ok (bool_decide (is_Some (dir_lookup comp es)), i), s') ∧
    (∀ j, dir_lookup comp es = Some j → i = j) ∧ scanned s s'.
Proof.
  intros (Hfmt & Hn & H8 & H256 & Hin & Hl) Hroom Hne Hcomp Hfuel.
  set (d := dir s).
  set (s1 := with_dir (with_dir s (Entries 0 (dablk d) (i8param d) (dirpos d) (dirmax d) (blkoff d) (sfe d)))
    (Entries 0 (dablk d) 4 (-2 + 1) (Z.of_nat (length es)) (blkoff d) (sfe d))).
  assert (first_dentry stack fuel new s = (Ok (Some (bs "."), 0), s1)) as E1.
  { unfold first_dentry. rewrite !gets_bind, Hfmt, Hn, H8.
    change (XFS_DINODE_FMT_LOCAL =? XFS_DINODE_FMT_LOCAL) with true. cbn iota. change (0 =? 0) with true. cbn iota.
    unfold set_entries. rewrite (bind_ok _ _ _ tt _) by reflexivity. erewrite bind_ok by reflexivity.
    unfold next_dentry. rewrite gets_bind. cbn [with_dir dir dirmax dirpos forw].
    rewrite (proj2 (Z.leb_gt _ (-2))) by lia. cbn [andb]. rewrite ret_bind, gets_bind. cbn [with_dir inode_buf].
    rewrite Hfmt. change (XFS_DINODE_FMT_LOCAL =? XFS_DINODE_FMT_LOCAL) with true. cbn iota. reflexivity. }
  rewrite (bind_ok _ _ _ _ _ E1). destruct fuel as [|fuel]; [lia|].
  assert (cstr_ok (bs ".")) as Hdot by by_decision.
  cbn [find_name cstr]. rewrite strlen_length by done.
  rewrite (proj2 (Z.eqb_neq (Z.of_nat (length comp)) 0)) by (destruct comp; cbn [length]; [done|lia]).
  cbn [negb andb]. rewrite strcmp_eqb by done. unfold dir_lookup. case_decide as Hd.
  { rewrite bool_decide_true by done. exists 0, s1. split; [done|]. split; [by intros ? [=]|done]. }
  rewrite bool_decide_false by done.
  set (par := sf_parent_ino (inode_buf s) 4).
  set (s2 := with_dir s1 (Entries 0 (dablk d) 4 0 (Z.of_nat (length es)) (blkoff d) (Some (di_u + 6)))).
  assert (next_dentry stack (S fuel) 0 s1 = (Ok (Some [], par), s2)) as E2.
  { unfold next_dentry. rewrite gets_bind. change (dirmax (dir s1)) with (Z.of_nat (length es)).
    change (dirpos (dir s1)) with (-1). rewrite (proj2 (Z.leb_gt _ (-1))) by lia. cbn [andb].
    rewrite ret_bind, gets_bind. change (inode_buf s1) with (inode_buf s). rewrite Hfmt.
    change (XFS_DINODE_FMT_LOCAL =? XFS_DINODE_FMT_LOCAL) with true. cbn iota. reflexivity. }
  rewrite (bind_ok _ _ _ _ _ E2).
  destruct (find_name_ok comp es [] par s2 fuel) as (i & s3 & E3 & Hj & Hsc); try done; [|constructor|lia|].
  - split; [exact Hfmt|]. split; [exact Hroom|]. split; [done|]. split; [done|].
    split; [cbn; lia|]. split; [cbn; lia|]. split; [cbn; lia|]. exists (di_u + 6). split; [done|]. split; [lia|done].
  - exists i, s3. rewrite E3. cbn [sf_lookup]. cbn [sf_lookup] in Hj. rewrite decide_False in Hj |- * by done.
    split; [done|]. split; [done|]. by apply (scanned_trans s s2).
Qed.
End shortform.

(** ** Volumes: the specification

    What a volume holds: directories with their entries, and regular files with their
    size and extents. *)

Inductive node := Directory (es : list (list Z * Z)) | Regular (size : Z) (xs : list xad).

(** the inode [b] is that of the node *)
Definition node_inode (b : list Z) (n : node) : Prop :=
  di_forkoff b = 0 ∧
  match n with
  | Directory es => Z.land (di_mode b) IFMT = IFDIR ∧ sf_directory b es
  | Regular size xs => Z.land (di_mode b) IFMT = IFREG ∧ di_size b = size ∧ 0 <= size ∧ listed b xs
  end.

(** where the number of an inode says it is *)
Definition inode_address (g : geometry) (poff ino : Z) : Z :=
  agb2daddr g (ino2agno g ino) (agino2agbno g (ino2agino g ino)) * 512 +
  (poff + s32 (ino2offset g ino * isize g)).

(** the inode of the node is on the disk *)
Definition node_on (g : geometry) (poff : Z) (data : list Z) (ino : Z) (n : node) : Prop :=
  0 <= inode_address g poff ino ∧ inode_address g poff ino + isize g <= Z.of_nat (length data) ∧
  node_inode (slice data (inode_address g poff ino) (isize g)) n ∧
  match n with
  | Directory _ => True
  | Regular size xs => Forall (extent_on g poff data) xs ∧ size <= blocks xs * block_bytes g <= INT_MAX
  end.

(** what a path leads to *)
Inductive found := Found (size : Z) (xs : list xad) | NotFound (e : Z).

Fixpoint resolve (vol : Z → option node) (ino : Z) (comps : list (list Z)) : found :=
  match vol ino, comps with
  | Some (Regular size xs), [] => Found size xs
  | Some (Regular _ _), _ => NotFound FILE_ERR_NOTDIR
  | Some (Directory _), [] => NotFound FILE_ERR_BAD_TYPE
  | Some (Directory es), c :: comps =>
      match dir_lookup c es with
      | Some i => resolve vol (if i =? 0 then ino else i) comps
      | None => NotFound FILE_ERR_NOTFOUND
      end
  | None, _ => NotFound FILE_ERR_NOTFOUND
  end.

(** every entry of a directory is a node of the volume *)
Definition closed (vol : Z → option node) : Prop :=
  ∀ ino es c i, vol ino = Some (Directory es) → sf_lookup c es = Some i → i ≠ 0 ∧ is_Some (vol i).

Section volume.
Context {F : Type} `{Firmware F} (disk : Z) (inv : F → Prop) (data : list Z) `{!SeekDevice disk inv data}.
Context (g : geometry) (poff : Z) (low stack : list Z) (vol : Z → option node).
Context (data_bounded : Z.of_nat (length data) < 18446744073709551616) (inode_size : 112 <= isize g <= INODE_ROOM).
Context (volume_on : ∀ ino n, vol ino = Some n → node_on g poff data ino n) (volume_closed : closed vol).
Implicit Types s : xst F.

(** the volume is mounted, with room for inodes *)
Definition ready (s : xst F) : Prop :=
  mounted disk inv g poff s ∧ Z.of_nat (length (inode_buf s)) = INODE_ROOM.

Lemma sf_directory_buffer old b es : sf_directory b es → (length b <= length old)%nat → sf_directory (store old 0 b) es.
Proof.
  intros (Hf & Hn & H8 & H256 & Hin & Hl) Hlen. unfold sf_directory, di_format, di_u in *.
  rewrite !byte_at_store, length_store by lia. repeat split; try done; [lia|]. by apply sf_list_buffer; [lia| |].
Qed.

Lemma listed_buffer old b xs : listed b xs → 112 <= Z.of_nat (length b) → (length b <= length old)%nat → listed (store old 0 b) xs.
Proof.
  intros (Hf & Hn & (Hr1 & Hr2 & Hr3) & Hok & Hl & Hc) H112 Hlen. unfold listed, records, di_format, di_nextents, di_u in *.
  rewrite byte_at_store, be32_store, slice_store, length_store by lia. repeat split; try done; lia.
Qed.

Lemma node_inode_buffer old b n : node_inode b n → 112 <= Z.of_nat (length b) → (length b <= length old)%nat →
  node_inode (store old 0 b) n.
Proof.
  intros [Hk Hn] H112 Hlen. unfold node_inode, di_forkoff, di_mode, di_size, be64 in *.
  rewrite byte_at_store, be16_store, !be32_store by lia. split; [done|].
  destruct n as [es|size xs].
  - split; [apply Hn|]. apply sf_directory_buffer; [apply Hn|done].
  - destruct Hn as (H1 & H2 & H3 & H4). do 3 (split; [done|]). by apply listed_buffer.
Qed.

Lemma di_read_ok ino n s : ready s → vol ino = Some n →
  ∃ s', di_read ino s = (Ok tt, s') ∧ ready s' ∧ node_inode (inode_buf s') n.
Proof.
  intros [Hm Hroom] Hn. destruct (volume_on _ _ Hn) as (H0 & Hin & Hnode & _).
  pose proof Hm as (Hg & Hp & Hd & Hs). unfold di_read. rewrite gets_bind, Hg.
  unfold inode_address in *. set (a := agb2daddr g (ino2agno g ino) (agino2agbno g (ino2agino g ino))) in *.
  set (o := s32 (ino2offset g ino * isize g)) in *. unfold INODE_ROOM in *.
  destruct (read_disk_block_ok disk inv data s a o (isize g) (a * 512 + (poff + o))) as (f & Er & Hf);
    [done|done|by rewrite Hp|done|unfold INT_MAX; lia|lia|].
  rewrite (bind_ok _ _ _ _ _ Er), gets_bind. change (inode_buf (with_fw s f)) with (inode_buf s).
  set (b := slice data (a * 512 + (poff + o)) (isize g)) in *.
  assert (Z.of_nat (length b) = isize g) as Hlb by (unfold b; rewrite length_slice; lia).
  pose proof (put_at_ok (inode_buf s) 0 b (with_fw s f) ltac:(lia) ltac:(lia)) as Ew.
  rewrite (bind_ok _ _ _ _ _ Ew).
  assert (length (store (inode_buf s) 0 b) = length (inode_buf s)) as Els by (apply length_store; lia).
  pose proof (node_inode_buffer (inode_buf s) b n Hnode ltac:(lia) ltac:(lia)) as Hnode'.
  rewrite (bind_ok _ _ _ tt (with_inode (with_fw s f) (store (inode_buf s) 0 b))) by done.
  unfold btroot_maxrecs. rewrite (proj1 Hnode'). change (0 =? 0) with true. cbn iota.
  unfold sizeof_bmdr_block, sizeof_bmbt_key, sizeof_bmbt_ptr, di_u, INODE_ROOM.
  assert (0 <= (isize g - 4 - 100) / (8 + 8) <= isize g) as Hq
    by (split; [apply Z.div_pos; lia|apply Z.div_le_upper_bound; lia]).
  pose proof (Z.mul_div_le (isize g - 4 - 100) (8 + 8) ltac:(lia)) as Hq2.
  rewrite (u32_small (isize g - 4 - 100)), s32_small, (u32_small (_ * 8)) by (unfold INT_MIN, INT_MAX; lia).
  rewrite (proj2 (Z.ltb_ge 24576 _)) by lia. rewrite gets_bind. eexists. split; [reflexivity|].
  split; [|exact Hnode']. split; [by split_and!|]. cbn. by rewrite Els.
Qed.

Lemma ready_scanned s s' : ready s → scanned s s' → ready s'.
Proof.
  intros [(Hg & Hp & Hd & Hs) Hr] (E1 & E2 & E3 & E4 & E5).
  split; [split; [by rewrite E3|split; [by rewrite E4|split; [by rewrite E2|by rewrite E1]]]|by rewrite E5].
Qed.

(** what the walk ends with *)
Definition arrived (f : found) (b : bool) (s : xst F) : Prop :=
  ready s ∧
  match f with
  | Found size xs =>
      b = true ∧ listed (inode_buf s) xs ∧ Forall (extent_on g poff data) xs ∧
      0 <= size <= blocks xs * block_bytes g ∧ blocks xs * block_bytes g <= INT_MAX ∧
      pos (xfs_file s) = 0 ∧ len (xfs_file s) = size
  | NotFound e => b = false ∧ errnum s = e
  end.

Lemma dir_error_found e s : ready s → ∃ b s', dir_error e s = (Ok b, s') ∧ arrived (NotFound e) b s'.
Proof. intros Hs. eexists _, _. split; [reflexivity|]. by split. Qed.

(** the number a name of a directory leads to is that of a node *)
Lemma dir_lookup_node ino es c i : vol ino = Some (Directory es) → dir_lookup c es = Some i →
  is_Some (vol (if i =? 0 then ino else i)).
Proof.
  intros Hino Hi. unfold dir_lookup in Hi. case_decide; [injection Hi as <-; by rewrite Z.eqb_refl, Hino|].
  destruct (volume_closed _ _ _ _ Hino Hi) as [Hne Hv]. by rewrite (proj2 (Z.eqb_neq i 0)).
Qed.

(** one component, in a directory *)
Lemma enter_ok fuel c es new s : ready s → sf_directory (inode_buf s) es → comp_ok c → (258 < fuel)%nat →
  ∃ name new1 s1 i s', first_dentry stack fuel new s = (Ok (name, new1), s1) ∧
    find_name low stack fuel c name new1 s1 = (Ok (bool_decide (is_Some (dir_lookup c es)), i), s') ∧
    (∀ j, dir_lookup c es = Some j → i = j) ∧ ready s'.
Proof.
  intros Hs Hd [Hne Hc] Hfuel. pose proof Hd as (_ & _ & _ & H256 & _).
  destruct (lookup_ok low stack c es new s fuel Hd) as (i & s' & E & Hj & Hsc); [apply Hs|done| |lia|].
  { eapply Forall_impl; [exact Hc|]. by intros x [? _]. }
  destruct (bind_inv _ _ _ _ _ E) as ([name new1] & s1 & E1 & E2).
  exists name, new1, s1, i, s'. split_and!; try done. by apply (ready_scanned s).
Qed.

Lemma walk_ok comps : ∀ fuel arg lb p ino parent new links r n s,
  ready s → vol ino = Some n → 0 <= path_at p → path_from arg lb p = path_text comps ++ r → path_end r →
  Forall (λ c, comp_ok c.2) comps → (length comps + 260 <= fuel)%nat →
  ∃ b s', walk low stack fuel arg lb p ino parent new links s = (Ok b, s') ∧
    arrived (resolve vol ino (map snd comps)) b s'.
Proof.
  induction comps as [|[k c] comps IH]; intros fuel arg lb p ino parent new links r n s Hs Hn Hp Hpath Hr Hok Hfuel;
    (destruct fuel as [|fuel]; [lia|]); cbn [walk];
    destruct (di_read_ok ino n s Hs Hn) as (s1 & E1 & Hs1 & Hk & Hnode);
    rewrite (bind_ok _ _ _ _ _ E1), !gets_bind, Hpath; cbn [map snd resolve]; rewrite Hn.
  - destruct r as [|e r]; [done|]. cbn [path_text map concat app].
    assert ((e =? 0) || isspace e = true) as -> by (destruct Hr as [->| ->]; [done|apply orb_true_r]).
    destruct n as [es|size xs].
    + destruct Hnode as [Hty _]. rewrite Hty. apply (dir_error_found FILE_ERR_BAD_TYPE s1 Hs1).
    + destruct Hnode as (Hty & Hsz & Hpos & Hl). rewrite Hty, Hsz.
      change (IFREG =? IFLNK) with false. change (negb (IFREG =? IFREG)) with false. cbn iota.
      destruct (volume_on _ _ Hn) as (_ & _ & _ & Hon & Hb & Hmax).
      eexists true, _. split; [reflexivity|]. split; [destruct Hs1 as [(? & ? & ? & ?) ?]; by split_and!|].
      split; [done|]. split; [done|]. split; [done|]. split; [done|]. split; [done|]. split; [done|].
      cbn. apply u64_small. unfold INT_MAX in Hmax. lia.
  - inversion Hok as [|? ? Hc Hcs]; subst. cbn [snd] in Hc.
    assert (path_text ((k, c) :: comps) ++ r = replicate (S k) 47 ++ c ++ path_text comps ++ r) as Ed
      by (unfold path_text; cbn [map concat]; by rewrite <- !app_assoc).
    rewrite Ed. change (replicate (S k) 47 ++ c ++ path_text comps ++ r) with
      (47 :: (replicate k 47 ++ c ++ path_text comps ++ r)) at 1.
    cbn iota beta. change ((47 =? 0) || isspace 47) with false. cbn iota.
    destruct n as [es|size xs].
    2:{ destruct Hnode as (Hty & _). rewrite Hty. apply (dir_error_found FILE_ERR_NOTDIR s1 Hs1). }
    destruct Hnode as [Hty Hd]. rewrite Hty.
    change (IFDIR =? IFLNK) with false. change (negb (IFDIR =? IFDIR)) with false. cbn iota.
    set (rest := path_text comps ++ r) in *.
    rewrite (slashes_replicate (S k)) by (by apply (comp_head c rest)).
    rewrite path_advance, Hpath, Ed by done. rewrite (drop_app_length' (replicate (S k) 47)) by by rewrite length_replicate.
    pose proof (path_text_next comps r Hcs Hr) as Hnext. fold rest in Hnext.
    rewrite (component_app c rest) by (done || apply Hc).
    assert (rest ≠ []) as Hrest by (intros E; rewrite E in Hnext; by destruct Hnext).
    assert ((length (c ++ rest) <=? length c)%nat = false) as ->
      by (apply Nat.leb_gt; rewrite length_app; destruct rest; [done|cbn [length]; lia]).
    rewrite take_app_length.
    destruct (enter_ok (S fuel) c es new s1 Hs1 Hd Hc ltac:(lia)) as (name & new1 & s2 & i & s3 & E2 & E3 & Hi & Hs3).
    rewrite (bind_ok _ _ _ _ _ E2), (bind_ok _ _ _ _ _ E3).
    destruct (dir_lookup c es) as [j|] eqn:Ej.
    2:{ rewrite bool_decide_false by (by intros [? ?]). apply (dir_error_found FILE_ERR_NOTFOUND s3 Hs3). }
    rewrite bool_decide_true by eauto. rewrite (Hi j) by done.
    destruct (dir_lookup_node _ _ _ _ Hn Ej) as [n' Hn'].
    apply (IH fuel arg lb _ _ ino j links r n'); try done; [cbn; lia| |cbn [length] in Hfuel; lia].
    rewrite !path_advance, Hpath, Ed by (cbn; lia).
    by rewrite (drop_app_length' (replicate (S k) 47)), drop_app_length by by rewrite length_replicate.
Qed.
End volume.

(** ** Opening and reading files *)

Definition part_offset (part : option partition_t) : Z :=
  match part with Some p => u64 (part_start p * blocksize p) | None => 0 end.

(** the volume [vol] is on the disk at [poff], where its superblock says it is *)
Record xfs_volume (poff : Z) (data : list Z) (vol : Z → option node) : Prop := XfsVolume {
  vol_bounded : 0 <= poff ∧ poff + sizeof_sb <= Z.of_nat (length data) < 18446744073709551616;
  vol_magic : be32 (slice data poff sizeof_sb) 0 = XFS_SB_MAGIC;
  vol_version : Z.land (be16 (slice data poff sizeof_sb) 100) XFS_SB_VERSION_NUMBITS = XFS_SB_VERSION_4;
  vol_blklog : 0 <= blklog (geometry_of (slice data poff sizeof_sb));
  vol_isize : 112 <= isize (geometry_of (slice data poff sizeof_sb)) <= INODE_ROOM;
  vol_nodes ino n : vol ino = Some n → node_on (geometry_of (slice data poff sizeof_sb)) poff data ino n;
  vol_closed : closed vol;
  vol_root : is_Some (vol (rootino (geometry_of (slice data poff sizeof_sb))));
}.

Section open.
Context {F : Type} `{Firmware F} (disk : Z) (inv : F → Prop) (data : list Z) `{!SeekDevice disk inv data}.
Context (low stack : list Z) (bplan : bool) (poff : Z) (vol : Z → option node) (on_disk : xfs_volume poff data vol).
Implicit Types s : xst F.

Let g : geometry := geometry_of (slice data poff sizeof_sb).

Lemma xfs_mount_ok s : inv (x_fw s) → of_device (xfs_file s) = disk → partition_offset s = poff →
  Z.of_nat (length (inode_buf s)) = INODE_ROOM →
  ∃ f, xfs_mount s = (Ok true, with_geo (with_fw s f) g) ∧ ready disk inv g poff (with_geo (with_fw s f) g).
Proof.
  intros Hs Hd Hp Hr. destruct (vol_bounded _ _ _ on_disk) as [H0 Hin].
  destruct (read_disk_block_ok disk inv data s 0 0 sizeof_sb poff) as (f & E & Hf);
    [done|done|rewrite Hp; lia|done|done|done|].
  exists f. unfold xfs_mount. rewrite (bind_ok _ _ _ _ _ E). rewrite Z.eqb_refl. cbn [negb].
  rewrite (vol_magic _ _ _ on_disk), Z.eqb_refl. cbn [negb].
  rewrite (vol_version _ _ _ on_disk), Z.eqb_refl. cbn [negb]. split; [reflexivity|]. split; [by split_and!|done].
Qed.

(** the name given to the firmware *)
Definition disk_name (d : list Z) : list Z := d ++ (if bplan then [] else bs ":0").

Lemma xfs_read_ok size xs file s fuel p n buf :
  ready disk inv g poff s → listed (inode_buf s) xs → Forall (extent_on g poff data) xs →
  0 <= size <= blocks xs * block_bytes g → blocks xs * block_bytes g <= INT_MAX →
  of_device file = disk → len file = size →
  0 <= p → 0 <= n → p + n <= size → n <= Z.of_nat (length buf) → (length xs < fuel)%nat →
  ∃ file' s', xfs_read stack fuel (set_pos p file) n buf s =
      (Ok (n, slice (contents g poff data xs) p n ++ drop (Z.to_nat n) buf, file'), s') ∧ pos file' = p + n ∧
    ready disk inv g poff s' ∧ inode_buf s' = inode_buf s ∧ of_device file' = disk ∧ len file' = size ∧
    Fs.fs file' = Fs.fs file.
Proof.
  intros [(Hg & Hp & Hd & Hs) Hr] Hl Hon Hsize Hmax Hdev Hlen Hp0 Hn Hend Hbuf Hfuel.
  unfold INT_MAX in Hmax.
  destruct (read_data_ok disk inv data g poff stack (vol_blklog _ _ _ on_disk) (proj2 (proj2 (vol_bounded _ _ _ on_disk)))
    xs buf n fuel (with_file s (set_pos p file))) as (s' & E & Hm & (Hib & _ & _ & Hl' & Hd' & Hf') & Epos); try done.
  - cbn. lia.
  - cbn. lia.
  - cbn. lia.
  - cbn. unfold INT_MAX. lia.
  - unfold xfs_read. rewrite (bind_ok _ _ _ tt (with_file s (set_pos p file))) by done.
    rewrite s32_small by (unfold INT_MIN, INT_MAX; lia). rewrite (bind_ok _ _ _ _ _ E), gets_bind.
    exists (xfs_file s'), s'. split; [done|]. split; [exact Epos|]. cbn in Hib, Hl', Hd', Hf'.
    split; [split; [exact Hm|by rewrite Hib]|]. split; [exact Hib|]. by rewrite Hd', Hl', Hf'.
Qed.

Lemma xfs_open_ok fuel file part fspec d path comps s f :
  part_offset part = poff → Z.of_nat (length (inode_buf s)) = INODE_ROOM → length (open_buffer s) = 1024%nat →
  dev fspec = Some d → cstr_ok d → (length d < 1020)%nat → Devpath.file fspec = Some path → (length path < 1024)%nat →
  path = path_text comps → Forall (λ c, comp_ok c.2) comps →
  prom_open (disk_name d) (x_fw s) = (disk, f) → inv f → invalid_device disk = false →
  (length comps + 260 <= fuel)%nat →
  ∃ e file' s', xfs_open_file low stack bplan fuel file part fspec s = (Ok (e, file'), s') ∧
    match resolve vol (rootino g) (map snd comps) with
    | NotFound err => e = err
    | Found size xs =>
        e = FILE_ERR_OK ∧ of_device file' = disk ∧ pos file' = 0 ∧ len file' = size ∧
        ready disk inv g poff s' ∧ listed (inode_buf s') xs ∧ Forall (extent_on g poff data) xs ∧
        0 <= size <= blocks xs * block_bytes g ∧ blocks xs * block_bytes g <= INT_MAX
    end.
Proof.
  intros Hpart Hroom Hbuf Hdev Hdok Hdlen Hfile Hplen -> Hok Hopen Hf Hvalid Hfuel.
  unfold xfs_open_file. rewrite (bind_ok _ _ _ tt (with_offset s poff)) by (unfold modify; by rewrite <- Hpart).
  rewrite gets_bind. change (open_buffer (with_offset s poff)) with (open_buffer s). rewrite Hdev, Hfile. cbn [cstr].
  rewrite cstring_strncpy by (done || lia). fold (disk_name d).
  pose proof (length_strncpy d 1020) as Hls.
  set (b1 := store (open_buffer s) 0 (strncpy d 1020)).
  assert (length b1 = 1024%nat) as Hb1 by (unfold b1; rewrite length_store; lia).
  assert (length (disk_name d ++ [0%Z]) <= 1024)%nat as Hname
    by (unfold disk_name; rewrite !length_app; destruct bplan; [|change (length (bs ":0")) with 2%nat]; cbn [length]; lia).
  pose proof (put_at_ok b1 0 (disk_name d ++ [0]) (with_offset s poff) ltac:(lia) ltac:(lia)) as Ew.
  rewrite (bind_ok _ _ _ _ _ Ew).
  set (b2 := store b1 0 (disk_name d ++ [0])). assert (length b2 = 1024%nat) as Hb2 by (unfold b2; rewrite length_store; lia).
  rewrite (bind_ok _ _ _ tt (with_open_buffer (with_offset s poff) b2)) by done.
  rewrite (bind_ok _ _ _ disk (with_fw (with_open_buffer (with_offset s poff) b2) f)) by (cbn; by rewrite Hopen).
  rewrite Hvalid.
  set (file1 := set_of_device disk file). set (s2 := with_file (with_fw (with_open_buffer (with_offset s poff) b2) f) file1).
  rewrite (bind_ok _ _ _ tt s2) by done.
  destruct (xfs_mount_ok s2) as (f2 & E2 & Hready); [done|done|done|done|].
  rewrite (bind_ok _ _ _ _ _ E2). cbn [negb]. set (s3 := with_geo (with_fw s2 f2) g) in *.
  rewrite gets_bind. change (open_buffer s3) with b2.
  assert (length (path_text comps ++ [0%Z]) <= 1024)%nat as Hpl by (rewrite length_app; cbn [length]; lia).
  pose proof (put_at_ok b2 0 (path_text comps ++ [0]) s3 ltac:(lia) ltac:(lia)) as Ew3. rewrite (bind_ok _ _ _ _ _ Ew3).
  set (b3 := store b2 0 (path_text comps ++ [0])). rewrite (bind_ok _ _ _ tt (with_open_buffer s3 b3)) by done.
  destruct (vol_root _ _ _ on_disk) as [n Hn].
  destruct (walk_ok disk inv data g poff low stack vol (proj2 (proj2 (vol_bounded _ _ _ on_disk))) (vol_isize _ _ _ on_disk)
    (vol_nodes _ _ _ on_disk) (vol_closed _ _ _ on_disk) comps fuel b3 (loaded stack 0 (bsize g)) (Path false 0) (rootino g)
    (rootino g) (be64 stack 0) 0 (0 :: drop (length (path_text comps ++ [0])) b2) n (with_open_buffer s3 b3))
    as (b & s4 & E4 & Hready4 & Harr); try done.
  - unfold path_from, b3, store. cbn [path_at in_link]. change (Z.to_nat 0) with O. rewrite drop_0.
    cbn [take app]. by rewrite <- app_assoc.
  - by left.
  - assert (xfs_dir low stack fuel b3 (with_open_buffer s3 b3) = (Ok b, s4)) as E5 by exact E4.
    rewrite (bind_ok _ _ _ _ _ E5), gets_bind.
    destruct (resolve vol (rootino g) (map snd comps)) as [size xs|err].
    + destruct Harr as (-> & Hl & Hon & Hsz & Hmax & Hpos & Hlen). cbn [negb].
      eexists _, _, _. split; [reflexivity|]. pose proof Hready4 as [(_ & _ & Hdisk & _) _]. by destruct Hsz.
    + destruct Harr as (-> & Herr). cbn [negb]. eexists _, _, _. split; [reflexivity|]. exact Herr.
Qed.
End open.

Lemma xfs_highbit_log2 v : is_byte v → nth (Z.to_nat v) xfs_highbit 0 = if v =? 0 then -1 else Z.log2 v.
Proof. intros Hv. apply Z.eqb_eq. by_bytes v Hv. Qed.

(** [v] has its highest bit in the byte at bit [k] *)
Lemma highbit_at v k : 0 <= k → 2 ^ k <= v < 2 ^ (k + 8) →
  k + nth (Z.to_nat (Z.land (Z.shiftr v k) 255)) xfs_highbit 0 = Z.log2 v.
Proof.
  intros Hk Hv. rewrite land_255, Z.shiftr_div_pow2 by done. assert (0 < 2 ^ k) by (by apply Z.pow_pos_nonneg).
  rewrite Z.pow_add_r in Hv by lia. change (2 ^ 8) with 256 in Hv.
  assert (1 <= v / 2 ^ k < 256) as Hq
    by (split; [apply Z.div_le_lower_bound; lia|apply Z.div_lt_upper_bound; lia]).
  rewrite Z.mod_small by lia. rewrite xfs_highbit_log2 by (unfold is_byte; lia).
  rewrite (proj2 (Z.eqb_neq _ 0)) by lia. rewrite <- Z.shiftr_div_pow2, Z.log2_shiftr by lia.
  assert (k <= Z.log2 v) by (apply Z.log2_le_pow2; lia). lia.
Qed.

(** the bits above [k] of a number of less than [n] bits *)
Lemma high_bits v k n : 0 <= k <= n → 0 <= v < 2 ^ n →
  negb (Z.land v (Z.shiftl (Z.ones (n - k)) k) =? 0) = (2 ^ k <=? v).
Proof.
  intros Hk Hv. assert (0 < 2 ^ k) by (apply Z.pow_pos_nonneg; lia).
  assert (Z.land v (Z.shiftl (Z.ones (n - k)) k) = v / 2 ^ k * 2 ^ k) as ->.
  { rewrite <- Z.shiftl_mul_pow2, <- Z.shiftr_div_pow2 by lia. apply Z.bits_inj_iff'. intros i Hi.
    rewrite Z.land_spec, !Z.shiftl_spec by lia. destruct (decide (i < k)) as [Hik|Hik].
    - rewrite !(Z.testbit_neg_r _ (i - k)) by lia. apply andb_false_r.
    - rewrite Z.shiftr_spec by lia. replace (i - k + k) with i by lia.
      rewrite Z.testbit_ones_nonneg by lia. destruct (Z.ltb_spec (i - k) (n - k)); [apply andb_true_r|].
      rewrite <- (Z.mod_small v (2 ^ n)) at 2 by lia. rewrite Z.mod_pow2_bits_high by lia. apply andb_false_r. }
  destruct (Z.leb_spec (2 ^ k) v).
  - assert (1 <= v / 2 ^ k) by (apply Z.div_le_lower_bound; lia). rewrite (proj2 (Z.eqb_neq _ 0)) by nia. done.
  - rewrite Z.div_small by lia. done.
Qed.

Lemma highbit32_spec v : 0 <= v < 4294967296 → xfs_highbit32 v = if v =? 0 then -1 else Z.log2 v.
Proof.
  intros Hv. unfold xfs_highbit32.
  change 4294901760 with (Z.shiftl (Z.ones (32 - 16)) 16). change 4278190080 with (Z.shiftl (Z.ones (32 - 24)) 24).
  rewrite (high_bits v 16 32), (high_bits v 24 32) by lia.
  destruct (Z.leb_spec (2 ^ 16) v) as [H16|H16].
  - rewrite (proj2 (Z.eqb_neq v 0)) by lia. destruct (Z.leb_spec (2 ^ 24) v); apply highbit_at; lia.
  - change 65535 with (Z.shiftl (Z.ones (16 - 0)) 0). change 65280 with (Z.shiftl (Z.ones (16 - 8)) 8).
    rewrite (high_bits v 0 16), (high_bits v 8 16) by lia. change (2 ^ 0) with 1.
    destruct (Z.leb_spec 1 v), (Z.eqb_spec v 0); try lia.
    destruct (Z.leb_spec (2 ^ 8) v); apply highbit_at; cbn; lia.
Qed.

(** ** Properties *)

(** C8: opening a file of an XFS volume follows the path from the root through directories
    kept in their inodes, as the specification [resolve] says: it fails with the error of
    [resolve], or the file has the size recorded and any part of it reads as the bytes of
    its extents on the disk. *)
Theorem xfs_file_opened {F : Type} `{Firmware F} disk (inv : F → Prop) data `{!SeekDevice disk inv data} low stack bplan
    vol fuel file part fspec d comps s f :
  let poff := part_offset part in
  let g := geometry_of (slice data poff sizeof_sb) in
  xfs_volume poff data vol →
  Z.of_nat (length (inode_buf s)) = INODE_ROOM → length (open_buffer s) = 1024%nat →
  dev fspec = Some d → cstr_ok d → (length d < 1020)%nat →
  Devpath.file fspec = Some (path_text comps) → (length (path_text comps) < 1024)%nat → Forall (λ c, comp_ok c.2) comps →
  prom_open (disk_name bplan d) (x_fw s) = (disk, f) → inv f → invalid_device disk = false →
  (length comps + 260 <= fuel)%nat →
  ∃ e file' s', xfs_open_file low stack bplan fuel file part fspec s = (Ok (e, file'), s') ∧
    match resolve vol (rootino g) (map snd comps) with
    | NotFound err => e = err
    | Found size xs =>
        e = FILE_ERR_OK ∧ pos file' = 0 ∧ len file' = size ∧
        ∀ p n buf, 0 <= p → 0 <= n → p + n <= size → n <= Z.of_nat (length buf) → (length xs < fuel)%nat →
          ∃ file2 s2, xfs_read stack fuel (set_pos p file') n buf s' =
              (Ok (n, slice (contents g poff data xs) p n ++ drop (Z.to_nat n) buf, file2), s2) ∧
            pos file2 = p + n
    end.
Proof.
  intros poff g Hvol Hroom Hbuf Hdev Hd Hdl Hfile Hpl Hok Hopen Hf Hvalid Hfuel.
  destruct (xfs_open_ok disk inv data low stack bplan poff vol Hvol fuel file part fspec d (path_text comps) comps s f)
    as (e & file' & s' & E & Hres); try done.
  exists e, file', s'. split; [exact E|]. fold g in Hres.
  destruct (resolve vol (rootino g) (map snd comps)) as [size xs|err]; [|done].
  destruct Hres as (-> & Hdisk & Hpos & Hlen & Hr & Hl & Hon & Hsz & Hmax). do 3 (split; [done|]).
  intros p n buf Hp Hn Hend Hnb Hfx.
  destruct (xfs_read_ok disk inv data stack poff vol Hvol size xs file' s' fuel p n buf) as (file2 & s2 & E2 & Hp2 & _);
    try done. by exists file2, s2.
Qed.

(** the position of the highest bit of a 32-bit number, found by bytes and a table, is
    its binary logarithm, and -1 when no bit is set. *)
Theorem xfs_highbit32_log2 v : 0 <= v < 4294967296 → xfs_highbit32 v = if v =? 0 then -1 else Z.log2 v.
Proof. apply highbit32_spec. Qed.

Example xfs_highbit32_log2_witness : 0 <= 65535 < 4294967296 ∧ xfs_highbit32 65535 = 15.
Proof. split; [lia|]. apply (xfs_highbit32_log2 65535). lia. Defined.

(** ** A small volume

    Blocks of 512 bytes, two inodes in each: the root with [etc], [vmlinux] and links,
    [etc] with [yaboot.conf], and files of one extent or two. *)

Definition example_super : list Z :=
  layout 512 [(0, put_be32 XFS_SB_MAGIC); (4, put_be32 512); (56, put_be64 16); (84, put_be32 24); (88, put_be32 1);
    (100, put_be16 4); (104, put_be16 256); (120, [9]); (123, [1]); (124, [5]); (192, [0])].

Definition example_inode (mode format size nextents : Z) (fork : list Z) : list Z :=
  layout 256 [(0, put_be16 18766); (2, put_be16 mode); (5, [format]); (56, put_be64 size); (76, put_be32 nextents);
    (100, fork)].

Definition example_dir (parent : Z) (es : list (list Z * Z)) : list Z :=
  example_inode IFDIR XFS_DINODE_FMT_LOCAL 0 0
    ([Z.of_nat (length es); 0] ++ put_be32 parent ++
     concat (map (λ '(n, i), [Z.of_nat (length n); 0; 0] ++ n ++ put_be32 i) es)).

Definition example_file (size : Z) (xs : list xad) : list Z :=
  example_inode IFREG XFS_DINODE_FMT_EXTENTS size (Z.of_nat (length xs)) (concat (map put_extent xs)).

Definition example_link (target : list Z) : list Z :=
  example_inode IFLNK XFS_DINODE_FMT_LOCAL (Z.of_nat (length target)) 0 target.

Definition plain_root : list (list Z * Z) := [(bs "etc", 17); (bs "vmlinux", 18)].
Definition links_root : list (list Z * Z) :=
  plain_root ++ [(bs "l", 19); (bs "deep", 21); (bs "sparse", 22)].
Definition example_etc : list (list Z * Z) := [(bs "yaboot.conf", 20)].
Definition example_kernel : list xad := [Xad 0 14 1; Xad 1 17 1].
Definition example_conf : list xad := [Xad 0 16 1].

Definition example_disk (root : list (list Z * Z)) : list Z :=
  layout 9728 [(0, example_super);
    (4096, example_dir 16 root); (4352, example_dir 16 example_etc);
    (4608, example_file 700 example_kernel); (4864, example_link (bs "/etc"));
    (5120, example_file 11 example_conf); (5376, example_link (bs "l"));
    (5632, example_file 1536 [Xad 1 14 1; Xad 2 17 1]);
    (7168, replicate 512 65); (8192, bs "timeout=100" ++ [10] ++ bs "left over"); (8704, replicate 512 66)].

Definition example_nodes : list (Z * node) :=
  [(16, Directory plain_root); (17, Directory example_etc); (18, Regular 700 example_kernel);
   (20, Regular 11 example_conf)].

Definition vol_of (l : list (Z * node)) (ino : Z) : option node :=
  snd <$> List.find (λ x, x.1 =? ino) l.

Lemma vol_of_elem l ino n : vol_of l ino = Some n → (ino, n) ∈ l.
Proof.
  unfold vol_of. destruct (List.find _ l) as [[i m]|] eqn:E; [|done]. intros [= <-].
  apply List.find_some in E as [Hin Heq]. cbn in Heq. apply Z.eqb_eq in Heq as ->. by apply list_elem_of_In.
Qed.

#[export] Instance records_dec b i xs : Decision (records b i xs).
Proof. unfold records. apply _. Defined.
#[export] Instance listed_dec b xs : Decision (listed b xs).
Proof. unfold listed. apply _. Defined.
#[export] Instance sf_directory_dec b es : Decision (sf_directory b es).
Proof. unfold sf_directory. apply _. Defined.
#[export] Instance node_on_dec g poff data ino n : Decision (node_on g poff data ino n).
Proof. unfold node_on, node_inode. destruct n; apply _. Defined.

(** the entries of a directory lead to nodes of the list *)
Definition entries_in (l : list (Z * node)) (n : node) : Prop :=
  match n with Directory es => Forall (λ e, e.2 ≠ 0 ∧ is_Some (vol_of l e.2)) es | Regular _ _ => True end.

#[export] Instance entries_in_dec l n : Decision (entries_in l n).
Proof. unfold entries_in. destruct n; apply _. Defined.

Lemma closed_list l : Forall (λ x, entries_in l x.2) l → closed (vol_of l).
Proof.
  intros Hl ino es c i Hino Hc. apply vol_of_elem in Hino. rewrite Forall_forall in Hl. specialize (Hl _ Hino).
  cbn in Hl. clear Hino. induction Hl as [|[nm j] es [Hne Hj] _ IH]; [done|]. cbn in Hc.
  case_decide; [by injection Hc as <-|by apply IH].
Qed.

Lemma example_volume : xfs_volume 0 (example_disk plain_root) (vol_of example_nodes).
Proof.
  split; try by_decision.
  - intros ino n Hn. apply vol_of_elem in Hn.
    assert (Forall (λ x, node_on (geometry_of (slice (example_disk plain_root) 0 sizeof_sb)) 0 (example_disk plain_root) x.1 x.2)
              example_nodes) as Hall by by_decision.
    rewrite Forall_forall in Hall. by apply (Hall (ino, n)).
  - apply closed_list. by_decision.
Qed.

Definition example_state (root : list (list Z * Z)) : xst image :=
  XSt (Image (example_disk root) 512 0 [] []) (BFile None 0 0 0 0 None 0) (zeros 4096) (zeros 4096) (zeros INODE_ROOM)
    (zeros 1024) 0 0 (geometry_of []) (Extents 0 0 0 false 0 0 0) (Entries 0 0 0 0 0 0 None).

Definition example_spec (name : list Z) : boot_fspec := set_file (Some name) (set_dev (Some (bs "hd")) fspec0).

Definition example_open (root : list (list Z * Z)) (name : list Z) : result fault (Z * boot_file) * xst image :=
  xfs_open_file [] [] false 300 (BFile None 0 0 0 0 None 0) None (example_spec name) (example_state root).

Example xfs_file_opened_witness :
  ∃ e file' s', example_open plain_root (bs "/etc//yaboot.conf") = (Ok (e, file'), s') ∧
    e = FILE_ERR_OK ∧ len file' = 11 ∧
    ∃ file2 s2, xfs_read [] 300 (set_pos 8 file') 3 (zeros 3) s' = (Ok (3, bs "100", file2), s2).
Proof.
  destruct (xfs_file_opened (H := image_firmware) 7 (of_image (example_disk plain_root)) (example_disk plain_root)
    (SeekDevice0 := image_seeks 7 (example_disk plain_root) ltac:(by_decision)) [] [] false
    (vol_of example_nodes) 300 (BFile None 0 0 0 0 None 0) None (example_spec (bs "/etc//yaboot.conf")) (bs "hd")
    [(0%nat, bs "etc"); (1%nat, bs "yaboot.conf")] (example_state plain_root)
    (Image (example_disk plain_root) 512 0 [] [])) as (e & file' & s' & E & Hres);
    [exact example_volume|by_decision|by_decision|reflexivity|by_decision|by_decision|reflexivity|by_decision|by_decision
    |reflexivity|reflexivity|reflexivity|by_decision|].
  exists e, file', s'. split; [exact E|].
  set (r := resolve _ _ _) in Hres.
  assert (r = Found 11 example_conf) as Er by (vm_compute; reflexivity). rewrite Er in Hres.
  destruct Hres as (-> & _ & Hlen & Hread). split; [reflexivity|]. split; [exact Hlen|].
  destruct (Hread 8 3 (zeros 3)) as (file2 & s2 & E2 & _); [lia|lia|lia|by_decision|by_decision|].
  exists file2, s2. rewrite E2. vm_compute. reflexivity.
Defined.

(** a file of the volume opened and read: the result and the bytes *)
Definition example_read (name : list Z) (p n : Z) : option (Z * list Z) :=
  match example_open links_root name with
  | (Ok (e, f), s) =>
      if e =? FILE_ERR_OK then
        match (xfs_read [] 300 (set_pos p f) n (zeros n) s).1 with Ok (r, b, _) => Some (r, b) | _ => None end
      else Some (e, [])
  | _ => None
  end.

(** a link is followed *)
Example link_followed : example_read (bs "/l/yaboot.conf") 8 3 = Some (3, bs "100").
Proof. vm_compute. reflexivity. Qed.

(** a read is not stopped by the end of the file *)
Example read_past_end : example_read (bs "/l/yaboot.conf") 8 12 = Some (12, bs "100" ++ [10] ++ bs "left ove").
Proof. vm_compute. reflexivity. Qed.

(** the target of a second link is put over the rest of the path, which is in the same
    buffer *)
Example second_link_lost : example_read (bs "/deep/yaboot.conf") 8 3 = Some (FILE_ERR_NOTFOUND, []).
Proof. vm_compute. reflexivity. Qed.

(** in a file that starts with a hole, nothing of the hole is read *)
Example hole_unread :
  example_read (bs "/sparse") 510 4 = Some (0, [0; 0; 0; 0]) ∧
  example_read (bs "/sparse") 1022 4 = Some (4, [65; 65; 66; 66]).
Proof. split; vm_compute; reflexivity. Qed.

(** the parent of a directory kept in its inode has no name *)
Example parent_not_found : example_read (bs "/etc/../vmlinux") 0 4 = Some (FILE_ERR_NOTFOUND, []).
Proof. vm_compute. reflexivity. Qed.

(** the last leaf of a tree of extents is followed by the block of its left neighbour,
    and the number that stands for none is taken for a block *)
Example no_neighbour_is_a_block g : blklog g = 12 → bdlog g = 3 → agblklog g = 20 → agblocks g = 1048576 →
  fsb2daddr g 18446744073709551615 ≠ 0.
Proof. unfold fsb2daddr, agb2daddr. intros _ -> -> ->. vm_compute. discriminate. Qed.

(** a small attribute fork puts the root of the tree of extents outside the inode *)
Example small_fork g i : di_forkoff i = 12 → 268435455 = btroot_maxrecs g i.
Proof. unfold btroot_maxrecs. intros ->. vm_compute. reflexivity. Qed.
