(* ===== verification/Reiserfs.v ===== *)
(** The ReiserFS reader, [second/fs_reiserfs.c] with [reiserfs/reiserfs.h].

    [struct reiserfs_state] is cut in two, what describes the volume ([volume]) and the
    position in the tree ([cursor]); the two, the node cache [FSYS_BUF], the file given to
    [reiserfs_open] and [errnum] are the state [rst].  Pointers into the cache are offsets.
    Numbers of the disk are little-endian; those only compared with each other, as the
    keys, are kept in the order of the processor too, which the swap of bytes, a
    bijection, does not change.  [behind] is what lies behind [FSYS_BUF] in memory, as
    words, and [stack] what local variables hold before they are set. *)
From S2P Require Import Prelude Ctype CString Numeric Vsprintf Malloc Prom Disk Devpath Partition Fs Paths.

(** ** Data *)

Definition REISERFS_MAX_SUPPORTED_VERSION : Z := 2.
Definition REISERFS_SUPER_MAGIC_STRING : list Z := bs "ReIsErFs".
Definition REISER2FS_SUPER_MAGIC_STRING : list Z := bs "ReIsEr2Fs".
Definition REISERFS_MAX_TREE_HEIGHT : Z := 7.
Definition SB_SIZE : Z := 204.
Definition JOURNAL_TRANS_HALF : Z := 1018.
Definition JOURNAL_DESC_MAGIC : list Z := bs "ReIsErLB".
Definition sizeof_desc : Z := 4096.
Definition sizeof_commit : Z := 4096.
Definition sizeof_header : Z := 12.
Definition ITEM_VERSION_1 : Z := 0.
Definition ITEM_VERSION_2 : Z := 1.
Definition KEY_SIZE : Z := 16.
Definition IH_SIZE : Z := 24.
Definition BLKH_SIZE : Z := 24.
Definition BLKH_LEVEL_LEAF : Z := 1.
Definition DC_SIZE : Z := 8.
Definition DEH_SIZE : Z := 16.
Definition DEH_Visible : Z := 2.
Definition V1_TYPE_DIRECT : Z := 4294967295.
Definition V1_TYPE_INDIRECT : Z := 4294967294.
Definition V2_TYPE_INDIRECT : Z := 1.
Definition V2_TYPE_DIRECT : Z := 2.
(** the part of [struct stat_data] that is looked at *)
Definition SD_ROOM : Z := 16.
Definition REISERFS_ROOT_OBJECTID : Z := 2.
Definition REISERFS_ROOT_PARENT_OBJECTID : Z := 1.
Definition REISERFS_SUPERBLOCK_BLOCK : Z := 16.
Definition REISERFS_OLD_SUPERBLOCK_BLOCK : Z := 2.
Definition REISERFS_OLD_BLOCKSIZE : Z := 4096.
Definition PATH_MAX : Z := 1024.
Definition MAX_LINK_COUNT : Z := 5.
Definition FSYSREISER_CACHE_SIZE : Z := REISERFS_MAX_TREE_HEIGHT * REISERFS_OLD_BLOCKSIZE.
Definition FSYSREISER_MIN_BLOCKSIZE : Z := 512.
Definition FSYSREISER_MAX_BLOCKSIZE : Z := FSYSREISER_CACHE_SIZE / 3.

Definition S_ISREG (mode : Z) : bool := Z.land mode 61440 =? 32768.
Definition S_ISDIR (mode : Z) : bool := Z.land mode 61440 =? 16384.
Definition S_ISLNK (mode : Z) : bool := Z.land mode 61440 =? 40960.

(** little-endian loads *)
Definition le16_at (l : list Z) (i : Z) : Z := byte_at l i + byte_at l (i + 1) * 256.
Definition le32_at (l : list Z) (i : Z) : Z := le16_at l i + le16_at l (i + 2) * 65536.
Definition le64_at (l : list Z) (i : Z) : Z := le32_at l i + le32_at l (i + 4) * 4294967296.

(** the volume: the fields of [struct reiserfs_state] set when it is opened *)
Record volume := Volume {
  partition_offset : Z;
  journal_block : Z;
  journal_block_count : Z;
  journal_first_desc : Z;
  version : Z;
  tree_depth : Z;
  blocksize_shift : Z;
  vol_blocksize : Z;
  cached_slots : Z;
  journal_transactions : Z;
}.

(** the position in the tree; [current_ih] is NULL at first *)
Record cursor := Cursor {
  file_dir_id : Z;
  file_objectid : Z;
  current_ih : option Z;
  current_item : Z;
  blocks : list Z;
  next_key_nr : list Z;
}.

Record rst (W : Type) := RSt {
  r_fw : W;
  r_file : boot_file;
  fsys : list Z;
  behind : list Z;
  open_buffer : list Z;
  errnum : Z;
  info : volume;
  cur : cursor;
}.
Arguments RSt {W}. Arguments r_fw {W}. Arguments r_file {W}. Arguments fsys {W}. Arguments behind {W}.
Arguments open_buffer {W}. Arguments errnum {W}. Arguments info {W}. Arguments cur {W}.

Section setters.
Context {V W : Type} (s : rst V).
Definition with_fw (v : W) : rst W := RSt v (r_file s) (fsys s) (behind s) (open_buffer s) (errnum s) (info s) (cur s).
Definition with_file (v : boot_file) : rst V := RSt (r_fw s) v (fsys s) (behind s) (open_buffer s) (errnum s) (info s) (cur s).
Definition with_fsys (v : list Z) : rst V := RSt (r_fw s) (r_file s) v (behind s) (open_buffer s) (errnum s) (info s) (cur s).
Definition with_behind (v : list Z) : rst V := RSt (r_fw s) (r_file s) (fsys s) v (open_buffer s) (errnum s) (info s) (cur s).
Definition with_open_buffer (v : list Z) : rst V := RSt (r_fw s) (r_file s) (fsys s) (behind s) v (errnum s) (info s) (cur s).
Definition with_errnum (v : Z) : rst V := RSt (r_fw s) (r_file s) (fsys s) (behind s) (open_buffer s) v (info s) (cur s).
Definition with_info (v : volume) : rst V := RSt (r_fw s) (r_file s) (fsys s) (behind s) (open_buffer s) (errnum s) v (cur s).
Definition with_cur (v : cursor) : rst V := RSt (r_fw s) (r_file s) (fsys s) (behind s) (open_buffer s) (errnum s) (info s) v.
End setters.

(** the item head and the block head at an offset of the cache *)
Definition k_dir_id (b : list Z) (p : Z) : Z := le32_at b p.
Definition k_objectid (b : list Z) (p : Z) : Z := le32_at b (p + 4).
Definition k_offset (b : list Z) (p : Z) : Z := le32_at b (p + 8).
Definition k_uniqueness (b : list Z) (p : Z) : Z := le32_at b (p + 12).
Definition ih_entry_count (b : list Z) (p : Z) : Z := le16_at b (p + 16).
Definition ih_item_len (b : list Z) (p : Z) : Z := le16_at b (p + 18).
Definition ih_location (b : list Z) (p : Z) : Z := le16_at b (p + 20).
Definition ih_version (b : list Z) (p : Z) : Z := le16_at b (p + 22).
Definition blkh_level (b : list Z) (p : Z) : Z := le16_at b p.
Definition blkh_nr_item (b : list Z) (p : Z) : Z := le16_at b (p + 2).
Definition dc_block_number (b : list Z) (p : Z) : Z := le32_at b p.

(** the type and the offset of a key of the second version, in one word *)
Definition offset_v2_k_type (b : list Z) (p : Z) : Z := Z.shiftr (le64_at b p) 60.
Definition offset_v2_k_offset (b : list Z) (p : Z) : Z := Z.land (le64_at b p) (Z.ones 60).

Definition first_version (v : volume) (b : list Z) (p : Z) : bool :=
  (version v <? 2) || (ih_version b p =? ITEM_VERSION_1).

Definition IH_KEY_OFFSET (v : volume) (b : list Z) (p : Z) : Z :=
  if first_version v b p then k_offset b p else offset_v2_k_offset b (p + 8).

Definition is_direct (v : volume) (b : list Z) (p : Z) : bool :=
  if first_version v b p then k_uniqueness b p =? V1_TYPE_DIRECT else offset_v2_k_type b (p + 8) =? V2_TYPE_DIRECT.
Definition is_indirect (v : volume) (b : list Z) (p : Z) : bool :=
  if first_version v b p then k_uniqueness b p =? V1_TYPE_INDIRECT else offset_v2_k_type b (p + 8) =? V2_TYPE_INDIRECT.

Definition sd_mode (b : list Z) (item : Z) : Z := le16_at b item.
Definition sd_size (b : list Z) (ih item : Z) : Z :=
  if ih_version b ih =? ITEM_VERSION_2 then le64_at b (item + 8) else le32_at b (item + 8).

(** the places of the cache *)
Definition CACHE (v : volume) (i : Z) : Z := i * vol_blocksize v.
Definition ROOT : Z := 0.
Definition LEAF (v : volume) : Z := CACHE v BLKH_LEVEL_LEAF.
Definition ITEMHEAD (v : volume) (i : Z) : Z := LEAF v + BLKH_SIZE + i * IH_SIZE.
Definition KEY (cache i : Z) : Z := cache + BLKH_SIZE + i * KEY_SIZE.
Definition DC (cache nr_item i : Z) : Z := cache + BLKH_SIZE + KEY_SIZE * nr_item + i * DC_SIZE.

(** [while( word && (word & (1 << ++i)) == 0 );]: the highest shift is 31 *)
Fixpoint log2_loop (n : nat) (word i : Z) : option Z :=
  match n with
  | O => None
  | S n => if Z.land word (Z.shiftl 1 (i + 1)) =? 0 then log2_loop n word (i + 1) else Some (i + 1)
  end.

(** [None] when the loop shifts by the width of an integer and more *)
Definition reiserfs_log2 (word : Z) : option Z := if word =? 0 then Some 0 else log2_loop 31 word 0.

Definition is_power_of_two (word : Z) : bool := Z.land word (u32 (- word)) =? word.

(** the types of items of the first version *)
Inductive item_type := TYPE_STAT_DATA | TYPE_INDIRECT | TYPE_DIRECT | TYPE_DIRENTRY | TYPE_ANY.

Definition uniqueness2type (uniqueness : Z) : item_type :=
  if uniqueness =? 0 then TYPE_STAT_DATA
  else if uniqueness =? 4294967294 then TYPE_INDIRECT
  else if uniqueness =? 4294967295 then TYPE_DIRECT
  else if uniqueness =? 500 then TYPE_DIRENTRY
  else TYPE_ANY.

Section reiserfs.
Context {F : Type} `{Firmware F}.
Context (env : prom_env) (low stack : list Z).

Definition rm (A : Type) : Type := stm (rst F) fault A.

Definition set_errnum (e : Z) : stm (rst F) fault unit := modify (λ s, with_errnum s e).
Definition set_cursor (c : cursor) : stm (rst F) fault unit := modify (λ s, with_cur s c).
Definition set_info (v : volume) : stm (rst F) fault unit := modify (λ s, with_info s v).
Definition say (fmt : list Z) (args : list arg) : stm (rst F) fault unit :=
  modify (λ s, with_fw s (prom_printf env fmt args (r_fw s))).

(** bytes stored at an offset of a buffer *)
Definition put_at (buf : list Z) (at_ : Z) (b : list Z) : stm (rst F) fault (list Z) :=
  if (at_ <? 0) || (Z.of_nat (length buf) <? at_ + Z.of_nat (length b)) then fail Overrun
  else mret (store buf at_ b).

(** ** The disk and the journal *)

(** the result and the bytes read *)
Definition read_disk_block (block start length : Z) : stm (rst F) fault (Z * list Z) := λ s,
  let v := info s in
  let size := if vol_blocksize v =? 0 then REISERFS_OLD_BLOCKSIZE else vol_blocksize v in
  let pos := u64 (u64 (u32 block * size) + u64 (partition_offset v + start)) in
  let '(ok, f) := prom_lseek (of_device (r_file s)) pos (r_fw s) in
  if ok =? 0 then (Ok (0, []), with_fw s f)
  else
    let '(n, b, f) := prom_read (of_device (r_file s)) length f in
    (Ok (n, take (Z.to_nat length) b), with_fw s f).

Definition journal_read (block len : Z) : stm (rst F) fault (Z * list Z) :=
  v ← gets info; read_disk_block (u32 (journal_block v + block)) 0 len.

(** a local structure of [size] bytes after a read into it *)
Definition over (size : Z) (b : list Z) : list Z := store (loaded stack 0 size) 0 b.

(** the inner loop over the words at [journal_table]: [k] turns left; where the block is
    found, and the pointer then *)
Fixpoint search_table (k : nat) (i : Z) (jt : nat) (blockNr : Z) : stm (rst F) fault (option Z * nat) :=
  match k with
  | O => mret (None, jt)
  | S k =>
      t ← gets behind;
      match nth_error t jt with
      | None => fail Overrun
      | Some w =>
          if le32_to_cpu w =? blockNr then mret (Some (i + 1), S jt) else search_table k (i + 1) (S jt) blockNr
      end
  end.

(** the real block numbers in [d] from offset [o], the [i]-th to the [n]-th *)
Fixpoint search_blocks (k : nat) (d : list Z) (o i blockNr : Z) : stm (rst F) fault (option Z) :=
  match k with
  | O => mret None
  | S k =>
      if Z.of_nat (length d) <? o + i * 4 + 4 then fail Overrun
      else if le32_at d (o + i * 4) =? blockNr then mret (Some (i + 1)) else search_blocks k d o (i + 1) blockNr
  end.

(** the transaction at [desc_block], which is not cached: its length and where the block
    was found, or [None] when it cannot be read *)
Definition search_disk (desc_block journal_mask blockNr : Z) : stm (rst F) fault (option (Z * option Z)) :=
  '(r, b) ← journal_read desc_block sizeof_desc;
  if r =? 0 then mret None
  else
    let desc := over sizeof_desc b in
    let j_len := s32 (le32_at desc 4) in
    let n := Z.min j_len JOURNAL_TRANS_HALF in
    found ← search_blocks (Z.to_nat n) desc 12 0 blockNr;
    if bool_decide (is_Some found) || (j_len <? JOURNAL_TRANS_HALF) then mret (Some (j_len, found))
    else
      '(r, b) ← journal_read (Z.land (u32 (desc_block + 1 + j_len)) journal_mask) sizeof_commit;
      if r =? 0 then mret None
      else
        found ← search_blocks (Z.to_nat (j_len - n)) (over sizeof_commit b) 8 0 blockNr;
        mret (Some (j_len, option_map (λ i, n + i) found)).

(** the [while] loop of [block_read], [transactions] being left; [jt] is the position of
    [journal_table] behind the cache *)
Fixpoint translate (transactions : nat) (desc_block journal_mask blockNr translated : Z) (jt : nat)
    : stm (rst F) fault (option Z) :=
  match transactions with
  | O => mret (Some translated)
  | S transactions =>
      v ← gets info;
      let block i := u32 (journal_block v + Z.land (u32 (desc_block + i)) journal_mask) in
      t ← gets behind;
      match nth_error t jt with
      | None => fail Overrun
      | Some w =>
          if negb (w =? 4294967295) then
            let j_len := s32 (le32_to_cpu w) in
            modify (λ s, with_behind s (<[jt := u32 (w + 1)]> t));;
            '(found, jt') ← search_table (Z.to_nat j_len) 0 jt blockNr;
            let next := Z.land (u32 (desc_block + 2 + j_len)) journal_mask in
            match found with
            | Some i => translate transactions next journal_mask blockNr (block i) (jt' + Z.to_nat (j_len - i))
            | None => translate transactions next journal_mask blockNr translated jt'
            end
          else
            r ← search_disk desc_block journal_mask blockNr;
            match r with
            | None => mret None
            | Some (j_len, found) =>
                translate transactions (Z.land (u32 (desc_block + 2 + j_len)) journal_mask) journal_mask blockNr
                  (match found with Some i => block i | None => translated end) jt
            end
      end
  end.

Definition block_read (blockNr start len : Z) : stm (rst F) fault (Z * list Z) :=
  v ← gets info;
  r ← translate (Z.to_nat (journal_transactions v)) (journal_first_desc v) (u32 (journal_block_count v - 1))
        blockNr blockNr 0;
  match r with
  | None => mret (0, [])
  | Some b => read_disk_block b start len
  end.

(** one transaction of the journal: the identifiers are compared as they were loaded,
    [next_trans_id] being a number of the processor *)
Definition valid_desc (desc header : list Z) (next_trans_id : Z) : bool :=
  (strcmp JOURNAL_DESC_MAGIC (cstring (slice desc 4084 12)) =? 0) && (be32 desc 0 =? next_trans_id) &&
  (be32 desc 8 =? be32 header 8).

(** the [while] loop of [journal_init]: the next transaction.  The table of the journal
    would start where [FSYS_BUF] ends, so nothing is put in it *)
Fixpoint journal_loop (fuel : nat) (header desc commit : list Z) (desc_block next_trans_id : Z)
    : stm (rst F) fault Z :=
  match fuel with
  | O => out_of_fuel
  | S fuel =>
      v ← gets info;
      '(_, b) ← journal_read desc_block sizeof_desc;
      let desc := store desc 0 b in
      if negb (valid_desc desc header next_trans_id) then mret next_trans_id
      else
        let commit_block := Z.land (u32 (desc_block + le32_at desc 4 + 1)) (u32 (journal_block_count v - 1)) in
        '(_, b) ← journal_read commit_block sizeof_commit;
        let commit := store commit 0 b in
        if negb (be32 desc 0 =? be32 commit 0) || negb (be32 desc 4 =? be32 commit 4) then mret next_trans_id
        else
          journal_loop fuel header desc commit (Z.land (u32 (commit_block + 1)) (u32 (journal_block_count v - 1)))
            (u32 (next_trans_id + 1))
  end.

Definition set_journal (transactions first_desc : Z) (v : volume) : volume :=
  Volume (partition_offset v) (journal_block v) (journal_block_count v) first_desc (version v) (tree_depth v)
    (blocksize_shift v) (vol_blocksize v) (cached_slots v) transactions.

(** the counter has 16 bits *)
Definition journal_init (fuel : nat) : stm (rst F) fault Z :=
  v ← gets info;
  '(_, b) ← journal_read (journal_block_count v) sizeof_header;
  let header := over sizeof_header b in
  let desc_block := le32_at header 4 in
  if journal_block_count v <=? desc_block then mret 0
  else
    set_info (set_journal 0 desc_block v);;
    next ← journal_loop fuel header (loaded stack 0 sizeof_desc) (loaded stack 0 sizeof_commit) desc_block (u32 (le32_at header 0 + 1));
    set_info (set_journal (u16 (u32 (next - le32_at header 0 - 1))) desc_block v);;
    e ← gets errnum;
    mret (if e =? 0 then 1 else 0).

(** ** The superblock *)

Definition has_magic (super : list Z) : bool :=
  (strcmp REISER2FS_SUPER_MAGIC_STRING (cstring (slice super 52 12)) =? 0) ||
  (strcmp REISERFS_SUPER_MAGIC_STRING (cstring (slice super 52 12)) =? 0).

(** the superblock and the block it was found in *)
Definition find_super : stm (rst F) fault (option (list Z * Z)) :=
  '(n, b) ← read_disk_block REISERFS_SUPERBLOCK_BLOCK 0 SB_SIZE;
  if negb (n =? SB_SIZE) then mret None
  else if has_magic b then mret (Some (b, REISERFS_SUPERBLOCK_BLOCK))
  else
    '(n, b) ← read_disk_block REISERFS_OLD_SUPERBLOCK_BLOCK 0 SB_SIZE;
    if negb (n =? SB_SIZE) then mret None
    else if has_magic b then mret (Some (b, REISERFS_OLD_SUPERBLOCK_BLOCK))
    else if negb (strcmp REISERFS_SUPER_MAGIC_STRING (cstring (slice b 20 184)) =? 0) then mret None
    else
      (* before journals *)
      mret (Some (store (store (store b 44 (rev (put_be16 REISERFS_OLD_BLOCKSIZE))) 12 [0; 0; 0; 0]) 72 [0; 0],
                  REISERFS_OLD_SUPERBLOCK_BLOCK)).

(** [INFO] from the superblock *)
Definition volume_of (v : volume) (super : list Z) (shift : Z) : volume :=
  Volume (partition_offset v) (le32_at super 12) (le32_at super 20) (journal_first_desc v) (le16_at super 72)
    (tree_depth v) shift (le16_at super 44) (u16 (Z.shiftr FSYSREISER_CACHE_SIZE shift - 1)) (journal_transactions v).

(** a block read into the cache: whether it was read *)
Definition read_cache (block len p : Z) : stm (rst F) fault bool :=
  '(r, b) ← block_read block 0 len;
  f ← gets fsys;
  f ← put_at f p b;
  modify (λ s, with_fsys s f);;
  mret (negb (r =? 0)).

(** from the superblock to the root of the tree *)
Definition read_root (super : list Z) : stm (rst F) fault bool :=
  v ← gets info;
  ok ← read_cache (le32_at super 8) (vol_blocksize v) ROOT;
  if negb ok then say (bs "ReiserFS: Failed to read in root block" ++ [10]) [];; mret false
  else
    f ← gets fsys;
    let depth := blkh_level f ROOT in
    set_info (Volume (partition_offset v) (journal_block v) (journal_block_count v) (journal_first_desc v) (version v)
                depth (blocksize_shift v) (vol_blocksize v) (cached_slots v) (journal_transactions v));;
    if REISERFS_MAX_TREE_HEIGHT <=? depth then
      say (bs "ReiserFS: Unsupported tree depth (too deep): %u" ++ [10]) [AInt depth];; mret false
    else if depth =? BLKH_LEVEL_LEAF then
      f ← put_at f (LEAF v) (slice f ROOT (vol_blocksize v));
      modify (λ s, with_fsys s f);; mret true
    else mret true.

(** the journal is set up, and the superblock read again from where the journal has it *)
Definition setup_journal (fuel : nat) (superblock : Z) (super : list Z) : stm (rst F) fault (option (list Z)) :=
  v ← gets info;
  if journal_block v =? 0 then mret (Some super)
  else if negb (is_power_of_two (journal_block_count v)) then
    say (bs "ReiserFS: Unsupported journal size, not a power of 2: %u" ++ [10]) [AInt (journal_block_count v)];;
    mret None
  else
    _ ← journal_init fuel;
    '(_, b) ← block_read superblock 0 SB_SIZE;
    mret (Some (store super 0 b)).

Definition reiserfs_read_super (fuel : nat) : stm (rst F) fault bool :=
  found ← find_super;
  match found with
  | None => mret false
  | Some (super, superblock) =>
      v ← gets info;
      match reiserfs_log2 (le16_at super 44) with
      | None => fail Overrun
      | Some shift =>
          let v := volume_of v super shift in
          set_info v;;
          if REISERFS_MAX_SUPPORTED_VERSION <? version v then
            say (bs "ReiserFS: Unsupported version field: %u" ++ [10]) [AInt (version v)];; mret false
          else if (vol_blocksize v <? FSYSREISER_MIN_BLOCKSIZE) || (FSYSREISER_MAX_BLOCKSIZE <? vol_blocksize v) then
            say (bs "ReiserFS: Unsupported block size: %u" ++ [10]) [AInt (vol_blocksize v)];; mret false
          else
            super ← setup_journal fuel superblock super;
            match super with
            | None => mret false
            | Some super => read_root super
            end
      end
  end.

(** ** The tree *)

Definition set_block (depth b : Z) : stm (rst F) fault unit :=
  modify (λ s, let c := cur s in
    with_cur s (Cursor (file_dir_id c) (file_objectid c) (current_ih c) (current_item c)
      (<[Z.to_nat depth := b]> (blocks c)) (next_key_nr c))).

Definition set_next_key_nr (depth n : Z) : stm (rst F) fault unit :=
  modify (λ s, let c := cur s in
    with_cur s (Cursor (file_dir_id c) (file_objectid c) (current_ih c) (current_item c) (blocks c)
      (<[Z.to_nat depth := n]> (next_key_nr c)))).

Definition nth_Z (l : list Z) (i : Z) : Z := nth (Z.to_nat i) l 0.

(** the node, as the place of the cache it is in, or [None] *)
Definition read_tree_node (blockNr depth : Z) : stm (rst F) fault (option Z) :=
  set_errnum 0;;
  v ← gets info; c ← gets cur;
  if (depth <? cached_slots v) && (blockNr =? nth_Z (blocks c) depth) then mret (Some (CACHE v depth))
  else
    let cache := CACHE v (if depth <? cached_slots v then depth else cached_slots v) in
    ok ← read_cache blockNr (vol_blocksize v) cache;
    if negb ok then mret None
    else
      f ← gets fsys;
      if negb (blkh_level f cache =? depth) then set_errnum FILE_ERR_BAD_FSYS;; mret None
      else set_block depth blockNr;; mret (Some cache).

(** the item at [ih] of the leaf becomes the current one *)
Definition set_current (ih : Z) : stm (rst F) fault unit :=
  v ← gets info; f ← gets fsys; c ← gets cur;
  set_cursor (Cursor (file_dir_id c) (file_objectid c) (Some ih) (LEAF v + ih_location f ih) (blocks c) (next_key_nr c)).

(** up from the leaf to the first node with keys left: its depth, or [Some None] at the
    root.  [None] when no level of [next_key_nr] is the depth of the tree *)
Fixpoint next_depth (n : nat) (v : volume) (c : cursor) (depth : Z) : option (option Z) :=
  match n with
  | O => None
  | S n =>
      if depth =? tree_depth v then Some None
      else if REISERFS_MAX_TREE_HEIGHT <=? depth + 1 then None
      else if nth_Z (next_key_nr c) (depth + 1) =? 0 then next_depth n v c (depth + 1)
      else Some (Some (depth + 1))
  end.

(** the second loop of [next_key], down from the node in [cache] *)
Fixpoint go_down (fuel : nat) (cache depth : Z) : stm (rst F) fault bool :=
  match fuel with
  | O => out_of_fuel
  | S fuel =>
      f ← gets fsys; c ← gets cur;
      let nr_item := blkh_nr_item f cache in
      let key_nr := nth_Z (next_key_nr c) depth in
      set_next_key_nr depth (if key_nr =? nr_item then 0 else u32 (key_nr + 1));;
      if FSYSREISER_CACHE_SIZE <? DC cache nr_item key_nr + 4 then fail Overrun
      else
        r ← read_tree_node (dc_block_number f (DC cache nr_item key_nr)) (depth - 1);
        match r with
        | None => mret false
        | Some cache =>
            if BLKH_LEVEL_LEAF <? depth - 1 then go_down fuel cache (depth - 1) else mret true
        end
  end.

(** whether there is a next key; after the last one of the tree, the key that bounds the
    leaf is the current one *)
Definition next_key (fuel : nat) : stm (rst F) fault bool :=
  v ← gets info; f ← gets fsys; c ← gets cur;
  match current_ih c with
  | None => fail NullPointer
  | Some ih =>
      if negb (ih + IH_SIZE =? ITEMHEAD v (blkh_nr_item f (LEAF v))) then
        if FSYSREISER_CACHE_SIZE <? ih + IH_SIZE + IH_SIZE then fail Overrun
        else set_current (ih + IH_SIZE);; mret true
      else
        match next_depth (Z.to_nat REISERFS_MAX_TREE_HEIGHT) v c BLKH_LEVEL_LEAF with
        | None => fail Overrun
        | Some None => set_current (LEAF v + 8);; mret true
        | Some (Some depth) =>
            r ← (if depth =? tree_depth v then mret (Some (ROOT, depth))
                 else if depth <=? cached_slots v then mret (Some (CACHE v depth, depth))
                 else
                   r ← read_tree_node (nth_Z (blocks c) depth) (depth - 1);
                   mret (option_map (λ p, (p, depth - 1)) r));
            match r with
            | None => mret false
            | Some (cache, depth) =>
                ok ← go_down fuel cache depth;
                if ok : bool then set_current (ITEMHEAD v 0);; mret true else mret false
            end
        end
  end.

(** the key at [p] is behind the key of the stat data of an object *)
Definition key_behind (f : list Z) (p dir_id objectid : Z) : bool :=
  (dir_id <? k_dir_id f p) ||
  (k_dir_id f p =? dir_id) &&
  ((objectid <? k_objectid f p) ||
   (k_objectid f p =? objectid) && (0 <? Z.lor (k_offset f p) (k_uniqueness f p))).

(** the [for] loop over the keys of a node: the child to go on with *)
Fixpoint find_child (n : nat) (f : list Z) (cache i dir_id objectid : Z) : Z :=
  match n with
  | O => i
  | S n => if key_behind f (KEY cache i) dir_id objectid then i else find_child n f cache (i + 1) dir_id objectid
  end.

(** the key of the stat data of an object *)
Definition is_stat (f : list Z) (p dir_id objectid : Z) : bool :=
  (k_dir_id f p =? dir_id) && (k_objectid f p =? objectid) && (k_offset f p =? 0) && (k_uniqueness f p =? 0).

(** the [for] loop over the items of a leaf, from item [i] *)
Fixpoint find_item (n : nat) (f : list Z) (v : volume) (i dir_id objectid : Z) : option Z :=
  match n with
  | O => None
  | S n =>
      if is_stat f (ITEMHEAD v i) dir_id objectid then Some (ITEMHEAD v i) else find_item n f v (i + 1) dir_id objectid
  end.

(** the [while] loop of [search_stat], down from the node in [cache] *)
Fixpoint search_down (fuel : nat) (cache depth dir_id objectid : Z) : stm (rst F) fault bool :=
  if depth <=? BLKH_LEVEL_LEAF then mret true
  else
    match fuel with
    | O => out_of_fuel
    | S fuel =>
        f ← gets fsys;
        let nr_item := blkh_nr_item f cache in
        let i := find_child (Z.to_nat nr_item) f cache 0 dir_id objectid in
        if FSYSREISER_CACHE_SIZE <? DC cache nr_item i + 4 then fail Overrun
        else
          set_next_key_nr depth (if i =? nr_item then 0 else i + 1);;
          r ← read_tree_node (dc_block_number f (DC cache nr_item i)) (depth - 1);
          match r with
          | None => mret false
          | Some cache => search_down fuel cache (depth - 1) dir_id objectid
          end
    end.

Definition search_stat (fuel : nat) (dir_id objectid : Z) : stm (rst F) fault bool :=
  set_errnum 0;;
  v ← gets info;
  ok ← search_down fuel ROOT (tree_depth v) dir_id objectid;
  if negb ok then mret false
  else
    f ← gets fsys;
    let nr_item := blkh_nr_item f (LEAF v) in
    match find_item (Z.to_nat nr_item) f v 0 dir_id objectid with
    | Some ih => if FSYSREISER_CACHE_SIZE <? ih + IH_SIZE then fail Overrun else set_current ih;; mret true
    | None =>
        if FSYSREISER_CACHE_SIZE <? ITEMHEAD v nr_item then fail Overrun
        else set_errnum FILE_ERR_BAD_FSYS;; mret false
    end.

(** ** File contents *)

Definition advance_pos (n : Z) : stm (rst F) fault unit :=
  modify (λ s, with_file s (set_pos (u64 (pos (r_file s) + n)) (r_file s))).

(** the blocks of an indirect item: what [buf] holds then, the place in it and how much
    is left to read *)
Fixpoint read_indirect (fuel : nat) (item offset size : Z) (buf : list Z) (at_ len : Z)
    : stm (rst F) fault (list Z * Z * Z) :=
  if size <=? offset then mret (buf, at_, len)
  else
    match fuel with
    | O => out_of_fuel
    | S fuel =>
        v ← gets info; f ← gets fsys;
        let p := item + Z.shiftr offset (blocksize_shift v) * 4 in
        if FSYSREISER_CACHE_SIZE <? p + 4 then fail Overrun
        else
          let blk_offset := Z.land offset (vol_blocksize v - 1) in
          let to_read := Z.min (vol_blocksize v - blk_offset) len in
          '(_, b) ← read_disk_block (le32_at f p) blk_offset to_read;
          buf ← put_at buf at_ b;
          advance_pos to_read;;
          if len - to_read =? 0 then mret (buf, at_ + to_read, 0)
          else read_indirect fuel item (u32 (offset + to_read)) size buf (at_ + to_read) (len - to_read)
    end.

(** the item that is current, if it holds data from the position on; [None] when there is
    nothing to look at in it *)
Definition read_item (fuel : nat) (ih : Z) (buf : list Z) (at_ len : Z)
    : stm (rst F) fault (option (list Z * Z * Z)) :=
  v ← gets info; f ← gets fsys; c ← gets cur; p ← gets (λ s, pos (r_file s));
  let offset := u32 (p - IH_KEY_OFFSET v f ih + 1) in
  let blocksize := ih_item_len f ih in
  if is_direct v f ih && (offset <? blocksize) then
    let to_read := Z.min (blocksize - offset) len in
    if FSYSREISER_CACHE_SIZE <? current_item c + offset + to_read then fail Overrun
    else
      buf ← put_at buf at_ (slice f (current_item c + offset) to_read);
      advance_pos to_read;;
      mret (Some (buf, at_ + to_read, len - to_read))
  else if is_indirect v f ih then
    let size := u32 (Z.shiftl (Z.shiftr blocksize 2) (blocksize_shift v)) in
    if size <=? offset then mret None
    else
      r ← read_indirect fuel (current_item c) offset size buf at_ len;
      mret (Some r)
  else mret None.

(** the loop of [reiserfs_read_data]: what [buf] holds then and how much was read *)
Fixpoint read_loop (fuel : nat) (buf : list Z) (at_ len : Z) : stm (rst F) fault (list Z * Z) :=
  match fuel with
  | O => out_of_fuel
  | S fuel' =>
      e ← gets errnum; c ← gets cur; f ← gets fsys;
      if negb (e =? 0) then mret (buf, at_)
      else
        match current_ih c with
        | None => fail NullPointer
        | Some ih =>
            if negb (k_objectid f ih =? file_objectid c) then mret (buf, at_)
            else
              r ← read_item fuel ih buf at_ len;
              match r with
              | Some (buf, at_, len) =>
                  if len =? 0 then mret (buf, at_)
                  else _ ← next_key fuel; read_loop fuel' buf at_ len
              | None => _ ← next_key fuel; read_loop fuel' buf at_ len
              end
        end
  end.

(** the result and what [buf] holds then *)
Definition reiserfs_read_data (fuel : nat) (buf : list Z) (len : Z) : stm (rst F) fault (Z * list Z) :=
  set_errnum 0;;
  v ← gets info; c ← gets cur; f ← gets fsys; p ← gets (λ s, pos (r_file s));
  match current_ih c with
  | None => fail NullPointer
  | Some ih =>
      (if negb (k_objectid f ih =? file_objectid c) || (u64 (p + 1) <? IH_KEY_OFFSET v f ih) then
         _ ← search_stat fuel (file_dir_id c) (file_objectid c);
         _ ← next_key fuel;
         mret tt
       else mret tt);;
      '(buf, n) ← read_loop fuel buf 0 len;
      e ← gets errnum;
      mret (if negb (e =? 0) then 0 else s32 n, buf)
  end.

(** ** Paths

    The path is in the buffer the name was copied to or in [linkbuf]. *)

(** the length of what remains of a path *)
Fixpoint remaining (d : list Z) : nat :=
  match d with c :: d => if (c =? 0) || isspace c then O else S (remaining d) | [] => O end.

Definition open_error (e : Z) : stm (rst F) fault bool := set_errnum e;; mret false.

Definition set_fileinfo (dir_id objectid : Z) : stm (rst F) fault unit :=
  modify (λ s, let c := cur s in
    with_cur s (Cursor dir_id objectid (current_ih c) (current_item c) (blocks c) (next_key_nr c))).

Definition set_file (pos len : Z) : stm (rst F) fault unit :=
  modify (λ s, with_file s (set_pos pos (set_len len (r_file s)))).

(** the name of an entry, which ends where the name of the one before it starts, if not
    with a zero before; [None] when there is no zero up to the end of the cache *)
Definition entry_name (f : list Z) (filename name_end : Z) : option (list Z) :=
  let t := drop (Z.to_nat filename) (store f name_end [0]) in
  if (length (cstring t) <? length t)%nat then Some (cstring t) else None.

(** the loop over the entries of a directory item, the [n] from the one at [de]: that with
    the name *)
Fixpoint find_entry (n : nat) (f : list Z) (item de name_end : Z) (comp : list Z)
    : stm (rst F) fault (option Z) :=
  match n with
  | O => mret None
  | S n =>
      if (FSYSREISER_CACHE_SIZE <? de + DEH_SIZE) || (FSYSREISER_CACHE_SIZE <=? name_end) then fail Overrun
      else
        let filename := item + le16_at f (de + 12) in
        if negb (Z.land (le16_at f (de + 14)) (Z.shiftl 1 DEH_Visible) =? 0) then
          match entry_name f filename name_end with
          | None => fail Overrun
          | Some name =>
              if strcmp comp name =? 0 then mret (Some de) else find_entry n f item (de + DEH_SIZE) filename comp
          end
        else find_entry n f item (de + DEH_SIZE) filename comp
  end.

(** the [while] loop over the items of a directory: the entry with the name.  [Some None]
    when there is none, [None] when the next item cannot be read *)
Fixpoint find_name (fuel : nat) (objectid : Z) (comp : list Z) : stm (rst F) fault (option (option Z)) :=
  match fuel with
  | O => out_of_fuel
  | S fuel' =>
      ok ← next_key fuel;
      if negb ok then mret None
      else
        f ← gets fsys; c ← gets cur;
        match current_ih c with
        | None => fail NullPointer
        | Some ih =>
            if negb (k_objectid f ih =? objectid) then mret (Some None)
            else
              r ← find_entry (Z.to_nat (ih_entry_count f ih)) f (current_item c) (current_item c)
                    (current_item c + ih_item_len f ih) comp;
              match r with
              | Some de => mret (Some (Some de))
              | None => find_name fuel' objectid comp
              end
        end
  end.

(** a link: [linkbuf] with its target and the rest of the path, or [None] with [errnum]
    set *)
Definition read_link (fuel : nat) (arg linkbuf : list Z) (p : path) (dir_id objectid : Z)
    : stm (rst F) fault (option (list Z)) :=
  f ← gets fsys; c ← gets cur; old ← gets (λ s, pos (r_file s));
  match current_ih c with
  | None => fail NullPointer
  | Some ih =>
      let size := sd_size f ih (current_item c) in
      set_file old size;;
      let d := path_from arg linkbuf p in
      let n := remaining d in
      if (length d <=? n)%nat then fail Overrun
      else if PATH_MAX - 1 <? u64 (size + Z.of_nat n) then set_errnum FILE_ERR_LENGTH;; mret None
      else
        linkbuf ← put_at linkbuf size (take (S n) d);
        set_fileinfo dir_id objectid;;
        set_file 0 size;;
        ok ← next_key fuel;
        if negb ok then set_errnum FILE_IOERR;; mret None
        else
          '(r, linkbuf) ← reiserfs_read_data fuel linkbuf (u32 size);
          if negb (u64 r =? size) then set_errnum FILE_IOERR;; mret None
          else mret (Some linkbuf)
  end.

(** the [while] loop of [reiserfs_open_file] at the object [dir_id], [objectid] *)
Fixpoint walk (fuel : nat) (arg linkbuf : list Z) (p : path)
    (dir_id objectid parent_dir_id parent_objectid link_count : Z) : stm (rst F) fault bool :=
  match fuel with
  | O => out_of_fuel
  | S fuel' =>
      ok ← search_stat fuel dir_id objectid;
      if negb ok then mret false
      else
        f ← gets fsys; c ← gets cur;
        let mode := sd_mode f (current_item c) in
        if FSYSREISER_CACHE_SIZE <? current_item c + SD_ROOM then fail Overrun
        else if S_ISLNK mode then
          if MAX_LINK_COUNT <? link_count + 1 then open_error FILE_ERR_SYMLINK_LOOP
          else
            r ← read_link fuel arg linkbuf p dir_id objectid;
            match r with
            | None => mret false
            | Some linkbuf =>
                let '(dir_id, objectid) :=
                  if byte_at linkbuf 0 =? 47 then (REISERFS_ROOT_PARENT_OBJECTID, REISERFS_ROOT_OBJECTID)
                  else (parent_dir_id, parent_objectid) in
                walk fuel' arg linkbuf (Path true 0) dir_id objectid parent_dir_id parent_objectid (link_count + 1)
            end
        else
          let d := path_from arg linkbuf p in
          match d with
          | [] => fail Overrun
          | ch :: _ =>
              if (ch =? 0) || isspace ch then
                if negb (S_ISREG mode) then open_error FILE_ERR_BAD_TYPE
                else
                  match current_ih c with
                  | None => fail NullPointer
                  | Some ih =>
                      set_file 0 (sd_size f ih (current_item c));;
                      set_fileinfo dir_id objectid;;
                      next_key fuel
                  end
              else
                let p := advance p (slashes d) in
                if negb (S_ISDIR mode) then open_error FILE_ERR_NOTDIR
                else
                  let d := path_from arg linkbuf p in
                  let n := component d in
                  if (length d <=? n)%nat then fail Overrun
                  else
                    r ← find_name fuel objectid (take n d);
                    match r with
                    | None => mret false
                    | Some None => open_error FILE_ERR_NOTFOUND
                    | Some (Some de) =>
                        f ← gets fsys;
                        walk fuel' arg linkbuf (advance p n) (le32_at f (de + 4)) (le32_at f (de + 8)) dir_id objectid
                          link_count
                    end
          end
  end.

Definition reiserfs_open_file (fuel : nat) (dirname : list Z) : stm (rst F) fault bool :=
  set_errnum 0;;
  walk fuel dirname (loaded stack 0 PATH_MAX) (Path false 0) REISERFS_ROOT_PARENT_OBJECTID REISERFS_ROOT_OBJECTID 0 0 0.

(** ** The operations of the file system *)

Context (bplan : bool).

(** [INFO] cleared *)
Definition volume0 (poff : Z) : volume := Volume poff 0 0 0 0 0 0 0 0 0.
Definition cursor0 : cursor := Cursor 0 0 None 0 (replicate 7 0) (replicate 7 0).

(** the partition is looked at when the specification names one, or none with -1 *)
Definition reiserfs_open_path (fuel : nat) (file : boot_file) (part : option partition_t) (fspec : boot_fspec)
    : stm (rst F) fault (Z * boot_file) :=
  poff ←
    (if Devpath.part fspec =? 0 then mret 0
     else match part with
          | Some p => mret (u64 (part_start p * blocksize p))
          | None => fail NullPointer
          end);
  set_info (volume0 poff);;
  set_cursor cursor0;;
  b ← gets open_buffer;
  let b := store b 0 (strncpy (cstr low (dev fspec)) 1020) in
  let name := cstring b ++ (if bplan then [] else bs ":0") in
  b ← put_at b 0 (name ++ [0]);
  modify (λ s, with_open_buffer s b);;
  d ← (λ s, let '(d, f) := prom_open name (r_fw s) in (Ok d, with_fw s f));
  let file := set_of_device d file in
  modify (λ s, with_file s file);;
  if invalid_device d then mret (FILE_ERR_BADDEV, file)
  else
    mounted ← reiserfs_read_super fuel;
    if negb mounted then
      modify (λ s, with_fw s (prom_close d (r_fw s)));;
      mret (FILE_ERR_BAD_FSYS, file)
    else
      b ← gets open_buffer;
      b ← put_at b 0 (cstr low (Devpath.file fspec) ++ [0]);
      modify (λ s, with_open_buffer s b);;
      ok ← reiserfs_open_file fuel b;
      file ← gets r_file;
      if negb ok then
        modify (λ s, with_fw s (prom_close d (r_fw s)));;
        e ← gets errnum;
        mret (e, file)
      else mret (FILE_ERR_OK, file).

(** the file is the one whose address [reiserfs_open] kept *)
Definition reiserfs_read (fuel : nat) (file : boot_file) (size : Z) (buffer : list Z)
    : stm (rst F) fault (Z * list Z * boot_file) :=
  modify (λ s, with_file s file);;
  '(n, b) ← reiserfs_read_data fuel buffer size;
  file ← gets r_file;
  mret (n, b, file).

Definition reiserfs_seek (file : boot_file) (newpos : Z) : Z * boot_file := (FILE_ERR_OK, set_pos newpos file).

Definition reiserfs_close (file : boot_file) : stm (rst F) fault (Z * boot_file) :=
  if of_device file =? 0 then mret (FILE_ERR_OK, file)
  else
    modify (λ s, with_fw s (prom_close (of_device file) (r_fw s)));;
    mret (FILE_ERR_OK, set_of_device 0 file).
End reiserfs.

(** ** In the file layer *)

(** the place of the static variables among those of the file systems *)
Class ReiserfsState (X : Type) := {
  reiserfs_static : X → rst unit;
  set_reiserfs_static : rst unit → X → X;
}.

Section layer.
Context {F : Type} `{Firmware F} {X : Type} `{ReiserfsState X}.

Definition on_reiserfs {A} (m : stm (rst F) fault A) : stm (fstate F X) fault A := λ s,
  let '(r, x) := m (with_fw (reiserfs_static (f_priv s)) (pfw (f_base s))) in
  (r, FState (set_fw (r_fw x) (f_base s)) (f_bufs s) (fserrorno s)
        (set_reiserfs_static (with_fw x tt) (f_priv s))).

Definition reiserfs_open (env : prom_env) (low stack : list Z) (bplan : bool) (fuel : nat) : open_fn F X :=
  λ file part fspec, on_reiserfs (reiserfs_open_path env low stack bplan fuel file part fspec).
End layer.

(** ** Trees on the disk: the specification

    Nodes are blocks of the disk.  The key of the stat data of an object is its two
    numbers and 0; of the rest of a key only whether it is 0 matters. *)

Definition tkey : Type := Z * Z * Z.

Definition klt (a b : tkey) : Prop :=
  let '(a1, a2, a3) := a in let '(b1, b2, b3) := b in
  a1 < b1 ∨ a1 = b1 ∧ (a2 < b2 ∨ a2 = b2 ∧ a3 < b3).

#[export] Instance klt_dec a b : Decision (klt a b).
Proof. destruct a as [[a1 a2] a3], b as [[b1 b2] b3]. unfold klt. apply _. Defined.

Definition key_at (f : list Z) (p : Z) : tkey := (k_dir_id f p, k_objectid f p, Z.lor (k_offset f p) (k_uniqueness f p)).

(** at or above a lower bound, below an upper one *)
Definition above (lo : option tkey) (k : tkey) : Prop := match lo with Some l => ¬ klt k l | None => True end.
Definition below (k : tkey) (hi : option tkey) : Prop := match hi with Some h => klt k h | None => True end.

#[export] Instance above_dec lo k : Decision (above lo k).
Proof. unfold above. destruct lo; apply _. Defined.
#[export] Instance below_dec k hi : Decision (below k hi).
Proof. unfold below. destruct hi; apply _. Defined.

Section tree.
Context (data : list Z) (poff bsize : Z).

(** block [b] of the volume *)
Definition blk (b : Z) : list Z := slice data (b * bsize + poff) bsize.

Definition on_disk (b : Z) : Prop := 0 < b < 4294967296 ∧ b * bsize + poff + bsize <= Z.of_nat (length data).

Definition nr_items (b : Z) : Z := blkh_nr_item (blk b) 0.
Definition node_key (b i : Z) : tkey := key_at (blk b) (KEY 0 i).
Definition child (b i : Z) : Z := dc_block_number (blk b) (DC 0 (nr_items b) i).
Definition leaf_key (b i : Z) : tkey := key_at (blk b) (BLKH_SIZE + i * IH_SIZE).

(** the bounds of the child [i] *)
Definition child_lo (lo : option tkey) (b i : Z) : option tkey := if i =? 0 then lo else Some (node_key b (i - 1)).
Definition child_hi (hi : option tkey) (b i : Z) : option tkey := if i =? nr_items b then hi else Some (node_key b i).

(** the block [b] is the root of a tree of depth [d] whose keys lie between the bounds *)
Fixpoint tree_ok (d : nat) (lo hi : option tkey) (b : Z) : Prop :=
  on_disk b ∧ blkh_level (blk b) 0 = Z.of_nat d ∧ 0 <= nr_items b ∧
  match d with
  | O => False
  | S O =>
      BLKH_SIZE + nr_items b * IH_SIZE <= bsize ∧
      Forall (λ i, above lo (leaf_key b i) ∧ below (leaf_key b i) hi) (seqZ 0 (nr_items b))
  | S d =>
      DC 0 (nr_items b) (nr_items b + 1) <= bsize ∧
      Forall (λ i, above lo (node_key b i) ∧ below (node_key b i) hi) (seqZ 0 (nr_items b)) ∧
      Forall (λ i, Forall (λ j, ¬ klt (node_key b j) (node_key b i)) (seqZ i (nr_items b - i))) (seqZ 0 (nr_items b)) ∧
      Forall (λ i, tree_ok d (child_lo lo b i) (child_hi hi b i) (child b i)) (seqZ 0 (nr_items b + 1))
  end.

(** the key is that of an item of the tree *)
Fixpoint in_tree (d : nat) (b : Z) (k : tkey) : Prop :=
  match d with
  | O => False
  | S O => Exists (λ i, leaf_key b i = k) (seqZ 0 (nr_items b))
  | S d => Exists (λ i, in_tree d (child b i) k) (seqZ 0 (nr_items b + 1))
  end.

#[export] Instance on_disk_dec b : Decision (on_disk b).
Proof. unfold on_disk. apply _. Defined.

#[export] Instance tree_ok_dec d : ∀ lo hi b, Decision (tree_ok d lo hi b).
Proof.
  induction d as [|d IH]; intros lo hi b; cbn [tree_ok]; [apply _|]. destruct d; apply _.
Defined.

#[export] Instance in_tree_dec d : ∀ b k, Decision (in_tree d b k).
Proof. induction d as [|d IH]; intros b k; cbn [in_tree]; [apply _|]. destruct d; apply _. Defined.

(** what lies in a tree lies between its bounds *)
Lemma above_trans lo k l : above lo k → ¬ klt l k → above lo l.
Proof. destruct lo as [[[a1 a2] a3]|]; [|done]. destruct k as [[b1 b2] b3], l as [[c1 c2] c3]. cbn. lia. Qed.

Lemma below_trans k l hi : below k hi → klt l k → below l hi.
Proof. destruct hi as [[[a1 a2] a3]|]; [|done]. destruct k as [[b1 b2] b3], l as [[c1 c2] c3]. cbn. lia. Qed.

Lemma in_tree_bounds d : ∀ lo hi b k, tree_ok d lo hi b → in_tree d b k → above lo k ∧ below k hi.
Proof.
  induction d as [|[|d] IH]; intros lo hi b k (_ & _ & _ & H) Hin; [done| |].
  - destruct H as [_ H]. cbn [in_tree] in Hin. rewrite Exists_exists in Hin. destruct Hin as (i & Hi & <-).
    rewrite Forall_forall in H. by apply H.
  - destruct H as (_ & Hkeys & _ & Hc). cbn [in_tree] in Hin. rewrite Exists_exists in Hin.
    destruct Hin as (i & Hi & Hin). rewrite Forall_forall in Hc, Hkeys. pose proof (Hc i Hi) as Hci.
    destruct (IH _ _ _ _ Hci Hin) as [Hlo Hhi]. apply elem_of_seqZ in Hi. unfold child_lo, child_hi in *. split.
    + destruct (Z.eqb_spec i 0); [done|]. apply (above_trans lo (node_key b (i - 1))); [|exact Hlo].
      apply Hkeys, elem_of_seqZ. lia.
    + destruct (Z.eqb_spec i (nr_items b)); [done|]. apply (below_trans (node_key b i)); [|exact Hhi].
      apply Hkeys, elem_of_seqZ. lia.
Qed.

Lemma in_leaf b k : in_tree 1 b k ↔ ∃ i, 0 <= i < nr_items b ∧ leaf_key b i = k.
Proof.
  cbn [in_tree]. rewrite Exists_exists. split; intros (i & Hi & <-); exists i; apply elem_of_seqZ in Hi || rewrite elem_of_seqZ; done.
Qed.

(** the leaves of a tree, in order, and those under the children from [i] on *)
Fixpoint leaves (d : nat) (b : Z) : list Z :=
  match d with
  | O => []
  | S O => [b]
  | S d => seqZ 0 (nr_items b + 1) ≫= λ i, leaves d (child b i)
  end.

Definition later (d : nat) (b i : Z) : list Z := seqZ i (nr_items b + 1 - i) ≫= λ j, leaves d (child b j).

Lemma later_cons d b i : i <= nr_items b → later d b i = leaves d (child b i) ++ later d b (i + 1).
Proof. intros. unfold later. rewrite (seqZ_cons i) by lia. cbn. do 2 f_equal; f_equal; lia. Qed.

Lemma later_nil d b i : nr_items b < i → later d b i = [].
Proof. intros. unfold later. by rewrite seqZ_nil by lia. Qed.

Lemma leaves_later d b : leaves (S (S d)) b = later (S d) b 0.
Proof. unfold later. cbn [leaves]. by rewrite Z.sub_0_r. Qed.

(** a child [i] between whose keys the target lies holds it when the tree does *)
Lemma in_child d lo hi b k i : tree_ok (S (S d)) lo hi b → 0 <= i <= nr_items b →
  (∀ j, 0 <= j < i → ¬ klt k (node_key b j)) → (i < nr_items b → klt k (node_key b i)) →
  in_tree (S (S d)) b k ↔ in_tree (S d) (child b i) k.
Proof.
  intros (_ & _ & _ & _ & _ & Hsort & Hc) Hi Hlt Hgt. cbn [in_tree]. rewrite Exists_exists.
  split; [|intros Hin; exists i; split; [apply elem_of_seqZ; lia|done]].
  intros (j & Hj & Hin). rewrite Forall_forall in Hc, Hsort. pose proof (Hc j Hj) as Hcj. apply elem_of_seqZ in Hj.
  destruct (in_tree_bounds _ _ _ _ _ Hcj Hin) as [Hlo Hhi]. unfold child_lo, child_hi in *.
  destruct (Z.lt_trichotomy j i) as [Hji|[->|Hji]]; [|done|].
  - exfalso. destruct (Z.eqb_spec j (nr_items b)); [lia|]. by apply (Hlt j); [lia|].
  - exfalso. destruct (Z.eqb_spec j 0); [lia|]. cbn in Hlo.
    assert (¬ klt (node_key b (j - 1)) (node_key b i)) as Hs.
    { assert (i ∈ seqZ 0 (nr_items b)) as Hi0 by (apply elem_of_seqZ; lia). specialize (Hsort i Hi0).
      rewrite Forall_forall in Hsort. apply (Hsort (j - 1)), elem_of_seqZ. lia. }
    specialize (Hgt ltac:(lia)). revert Hlo Hs Hgt.
    destruct (node_key b (j - 1)) as [[a1 a2] a3], (node_key b i) as [[b1 b2] b3], k as [[c1 c2] c3]. cbn. lia.
Qed.
End tree.

(** ** The cache *)

Lemma le16_at_slice l o n i : 0 <= o → 0 <= i → i + 2 <= n → le16_at (slice l o n) i = le16_at l (o + i).
Proof. intros. unfold le16_at. rewrite !byte_at_slice by lia. by rewrite Z.add_assoc. Qed.

Lemma le32_at_slice l o n i : 0 <= o → 0 <= i → i + 4 <= n → le32_at (slice l o n) i = le32_at l (o + i).
Proof. intros. unfold le32_at. rewrite !le16_at_slice by lia. by rewrite Z.add_assoc. Qed.

Lemma key_at_slice l o n p : 0 <= o → 0 <= p → p + KEY_SIZE <= n → key_at (slice l o n) p = key_at l (o + p).
Proof.
  unfold KEY_SIZE. intros. unfold key_at, k_dir_id, k_objectid, k_offset, k_uniqueness.
  rewrite !le32_at_slice by lia. by rewrite !Z.add_assoc.
Qed.

Lemma key_behind_klt f p dir_id objectid : key_behind f p dir_id objectid = bool_decide (klt (dir_id, objectid, 0) (key_at f p)).
Proof.
  unfold key_behind, key_at, klt. apply eq_bool_prop_intro. rewrite bool_decide_spec.
  rewrite !orb_True, !andb_True, !orb_True, !andb_True.
  repeat match goal with |- context [Is_true (?a <? ?b)] => rewrite (Is_true_true (a <? b)), Z.ltb_lt end.
  repeat match goal with |- context [Is_true (?a =? ?b)] => rewrite (Is_true_true (a =? b)), Z.eqb_eq end.
  intuition lia.
Qed.

Lemma find_child_spec n f cache dir_id objectid : ∀ i, let r := find_child n f cache i dir_id objectid in
  i <= r <= i + Z.of_nat n ∧
  (∀ j, i <= j < r → ¬ klt (dir_id, objectid, 0) (key_at f (KEY cache j))) ∧
  (r < i + Z.of_nat n → klt (dir_id, objectid, 0) (key_at f (KEY cache r))).
Proof.
  induction n as [|n IH]; intros i; cbn [find_child]; [split_and!; try lia; intros; lia|].
  rewrite key_behind_klt. case_bool_decide as Hk; [by split_and!; try lia|].
  destruct (IH (i + 1)) as (H1 & H2 & H3). split_and!; [lia|lia| |].
  - intros j Hj. destruct (decide (j = i)) as [->|]; [done|]. apply H2. lia.
  - intros Hr. apply H3. lia.
Qed.

Lemma is_stat_key f p dir_id objectid : is_stat f p dir_id objectid = bool_decide (key_at f p = (dir_id, objectid, 0)).
Proof.
  unfold is_stat, key_at. apply eq_bool_prop_intro. rewrite bool_decide_spec, !andb_True, !Is_true_true, !Z.eqb_eq.
  split; [intros (((-> & ->) & H1) & H2); rewrite H1, H2; done|].
  intros [= -> -> Hl]. apply Z.lor_eq_0_iff in Hl. tauto.
Qed.

Lemma find_item_spec n f v dir_id objectid : ∀ i,
  match find_item n f v i dir_id objectid with
  | Some p => ∃ j, i <= j < i + Z.of_nat n ∧ p = ITEMHEAD v j ∧ key_at f (ITEMHEAD v j) = (dir_id, objectid, 0)
  | None => ∀ j, i <= j < i + Z.of_nat n → key_at f (ITEMHEAD v j) ≠ (dir_id, objectid, 0)
  end.
Proof.
  induction n as [|n IH]; intros i; cbn [find_item]; [intros; lia|].
  rewrite is_stat_key. case_bool_decide as Hk; [exists i; split_and!; try lia; done|].
  specialize (IH (i + 1)). destruct (find_item n f v (i + 1) dir_id objectid).
  - destruct IH as (j & Hj & ? & ?). exists j. split; [lia|done].
  - intros j Hj. destruct (decide (j = i)) as [->|]; [done|]. apply IH. lia.
Qed.

(** ** The disk and the cache *)

Lemma nth_Z_insert l d (x : Z) : 0 <= d < Z.of_nat (length l) → nth_Z (<[Z.to_nat d := x]> l) d = x.
Proof. intros. unfold nth_Z. rewrite nth_lookup, list_lookup_insert_eq by lia. done. Qed.

Lemma nth_Z_insert_ne l d e (x : Z) : 0 <= d → 0 <= e → d ≠ e → nth_Z (<[Z.to_nat d := x]> l) e = nth_Z l e.
Proof. intros. unfold nth_Z. by rewrite !nth_lookup, list_lookup_insert_ne by lia. Qed.

Lemma insert_nth_Z l d : 0 <= d < Z.of_nat (length l) → <[Z.to_nat d := nth_Z l d]> l = l.
Proof.
  intros. destruct (lookup_lt_is_Some_2 l (Z.to_nat d)) as [x Hx]; [lia|].
  apply list_insert_id. unfold nth_Z. by rewrite nth_lookup, Hx.
Qed.

Section search.
Context {F : Type} `{Firmware F} (disk : Z) (inv : F → Prop) (data : list Z) `{!SeekDevice disk inv data}.
Context (data_bounded : Z.of_nat (length data) < 18446744073709551616) (stack : list Z).
Implicit Types s : rst F.

(** the device is that of the data *)
Definition on_device (s : rst F) : Prop := of_device (r_file s) = disk ∧ inv (r_fw s).

(** where a read of the disk starts *)
Definition disk_pos (v : volume) (b start : Z) : Z :=
  b * (if vol_blocksize v =? 0 then REISERFS_OLD_BLOCKSIZE else vol_blocksize v) + (partition_offset v + start).

Lemma read_disk_ok s b start len : on_device s → 0 <= b < 4294967296 → 0 <= vol_blocksize (info s) →
  0 <= partition_offset (info s) → 0 <= start → 0 < len <= INT_MAX →
  disk_pos (info s) b start + len <= Z.of_nat (length data) →
  ∃ f, read_disk_block b start len s = (Ok (len, slice data (disk_pos (info s) b start) len), with_fw s f) ∧ inv f.
Proof.
  intros [Hd Hs] Hb Hbs Hpo Hst Hlen. unfold read_disk_block, disk_pos. rewrite Hd, (u32_small b) by lia.
  set (size := if vol_blocksize (info s) =? 0 then REISERFS_OLD_BLOCKSIZE else vol_blocksize (info s)).
  assert (0 <= b * size) by (unfold size; destruct (vol_blocksize (info s) =? 0); unfold REISERFS_OLD_BLOCKSIZE; nia).
  intros Hin. rewrite (u64_small (b * size)), (u64_small (_ + start)), u64_small by lia.
  destruct (sd_range (r_fw s) (b * size + (partition_offset (info s) + start)) len Hs) as (r & f1 & f2 & E1 & Hr & E2 & Hf2);
    [lia|lia|done|]. rewrite E1, (proj2 (Z.eqb_neq r 0) Hr), E2. exists f2. split; [|done].
  rewrite take_ge; [done|]. unfold slice. rewrite length_take. lia.
Qed.

Lemma block_read_ok s b start len : on_device s → journal_transactions (info s) = 0 → 0 <= b < 4294967296 →
  0 <= vol_blocksize (info s) → 0 <= partition_offset (info s) → 0 <= start → 0 < len <= INT_MAX →
  disk_pos (info s) b start + len <= Z.of_nat (length data) →
  ∃ f, block_read stack b start len s = (Ok (len, slice data (disk_pos (info s) b start) len), with_fw s f) ∧ inv f.
Proof.
  intros Hs Hj. intros. unfold block_read. rewrite gets_bind, Hj. change (Z.to_nat 0) with O. cbn [translate].
  rewrite ret_bind. by apply read_disk_ok.
Qed.

(** a block read into a slot of the cache *)
Lemma read_cache_ok s b p : let v := info s in on_device s → journal_transactions v = 0 → 0 <= partition_offset v →
  0 < vol_blocksize v <= INT_MAX → on_disk data (partition_offset v) (vol_blocksize v) b →
  0 <= p → p + vol_blocksize v <= Z.of_nat (length (fsys s)) →
  ∃ f, read_cache stack b (vol_blocksize v) p s =
    (Ok true, with_fsys (with_fw s f) (store (fsys s) p (blk data (partition_offset v) (vol_blocksize v) b))) ∧ inv f.
Proof.
  intros v Hs Hj Hpo Hbs [Hb Hin] Hp Hpin. subst v.
  assert (disk_pos (info s) b 0 = b * vol_blocksize (info s) + partition_offset (info s)) as Hpos.
  { unfold disk_pos. rewrite (proj2 (Z.eqb_neq _ 0)) by lia. lia. }
  destruct (block_read_ok s b 0 (vol_blocksize (info s)) Hs Hj) as (f & E & Hf); [lia..|lia|]. rewrite Hpos in E.
  exists f. split; [|done]. unfold read_cache. rewrite (bind_ok _ _ _ _ _ E), gets_bind.
  change (slice data (b * vol_blocksize (info s) + partition_offset (info s)) (vol_blocksize (info s)))
    with (blk data (partition_offset (info s)) (vol_blocksize (info s)) b).
  assert (Z.of_nat (length (blk data (partition_offset (info s)) (vol_blocksize (info s)) b)) = vol_blocksize (info s)) as Hl.
  { unfold blk. rewrite length_slice; nia. }
  set (c := blk data (partition_offset (info s)) (vol_blocksize (info s)) b) in *.
  assert (put_at (fsys s) p c (with_fw s f) = (Ok (store (fsys s) p c), with_fw s f)) as Ew
    by (unfold put_at; rewrite (proj2 (Z.ltb_ge p 0)), (proj2 (Z.ltb_ge _ _)) by lia; done).
  change (fsys (with_fw s f)) with (fsys s). rewrite (bind_ok _ _ _ _ _ Ew).
  rewrite (bind_ok _ _ _ tt (with_fsys (with_fw s f) (store (fsys s) p c))) by done.
  by rewrite (proj2 (Z.eqb_neq (vol_blocksize (info s)) 0)) by lia.
Qed.

(** ** The cache and the disk *)

Context (v : volume) (root : Z) (fits : 512 <= vol_blocksize v ∧ 1 < cached_slots v ∧
  (cached_slots v + 1) * vol_blocksize v <= FSYSREISER_CACHE_SIZE) (no_journal : journal_transactions v = 0)
  (offset_nonneg : 0 <= partition_offset v) (depth_ok : 1 <= tree_depth v < REISERFS_MAX_TREE_HEIGHT).

Let bsize := vol_blocksize v.
Let block (b : Z) : list Z := blk data (partition_offset v) bsize b.

(** the slot [d] holds block [b], of level [d] *)
Definition holds_node (s : rst F) (d b : Z) : Prop :=
  slice (fsys s) (CACHE v d) bsize = block b ∧ blkh_level (block b) 0 = d.

(** the cache agrees with the disk: the root is in its place, and so is every node whose
    number is kept *)
Definition coherent (s : rst F) : Prop :=
  info s = v ∧ on_device s ∧ Z.of_nat (length (fsys s)) = FSYSREISER_CACHE_SIZE ∧
  (length (blocks (cur s)) = 7%nat ∧ length (next_key_nr (cur s)) = 7%nat) ∧ slice (fsys s) ROOT bsize = block root ∧
  (tree_depth v = 1 → slice (fsys s) (LEAF v) bsize = block root) ∧
  ∀ d, 1 <= d < REISERFS_MAX_TREE_HEIGHT → d < cached_slots v → nth_Z (blocks (cur s)) d ≠ 0 →
    holds_node s d (nth_Z (blocks (cur s)) d).

Lemma bsize_bounded : 512 <= bsize <= INT_MAX.
Proof.
  destruct fits as (Hbs & Hcs & Hfit). fold bsize in Hbs, Hfit. split; [done|].
  unfold FSYSREISER_CACHE_SIZE, REISERFS_MAX_TREE_HEIGHT, REISERFS_OLD_BLOCKSIZE in Hfit. change INT_MAX with 2147483647. nia.
Qed.

Lemma block_length b : on_disk data (partition_offset v) bsize b → Z.of_nat (length (block b)) = bsize.
Proof. intros [Hb Hin]. pose proof bsize_bounded. unfold block, blk. rewrite length_slice; nia. Qed.

(** the cursor after a node was read *)
Definition at_block (d b : Z) (c : cursor) : cursor :=
  Cursor (file_dir_id c) (file_objectid c) (current_ih c) (current_item c) (<[Z.to_nat d := b]> (blocks c)) (next_key_nr c).

(** a node is in its slot after it was read into it, and the others stay *)
Lemma coherent_read s b d f : coherent s → on_disk data (partition_offset v) bsize b → blkh_level (block b) 0 = d →
  1 <= d < tree_depth v → inv f →
  let slot := if d <? cached_slots v then d else cached_slots v in
  let s' := with_cur (with_fsys (with_fw (with_errnum s 0) f) (store (fsys s) (CACHE v slot) (block b)))
    (at_block d b (cur s)) in
  coherent s' ∧ slice (fsys s') (CACHE v slot) bsize = block b ∧
  0 <= CACHE v slot ∧ CACHE v slot + bsize <= FSYSREISER_CACHE_SIZE.
Proof.
  intros (Hv & (Hd & Hs) & Hl & [Hbl Hkl] & Hroot & Hleaf & Hnodes) Hb Hlev Hd1 Hf slot s'.
  pose proof (block_length b Hb) as Hlb. destruct fits as (Hbs & Hcs & Hfit). fold bsize in Hbs, Hfit.
  assert (1 <= slot <= cached_slots v ∧ (d < cached_slots v → slot = d) ∧ (cached_slots v <= d → slot = cached_slots v))
    as (Hslot & Hslot1 & Hslot2) by (unfold slot; destruct (Z.ltb_spec d (cached_slots v)); lia).
  clearbody slot. unfold CACHE. fold bsize.
  assert (0 <= slot * bsize ∧ slot * bsize + bsize <= FSYSREISER_CACHE_SIZE) as [Hp1 Hp2] by nia.
  assert (∀ i, 0 <= i → i ≠ slot → slice (store (fsys s) (slot * bsize) (block b)) (i * bsize) bsize =
      slice (fsys s) (i * bsize) bsize) as Hother.
  { intros i Hi Hne. destruct (Z.lt_ge_cases i slot).
    - apply slice_store_before; nia.
    - apply slice_store_after; nia. }
  assert (slice (store (fsys s) (slot * bsize) (block b)) (slot * bsize) bsize = block b) as Hsame.
  { rewrite <- Hlb at 3. apply slice_store_same; lia. }
  split; [|done]. unfold REISERFS_MAX_TREE_HEIGHT in *.
  split; [done|]. split; [done|].
  split; [etransitivity; [|exact Hl]; f_equal; apply length_store; unfold CACHE; fold bsize; lia|].
  split; [split; [by etransitivity; [apply length_insert|]|exact Hkl]|].
  pose proof (Hother 0 ltac:(lia) ltac:(lia)) as Hzero. rewrite Z.mul_0_l in Hzero.
  split; [etransitivity; [exact Hzero|exact Hroot]|].
  split; [lia|]. intros e He Hec. cbn [s' cur with_cur blocks at_block].
  destruct (decide (e = d)) as [->|Hne].
  - rewrite nth_Z_insert by lia. intros _. split; [|done]. unfold CACHE. fold bsize.
    specialize (Hslot1 ltac:(lia)). subst slot. exact Hsame.
  - rewrite nth_Z_insert_ne by lia. intros Hnz.
    destruct (Hnodes e He Hec Hnz) as [H1 H2]. split; [|done]. unfold CACHE in H1 |- *. fold bsize in H1 |- *.
    cbn. rewrite Hother by lia. exact H1.
Qed.

(** what the steps through the tree leave alone: the file, the object read, and [errnum]
    as long as they succeed *)
Definition keeps (s s' : rst F) : Prop :=
  r_file s' = r_file s ∧ open_buffer s' = open_buffer s ∧ file_dir_id (cur s') = file_dir_id (cur s) ∧
  file_objectid (cur s') = file_objectid (cur s) ∧ (errnum s = 0 → errnum s' = 0).

#[export] Instance keeps_preorder : PreOrder keeps.
Proof.
  split.
  - intros s. by split_and!.
  - intros s1 s2 s3 (A1 & B1 & C1 & D1 & E1) (A2 & B2 & C2 & D2 & E2).
    split_and!; [by rewrite A2|by rewrite B2|by rewrite C2|by rewrite D2|by intros; apply E2, E1].
Qed.

Lemma read_tree_node_ok s b d : coherent s → on_disk data (partition_offset v) bsize b → blkh_level (block b) 0 = d →
  1 <= d < tree_depth v →
  ∃ p s', read_tree_node stack b d s = (Ok (Some p), s') ∧ coherent s' ∧ slice (fsys s') p bsize = block b ∧
    0 <= p ∧ p + bsize <= FSYSREISER_CACHE_SIZE ∧ (d = 1 → p = LEAF v) ∧ cur s' = at_block d b (cur s) ∧ keeps s s'.
Proof.
  intros Hs Hb Hlev Hd. pose proof Hs as (Hv & Hdev & Hl & [Hbl _] & _ & _ & Hnodes). unfold REISERFS_MAX_TREE_HEIGHT in *.
  pose proof bsize_bounded as Hmax. destruct fits as (Hbs & Hcs & Hfit). fold bsize in Hbs, Hfit.
  unfold read_tree_node. rewrite (bind_ok _ _ _ tt (with_errnum s 0)) by done. rewrite !gets_bind.
  change (info (with_errnum s 0)) with (info s). change (cur (with_errnum s 0)) with (cur s). rewrite Hv.
  destruct ((d <? cached_slots v) && (b =? nth_Z (blocks (cur s)) d)) eqn:Hit.
  - apply andb_true_iff in Hit as [Hdc Heq]. apply Z.ltb_lt in Hdc. apply Z.eqb_eq in Heq.
    eexists _, _. split; [reflexivity|]. split; [exact Hs|].
    assert (nth_Z (blocks (cur s)) d ≠ 0) as Hnz by (rewrite <- Heq; destruct Hb; lia).
    destruct (Hnodes d ltac:(lia) Hdc Hnz) as [H1 _]. rewrite <- Heq in H1.
    split; [exact H1|]. unfold CACHE. fold bsize. split; [nia|]. split; [nia|]. split; [by intros ->|].
    split; [|by split_and!].
    change (cur (with_errnum s 0)) with (cur s). unfold at_block. rewrite Heq, insert_nth_Z by lia. by destruct (cur s).
  - clear Hit. set (slot := if d <? cached_slots v then d else cached_slots v).
    assert (1 <= slot <= cached_slots v) as Hslot by (unfold slot; destruct (Z.ltb_spec d (cached_slots v)); lia).
    destruct (read_cache_ok (with_errnum s 0) b (CACHE v slot)) as (f & E & Hf); cbn [info with_errnum fsys]; rewrite ?Hv, ?Hl;
      try done; [fold bsize; lia|unfold CACHE; fold bsize; nia|unfold CACHE; fold bsize; nia|].
    cbn [info with_errnum] in E. rewrite Hv in E.
    rewrite (bind_ok _ _ _ _ _ E). cbn [negb]. rewrite gets_bind.
    destruct (coherent_read s b d f Hs Hb Hlev Hd Hf) as (Hc & Hsl & Hp1 & Hp2). fold slot in Hc, Hsl, Hp1, Hp2.
    assert (blkh_level (store (fsys s) (CACHE v slot) (block b)) (CACHE v slot) = d) as Hlv.
    { transitivity (blkh_level (slice (store (fsys s) (CACHE v slot) (block b)) (CACHE v slot) bsize) 0).
      - unfold blkh_level. rewrite le16_at_slice by lia. by rewrite Z.add_0_r.
      - etransitivity; [|exact Hlev]. f_equal. exact Hsl. }
    match goal with |- context [fsys (with_fsys ?a ?b)] => change (fsys (with_fsys a b)) with b end.
    change (fsys (with_errnum s 0)) with (fsys s). fold bsize. fold (block b). rewrite Hlv, Z.eqb_refl. cbn [negb].
    eexists _, _. split; [reflexivity|]. split; [exact Hc|]. split; [exact Hsl|]. split; [exact Hp1|]. split; [exact Hp2|].
    split; [|split; [done|by split_and!]]. intros ->. unfold slot, LEAF, BLKH_LEVEL_LEAF.
    rewrite (proj2 (Z.ltb_lt 1 _)) by lia. done.
Qed.

(** what the head and the keys of a node in the cache are *)
Lemma cached_nr f p b : slice f p bsize = block b → 0 <= p → blkh_nr_item f p = nr_items data (partition_offset v) bsize b.
Proof.
  intros E Hp. unfold nr_items. fold (block b). rewrite <- E. unfold blkh_nr_item. destruct fits as [Hb _]. fold bsize in Hb.
  rewrite le16_at_slice by lia. by rewrite Z.add_0_l.
Qed.

Lemma cached_key f p b i : slice f p bsize = block b → 0 <= p → 0 <= i → KEY 0 i + KEY_SIZE <= bsize →
  key_at f (KEY p i) = node_key data (partition_offset v) bsize b i.
Proof.
  intros E Hp Hi Hin. unfold node_key. fold (block b). rewrite <- E. unfold KEY, BLKH_SIZE, KEY_SIZE in *.
  rewrite key_at_slice by (unfold KEY_SIZE; lia). f_equal. lia.
Qed.

Lemma cached_child f p b i : slice f p bsize = block b → 0 <= p → 0 <= i →
  DC 0 (nr_items data (partition_offset v) bsize b) i + 4 <= bsize → 0 <= nr_items data (partition_offset v) bsize b →
  dc_block_number f (DC p (nr_items data (partition_offset v) bsize b) i) = child data (partition_offset v) bsize b i.
Proof.
  intros E Hp Hi Hin Hn. unfold child. fold (block b). rewrite <- E.
  unfold dc_block_number, DC, BLKH_SIZE, KEY_SIZE, DC_SIZE in *. rewrite le32_at_slice by lia. f_equal. lia.
Qed.

Lemma cached_leaf_key f b i : slice f (LEAF v) bsize = block b → 0 <= i → BLKH_SIZE + (i + 1) * IH_SIZE <= bsize →
  key_at f (ITEMHEAD v i) = leaf_key data (partition_offset v) bsize b i.
Proof.
  intros E Hi Hin. unfold leaf_key. fold (block b). rewrite <- E. unfold ITEMHEAD, BLKH_SIZE, IH_SIZE, LEAF, CACHE in *.
  destruct fits as [Hb _]. unfold BLKH_LEVEL_LEAF in *.
  rewrite key_at_slice by (unfold KEY_SIZE; fold bsize in Hb |- *; lia). f_equal. lia.
Qed.

(** the child of a node that the search goes on with *)
Lemma choose_child s p b d lo hi dir_id objectid : slice (fsys s) p bsize = block b → 0 <= p →
  tree_ok data (partition_offset v) bsize (S (S d)) lo hi b →
  let n := nr_items data (partition_offset v) bsize b in
  let i := find_child (Z.to_nat n) (fsys s) p 0 dir_id objectid in
  0 <= i <= n ∧
  tree_ok data (partition_offset v) bsize (S d) (child_lo data (partition_offset v) bsize lo b i)
    (child_hi data (partition_offset v) bsize hi b i) (child data (partition_offset v) bsize b i) ∧
  (in_tree data (partition_offset v) bsize (S (S d)) b (dir_id, objectid, 0) ↔
   in_tree data (partition_offset v) bsize (S d) (child data (partition_offset v) bsize b i) (dir_id, objectid, 0)).
Proof.
  intros E Hp Hok n i. pose proof Hok as (_ & _ & Hn & Hroom & _ & _ & Hc). fold n in Hn, Hroom, Hc.
  destruct (find_child_spec (Z.to_nat n) (fsys s) p dir_id objectid 0) as (Hi & Hlt & Hgt). fold i in Hi, Hlt, Hgt.
  rewrite Z2Nat.id, Z.add_0_l in Hi, Hgt by lia.
  assert (∀ j, 0 <= j < n → key_at (fsys s) (KEY p j) = node_key data (partition_offset v) bsize b j) as Hkey.
  { intros j Hj. apply cached_key; [done|done|lia|]. unfold DC, KEY, BLKH_SIZE, KEY_SIZE, DC_SIZE in *. lia. }
  split; [lia|]. split.
  - rewrite Forall_forall in Hc. apply Hc, elem_of_seqZ. lia.
  - apply (in_child data (partition_offset v) bsize d lo hi); [done|fold n; lia| |].
    + intros j Hj. rewrite <- Hkey by lia. by apply Hlt.
    + intros Hin. fold n in Hin. rewrite <- Hkey by lia. by apply Hgt.
Qed.

(** *** The path to the leaf *)

Notation nr := (nr_items data (partition_offset v) bsize).
Notation kid := (child data (partition_offset v) bsize).

(** in the subtree of depth [d] at [b] the cursor is at a leaf, after which others follow *)
Fixpoint trail (c : cursor) (d : nat) (b leaf : Z) (pend : list Z) : Prop :=
  match d with
  | O => False
  | S O => leaf = b ∧ pend = []
  | S d' =>
      (Z.of_nat d < tree_depth v → nth_Z (blocks c) (Z.of_nat d) = b) ∧
      ∃ i near, 0 <= i <= nr b ∧ nth_Z (next_key_nr c) (Z.of_nat d) = (if i =? nr b then 0 else i + 1) ∧
        trail c d' (kid b i) leaf near ∧ pend = near ++ later data (partition_offset v) bsize d' b (i + 1)
  end.

(** two cursors agree on the levels of a range *)
Definition agree (lo hi : Z) (c c' : cursor) : Prop :=
  ∀ e, lo <= e <= hi → nth_Z (blocks c') e = nth_Z (blocks c) e ∧ nth_Z (next_key_nr c') e = nth_Z (next_key_nr c) e.

Lemma agree_trans lo hi c1 c2 c3 : agree lo hi c1 c2 → agree lo hi c2 c3 → agree lo hi c1 c3.
Proof. intros H1 H2 e He. destruct (H1 e He) as [<- <-]. by apply H2. Qed.

Lemma trail_agree d : ∀ c c' b leaf pend, agree 2 (Z.of_nat d) c c' → trail c d b leaf pend → trail c' d b leaf pend.
Proof.
  induction d as [|[|d] IH]; intros c c' b leaf pend Ha H1; [done|done|].
  destruct H1 as (Hb & i & near & Hi & Hn & Ht & ->). destruct (Ha (Z.of_nat (S (S d)))) as [E1 E2]; [lia|].
  split; [by rewrite E1|]. exists i, near. split; [done|]. split; [by rewrite E2|]. split; [|done].
  apply (IH c); [|done]. intros e He. apply Ha. lia.
Qed.

(** the leaf and those to come are the last of the leaves *)
Lemma trail_leaves d : ∀ c b leaf pend, trail c d b leaf pend →
  ∃ before, leaves data (partition_offset v) bsize d b = before ++ leaf :: pend.
Proof.
  induction d as [|[|d] IH]; intros c b leaf pend H1; [done| |].
  - destruct H1 as [-> ->]. by exists [].
  - destruct H1 as (_ & i & near & Hi & _ & Ht & ->). destruct (IH _ _ _ _ Ht) as [before Hbefore].
    rewrite leaves_later.
    assert (∃ b0, later data (partition_offset v) bsize (S d) b 0 = b0 ++ later data (partition_offset v) bsize (S d) b i)
      as [b0 ->].
    { exists (seqZ 0 i ≫= λ j, leaves data (partition_offset v) bsize (S d) (kid b j)). unfold later.
      rewrite <- bind_app. f_equal. replace (nr b + 1 - 0) with (i + (nr b + 1 - i)) by lia.
      rewrite seqZ_app by lia. by rewrite Z.add_0_l. }
    exists (b0 ++ before). rewrite later_cons, Hbefore by lia. by rewrite <- !app_assoc.
Qed.

(** setting the next key of a level, and what a read changes of the cursor *)
Lemma set_next_ok s d n : coherent s → 0 <= d < REISERFS_MAX_TREE_HEIGHT →
  ∃ s', set_next_key_nr d n s = (Ok tt, s') ∧ coherent s' ∧ fsys s' = fsys s ∧ nth_Z (next_key_nr (cur s')) d = n ∧
    blocks (cur s') = blocks (cur s) ∧
    (∀ e, 0 <= e → e ≠ d → nth_Z (next_key_nr (cur s')) e = nth_Z (next_key_nr (cur s)) e) ∧ keeps s s'.
Proof.
  intros Hs Hd. unfold REISERFS_MAX_TREE_HEIGHT in Hd. eexists. split; [reflexivity|].
  destruct Hs as (Hv & Hdev & Hl & [Hbl Hkl] & Hrest).
  split; [split; [done|]; split; [done|]; split; [done|]; split; [split; [done|by etransitivity; [apply length_insert|]]|done]|].
  split; [done|]. cbn [cur with_cur next_key_nr blocks]. split; [apply nth_Z_insert; lia|]. split; [done|].
  split; [|by split_and!]. intros. apply nth_Z_insert_ne; lia.
Qed.

Lemma agree_block s1 s2 d b : coherent s1 → 0 <= d < REISERFS_MAX_TREE_HEIGHT → cur s2 = at_block d b (cur s1) →
  nth_Z (blocks (cur s2)) d = b ∧ agree (d + 1) 6 (cur s1) (cur s2).
Proof.
  intros (_ & _ & _ & [Hbl _] & _) Hd ->. unfold REISERFS_MAX_TREE_HEIGHT in Hd. cbn [at_block blocks].
  split; [apply nth_Z_insert; lia|]. intros e He. split; [|done]. apply nth_Z_insert_ne; lia.
Qed.

Lemma search_down_ok dir_id objectid : ∀ d fuel p b lo hi s,
  coherent s → slice (fsys s) p bsize = block b → 0 <= p → p + bsize <= FSYSREISER_CACHE_SIZE →
  tree_ok data (partition_offset v) bsize (S d) lo hi b → Z.of_nat (S d) <= tree_depth v → (d <= fuel)%nat →
  (Z.of_nat (S d) < tree_depth v → nth_Z (blocks (cur s)) (Z.of_nat (S d)) = b) →
  (d = O → slice (fsys s) (LEAF v) bsize = block b) →
  ∃ s' b' lo' hi' pend, search_down stack fuel p (Z.of_nat (S d)) dir_id objectid s = (Ok true, s') ∧ coherent s' ∧
    slice (fsys s') (LEAF v) bsize = block b' ∧ tree_ok data (partition_offset v) bsize 1 lo' hi' b' ∧
    (in_tree data (partition_offset v) bsize (S d) b (dir_id, objectid, 0) ↔
     in_tree data (partition_offset v) bsize 1 b' (dir_id, objectid, 0)) ∧
    trail (cur s') (S d) b b' pend ∧ agree (Z.of_nat (S (S d))) 6 (cur s) (cur s') ∧ keeps s s'.
Proof.
  induction d as [|d IH]; intros fuel p b lo hi s Hs E Hp Hpin Hok Hdepth Hfuel Hblock Hleaf.
  - exists s, b, lo, hi, []. split; [by destruct fuel|]. split; [exact Hs|]. split; [by apply Hleaf|].
    split; [done|]. split; [done|]. split; [done|]. split; [done|reflexivity].
  - destruct fuel as [|fuel]; [lia|]. cbn [search_down]. rewrite (proj2 (Z.leb_gt _ BLKH_LEVEL_LEAF))
      by (unfold BLKH_LEVEL_LEAF; lia).
    rewrite gets_bind, (cached_nr _ _ b E Hp).
    destruct (choose_child s p b d lo hi dir_id objectid E Hp Hok) as (Hi & Hcok & Hin).
    set (n := nr_items data (partition_offset v) bsize b) in *.
    set (i := find_child (Z.to_nat n) (fsys s) p 0 dir_id objectid) in *.
    pose proof Hok as (_ & _ & Hn & Hroom & _). fold n in Hn, Hroom.
    assert (DC 0 n i + 4 <= bsize) as Hdc by (unfold DC, BLKH_SIZE, KEY_SIZE, DC_SIZE in *; lia).
    rewrite (proj2 (Z.ltb_ge FSYSREISER_CACHE_SIZE (DC p n i + 4)))
      by (unfold DC, BLKH_SIZE, KEY_SIZE, DC_SIZE in *; lia).
    pose proof (cached_child (fsys s) p b i E Hp (proj1 Hi) Hdc Hn) as Ech. fold n in Ech. rewrite Ech. clear Ech.
    pose proof depth_ok as Hdok. unfold REISERFS_MAX_TREE_HEIGHT in Hdok.
    destruct (set_next_ok s (Z.of_nat (S (S d))) (if i =? n then 0 else i + 1) Hs) as (s1 & E1 & Hs1 & Ef1 & Hk1 & Hb1 & Ha1 & Hq1); [lia|].
    rewrite (bind_ok _ _ _ _ _ E1). replace (Z.of_nat (S (S d)) - 1) with (Z.of_nat (S d)) by lia.
    pose proof Hcok as (Hcd & Hlev & _).
    destruct (read_tree_node_ok s1 (kid b i) (Z.of_nat (S d)))
      as (p2 & s2 & E2 & Hs2 & Hsl2 & Hp2 & Hpin2 & Hl2 & Hc2 & Hq2); [exact Hs1|exact Hcd|exact Hlev|lia|].
    rewrite (bind_ok _ _ _ _ _ E2).
    destruct (agree_block s1 s2 (Z.of_nat (S d)) (kid b i) Hs1) as [Hb2 Ha2]; [lia|exact Hc2|].
    destruct (IH fuel p2 (kid b i) _ _ s2 Hs2 Hsl2 Hp2 Hpin2 Hcok)
      as (s' & b' & lo' & hi' & near & E3 & Hs' & Hsl' & Hok' & Hin' & Ht & Ha3 & Hq3);
      [lia|lia|done|intros ->; by rewrite <- (Hl2 eq_refl)|].
    exists s', b', lo', hi', (near ++ later data (partition_offset v) bsize (S d) b (i + 1)).
    split; [exact E3|]. split; [exact Hs'|]. split; [exact Hsl'|]. split; [exact Hok'|]. split; [by rewrite Hin|].
    assert (agree (Z.of_nat (S (S d))) 6 (cur s1) (cur s')) as Ha.
    { apply (agree_trans _ _ _ (cur s2)); intros e He; [apply Ha2|apply Ha3]; lia. }
    split.
    + split.
      * intros Hlt. destruct (Ha (Z.of_nat (S (S d)))) as [-> _]; [lia|]. rewrite Hb1. by apply Hblock.
      * exists i, near. split; [done|]. split; [|done]. destruct (Ha (Z.of_nat (S (S d)))) as [_ ->]; [lia|done].
    + split; [|by etransitivity; [exact Hq1|etransitivity]].
      intros e He. destruct (Ha e) as [-> ->]; [lia|]. split; [by rewrite Hb1|]. apply Ha1; lia.
Qed.

(** what the search for the next leaf needs of the tree *)
Notation tree := (tree_ok data (partition_offset v) bsize).

(** the node of level [e] and its child [k] the next leaf is under, if there is one *)
Lemma next_up d : ∀ c lo hi b leaf pend, tree d lo hi b → trail c d b leaf pend →
  (pend = [] ∧ ∀ e, 2 <= e <= Z.of_nat d → nth_Z (next_key_nr c) e = 0) ∨
  ∃ e be lo' hi' far, let k := nth_Z (next_key_nr c) (Z.of_nat (S (S e))) in
    (S (S e) <= d)%nat ∧ 0 < k <= nr be ∧ (∀ e', 2 <= e' <= Z.of_nat (S e) → nth_Z (next_key_nr c) e' = 0) ∧
    tree (S (S e)) lo' hi' be ∧ (Z.of_nat (S (S e)) < tree_depth v → nth_Z (blocks c) (Z.of_nat (S (S e))) = be) ∧
    (S (S e) = d → be = b) ∧ pend = leaves data (partition_offset v) bsize (S e) (kid be k) ++ far ∧
    ∀ c' leaf' near, trail c' (S e) (kid be k) leaf' near →
      nth_Z (blocks c') (Z.of_nat (S (S e))) = nth_Z (blocks c) (Z.of_nat (S (S e))) →
      nth_Z (next_key_nr c') (Z.of_nat (S (S e))) = (if k =? nr be then 0 else k + 1) →
      agree (Z.of_nat (S (S (S e)))) (Z.of_nat d) c c' → trail c' d b leaf' (near ++ far).
Proof.
  induction d as [|[|d] IH]; intros c lo hi b leaf pend Hok Ht; [done| |].
  - left. destruct Ht as [-> ->]. split; [done|]. intros; lia.
  - destruct Ht as (Hb & i & near & Hi & Hn & Ht & ->).
    assert (tree (S d) (child_lo data (partition_offset v) bsize lo b i) (child_hi data (partition_offset v) bsize hi b i)
      (kid b i)) as Hsub.
    { pose proof Hok as (_ & _ & _ & _ & _ & _ & Hc). rewrite Forall_forall in Hc. apply Hc, elem_of_seqZ. lia. }
    destruct (IH c _ _ _ _ _ Hsub Ht) as [[-> Hz]|(e & be & lo' & hi' & far & He & Hk & Hz & Hoke & Hbe & Htop & -> & Hnew)].
    + destruct (Z.eqb_spec i (nr b)) as [->|Hne].
      * left. rewrite later_nil by lia. split; [done|]. intros e He.
        destruct (decide (e = Z.of_nat (S (S d)))) as [->|]; [done|]. apply Hz. lia.
      * right. exists d, b, lo, hi, (later data (partition_offset v) bsize (S d) b (i + 1 + 1)). cbn zeta. rewrite Hn.
        split; [lia|]. split; [lia|]. split; [done|]. split; [done|]. split; [done|]. split; [done|].
        split; [rewrite later_cons by lia; done|].
        intros c' leaf' near' Ht' Hb' Hn' Ha. split; [rewrite Hb'; done|].
        exists (i + 1), near'. split; [lia|]. by split.
    + right. exists e, be, lo', hi', (far ++ later data (partition_offset v) bsize (S d) b (i + 1)). cbn zeta.
      split; [lia|]. split; [done|]. split; [done|]. split; [done|]. split; [done|]. split; [lia|].
      split; [by rewrite <- app_assoc|].
      intros c' leaf' near' Ht' Hb' Hn' Ha. destruct (Ha (Z.of_nat (S (S d)))) as [E1 E2]; [lia|].
      split; [by rewrite E1|]. exists i, (near' ++ far). split; [done|]. split; [by rewrite E2|].
      split; [|by rewrite <- app_assoc]. apply Hnew; try done. intros e' He'. apply Ha. lia.
Qed.

Lemma next_depth_found n c e : ∀ depth, nth_Z (next_key_nr c) e ≠ 0 → e <= tree_depth v →
  depth < e → (∀ e', depth < e' < e → nth_Z (next_key_nr c) e' = 0) → (Z.to_nat (e - depth) <= n)%nat →
  next_depth n v c depth = Some (Some e).
Proof.
  induction n as [|n IH]; intros depth He Hle Hlt Hz Hn; [lia|]. cbn [next_depth].
  rewrite (proj2 (Z.eqb_neq depth _)) by lia. rewrite (proj2 (Z.leb_gt _ (depth + 1))) by lia.
  destruct (decide (depth + 1 = e)) as [->|Hne]; [by rewrite (proj2 (Z.eqb_neq _ 0) He)|].
  rewrite Hz by lia. apply IH; [done|lia|lia| |lia]. intros. apply Hz. lia.
Qed.

Lemma next_depth_none n c : ∀ depth, depth <= tree_depth v →
  (∀ e', depth < e' <= tree_depth v → nth_Z (next_key_nr c) e' = 0) → (Z.to_nat (tree_depth v - depth) < n)%nat →
  next_depth n v c depth = Some None.
Proof.
  induction n as [|n IH]; intros depth Hle Hz Hn; [lia|]. cbn [next_depth].
  destruct (Z.eqb_spec depth (tree_depth v)) as [|Hne]; [done|]. rewrite (proj2 (Z.leb_gt _ (depth + 1))) by lia.
  rewrite Hz by lia. apply IH; [lia| |lia]. intros. apply Hz. lia.
Qed.

(** down to the first leaf under the child that is next *)
Lemma go_down_ok : ∀ d fuel p b lo hi s, let k := nth_Z (next_key_nr (cur s)) (Z.of_nat (S (S d))) in
  coherent s → slice (fsys s) p bsize = block b → 0 <= p → p + bsize <= FSYSREISER_CACHE_SIZE →
  tree (S (S d)) lo hi b → Z.of_nat (S (S d)) <= tree_depth v → (S d <= fuel)%nat → 0 <= k <= nr b →
  (∀ e, 2 <= e <= Z.of_nat (S d) → nth_Z (next_key_nr (cur s)) e = 0) →
  ∃ s' leaf near, go_down stack fuel p (Z.of_nat (S (S d))) s = (Ok true, s') ∧ coherent s' ∧
    slice (fsys s') (LEAF v) bsize = block leaf ∧ trail (cur s') (S d) (kid b k) leaf near ∧
    leaves data (partition_offset v) bsize (S d) (kid b k) = leaf :: near ∧
    nth_Z (blocks (cur s')) (Z.of_nat (S (S d))) = nth_Z (blocks (cur s)) (Z.of_nat (S (S d))) ∧
    nth_Z (next_key_nr (cur s')) (Z.of_nat (S (S d))) = (if k =? nr b then 0 else k + 1) ∧
    agree (Z.of_nat (S (S (S d)))) 6 (cur s) (cur s') ∧ keeps s s'.
Proof.
  induction d as [|d IH]; intros fuel p b lo hi s k Hs E Hp Hpin Hok Hdepth Hfuel Hk Hz;
    (destruct fuel as [|fuel]; [lia|]); cbn [go_down]; rewrite !gets_bind, (cached_nr _ _ b E Hp); fold k.
  all: pose proof Hok as (_ & _ & Hn & Hroom & _ & _ & Hc); rewrite Forall_forall in Hc;
    pose proof (Hc k) as Hkid; rewrite elem_of_seqZ in Hkid; specialize (Hkid ltac:(lia));
    assert (DC 0 (nr b) k + 4 <= bsize) as Hdc by (unfold DC, BLKH_SIZE, KEY_SIZE, DC_SIZE in *; lia);
    pose proof bsize_bounded as Hbb; change INT_MAX with 2147483647 in Hbb;
    rewrite (proj2 (Z.ltb_ge FSYSREISER_CACHE_SIZE (DC p (nr b) k + 4)))
      by (unfold DC, BLKH_SIZE, KEY_SIZE, DC_SIZE in *; lia);
    pose proof (cached_child (fsys s) p b k E Hp (proj1 Hk) Hdc Hn) as Ech;
    rewrite (u32_small (k + 1)) by (unfold DC, BLKH_SIZE, KEY_SIZE, DC_SIZE in *; lia);
    pose proof depth_ok as Hdok; unfold REISERFS_MAX_TREE_HEIGHT in Hdok.
  - destruct (set_next_ok s 2 (if k =? nr b then 0 else k + 1) Hs) as (s1 & E1 & Hs1 & Ef1 & Hk1 & Hb1 & Ha1 & Hq1); [done|].
    change (Z.of_nat 2) with 2 in *. rewrite (bind_ok _ _ _ _ _ E1), Ech. change (2 - 1) with 1.
    destruct Hkid as (Hcd & Hlev & _).
    destruct (read_tree_node_ok s1 (kid b k) 1) as (p2 & s2 & E2 & Hs2 & Hsl2 & Hp2 & Hpin2 & Hl2 & Hc2 & Hq2); [done..|lia|].
    rewrite (bind_ok _ _ _ _ _ E2). change (BLKH_LEVEL_LEAF <? 1) with false. cbn match.
    destruct (agree_block s1 s2 1 (kid b k) Hs1) as [Hb2 Ha2]; [done|exact Hc2|].
    exists s2, (kid b k), []. split; [done|]. split; [done|]. split; [by rewrite <- (Hl2 eq_refl)|].
    split; [done|]. split; [done|]. destruct (Ha2 2) as [-> ->]; [lia|]. split; [by rewrite Hb1|]. split; [done|].
    split; [|by etransitivity]. intros e He. destruct (Ha2 e) as [-> ->]; [lia|]. split; [by rewrite Hb1|]. apply Ha1; lia.
  - destruct (set_next_ok s (Z.of_nat (S (S (S d)))) (if k =? nr b then 0 else k + 1) Hs)
      as (s1 & E1 & Hs1 & Ef1 & Hk1 & Hb1 & Ha1 & Hq1); [lia|].
    rewrite (bind_ok _ _ _ _ _ E1), Ech. replace (Z.of_nat (S (S (S d))) - 1) with (Z.of_nat (S (S d))) by lia.
    pose proof Hkid as (Hcd & Hlev & Hnk & _).
    destruct (read_tree_node_ok s1 (kid b k) (Z.of_nat (S (S d))))
      as (p2 & s2 & E2 & Hs2 & Hsl2 & Hp2 & Hpin2 & _ & Hc2 & Hq2); [done..|lia|].
    rewrite (bind_ok _ _ _ _ _ E2). rewrite (proj2 (Z.ltb_lt BLKH_LEVEL_LEAF _)) by (unfold BLKH_LEVEL_LEAF; lia).
    destruct (agree_block s1 s2 (Z.of_nat (S (S d))) (kid b k) Hs1) as [Hb2 Ha2]; [lia|exact Hc2|].
    assert (∀ e, 2 <= e <= Z.of_nat (S (S d)) → nth_Z (next_key_nr (cur s2)) e = 0) as Hz2.
    { intros e He. rewrite Hc2. cbn [at_block next_key_nr]. rewrite Ha1 by lia. apply Hz. lia. }
    pose proof (Hz2 (Z.of_nat (S (S d))) ltac:(lia)) as Hk0.
    destruct (IH fuel p2 (kid b k) _ _ s2 Hs2 Hsl2 Hp2 Hpin2 Hkid)
      as (s' & leaf & near & E3 & Hs' & Hsl' & Ht & Hls & Hb3 & Hn3 & Ha3 & Hq3); [lia|lia|lia|intros; apply Hz2; lia|].
    rewrite Hk0 in Ht, Hls, Hn3.
    exists s', leaf, (near ++ later data (partition_offset v) bsize (S d) (kid b k) (0 + 1)).
    split; [exact E3|]. split; [done|]. split; [done|]. split.
    { split; [intros _; by rewrite Hb3|]. exists 0, near. split; [lia|]. by split. }
    split; [by rewrite leaves_later, later_cons, Hls by lia|].
    destruct (Ha3 (Z.of_nat (S (S (S d))))) as [-> ->]; [lia|]. destruct (Ha2 (Z.of_nat (S (S (S d))))) as [-> ->]; [lia|].
    split; [by rewrite Hb1|]. split; [done|]. split; [|by etransitivity; [exact Hq1|etransitivity]].
    intros e He. destruct (Ha3 e) as [-> ->]; [lia|]. destruct (Ha2 e) as [-> ->]; [lia|]. split; [by rewrite Hb1|]. apply Ha1; lia.
Qed.

(** *** Positions *)

(** a leaf that the cursor can be in has room for its item heads *)
Lemma trail_tree_ok d : ∀ c lo hi b leaf pend, tree d lo hi b → trail c d b leaf pend → ∃ lo' hi', tree 1 lo' hi' leaf.
Proof.
  induction d as [|[|d] IH]; intros c lo hi b leaf pend Hok Ht; [done|by destruct Ht as [-> _]; exists lo, hi|].
  destruct Ht as (_ & i & near & Hi & _ & Ht & _). destruct Hok as (_ & _ & _ & _ & _ & _ & Hc).
  rewrite Forall_forall in Hc. eapply IH; [|exact Ht]. apply Hc, elem_of_seqZ. lia.
Qed.

Let depth := Z.to_nat (tree_depth v).

(** the items of a tree in order, the leaf and the number in it of each *)
Definition items_of (l : Z) : list (Z * Z) := (λ i, (l, i)) <$> seqZ 0 (nr l).
Definition items : list (Z * Z) := leaves data (partition_offset v) bsize depth root ≫= items_of.

(** the current item is item [i] of leaf [l], after which others follow *)
Definition stands (s : rst F) (x : Z * Z) (rest : list (Z * Z)) : Prop :=
  let '(l, i) := x in
  coherent s ∧ slice (fsys s) (LEAF v) bsize = block l ∧ 0 <= i < nr l ∧
  current_ih (cur s) = Some (ITEMHEAD v i) ∧
  current_item (cur s) = LEAF v + ih_location (fsys s) (ITEMHEAD v i) ∧
  ∃ pend, trail (cur s) depth root l pend ∧ rest = ((λ j, (l, j)) <$> seqZ (i + 1) (nr l - (i + 1))) ++ (pend ≫= items_of).

Lemma stands_items s x rest : stands s x rest → ∃ before, items = before ++ x :: rest.
Proof.
  destruct x as [l i]. intros (_ & _ & Hi & _ & _ & pend & Ht & ->).
  destruct (trail_leaves _ _ _ _ _ Ht) as [before Hb]. unfold items. rewrite Hb, bind_app. cbn.
  exists ((before ≫= items_of) ++ ((λ j, (l, j)) <$> seqZ 0 i)). rewrite <- app_assoc. f_equal.
  unfold items_of at 1. replace (nr l) with (i + (1 + (nr l - (i + 1)))) by lia.
  rewrite seqZ_app, fmap_app, <- app_assoc by lia. f_equal. rewrite Z.add_0_l, seqZ_cons by lia. cbn.
  replace (Z.succ i) with (i + 1) by lia. do 4 f_equal. lia.
Qed.

Lemma set_current_ok s ih : set_current ih s =
  (Ok tt, with_cur s (Cursor (file_dir_id (cur s)) (file_objectid (cur s)) (Some ih)
    (LEAF (info s) + ih_location (fsys s) ih) (blocks (cur s)) (next_key_nr (cur s)))).
Proof. unfold set_current. by rewrite !gets_bind. Qed.

(** an item of the leaf in the cache becomes the current one *)
Lemma set_current_stands s l i pend : coherent s → slice (fsys s) (LEAF v) bsize = block l → 0 <= i < nr l →
  trail (cur s) depth root l pend →
  ∃ s', set_current (ITEMHEAD v i) s = (Ok tt, s') ∧
    stands s' (l, i) (((λ j, (l, j)) <$> seqZ (i + 1) (nr l - (i + 1))) ++ (pend ≫= items_of)) ∧ keeps s s'.
Proof.
  intros Hs Hsl Hi Ht. pose proof Hs as (Hv & _). rewrite set_current_ok, Hv. eexists. split; [reflexivity|].
  split; [|by split_and!].
  split; [exact Hs|]. split; [done|]. split; [done|]. split; [done|]. split; [done|]. exists pend. split; [|done].
  revert Ht. apply trail_agree. intros e _. by split.
Qed.

Lemma leaf_in_cache : 0 <= LEAF v ∧ LEAF v + bsize <= FSYSREISER_CACHE_SIZE.
Proof.
  destruct fits as (Hbs & Hcs & Hfit). fold bsize in Hbs, Hfit. unfold LEAF, CACHE, BLKH_LEVEL_LEAF. fold bsize. nia.
Qed.

Context (root_ok : tree depth None None root).

Lemma search_stat_ok fuel dir_id objectid s : coherent s → tree_depth v <= Z.of_nat fuel →
  ∃ s', search_stat stack fuel dir_id objectid s =
      (Ok (bool_decide (in_tree data (partition_offset v) bsize depth root (dir_id, objectid, 0))), s') ∧
    if decide (in_tree data (partition_offset v) bsize depth root (dir_id, objectid, 0))
    then (∃ l i rest, stands s' (l, i) rest ∧ leaf_key data (partition_offset v) bsize l i = (dir_id, objectid, 0)) ∧
      keeps (with_errnum s 0) s'
    else coherent s' ∧ errnum s' = FILE_ERR_BAD_FSYS.
Proof.
  intros Hs Hfuel. pose proof depth_ok as Hdok. unfold REISERFS_MAX_TREE_HEIGHT in Hdok.
  unfold stands. destruct depth as [|d] eqn:Ed; [unfold depth in Ed; lia|].
  assert (Z.of_nat (S d) = tree_depth v) as Edz by (unfold depth in Ed; lia).
  pose proof bsize_bounded as Hbb. pose proof leaf_in_cache as [Hl0 Hlin].
  unfold search_stat. rewrite (bind_ok _ _ _ tt (with_errnum s 0)) by done. rewrite gets_bind.
  change (info (with_errnum s 0)) with (info s). pose proof Hs as (Hv & _ & _ & _ & Hroot & Hleaf & _). rewrite Hv, <- Edz.
  destruct (search_down_ok dir_id objectid d fuel ROOT root None None (with_errnum s 0)) as
    (s1 & b & lo & hi & pend & E & Hs1 & Hsl & Hokb & Hin & Ht & _ & Hq1); [exact Hs|exact Hroot|done|unfold ROOT; lia|done|lia|lia|lia| |].
  { intros ->. apply Hleaf. lia. }
  rewrite (bind_ok _ _ _ _ _ E). cbn [negb]. rewrite gets_bind. cbn [tree_ok] in Hokb.
  destruct Hokb as (Hbd & _ & Hn & Hroom & _).
  rewrite (cached_nr _ _ b Hsl Hl0).
  assert (∀ i, 0 <= i < nr b → key_at (fsys s1) (ITEMHEAD v i) = leaf_key data (partition_offset v) bsize b i) as Hkey.
  { intros i Hi. apply cached_leaf_key; [done|lia|]. unfold BLKH_SIZE, IH_SIZE in *. lia. }
  pose proof (find_item_spec (Z.to_nat (nr b)) (fsys s1) v dir_id objectid 0) as Hf. rewrite in_leaf in Hin.
  destruct (find_item (Z.to_nat (nr b)) (fsys s1) v 0 dir_id objectid) as [ih|].
  - destruct Hf as (j & Hj & -> & Hk).
    assert (in_tree data (partition_offset v) bsize (S d) root (dir_id, objectid, 0)) as Hyes.
    { apply Hin. exists j. split; [lia|]. by rewrite <- Hkey by lia. }
    rewrite bool_decide_true by done. destruct (decide _) as [_|]; [|done].
    rewrite (proj2 (Z.ltb_ge FSYSREISER_CACHE_SIZE (ITEMHEAD v j + IH_SIZE)))
      by (unfold ITEMHEAD, BLKH_SIZE, IH_SIZE in *; lia).
    rewrite <- Ed in Ht. destruct (set_current_stands s1 b j pend Hs1 Hsl) as (s2 & E2 & Hs2 & Hq2); [lia|done|].
    rewrite (bind_ok _ _ _ _ _ E2). exists s2. split; [done|]. unfold stands in Hs2. rewrite Ed in Hs2.
    split; [|by etransitivity]. eexists b, j, _. split; [exact Hs2|]. by rewrite <- Hkey by lia.
  - assert (¬ in_tree data (partition_offset v) bsize (S d) root (dir_id, objectid, 0)) as Hno.
    { intros Hyes. apply Hin in Hyes as (j & Hj & Hk). rewrite <- Hkey in Hk by lia. by apply (Hf j); [lia|]. }
    rewrite bool_decide_false by done. destruct (decide _) as [|_]; [done|].
    rewrite (proj2 (Z.ltb_ge FSYSREISER_CACHE_SIZE (ITEMHEAD v (nr b))))
      by (unfold ITEMHEAD, BLKH_SIZE, IH_SIZE in *; lia).
    eexists. split; [reflexivity|]. by split.
Qed.

(** the node that [next_key] goes down from is in the cache *)
Lemma node_of_level s e b : coherent s → tree_depth v <= cached_slots v → 2 <= e <= tree_depth v → 0 < b →
  (e = tree_depth v → b = root) → (e < tree_depth v → nth_Z (blocks (cur s)) e = b) →
  let p := if e =? tree_depth v then ROOT else CACHE v e in
  slice (fsys s) p bsize = block b ∧ 0 <= p ∧ p + bsize <= FSYSREISER_CACHE_SIZE.
Proof.
  intros (_ & _ & _ & _ & Hroot & _ & Hnodes) Hd He Hb Htop Hlow p. pose proof depth_ok as Hdok.
  destruct fits as (Hbs & Hcs & Hfit). fold bsize in Hbs, Hfit. subst p. destruct (Z.eqb_spec e (tree_depth v)) as [->|Hne].
  - rewrite Htop by done. split; [done|]. unfold ROOT. nia.
  - rewrite <- Hlow by lia. split; [|unfold CACHE; fold bsize; nia].
    apply (Hnodes e); [lia|lia|]. rewrite Hlow by lia. lia.
Qed.

Lemma next_key_ok fuel s x rest : tree_depth v <= cached_slots v → tree_depth v <= Z.of_nat fuel →
  Forall (λ l, 0 < nr l) (leaves data (partition_offset v) bsize depth root) → stands s x rest →
  ∃ s', next_key stack fuel s = (Ok true, s') ∧ keeps s s' ∧
    match rest with
    | y :: rest' => stands s' y rest'
    | [] => coherent s' ∧ slice (fsys s') (LEAF v) bsize = block x.1 ∧ current_ih (cur s') = Some (LEAF v + 8)
    end.
Proof.
  intros Hdepth Hfuel Hnonempty Hst. destruct x as [l i]. destruct Hst as (Hs & Hsl & Hi & Hih & _ & pend & Ht & ->).
  destruct (trail_tree_ok _ _ _ _ _ _ _ root_ok Ht) as (lo & hi & _ & _ & Hn & Hroom & _).
  pose proof Hs as (Hv & _). pose proof depth_ok as Hdok. unfold REISERFS_MAX_TREE_HEIGHT in Hdok.
  pose proof leaf_in_cache as [Hl0 Hlin].
  unfold next_key. rewrite !gets_bind, Hv, Hih, (cached_nr _ _ l Hsl Hl0).
  destruct (Z.eqb_spec (ITEMHEAD v i + IH_SIZE) (ITEMHEAD v (nr l))) as [Heq|Hne]; cbn [negb].
  - assert (nr l = i + 1) as Hlast by (unfold ITEMHEAD, IH_SIZE in Heq; lia). rewrite Hlast, Z.sub_diag. cbn [seqZ fmap list_fmap app].
    destruct (next_up depth (cur s) _ _ _ _ _ root_ok Ht) as
      [[-> Hz]|(e & be & lo' & hi' & far & He & Hk & Hz & Hoke & Hbe & Htop & -> & Hnew)].
    + rewrite next_depth_none; [|unfold BLKH_LEVEL_LEAF; lia|intros; apply Hz; unfold BLKH_LEVEL_LEAF, depth in *; lia|unfold BLKH_LEVEL_LEAF, REISERFS_MAX_TREE_HEIGHT; lia].
      rewrite (bind_ok _ _ _ _ _ (set_current_ok _ _)). eexists. split; [reflexivity|].
      split; [by split_and!|]. split; [exact Hs|]. by split.
    + assert (Z.of_nat (S (S e)) <= tree_depth v) as Hel by (unfold depth in He; lia).
      rewrite (next_depth_found _ _ (Z.of_nat (S (S e)))); [|lia|done|unfold BLKH_LEVEL_LEAF; lia|
        intros; apply Hz; unfold BLKH_LEVEL_LEAF in *; lia|unfold BLKH_LEVEL_LEAF, REISERFS_MAX_TREE_HEIGHT; lia].
      destruct (node_of_level s (Z.of_nat (S (S e))) be Hs Hdepth) as (Hp1 & Hp2 & Hp3);
        [lia|by destruct Hoke as [[? _] _]; lia|intros; apply Htop; unfold depth; lia|exact Hbe|].
      set (p := if Z.of_nat (S (S e)) =? tree_depth v then ROOT else CACHE v (Z.of_nat (S (S e)))) in *.
      match goal with |- context [(?r ≫= _) s] =>
        assert (r s = (Ok (Some (p, Z.of_nat (S (S e)))), s)) as Er
          by (unfold p; destruct (Z.of_nat (S (S e)) =? tree_depth v); [done|];
              by rewrite (proj2 (Z.leb_le _ (cached_slots v))) by lia) end.
      rewrite (bind_ok _ _ _ _ _ Er).
      destruct (go_down_ok e fuel p be lo' hi' s Hs Hp1 Hp2 Hp3 Hoke) as (s1 & leaf & near & E1 & Hs1 & Hsl1 & Ht1 & Hls & Hb1 & Hn1 & Ha1 & Hq1);
        [lia|lia|lia|exact Hz|].
      rewrite (bind_ok _ _ _ _ _ E1). rewrite Hls.
      assert (trail (cur s1) depth root leaf (near ++ far)) as Ht2.
      { apply Hnew; [done..|]. intros e' He'. apply Ha1. unfold depth in He'. lia. }
      destruct (trail_leaves _ _ _ _ _ Ht2) as [before Hb2].
      assert (0 < nr leaf) as Hnl. { rewrite Forall_forall in Hnonempty. apply Hnonempty. rewrite Hb2. set_solver. }
      destruct (set_current_stands s1 leaf 0 _ Hs1 Hsl1 ltac:(lia) Ht2) as (s2 & E2 & Hs2 & Hq2).
      rewrite (bind_ok _ _ _ _ _ E2). exists s2. split; [done|]. split; [by etransitivity|]. cbn. unfold items_of at 1.
      rewrite (seqZ_cons 0) by lia. cbn. replace (Z.pred (nr leaf)) with (nr leaf - (0 + 1)) by lia. exact Hs2.
  - assert (i + 1 < nr l) as Hmore by (unfold ITEMHEAD, IH_SIZE in Hne; lia).
    rewrite (proj2 (Z.ltb_ge FSYSREISER_CACHE_SIZE _)) by (unfold ITEMHEAD, BLKH_SIZE, IH_SIZE in *; lia).
    replace (ITEMHEAD v i + IH_SIZE) with (ITEMHEAD v (i + 1)) by (unfold ITEMHEAD, IH_SIZE; lia).
    destruct (set_current_stands s l (i + 1) pend Hs Hsl ltac:(lia) Ht) as (s1 & E1 & Hs1 & Hq1).
    rewrite (bind_ok _ _ _ _ _ E1). exists s1. split; [done|]. split; [done|].
    rewrite (seqZ_cons (i + 1)) by lia. cbn. replace (Z.succ (i + 1)) with (i + 1 + 1) by lia.
    replace (Z.pred (nr l - (i + 1))) with (nr l - (i + 1 + 1)) by lia. exact Hs1.
Qed.
End search.

(** ** Volumes on the disk: the specification of the mount *)

Section superblock.
Context (data : list Z) (poff : Z).

Definition sb : list Z := slice data (REISERFS_SUPERBLOCK_BLOCK * REISERFS_OLD_BLOCKSIZE + poff) SB_SIZE.
Definition sb_root : Z := le32_at sb 8.
Definition sb_journal : Z := le32_at sb 12.
Definition sb_jsize : Z := le32_at sb 20.
Definition sb_blocksize : Z := le16_at sb 44.

(** the header of the journal and the descriptor it names *)
Definition jheader_at : Z := u32 (sb_journal + sb_jsize) * REISERFS_OLD_BLOCKSIZE + poff.
Definition jheader : list Z := slice data jheader_at sizeof_header.
Definition jfirst : Z := le32_at jheader 4.
Definition jdesc_at : Z := u32 (sb_journal + jfirst) * REISERFS_OLD_BLOCKSIZE + poff.

(** there is no journal, or one without a transaction to replay that [journal_init] takes
    for valid.  The superblock is read again from block 16, so the blocks have 4096 bytes *)
Definition idle_journal : Prop :=
  sb_journal = 0 ∨
  sb_blocksize = REISERFS_OLD_BLOCKSIZE ∧ is_power_of_two sb_jsize = true ∧ jfirst < sb_jsize ∧
  jheader_at + sizeof_header <= Z.of_nat (length data) ∧ jdesc_at + sizeof_desc <= Z.of_nat (length data) ∧
  valid_desc (slice data jdesc_at sizeof_desc) jheader (u32 (le32_at jheader 0 + 1)) = false.

(** blocks of [2 ^ shift] bytes *)
Definition mountable (shift : Z) : Prop :=
  0 <= poff ∧ REISERFS_SUPERBLOCK_BLOCK * REISERFS_OLD_BLOCKSIZE + poff + SB_SIZE <= Z.of_nat (length data) ∧
  has_magic sb = true ∧ le16_at sb 72 <= REISERFS_MAX_SUPPORTED_VERSION ∧ 9 <= shift <= 13 ∧ sb_blocksize = 2 ^ shift ∧
  idle_journal ∧ on_disk data poff sb_blocksize sb_root ∧
  1 <= blkh_level (blk data poff sb_blocksize sb_root) 0 < REISERFS_MAX_TREE_HEIGHT.

(** what [INFO] says of it *)
Definition mounted (shift : Z) : volume :=
  Volume poff sb_journal sb_jsize (if sb_journal =? 0 then 0 else jfirst) (le16_at sb 72)
    (blkh_level (blk data poff sb_blocksize sb_root) 0) shift sb_blocksize (Z.shiftr FSYSREISER_CACHE_SIZE shift - 1) 0.

#[export] Instance idle_journal_dec : Decision idle_journal.
Proof. unfold idle_journal. apply _. Defined.
#[export] Instance mountable_dec shift : Decision (mountable shift).
Proof. unfold mountable. apply _. Defined.
End superblock.

(** what the sizes of blocks give *)
Lemma shift_facts shift : 9 <= shift <= 13 →
  reiserfs_log2 (2 ^ shift) = Some shift ∧ FSYSREISER_MIN_BLOCKSIZE <= 2 ^ shift <= FSYSREISER_MAX_BLOCKSIZE ∧
  u16 (Z.shiftr FSYSREISER_CACHE_SIZE shift - 1) = Z.shiftr FSYSREISER_CACHE_SIZE shift - 1 ∧
  1 < Z.shiftr FSYSREISER_CACHE_SIZE shift - 1 ∧
  (Z.shiftr FSYSREISER_CACHE_SIZE shift - 1 + 1) * 2 ^ shift <= FSYSREISER_CACHE_SIZE.
Proof.
  intros. assert (shift = 9 ∨ shift = 10 ∨ shift = 11 ∨ shift = 12 ∨ shift = 13) as Hs by lia.
  by repeat destruct Hs as [->|Hs]; [..|subst shift]; vm_compute.
Qed.

Lemma store_all (buf b : list Z) : length b = length buf → store buf 0 b = b.
Proof. intros E. unfold store. change (Z.to_nat 0) with O. rewrite take_0, drop_ge, app_nil_r by lia. done. Qed.

Lemma over_full stack size b : 0 <= size → Z.of_nat (length b) = size → over stack size b = b.
Proof. intros. unfold over, loaded. apply store_all. rewrite length_map, length_seqZ. lia. Qed.

Section mount.
Context {F : Type} `{Firmware F} (disk : Z) (inv : F → Prop) (data : list Z) `{!SeekDevice disk inv data}.
Context (data_bounded : Z.of_nat (length data) < 18446744073709551616) (env : prom_env) (stack : list Z) (poff shift : Z).
Context (good : mountable data poff shift).
Implicit Types s : rst F.

Notation super := (sb data poff).

(** the fields of the state that the mount keeps *)
Definition ready (s : rst F) : Prop :=
  on_device disk inv s ∧ partition_offset (info s) = poff ∧ cur s = cursor0 ∧
  Z.of_nat (length (fsys s)) = FSYSREISER_CACHE_SIZE.

Lemma super_length : Z.of_nat (length super) = SB_SIZE.
Proof. destruct good as (Hp & Hin & _). unfold sb. rewrite length_slice; [done|..]; unfold SB_SIZE, REISERFS_SUPERBLOCK_BLOCK, REISERFS_OLD_BLOCKSIZE in *; lia. Qed.

Lemma find_super_ok s : ready s → vol_blocksize (info s) = 0 →
  ∃ f, find_super s = (Ok (Some (super, REISERFS_SUPERBLOCK_BLOCK)), with_fw s f) ∧ inv f.
Proof.
  intros (Hd & Hp & _ & _) Hb. pose proof good as (Hp0 & Hin & Hm & _).
  destruct (read_disk_ok disk inv data data_bounded s REISERFS_SUPERBLOCK_BLOCK 0 SB_SIZE) as (f & E & Hf);
    [done|done|lia|lia|done|done|unfold disk_pos; rewrite Hb, Hp; cbn [Z.eqb]; lia|].
  exists f. split; [|done]. unfold find_super. rewrite (bind_ok _ _ _ _ _ E). cbn [negb].
  rewrite Z.eqb_refl. cbn [negb].
  replace (slice data (disk_pos (info s) REISERFS_SUPERBLOCK_BLOCK 0) SB_SIZE) with super
    by (unfold sb, disk_pos; rewrite Hb, Hp, Z.add_0_r; done).
  by rewrite Hm.
Qed.

(** the journal has no transaction for the reader *)
Lemma journal_init_ok fuel s : ready s → sb_journal data poff ≠ 0 → vol_blocksize (info s) = REISERFS_OLD_BLOCKSIZE →
  journal_block (info s) = sb_journal data poff → journal_block_count (info s) = sb_jsize data poff →
  ∃ f r, journal_init stack (S fuel) s =
    (Ok r, with_info (with_fw s f) (set_journal 0 (jfirst data poff) (info s))) ∧ inv f.
Proof.
  intros (Hd & Hp & _ & _) Hj Hb Hjb Hjc. pose proof good as (Hp0 & _ & _ & _ & _ & _ & Hidle & _).
  destruct Hidle as [|(_ & _ & Hfirst & Hh & Hdin & Hvalid)]; [done|].
  assert (∀ t b len, on_device disk inv t → info t = info s ∨ info t = set_journal 0 (jfirst data poff) (info s) →
    0 < len <= INT_MAX → u32 (sb_journal data poff + b) * REISERFS_OLD_BLOCKSIZE + poff + len <= Z.of_nat (length data) →
    ∃ f, journal_read b len t = (Ok (len, slice data (u32 (sb_journal data poff + b) * REISERFS_OLD_BLOCKSIZE + poff) len),
      with_fw t f) ∧ inv f) as Hread.
  { intros t b len Ht Hinfo Hlen Hin. unfold journal_read. rewrite gets_bind.
    assert (vol_blocksize (info t) = REISERFS_OLD_BLOCKSIZE ∧ partition_offset (info t) = poff ∧
      journal_block (info t) = sb_journal data poff) as (E1 & E2 & E3) by (by destruct Hinfo as [-> | ->]).
    assert (disk_pos (info t) (u32 (sb_journal data poff + b)) 0 = u32 (sb_journal data poff + b) * REISERFS_OLD_BLOCKSIZE + poff)
      as Epos by (unfold disk_pos; rewrite E1, E2; cbn [Z.eqb]; unfold REISERFS_OLD_BLOCKSIZE; cbn; lia).
    rewrite E3, <- Epos. apply (read_disk_ok disk inv data data_bounded); try done; rewrite ?E1, ?E2, ?Epos; try lia; try done.
    apply u32_range. }
  assert (Z.of_nat (length (jheader data poff)) = sizeof_header) as Hhl.
  { unfold jheader. rewrite length_slice; [done|..]; try done. unfold jheader_at, REISERFS_OLD_BLOCKSIZE.
    pose proof (u32_range (sb_journal data poff + sb_jsize data poff)). lia. }
  assert (Z.of_nat (length (slice data (jdesc_at data poff) sizeof_desc)) = sizeof_desc) as Hdl.
  { rewrite length_slice; [done|..]; try done. unfold jdesc_at, REISERFS_OLD_BLOCKSIZE.
    pose proof (u32_range (sb_journal data poff + jfirst data poff)). lia. }
  unfold journal_init. rewrite gets_bind, Hjc.
  destruct (Hread s (sb_jsize data poff) sizeof_header) as (f1 & E1 & Hf1); [done|by left|done|exact Hh|].
  rewrite (bind_ok _ _ _ _ _ E1). fold (jheader_at data poff). fold (jheader data poff).
  rewrite over_full by done. fold (jfirst data poff). rewrite (proj2 (Z.leb_gt _ _) Hfirst).
  set (s1 := with_info (with_fw s f1) (set_journal 0 (jfirst data poff) (info s))).
  rewrite (bind_ok _ _ _ tt s1) by done.
  assert (∃ f2, journal_loop (S fuel) (jheader data poff) (loaded stack 0 sizeof_desc) (loaded stack 0 sizeof_commit)
    (jfirst data poff) (u32 (le32_at (jheader data poff) 0 + 1)) s1 =
    (Ok (u32 (le32_at (jheader data poff) 0 + 1)), with_fw s1 f2) ∧ inv f2) as (f2 & E2 & Hf2).
  { cbn [journal_loop]. rewrite gets_bind.
    destruct (Hread s1 (jfirst data poff) sizeof_desc) as (f2 & E2 & Hf2); [by split; [apply Hd|]|by right|done|exact Hdin|].
    rewrite (bind_ok _ _ _ _ _ E2). fold (jdesc_at data poff).
    rewrite (store_all _ (slice data (jdesc_at data poff) sizeof_desc))
      by (unfold loaded; rewrite length_map, length_seqZ; lia).
    rewrite Hvalid. cbn [negb]. by exists f2. }
  rewrite (bind_ok _ _ _ _ _ E2).
  assert (u16 (u32 (u32 (le32_at (jheader data poff) 0 + 1) - le32_at (jheader data poff) 0 - 1)) = 0) as ->.
  { unfold u32. rewrite <- Z.sub_add_distr, Zminus_mod_idemp_l, Z.sub_diag. done. }
  rewrite (bind_ok _ _ _ tt (with_info (with_fw s1 f2) (set_journal 0 (jfirst data poff) (info s)))) by done.
  exists f2. eexists. split; [rewrite gets_bind; reflexivity|done].
Qed.

(** after the superblock was looked at *)
Definition looked (first : Z) : volume :=
  Volume poff (sb_journal data poff) (sb_jsize data poff) first (le16_at super 72) 0 shift (sb_blocksize data poff)
    (Z.shiftr FSYSREISER_CACHE_SIZE shift - 1) 0.

Lemma setup_journal_ok fuel s : ready s → info s = looked 0 →
  ∃ f, setup_journal env stack (S fuel) REISERFS_SUPERBLOCK_BLOCK super s =
    (Ok (Some super), with_info (with_fw s f) (looked (if sb_journal data poff =? 0 then 0 else jfirst data poff))) ∧ inv f.
Proof.
  intros Hs Hi. unfold setup_journal. rewrite gets_bind, Hi. cbn [journal_block looked].
  destruct (Z.eqb_spec (sb_journal data poff) 0) as [Hj|Hj].
  - exists (r_fw s). split; [|by destruct Hs as [[_ ?] _]]. destruct s; cbn in *. by subst.
  - pose proof good as (Hp0 & Hin & _ & _ & _ & _ & Hidle & _). destruct Hidle as [|(Hb & Hpow & _)]; [done|].
    cbn [journal_block_count looked]. rewrite Hpow. cbn [negb].
    destruct (journal_init_ok fuel s Hs Hj) as (f1 & r & E1 & Hf1); [by rewrite Hi..|].
    rewrite (bind_ok _ _ _ _ _ E1). rewrite Hi.
    set (t := with_info (with_fw s f1) (set_journal 0 (jfirst data poff) (looked 0))).
    assert (disk_pos (info t) REISERFS_SUPERBLOCK_BLOCK 0 = REISERFS_SUPERBLOCK_BLOCK * REISERFS_OLD_BLOCKSIZE + poff) as Epos.
    { unfold disk_pos, t. cbn [info with_info vol_blocksize partition_offset set_journal looked]. rewrite Hb. cbn [Z.eqb].
      unfold REISERFS_OLD_BLOCKSIZE. cbn. lia. }
    destruct (block_read_ok disk inv data data_bounded stack t REISERFS_SUPERBLOCK_BLOCK 0 SB_SIZE) as (f2 & E2 & Hf2);
      [by split; [apply Hs|]|done|done|by cbn; rewrite Hb|done|done|done|by rewrite Epos|].
    rewrite (bind_ok _ _ _ _ _ E2), Epos. fold super. exists f2. split; [|done]. by rewrite store_all.
Qed.

Lemma mounted_fits : let v := mounted data poff shift in
  512 <= vol_blocksize v ∧ 1 < cached_slots v ∧ (cached_slots v + 1) * vol_blocksize v <= FSYSREISER_CACHE_SIZE.
Proof.
  pose proof good as (_ & _ & _ & _ & Hshift & Hb & _). destruct (shift_facts shift Hshift) as (_ & [Hmin _] & _ & H1 & H2).
  cbn [mounted vol_blocksize cached_slots]. rewrite Hb. done.
Qed.

Lemma read_root_ok s first : ready s → first = (if sb_journal data poff =? 0 then 0 else jfirst data poff) →
  info s = looked first →
  ∃ s', read_root env stack super s = (Ok true, s') ∧ coherent disk inv data (mounted data poff shift) (sb_root data poff) s' ∧
    open_buffer s' = open_buffer s ∧ r_file s' = r_file s.
Proof.
  intros (Hd & Hp & Hc & Hl) Hfirst Hi. pose proof good as (Hp0 & _ & _ & _ & Hshift & Hb & _ & Hroot & Hdep).
  pose proof mounted_fits as (Hbs & Hcs & Hfit). cbn zeta in Hbs, Hcs, Hfit.
  change (vol_blocksize (mounted data poff shift)) with (sb_blocksize data poff) in Hbs, Hfit.
  unfold read_root. rewrite gets_bind, Hi. cbn [vol_blocksize looked]. fold (sb_root data poff).
  set (bsize := sb_blocksize data poff) in *. set (root := blk data poff bsize (sb_root data poff)) in *.
  assert (2 * bsize <= FSYSREISER_CACHE_SIZE) as Hfit2 by nia. clear Hfit.
  change FSYSREISER_CACHE_SIZE with 28672 in Hl, Hfit2. change REISERFS_MAX_TREE_HEIGHT with 7 in Hdep.
  destruct (read_cache_ok disk inv data data_bounded stack s (sb_root data poff) ROOT) as (f & E & Hf); rewrite ?Hi;
    cbn [journal_transactions partition_offset vol_blocksize looked]; fold bsize; try done;
    [change INT_MAX with 2147483647; lia|unfold ROOT; lia|].
  rewrite Hi in E. cbn [vol_blocksize partition_offset looked] in E. fold bsize root in E.
  rewrite (bind_ok _ _ _ _ _ E). cbn [negb]. rewrite gets_bind. cbn [fsys with_fsys].
  set (f0 := store (fsys s) ROOT root).
  assert (Z.of_nat (length root) = bsize) as Hrl.
  { destruct Hroot as [? Hin]. unfold root, blk. rewrite length_slice; nia. }
  assert (Z.of_nat (length f0) = 28672) as Hl0 by (unfold f0; rewrite length_store; unfold ROOT; lia).
  assert (slice f0 ROOT bsize = root) as Hr0 by (unfold f0; rewrite <- Hrl at 1; apply slice_store_same; unfold ROOT; lia).
  assert (blkh_level f0 ROOT = blkh_level root 0) as ->.
  { transitivity (blkh_level (slice f0 ROOT bsize) 0); [|by rewrite Hr0].
    unfold blkh_level. rewrite le16_at_slice by (unfold ROOT; lia). by rewrite Z.add_0_r. }
  set (s1 := with_info (with_fsys (with_fw s f) f0) (mounted data poff shift)).
  rewrite (bind_ok _ _ _ tt s1) by (unfold s1, mounted; by rewrite <- Hfirst).
  rewrite (proj2 (Z.leb_gt _ _)) by (unfold REISERFS_MAX_TREE_HEIGHT; lia).
  assert (∀ f', Z.of_nat (length f') = 28672 → slice f' ROOT bsize = root →
    (blkh_level root 0 = 1 → slice f' (LEAF (mounted data poff shift)) bsize = root) →
    coherent disk inv data (mounted data poff shift) (sb_root data poff) (with_fsys s1 f')) as Hcoh.
  { intros f' H1 H2 H3. split; [done|]. split; [by split; [apply Hd|]|]. split; [done|]. cbn [cur with_fsys s1 with_info with_fw].
    rewrite Hc. split; [done|]. split; [done|]. split; [done|].
    intros d _ _ Hnz. exfalso. apply Hnz. unfold cursor0. cbn [blocks]. unfold nth_Z.
    by destruct (Z.to_nat d) as [|[|[|[|[|[|[|[|?]]]]]]]]. }
  destruct (Z.eqb_spec (blkh_level root 0) BLKH_LEVEL_LEAF) as [Hleaf|Hleaf].
  - assert (LEAF (mounted data poff shift) = bsize) as Elf.
    { unfold LEAF, CACHE, BLKH_LEVEL_LEAF. cbn [mounted vol_blocksize]. fold bsize. lia. }
    change (LEAF (looked first)) with (LEAF (mounted data poff shift)). rewrite Hr0, Elf. unfold put_at. rewrite Hl0, Hrl, (proj2 (Z.ltb_ge bsize 0)), (proj2 (Z.ltb_ge _ _)) by nia.
    cbn [orb]. rewrite ret_bind. exists (with_fsys s1 (store f0 bsize root)). split; [done|]. split; [|done]. apply Hcoh.
    + rewrite length_store by nia. done.
    + rewrite slice_store_before by (unfold ROOT; nia). done.
    + intros _. rewrite Elf. transitivity (slice (store f0 bsize root) bsize (Z.of_nat (length root))); [by rewrite Hrl|].
      apply slice_store_same; lia.
  - exists s1. split; [done|]. split; [|done]. apply (Hcoh f0 Hl0 Hr0). intros E1. by rewrite E1 in Hleaf.
Qed.

Lemma read_super_ok fuel s : on_device disk inv s → info s = volume0 poff → cur s = cursor0 →
  Z.of_nat (length (fsys s)) = FSYSREISER_CACHE_SIZE →
  ∃ s', reiserfs_read_super env stack (S fuel) s = (Ok true, s') ∧
    coherent disk inv data (mounted data poff shift) (sb_root data poff) s' ∧
    open_buffer s' = open_buffer s ∧ r_file s' = r_file s.
Proof.
  intros Hd Hi Hc Hl. assert (ready s) as Hs by (split_and!; [done..|by rewrite Hi|done|done]).
  pose proof good as (Hp0 & _ & _ & Hver & Hshift & Hb & _ & _).
  destruct (shift_facts shift Hshift) as (Hlog & [Hmin Hmax] & Hslots & _).
  destruct (find_super_ok s Hs) as (f1 & E1 & Hf1); [by rewrite Hi|].
  unfold reiserfs_read_super. rewrite (bind_ok _ _ _ _ _ E1), gets_bind.
  change (info (with_fw s f1)) with (info s). fold (sb_blocksize data poff). rewrite Hb, Hlog.
  assert (volume_of (info s) super shift = looked 0) as Ev.
  { rewrite Hi. unfold volume_of, looked. rewrite Hslots. done. }
  rewrite Ev. set (s1 := with_info (with_fw s f1) (looked 0)). rewrite (bind_ok _ _ _ tt s1) by done.
  cbn [version looked vol_blocksize]. rewrite (proj2 (Z.ltb_ge _ _)) by lia. rewrite Hb.
  rewrite (proj2 (Z.ltb_ge _ _)), (proj2 (Z.ltb_ge _ _)) by lia. cbn [orb].
  assert (ready s1) as Hs1 by (split; [split; [apply Hd|exact Hf1]|by split_and!]).
  destruct (setup_journal_ok fuel s1 Hs1 eq_refl) as (f2 & E2 & Hf2). rewrite (bind_ok _ _ _ _ _ E2).
  match goal with |- context [read_root _ _ _ ?x] =>
    destruct (read_root_ok x (if sb_journal data poff =? 0 then 0 else jfirst data poff)) as (s' & E3 & Hs' & Hk) end;
    [split; [split; [apply Hd|exact Hf2]|by split_and!]|done|done|]. by exists s'.
Qed.
End mount.

(** ** Properties *)

Section properties.
Context {F : Type} `{Firmware F} (disk : Z) (inv : F → Prop) (data : list Z) `{!SeekDevice disk inv data}.
Context (data_bounded : Z.of_nat (length data) < 18446744073709551616).

(** [reiserfs_read_super] mounts every good volume: with the magic string and a block
    size of 512 to 8192 in the superblock at 64 KB, no journal or an idle one, and a root
    whose level is below the greatest height, it succeeds.  [INFO] then describes the
    volume and the node cache agrees with the disk, the root being in its place. *)
Theorem reiserfs_mounted env stack poff shift fuel (s : rst F) : mountable data poff shift →
  on_device disk inv s → info s = volume0 poff → cur s = cursor0 → Z.of_nat (length (fsys s)) = FSYSREISER_CACHE_SIZE →
  ∃ s', reiserfs_read_super env stack (S fuel) s = (Ok true, s') ∧
    coherent disk inv data (mounted data poff shift) (sb_root data poff) s'.
Proof.
  intros Hg Hd Hi Hc Hl.
  destruct (read_super_ok disk inv data data_bounded env stack poff shift Hg fuel s Hd Hi Hc Hl) as (s' & E & Hs & _).
  by exists s'.
Qed.

Context (stack : list Z) (v : volume) (root : Z) (fits : 512 <= vol_blocksize v ∧ 1 < cached_slots v ∧
  (cached_slots v + 1) * vol_blocksize v <= FSYSREISER_CACHE_SIZE) (no_journal : journal_transactions v = 0)
  (offset_nonneg : 0 <= partition_offset v) (depth_ok : 1 <= tree_depth v < REISERFS_MAX_TREE_HEIGHT)
  (root_ok : tree_ok data (partition_offset v) (vol_blocksize v) (Z.to_nat (tree_depth v)) None None root).

(** C10: in a tree whose keys are in order, [search_stat] reads and caches its way down to
    the one leaf that can hold the stat data of an object.  It returns whether the tree
    holds them; if so they are the current item and the cursor has its place among the
    items of the tree, and if not [errnum] tells.  The cache still agrees with the disk. *)
Theorem search_stat_finds fuel dir_id objectid (s : rst F) : coherent disk inv data v root s → tree_depth v <= Z.of_nat fuel →
  let holds := in_tree data (partition_offset v) (vol_blocksize v) (Z.to_nat (tree_depth v)) root (dir_id, objectid, 0) in
  ∃ s', search_stat stack fuel dir_id objectid s = (Ok (bool_decide holds), s') ∧
    if decide holds
    then ∃ l i rest, stands disk inv data v root s' (l, i) rest ∧
      leaf_key data (partition_offset v) (vol_blocksize v) l i = (dir_id, objectid, 0)
    else coherent disk inv data v root s' ∧ errnum s' = FILE_ERR_BAD_FSYS.
Proof.
  intros Hs Hfuel. destruct (search_stat_ok disk inv data data_bounded stack v root fits no_journal offset_nonneg depth_ok root_ok
    fuel dir_id objectid s Hs Hfuel) as (s' & E & Hr). exists s'. split; [exact E|]. destruct (decide _); [apply Hr|exact Hr].
Qed.

(** C11: [next_key] goes through the items of the tree in order: from an item to the next
    one of its leaf, from the last one of a leaf to the first of the leaf that follows, up
    and down the tree as far as needed; after the last item of the tree it yields the key
    that bounds the leaf. *)
Theorem next_key_in_order fuel (s : rst F) x rest : tree_depth v <= cached_slots v → tree_depth v <= Z.of_nat fuel →
  Forall (λ l, 0 < nr_items data (partition_offset v) (vol_blocksize v) l)
    (leaves data (partition_offset v) (vol_blocksize v) (Z.to_nat (tree_depth v)) root) →
  stands disk inv data v root s x rest →
  (∃ before, items data v root = before ++ x :: rest) ∧
  ∃ s', next_key stack fuel s = (Ok true, s') ∧
    match rest with
    | y :: rest' => stands disk inv data v root s' y rest'
    | [] => coherent disk inv data v root s' ∧ current_ih (cur s') = Some (LEAF v + 8)
    end.
Proof.
  intros Hc Hfuel Hne Hs. split; [by eapply stands_items|].
  destruct (next_key_ok disk inv data data_bounded stack v root fits no_journal offset_nonneg depth_ok root_ok fuel s x rest
    Hc Hfuel Hne Hs) as (s' & E & _ & Hr). exists s'. split; [exact E|]. destruct rest; [split; apply Hr|exact Hr].
Qed.
End properties.

(** ** An example

    A tree of three nodes of 512 bytes: the root at block 1, with one key, and two leaves,
    with the stat data and the entries of [/], the stat data of [/vmlinux] and its two
    items, an indirect and a direct one. *)

Definition put_le16 (z : Z) : list Z := rev (put_be16 z).

Definition example_blkh (level n : Z) : list Z := put_le16 level ++ put_le16 n ++ zeros 20.
Definition example_key (d o offset uniqueness : Z) : list Z :=
  put_le32 d ++ put_le32 o ++ put_le32 offset ++ put_le32 uniqueness.
Definition example_ih (d o offset uniqueness count len location : Z) : list Z :=
  example_key d o offset uniqueness ++ put_le16 count ++ put_le16 len ++ put_le16 location ++ put_le16 0.
Definition example_stat (mode size : Z) : list Z := put_le16 mode ++ zeros 6 ++ put_le32 size ++ zeros 20.
Definition example_deh (d o location : Z) : list Z :=
  put_le32 1 ++ put_le32 d ++ put_le32 o ++ put_le16 location ++ put_le16 4.

Definition leaf_root : list Z :=
  layout 512 [(0, example_blkh 1 3);
    (24, example_ih 1 2 0 0 0 32 480 ++ example_ih 1 2 1 500 2 43 400 ++ example_ih 2 3 0 0 0 32 448);
    (480, example_stat 16877 48); (448, example_stat 33188 600);
    (400, example_deh 1 2 42 ++ example_deh 2 3 32 ++ bs "vmlinux" ++ [0; 0; 0] ++ bs ".")].

Definition leaf_file (block : Z) : list Z :=
  layout 512 [(0, example_blkh 1 2);
    (24, example_ih 2 3 1 V1_TYPE_INDIRECT 0 4 508 ++ example_ih 2 3 513 V1_TYPE_DIRECT 0 88 300);
    (508, put_le32 block); (300, replicate 88 66)].

Definition node_root (left right : Z) : list Z :=
  layout 512 [(0, example_blkh 2 1); (24, example_key 2 3 1 V1_TYPE_INDIRECT);
    (40, put_le32 left ++ zeros 4 ++ put_le32 right ++ zeros 4)].

(** the blocks 1 to 4 *)
Definition example_blocks (o : Z) : list Z :=
  node_root (o + 2) (o + 3) ++ leaf_root ++ leaf_file (o + 4) ++ replicate 512 65.
Definition small_disk : list Z := zeros 512 ++ example_blocks 0.
Definition small_volume : volume := Volume 0 0 0 0 0 2 9 512 55 0.

Definition example_cache (node : list Z) : list Z := node ++ replicate (Z.to_nat (FSYSREISER_CACHE_SIZE - 512)) 0.
Definition small_state : rst image :=
  RSt (Image small_disk 512 0 [] []) (BFile None 0 7 0 0 None 0) (example_cache (node_root 2 3)) [] (zeros 1024) 0
    small_volume cursor0.

Lemma small_coherent : coherent 7 (of_image small_disk) small_disk small_volume 1 small_state.
Proof.
  split; [reflexivity|]. split; [split; [reflexivity|unfold of_image; reflexivity]|]. split.
  { cbn [fsys small_state]. unfold example_cache. rewrite length_app, length_replicate.
    replace (length (node_root 2 3)) with 512%nat by by_decision. change FSYSREISER_CACHE_SIZE with 28672. lia. }
  split; [split; reflexivity|]. split; [by_decision|]. split; [intros E; discriminate E|].
  intros d _ _ Hd. exfalso. apply Hd. unfold nth_Z. cbn. by destruct (Z.to_nat d) as [|[|[|[|[|[|[|[|?]]]]]]]].
Qed.

Lemma small_tree : tree_ok small_disk 0 512 2 None None 1.
Proof. by_decision. Qed.

Lemma small_items : items small_disk small_volume 1 = [(2, 0); (2, 1); (2, 2); (3, 0); (3, 1)].
Proof. by_decision. Qed.

(** the only item with that key is the third one *)
Lemma small_item x before rest : items small_disk small_volume 1 = before ++ x :: rest →
  leaf_key small_disk 0 512 x.1 x.2 = (2, 3, 0) → x = (2, 2) ∧ rest = [(3, 0); (3, 1)].
Proof.
  rewrite small_items. intros E Hk. assert (leaf_key small_disk 0 512 2 0 ≠ (2, 3, 0) ∧ leaf_key small_disk 0 512 2 1 ≠ (2, 3, 0) ∧
    leaf_key small_disk 0 512 3 0 ≠ (2, 3, 0) ∧ leaf_key small_disk 0 512 3 1 ≠ (2, 3, 0)) as (H1 & H2 & H3 & H4)
    by (split_and!; by_decision).
  revert Hk H1 H2 H3 H4. generalize (leaf_key small_disk 0 512). intros key Hk H1 H2 H3 H4.
  destruct before as [|? [|? [|? [|? [|? [|? before]]]]]]; injection E; intros; subst; try done.
Qed.

(** the stat data of [/vmlinux] *)
Example search_stat_finds_witness :
  ∃ s', search_stat [] 2 2 3 small_state = (Ok true, s') ∧
    stands 7 (of_image small_disk) small_disk small_volume 1 s' (2, 2) [(3, 0); (3, 1)].
Proof.
  assert (in_tree small_disk 0 512 2 1 (2, 3, 0)) as Hin by by_decision.
  destruct (search_stat_finds (H := image_firmware) 7 (of_image small_disk) small_disk
    (SeekDevice0 := image_seeks 7 small_disk ltac:(by_decision)) ltac:(by_decision) [] small_volume 1
    ltac:(by_decision) ltac:(by_decision) ltac:(by_decision) ltac:(by_decision) small_tree 2 2 3 small_state small_coherent
    ltac:(by_decision)) as (s' & E & Hs).
  destruct (decide _) as [_|Hn] in Hs; [|destruct (Hn Hin)]. destruct Hs as (l & i & rest & Hs & Hk).
  destruct (stands_items _ _ _ _ _ _ _ _ Hs) as [before Hb]. destruct (small_item _ _ _ Hb Hk) as [[= -> ->] ->].
  exists s'. split; [|exact Hs]. rewrite E. by rewrite (bool_decide_eq_true_2 _ Hin).
Defined.

(** the item after it is the first one of the next leaf *)
Example next_key_in_order_witness :
  ∃ s s', next_key [] 2 s = (Ok true, s') ∧
    stands 7 (of_image small_disk) small_disk small_volume 1 s (2, 2) [(3, 0); (3, 1)] ∧
    stands 7 (of_image small_disk) small_disk small_volume 1 s' (3, 0) [(3, 1)].
Proof.
  assert (in_tree small_disk 0 512 2 1 (2, 3, 0)) as Hin by by_decision.
  destruct (search_stat_ok (H := image_firmware) 7 (of_image small_disk) small_disk
    (SeekDevice0 := image_seeks 7 small_disk ltac:(by_decision)) ltac:(by_decision) [] small_volume 1
    ltac:(by_decision) ltac:(by_decision) ltac:(by_decision) ltac:(by_decision) small_tree 2 2 3 small_state small_coherent
    ltac:(by_decision)) as (s & _ & Hs).
  destruct (decide _) as [_|Hn] in Hs; [|destruct (Hn Hin)]. destruct Hs as ((l & i & rest & Hs & Hk) & _).
  destruct (stands_items _ _ _ _ _ _ _ _ Hs) as [before Hb]. destruct (small_item _ _ _ Hb Hk) as [[= -> ->] ->].
  destruct (next_key_in_order (H := image_firmware) 7 (of_image small_disk) small_disk
    (SeekDevice0 := image_seeks 7 small_disk ltac:(by_decision)) ltac:(by_decision) [] small_volume 1
    ltac:(by_decision) ltac:(by_decision) ltac:(by_decision) ltac:(by_decision) small_tree 2 s (2, 2) _
    ltac:(by_decision) ltac:(by_decision) ltac:(by_decision) Hs) as (_ & s' & E & Hs').
  exists s, s'. exact (conj E (conj Hs Hs')).
Defined.

(** the same blocks from block 129 on, behind a superblock at 64 KB *)
Definition example_super : list Z :=
  layout 512 [(8, put_le32 129); (44, put_le16 512); (52, REISER2FS_SUPER_MAGIC_STRING); (72, put_le16 2)].
Definition mount_tail : list Z := example_super ++ example_blocks 128.
Definition mount_disk : list Z := zeros 65536 ++ mount_tail.

Lemma slice_behind a b k i n : Z.of_nat (length a) = k → 0 <= i → slice (a ++ b) (k + i) n = slice b i n.
Proof. intros <-. apply slice_app_r. Qed.

Lemma length_zeros n : 0 <= n → Z.of_nat (length (zeros n)) = n.
Proof. intros. unfold zeros. rewrite length_replicate. lia. Qed.

Lemma mount_slice i n : 0 <= i → slice mount_disk (65536 + i) n = slice mount_tail i n.
Proof. apply slice_behind, length_zeros. lia. Qed.

Lemma mount_length : Z.of_nat (length mount_disk) = 65536 + 2560.
Proof.
  unfold mount_disk. rewrite length_app, Nat2Z.inj_add, length_zeros by lia.
  replace (length mount_tail) with 2560%nat by by_decision. lia.
Qed.

Lemma mount_super : sb mount_disk 0 = slice mount_tail 0 SB_SIZE.
Proof. exact (mount_slice 0 SB_SIZE ltac:(lia)). Qed.

Lemma mount_root : blk mount_disk 0 512 129 = slice mount_tail 512 512.
Proof. exact (mount_slice 512 512 ltac:(lia)). Qed.

Lemma mount_fields : sb_journal mount_disk 0 = 0 ∧ sb_blocksize mount_disk 0 = 512 ∧ sb_root mount_disk 0 = 129 ∧
  has_magic (sb mount_disk 0) = true ∧ le16_at (sb mount_disk 0) 72 = 2.
Proof. unfold sb_journal, sb_blocksize, sb_root. rewrite mount_super. by_decision. Qed.

Lemma mount_good : mountable mount_disk 0 9.
Proof.
  destruct mount_fields as (Hj & Hb & Hr & Hm & Hv). unfold mountable. rewrite mount_length, Hb, Hr, Hm, Hv, mount_root.
  do 6 (split; [by_decision|]). split; [left; exact Hj|].
  split; [|by_decision]. split; [by_decision|]. rewrite mount_length. by_decision.
Qed.

Definition mount_state : rst image :=
  RSt (Image mount_disk 512 0 [] []) (BFile None 0 7 0 0 None 0) (zeros FSYSREISER_CACHE_SIZE) [] (zeros 1024) 0
    (volume0 0) cursor0.

Example reiserfs_mounted_witness :
  ∃ s', reiserfs_read_super (PromEnv 0 0 0 0 false) [] 1 mount_state = (Ok true, s') ∧
    coherent 7 (of_image mount_disk) mount_disk (mounted mount_disk 0 9) 129 s'.
Proof.
  assert (Z.of_nat (length mount_disk) < 18446744073709551616) as Hlen by (rewrite mount_length; lia).
  destruct mount_fields as (_ & _ & Hr & _). rewrite <- Hr.
  apply (reiserfs_mounted (H := image_firmware) 7 (of_image mount_disk) mount_disk
    (SeekDevice0 := image_seeks 7 mount_disk Hlen) Hlen (PromEnv 0 0 0 0 false) [] 0 9 0 mount_state);
    [exact mount_good|exact (conj eq_refl eq_refl)|exact eq_refl|exact eq_refl|].
  exact (length_zeros FSYSREISER_CACHE_SIZE ltac:(by_decision)).
Defined.

(** a file of the small volume, opened and read from [p] *)
Definition small_read (disk name : list Z) (p n : Z) : result fault (bool * Z) * option (Z * list Z) :=
  match reiserfs_open_file [] 10 (name ++ [0]) (RSt (Image disk 512 0 [] []) (r_file small_state) (fsys small_state) []
      (zeros 1024) 0 small_volume cursor0) with
  | (Ok true, s) =>
      (Ok (true, errnum s),
       match (reiserfs_read [] 10 (set_pos p (r_file s)) n (zeros n) s).1 with Ok (r, b, _) => Some (r, b) | _ => None end)
  | (Ok false, s) => (Ok (false, errnum s), None)
  | (Err e, _) => (Err e, None)
  | (Fuel, _) => (Fuel, None)
  end.

(** from the indirect item into the direct one, and no further than the end of the file *)
Example read_across_items : small_read small_disk (bs "/vmlinux") 510 4 = (Ok (true, 0), Some (4, [65; 65; 66; 66])).
Proof. by_decision. Qed.

Example read_stops_at_end :
  small_read small_disk (bs "/./vmlinux") 596 8 = (Ok (true, 0), Some (4, [66; 66; 66; 66; 0; 0; 0; 0])).
Proof. by_decision. Qed.

Example name_not_found : small_read small_disk (bs "/vmlinuz") 0 4 = (Ok (false, FILE_ERR_NOTFOUND), None).
Proof. by_decision. Qed.

(** a hole in a file, a pointer that is 0, is read as block 0 of the partition *)
Example hole_is_block_0 : small_read (replicate 512 88 ++ node_root 2 3 ++ leaf_root ++ leaf_file 0) (bs "/vmlinux") 510 4 =
  (Ok (true, 0), Some (4, [88; 88; 66; 66])).
Proof. by_decision. Qed.

(** a leaf that cannot be read makes [reiserfs_open_file] fail with [errnum] 0, which
    [reiserfs_open] returns as the result *)
Example unreadable_node : small_read (zeros 512 ++ node_root 2 90 ++ leaf_root) (bs "/vmlinux") 0 4 = (Ok (false, FILE_ERR_OK), None).
Proof. by_decision. Qed.
