(* ===== verification/ReiserfsFile.v ===== *)
(** Files of ReiserFS volumes: what the items of the tree say of a file or a directory, and
    that the reader of [Reiserfs] follows paths and reads files as they say. *)
From S2P Require Import Prelude Ctype CString Prom Disk Devpath Partition Fs Paths Reiserfs.
From S2P Require Xfs.

(** ** Entries of directories *)

(** the [n] entries from number [j] on of a directory item at [loc] of block [b], the name
    before which starts at [e]; those that are not visible are left out *)
Fixpoint item_entries (n : nat) (b : list Z) (loc j e : Z) : list (list Z * (Z * Z)) :=
  match n with
  | O => []
  | S n =>
      let de := loc + j * DEH_SIZE in
      let l := le16_at b (de + 12) in
      let rest := item_entries n b loc (j + 1) l in
      if Z.land (le16_at b (de + 14)) (Z.shiftl 1 DEH_Visible) =? 0 then rest
      else (cstring (slice b (loc + l) (e - l)), (le32_at b (de + 4), le32_at b (de + 8))) :: rest
  end.

(** their heads and names lie in the block *)
Fixpoint entries_inside (n : nat) (b : list Z) (bsize loc j e : Z) : Prop :=
  match n with
  | O => True
  | S n =>
      let de := loc + j * DEH_SIZE in
      let l := le16_at b (de + 12) in
      de + DEH_SIZE <= bsize ∧ 0 <= l <= e ∧ loc + e <= bsize ∧ cstr_ok (cstring (slice b (loc + l) (e - l))) ∧
      entries_inside n b bsize loc (j + 1) l
  end.

Fixpoint name_lookup (comp : list Z) (es : list (list Z * (Z * Z))) : option (Z * Z) :=
  match es with
  | [] => None
  | (name, id) :: es => if decide (comp = name) then Some id else name_lookup comp es
  end.

#[export] Instance entries_inside_dec n b bsize : ∀ loc j e, Decision (entries_inside n b bsize loc j e).
Proof. induction n as [|n IH]; intros loc j e; cbn [entries_inside]; apply _. Defined.

Lemma name_lookup_app comp es es' : name_lookup comp (es ++ es') =
  match name_lookup comp es with Some id => Some id | None => name_lookup comp es' end.
Proof. induction es as [|[name id] es IH]; [done|]. cbn. by case_decide. Qed.

Lemma name_lookup_in comp es id : name_lookup comp es = Some id → (comp, id) ∈ es.
Proof.
  induction es as [|[name id'] es IH]; [done|]. cbn. case_decide; [intros [= ->]; subst; by left|right; by apply IH].
Qed.

Lemma cstring_app_nul l rest : cstring (l ++ 0 :: rest) = cstring l.
Proof. induction l as [|c l IH]; [done|]. cbn. by rewrite IH. Qed.

Lemma cstring_shorter l : (length (cstring l) <= length l)%nat.
Proof. induction l as [|c l IH]; [done|]. cbn. destruct (c =? 0); cbn; lia. Qed.

(** a name as [strcmp] sees it, with the zero put behind it *)
Lemma entry_name_ok f filename name_end : 0 <= filename <= name_end → name_end < Z.of_nat (length f) →
  entry_name f filename name_end = Some (cstring (slice f filename (name_end - filename))).
Proof.
  intros Hf He. unfold entry_name.
  assert (drop (Z.to_nat filename) (store f name_end [0]) =
    slice f filename (name_end - filename) ++ 0 :: drop (Z.to_nat (name_end + 1)) f) as ->.
  { unfold store, slice. rewrite drop_app_le by (rewrite length_take; lia). rewrite skipn_firstn_comm. cbn [length app].
    do 2 f_equal; [f_equal; lia|]. f_equal. lia. }
  rewrite cstring_app_nul. rewrite (proj2 (Nat.ltb_lt _ _)); [done|].
  rewrite length_app. cbn [length]. pose proof (cstring_shorter (slice f filename (name_end - filename))). lia.
Qed.

(** ** Items on the disk *)

Section items.
Context (data : list Z) (v : volume).
Notation bsize := (vol_blocksize v).
Notation block b := (blk data (Reiserfs.partition_offset v) (vol_blocksize v) b).

(** the item [i] of leaf [l]: where its head is, and what the head says *)
Definition head (x : Z * Z) : Z := BLKH_SIZE + x.2 * IH_SIZE.
Definition item_object (x : Z * Z) : Z := k_objectid (block x.1) (head x).
Definition item_offset (x : Z * Z) : Z := IH_KEY_OFFSET v (block x.1) (head x).
Definition item_location (x : Z * Z) : Z := ih_location (block x.1) (head x).
Definition item_len (x : Z * Z) : Z := ih_item_len (block x.1) (head x).
Definition item_direct (x : Z * Z) : bool := is_direct v (block x.1) (head x).
Definition item_indirect (x : Z * Z) : bool := is_indirect v (block x.1) (head x).

(** the blocks an indirect item points to *)
Definition item_pointers (x : Z * Z) : list Z :=
  (λ k, le32_at (block x.1) (item_location x + k * 4)) <$> seqZ 0 (item_len x / 4).

(** the bytes of a file that an item holds *)
Definition item_bytes (x : Z * Z) : list Z :=
  if item_direct x then slice (block x.1) (item_location x) (item_len x)
  else if item_indirect x then concat ((λ b, block b) <$> item_pointers x)
  else [].

(** the item lies in its leaf *)
Definition item_inside (x : Z * Z) : Prop :=
  0 <= item_location x ∧ 0 <= item_len x ∧ item_location x + item_len x <= bsize.

Definition body_item (x : Z * Z) : Prop :=
  item_inside x ∧ (item_direct x = true ∨
    item_direct x = false ∧ item_indirect x = true ∧ Forall (on_disk data (Reiserfs.partition_offset v) bsize) (item_pointers x)).

(** items of an object, each of which starts where the one before it ends, from [o] on *)
Fixpoint body (objectid o : Z) (xs : list (Z * Z)) : Prop :=
  match xs with
  | [] => True
  | x :: xs =>
      item_object x = objectid ∧ item_offset x = o + 1 ∧ body_item x ∧
      body objectid (o + Z.of_nat (length (item_bytes x))) xs
  end.

Definition body_bytes (xs : list (Z * Z)) : list Z := concat (item_bytes <$> xs).

(** the entries of a directory item *)
Definition entry_count (x : Z * Z) : nat := Z.to_nat (ih_entry_count (block x.1) (head x)).
Definition entries (x : Z * Z) : list (list Z * (Z * Z)) := item_entries (entry_count x) (block x.1) (item_location x) 0 (item_len x).
Definition dir_item (x : Z * Z) : Prop :=
  item_inside x ∧ entries_inside (entry_count x) (block x.1) bsize (item_location x) 0 (item_len x).

(** what the stat data of an object say *)
Definition stat_mode (x : Z * Z) : Z := sd_mode (block x.1) (item_location x).
Definition stat_size (x : Z * Z) : Z :=
  if ih_version (block x.1) (head x) =? ITEM_VERSION_2 then le64_at (block x.1) (item_location x + 8)
  else le32_at (block x.1) (item_location x + 8).

#[export] Instance item_inside_dec x : Decision (item_inside x).
Proof. unfold item_inside. apply _. Defined.
#[export] Instance dir_item_dec x : Decision (dir_item x).
Proof. unfold dir_item. apply _. Defined.
#[export] Instance body_item_dec x : Decision (body_item x).
Proof. unfold body_item. apply _. Defined.
#[export] Instance body_dec objectid xs : ∀ o, Decision (body objectid o xs).
Proof. induction xs as [|x xs IH]; intros o; cbn [body]; apply _. Defined.
End items.

(** two places with the same bytes are the same head *)
Lemma same_heads v f b p h : (∀ c, 0 <= c → c + 2 <= IH_SIZE → le16_at f (p + c) = le16_at b (h + c)) →
  k_objectid f p = k_objectid b h ∧ IH_KEY_OFFSET v f p = IH_KEY_OFFSET v b h ∧
  ih_location f p = ih_location b h ∧ ih_item_len f p = ih_item_len b h ∧
  is_direct v f p = is_direct v b h ∧ is_indirect v f p = is_indirect v b h ∧
  ih_entry_count f p = ih_entry_count b h ∧ ih_version f p = ih_version b h.
Proof.
  intros E. unfold IH_SIZE in E.
  assert (∀ c, 0 <= c → c + 4 <= 24 → le32_at f (p + c) = le32_at b (h + c)) as E32.
  { intros c Hc Hin. unfold le32_at. rewrite <- !Z.add_assoc, !E by lia. done. }
  assert (le64_at f (p + 8) = le64_at b (h + 8)) as E64.
  { unfold le64_at. rewrite <- !Z.add_assoc, !E32 by lia. done. }
  unfold IH_KEY_OFFSET, is_direct, is_indirect, first_version, ih_version, k_objectid, ih_location, ih_item_len,
    ih_entry_count, k_offset, k_uniqueness, offset_v2_k_offset, offset_v2_k_type.
  by rewrite !E, !E32, E64 by lia.
Qed.

(** ** Volumes: the specification

    A volume gives each object that paths lead to its stat data, its other items, the items
    of the tree behind them, and its kind. *)

Inductive kind := Directory | Regular (size : Z).

Record node := Node {
  n_stat : Z * Z;
  n_items : list (Z * Z);
  n_after : list (Z * Z);
  n_kind : kind;
}.

Definition node_entries (data : list Z) (v : volume) (n : node) : list (list Z * (Z * Z)) :=
  concat (entries data v <$> n_items n).

(** what a path leads to: a file with its size and its items, or an error *)
Inductive found := Found (size : Z) (xs : list (Z * Z)) | NotFound (e : Z).

Fixpoint resolve (data : list Z) (v : volume) (vol : Z * Z → option node) (id : Z * Z) (comps : list (list Z)) : found :=
  match vol id with
  | None => NotFound FILE_ERR_BAD_FSYS
  | Some n =>
      match comps, n_kind n with
      | [], Regular size => Found size (n_items n)
      | [], Directory => NotFound FILE_ERR_BAD_TYPE
      | _ :: _, Regular _ => NotFound FILE_ERR_NOTDIR
      | c :: comps, Directory =>
          match name_lookup c (node_entries data v n) with
          | Some id => resolve data v vol id comps
          | None => NotFound FILE_ERR_NOTFOUND
          end
      end
  end.

(** the entries of directories lead to objects of the volume *)
Definition closed (data : list Z) (v : volume) (vol : Z * Z → option node) : Prop :=
  ∀ id n c id', vol id = Some n → n_kind n = Directory → name_lookup c (node_entries data v n) = Some id' → is_Some (vol id').

(** a piece of one of several strings of the same length *)
Lemma slice_concat (B : Z) (ls : list (list Z)) : 0 < B → Forall (λ l, Z.of_nat (length l) = B) ls → ∀ k o n,
  0 <= k < Z.of_nat (length ls) → 0 <= o → 0 <= n → o + n <= B →
  slice (concat ls) (k * B + o) n = slice (nth (Z.to_nat k) ls []) o n.
Proof.
  intros HB. induction 1 as [|l ls Hl _ IH]; intros k o n Hk Ho Hn Hin; [cbn in Hk; lia|]. cbn [concat length] in *.
  destruct (Z.eq_dec k 0) as [->|Hne].
  - rewrite Z.mul_0_l, Z.add_0_l. change (Z.to_nat 0) with O. cbn [nth]. apply slice_app_l; lia.
  - replace (Z.to_nat k) with (S (Z.to_nat (k - 1))) by lia. cbn [nth]. rewrite <- IH by lia.
    rewrite <- (slice_app_r l (concat ls)) by nia. f_equal. rewrite Hl. ring.
Qed.

Lemma length_concat (B : Z) (ls : list (list Z)) : Forall (λ l, Z.of_nat (length l) = B) ls →
  Z.of_nat (length (concat ls)) = Z.of_nat (length ls) * B.
Proof. induction 1 as [|l ls Hl _ IH]; [done|]. cbn [concat length]. rewrite length_app. lia. Qed.

(** where an element lies when it can only lie in the middle *)
Lemma in_middle {A} (P : A → Prop) (a : list A) y ys : Forall (λ z, ¬ P z) a → P y → ∀ b m b',
  Forall (λ z, ¬ P z) b → b ++ m ++ a = b' ++ y :: ys → ∃ m1 m2, m = m1 ++ y :: m2 ∧ ys = m2 ++ a.
Proof.
  intros Ha Hy. induction b as [|z b IH]; intros m b' Hb E.
  - clear Hb. cbn in E. revert b' E. induction m as [|z m IH]; intros b' E.
    + cbn in E. subst a. apply Forall_app in Ha as [_ Ha]. by apply Forall_cons_iff in Ha as [? _].
    + destruct b' as [|z' b']; injection E as -> E; [by exists [], m|].
      destruct (IH b' E) as (m1 & m2 & -> & ->). by exists (z' :: m1), m2.
  - apply Forall_cons_iff in Hb as [Hz Hb]. destruct b' as [|z' b']; injection E as -> E; [done|]. by apply (IH m b').
Qed.

(** the items of a tree are in it *)
Lemma in_leaves data poff bsize k : ∀ d b l, l ∈ leaves data poff bsize d b → in_tree data poff bsize 1 l k →
  in_tree data poff bsize d b k.
Proof.
  induction d as [|d IH]; intros b l Hl Hk; [by apply elem_of_nil in Hl|]. destruct d as [|d].
  - cbn [leaves] in Hl. by apply list_elem_of_singleton in Hl as ->.
  - change (l ∈ seqZ 0 (nr_items data poff bsize b + 1) ≫= (λ i, leaves data poff bsize (S d) (child data poff bsize b i))) in Hl.
    apply list_elem_of_bind in Hl as (i & Hl & Hi). change (Exists (λ i, in_tree data poff bsize (S d) (child data poff bsize b i) k)
      (seqZ 0 (nr_items data poff bsize b + 1))). apply Exists_exists. exists i. split; [done|]. by apply (IH _ l).
Qed.

Lemma buffer_put {F} buf at_ b (s : rst F) : 0 <= at_ → at_ + Z.of_nat (length b) <= Z.of_nat (length buf) →
  Reiserfs.put_at buf at_ b s = (Ok (store buf at_ b), s).
Proof. intros H1 H2. unfold Reiserfs.put_at. by rewrite (proj2 (Z.ltb_ge at_ 0)), (proj2 (Z.ltb_ge _ _)) by lia. Qed.

Section reading.
Context {F : Type} `{Firmware F} (disk : Z) (inv : F → Prop) (data : list Z) `{!SeekDevice disk inv data}.
Context (data_bounded : Z.of_nat (length data) < 18446744073709551616) (stack : list Z).
Context (v : volume) (root : Z) (fits : 512 <= vol_blocksize v ∧ 1 < cached_slots v ∧
  (cached_slots v + 1) * vol_blocksize v <= FSYSREISER_CACHE_SIZE) (no_journal : journal_transactions v = 0)
  (offset_nonneg : 0 <= Reiserfs.partition_offset v) (depth_ok : 1 <= tree_depth v < REISERFS_MAX_TREE_HEIGHT)
  (shift_ok : 0 <= blocksize_shift v ∧ vol_blocksize v = 2 ^ blocksize_shift v).
Implicit Types s : rst F.

Let bsize := vol_blocksize v.
Let block (b : Z) : list Z := blk data (Reiserfs.partition_offset v) bsize b.
Notation nr := (nr_items data (Reiserfs.partition_offset v) bsize).
Notation tree := (tree_ok data (Reiserfs.partition_offset v) bsize).
Let depth := Z.to_nat (tree_depth v).
Context (root_ok : tree depth None None root).

Lemma bsize_range : 512 <= bsize /\ 3 * bsize <= FSYSREISER_CACHE_SIZE.
Proof. destruct fits as (H1 & H2 & H3). fold bsize in H1, H3. split; [done|nia]. Qed.

(** ** Heads in the cache *)

Lemma cached16 f l i : slice f (LEAF v) bsize = block l → 0 <= i → i + 2 <= bsize →
  le16_at f (LEAF v + i) = le16_at (block l) i.
Proof.
  intros <- Hi Hin. pose proof bsize_range. rewrite le16_at_slice; [done| |done|done].
  unfold LEAF, CACHE, BLKH_LEVEL_LEAF. fold bsize. lia.
Qed.

Lemma head_cached i : ITEMHEAD v i = LEAF v + (BLKH_SIZE + i * IH_SIZE).
Proof. unfold ITEMHEAD. lia. Qed.

(** the head of the item [x] in the leaf is in the cache *)
Lemma cached_head f x : slice f (LEAF v) bsize = block x.1 → 0 <= x.2 → BLKH_SIZE + (x.2 + 1) * IH_SIZE <= bsize →
  let ih := ITEMHEAD v x.2 in
  k_objectid f ih = item_object data v x ∧ IH_KEY_OFFSET v f ih = item_offset data v x ∧
  ih_location f ih = item_location data v x ∧ ih_item_len f ih = item_len data v x ∧
  is_direct v f ih = item_direct data v x ∧ is_indirect v f ih = item_indirect data v x ∧
  ih_entry_count f ih = ih_entry_count (block x.1) (head x) ∧ ih_version f ih = ih_version (block x.1) (head x).
Proof.
  intros Hf Hi Hin ih. subst ih. rewrite head_cached.
  apply same_heads. intros c Hc Hc2. rewrite <- Z.add_assoc. apply cached16; [done|..];
    unfold head, IH_SIZE, BLKH_SIZE in *; lia.
Qed.

(** ** Reading *)

(** the state once the device was read up to [p] *)
Definition read_on s f p : rst F := Reiserfs.with_file (Reiserfs.with_fw s f) (set_pos p (r_file s)).

Lemma read_on_same s : read_on s (r_fw s) (pos (r_file s)) = s.
Proof. destruct s as [fw file ? ? ? ? ? ?]. by destruct file. Qed.

Lemma stands_read_on s x rest f p : stands disk inv data v root s x rest → inv f →
  stands disk inv data v root (read_on s f p) x rest.
Proof. destruct x as [l i]. intros ((Hv & [Hd _] & Hs) & Hrest) Hf. split; [split; [done|]; split; [by split|exact Hs]|exact Hrest]. Qed.

Lemma blk_length b : on_disk data (Reiserfs.partition_offset v) bsize b → Z.of_nat (length (block b)) = bsize.
Proof. intros [Hb Hin]. pose proof bsize_range. unfold block, blk. rewrite length_slice; nia. Qed.

Lemma blocks_length ptrs : Forall (on_disk data (Reiserfs.partition_offset v) bsize) ptrs →
  Forall (λ l, Z.of_nat (length l) = bsize) (block <$> ptrs).
Proof. intros Hp. apply Forall_fmap. eapply Forall_impl; [exact Hp|]. intros b. apply blk_length. Qed.

Lemma advance_ok s f n : 0 <= pos (r_file s) + n < 18446744073709551616 →
  advance_pos n (Reiserfs.with_fw s f) = (Ok tt, read_on s f (pos (r_file s) + n)).
Proof.
  intros Hp. unfold advance_pos, modify, read_on. change (r_file (Reiserfs.with_fw s f)) with (r_file s).
  by rewrite u64_small by exact Hp.
Qed.

(** a place in the blocks an item points to: the number of the block and the offset in it *)
Lemma split_offset offset : 0 <= offset → offset = bsize * (offset / bsize) + offset mod bsize ∧ 0 <= offset mod bsize < bsize ∧
  Z.shiftr offset (blocksize_shift v) = offset / bsize ∧ Z.land offset (vol_blocksize v - 1) = offset mod bsize.
Proof.
  intros Ho. pose proof bsize_range as [HB _]. destruct shift_ok as [Hs0 Hs]. fold bsize in Hs.
  split; [apply Z.div_mod; lia|]. split; [apply Z.mod_pos_bound; lia|]. split.
  - by rewrite Z.shiftr_div_pow2, Hs by lia.
  - fold bsize. rewrite Hs. by rewrite <- Z.land_ones, Z.ones_equiv, Z.sub_1_r by done.
Qed.

(** part of one of them is read *)
Lemma pointer_read ptrs s offset n : let o := offset mod bsize in
  info s = v → on_device disk inv s → Forall (on_disk data (Reiserfs.partition_offset v) bsize) ptrs →
  0 <= offset < Z.of_nat (length ptrs) * bsize → 0 < n → o + n <= bsize →
  ∃ f, read_disk_block (nth (Z.to_nat (offset / bsize)) ptrs 0) o n s =
      (Ok (n, slice (concat (block <$> ptrs)) offset n), Reiserfs.with_fw s f) ∧ inv f.
Proof.
  intros o Hv Hdev Hon Ho Hn Hend. pose proof bsize_range as [HB HB3]. change FSYSREISER_CACHE_SIZE with 28672 in HB3.
  destruct (split_offset offset) as (Hdm & Hmod & _); [lia|]. fold o in Hdm, Hmod. set (k := offset / bsize) in *.
  assert (0 <= k < Z.of_nat (length ptrs)) as Hk by (clear -Ho Hdm Hmod HB; nia).
  set (b := nth (Z.to_nat k) ptrs 0).
  assert (on_disk data (Reiserfs.partition_offset v) bsize b) as [Hb0 Hbin].
  { rewrite Forall_forall in Hon. apply Hon. unfold b. apply list_elem_of_In, nth_In. lia. }
  assert (disk_pos (info s) b o = b * bsize + Reiserfs.partition_offset v + o) as Epos.
  { unfold disk_pos. rewrite Hv, (proj2 (Z.eqb_neq _ 0)) by (fold bsize; lia). fold bsize. lia. }
  destruct (read_disk_ok disk inv data data_bounded s b o n Hdev) as (f & E & Hf);
    [lia|rewrite Hv; fold bsize; lia|by rewrite Hv|lia|unfold INT_MAX; lia|rewrite Epos; lia|].
  exists f. split; [|done]. rewrite E, Epos. do 3 f_equal. replace offset with (k * bsize + o) by lia.
  rewrite (slice_concat bsize) by (lia || (by apply blocks_length) || (rewrite length_fmap; lia)).
  destruct (lookup_lt_is_Some_2 ptrs (Z.to_nat k)) as [x Hx]; [lia|].
  rewrite (nth_lookup_Some _ _ _ (block x)) by (by rewrite list_lookup_fmap, Hx).
  assert (b = x) as <- by (unfold b; by apply nth_lookup_Some). assert (0 <= b * bsize) by (apply Z.mul_nonneg_nonneg; lia).
  unfold block, blk. by rewrite slice_slice by lia.
Qed.

(** the blocks of an item, as far as they go and as far as is asked for *)
Lemma read_indirect_ok item ptrs : ∀ fuel offset buf at_ len s,
  let size := Z.of_nat (length ptrs) * bsize in let m := Z.min (size - offset) len in let p := pos (r_file s) in
  info s = v → on_device disk inv s →
  (∀ k, 0 <= k < Z.of_nat (length ptrs) → le32_at (fsys s) (item + k * 4) = nth (Z.to_nat k) ptrs 0) →
  item + Z.of_nat (length ptrs) * 4 <= FSYSREISER_CACHE_SIZE →
  Forall (on_disk data (Reiserfs.partition_offset v) bsize) ptrs →
  size < 4294967296 → 0 <= offset <= size → 0 < len → 0 <= at_ → at_ + len <= Z.of_nat (length buf) →
  0 <= p → p + len < 18446744073709551616 → Z.of_nat (length ptrs) - offset / bsize <= Z.of_nat fuel →
  ∃ f, read_indirect fuel item offset size buf at_ len s =
      (Ok (store buf at_ (slice (concat (block <$> ptrs)) offset m), at_ + m, len - m), read_on s f (p + m)) ∧ inv f.
Proof.
  pose proof bsize_range as [HB HB3]. change FSYSREISER_CACHE_SIZE with 28672 in *.
  induction fuel as [|fuel IH]; intros offset buf at_ len s size m p Hv Hdev Hptr Hroom Hon Hsize Hoff Hlen Hat Hbuf Hp Hpl Hfuel;
    (destruct (Z.le_gt_cases size offset) as [Hend|Hin];
     [assert (m = 0) as -> by lia; exists (r_fw s); split; [|apply Hdev]; cbn [read_indirect];
      rewrite (proj2 (Z.leb_le _ _) Hend), !Z.add_0_r, Z.sub_0_r, read_on_same; by rewrite store_nil|]).
  - pose proof (Z.mul_div_le offset bsize ltac:(lia)). nia.
  - cbn [read_indirect]. rewrite (proj2 (Z.leb_gt _ _) Hin), !gets_bind, Hv.
    destruct (split_offset offset) as (Hdm & Hmod & -> & ->); [lia|]. set (k := offset / bsize) in *. set (o := offset mod bsize) in *.
    assert (0 <= k < Z.of_nat (length ptrs)) as Hk by (unfold size in Hin, Hoff; clear -Hin Hoff Hdm Hmod HB; nia).
    assert (bsize * k + bsize <= size) as Hksize by (unfold size; clear -Hk HB; nia).
    change FSYSREISER_CACHE_SIZE with 28672. rewrite (proj2 (Z.ltb_ge 28672 _)) by lia. rewrite Hptr by done.
    fold bsize. set (n := Z.min (bsize - o) len).
    destruct (pointer_read ptrs s offset n Hv Hdev Hon) as (f1 & E1 & Hf1); [fold size; lia|lia|fold o; lia|].
    fold k o in E1. rewrite (bind_ok _ _ _ _ _ E1). clear E1.
    set (part := slice (concat (block <$> ptrs)) offset n).
    assert (Z.of_nat (length part) = n) as Hpart.
    { unfold part. rewrite length_slice; [lia|lia|lia|].
      rewrite (length_concat bsize) by (by apply blocks_length). rewrite length_fmap. fold size. lia. }
    rewrite (bind_ok _ _ _ _ _ (buffer_put buf at_ part (Reiserfs.with_fw s f1) Hat ltac:(lia))).
    rewrite (bind_ok _ _ _ _ _ (advance_ok s f1 n ltac:(fold p; lia))). fold p.
    destruct (Z.eqb_spec (len - n) 0) as [Hdone|Hmore].
    + assert (m = n) as -> by lia. exists f1. split; [|done]. by rewrite Hdone.
    + assert (n = bsize - o) as En by lia. rewrite u32_small by lia.
      assert ((offset + n) / bsize = k + 1) as Ek by (symmetry; apply (Z.div_unique _ _ _ 0); lia).
      destruct (IH (offset + n) (store buf at_ part) (at_ + n) (len - n) (read_on s f1 (p + n))) as (f2 & E2 & Hf2);
        [done|by split; [apply Hdev|]|done|done|done|done|fold size; lia|lia|lia|rewrite length_store; lia|cbn; lia|cbn; lia|
         rewrite Ek; lia|].
      exists f2. split; [|done]. fold size in E2. rewrite E2. set (m' := Z.min (size - (offset + n)) (len - n)).
      assert (m = n + m') as Em by lia. rewrite <- Hpart at 1. rewrite store_store by lia.
      unfold part. rewrite <- slice_app by lia. rewrite Em. change (pos (r_file (read_on s f1 (p + n)))) with (p + n).
      replace (at_ + n + m') with (at_ + (n + m')) by lia. replace (len - n - m') with (len - (n + m')) by lia.
      replace (p + n + m') with (p + (n + m')) by lia. reflexivity.
Qed.
(** the item the cursor stands at, in the cache and on the disk *)
Record at_item s (x : Z * Z) : Prop := AtItem {
  at_info : info s = v;
  at_device : on_device disk inv s;
  at_leaf : slice (fsys s) (LEAF v) bsize = block x.1;
  at_block : Z.of_nat (length (block x.1)) = bsize;
  at_room : Z.of_nat (length (fsys s)) = FSYSREISER_CACHE_SIZE;
  at_head : current_ih (cur s) = Some (ITEMHEAD v x.2);
  at_place : current_item (cur s) = LEAF v + item_location data v x;
  at_object : k_objectid (fsys s) (ITEMHEAD v x.2) = item_object data v x;
  at_offset : IH_KEY_OFFSET v (fsys s) (ITEMHEAD v x.2) = item_offset data v x;
  at_len : ih_item_len (fsys s) (ITEMHEAD v x.2) = item_len data v x;
  at_direct : is_direct v (fsys s) (ITEMHEAD v x.2) = item_direct data v x;
  at_indirect : is_indirect v (fsys s) (ITEMHEAD v x.2) = item_indirect data v x;
  at_entries : ih_entry_count (fsys s) (ITEMHEAD v x.2) = ih_entry_count (block x.1) (head x);
  at_version : ih_version (fsys s) (ITEMHEAD v x.2) = ih_version (block x.1) (head x);
}.

Lemma stands_at s x rest : stands disk inv data v root s x rest → at_item s x.
Proof.
  destruct x as [l i]. intros ((Hv & Hd & Hl & _) & Hsl & Hi & Hih & Hitem & pend & Ht & _).
  destruct (trail_tree_ok data v depth (cur s) None None root l pend root_ok Ht) as (lo & hi & Hon & _ & Hn & Hroom & _).
  apply blk_length in Hon. destruct (cached_head (fsys s) (l, i) Hsl) as (E1 & E2 & E3 & E4 & E5 & E6 & E7 & E8); cbn [fst snd];
    [lia|unfold IH_SIZE in *; nia|]. cbn [fst snd] in *. rewrite E3 in Hitem. by split.
Qed.

(** bytes of the leaf in the cache *)
Lemma cached32 f l i : slice f (LEAF v) bsize = block l → 0 <= i → i + 4 <= bsize →
  le32_at f (LEAF v + i) = le32_at (block l) i.
Proof. intros Hf Hi Hin. unfold le32_at. rewrite <- Z.add_assoc, !(cached16 _ l) by (done || lia). done. Qed.

Lemma cached_slice f l i n : slice f (LEAF v) bsize = block l → 0 <= i → 0 <= n → i + n <= bsize →
  slice f (LEAF v + i) n = slice (block l) i n.
Proof.
  intros <- Hi Hn Hin. pose proof bsize_range. rewrite slice_slice; [done| |done|done|done].
  unfold LEAF, CACHE, BLKH_LEVEL_LEAF. fold bsize. lia.
Qed.

Lemma leaf_end : 0 <= LEAF v ∧ LEAF v + bsize < FSYSREISER_CACHE_SIZE.
Proof. pose proof bsize_range. unfold LEAF, CACHE, BLKH_LEVEL_LEAF. fold bsize. lia. Qed.

Lemma length_item_bytes x : Z.of_nat (length (block x.1)) = bsize → body_item data v x →
  Z.of_nat (length (item_bytes data v x)) =
    if item_direct data v x then item_len data v x else item_len data v x / 4 * bsize.
Proof.
  intros Hb [(H1 & H2 & H3) Hk]. fold bsize in H3. unfold item_bytes. destruct Hk as [->|(-> & -> & Hp)].
  - fold bsize. fold (block x.1). rewrite length_slice; lia.
  - rewrite (length_concat bsize) by (by apply blocks_length). rewrite length_fmap. unfold item_pointers.
    rewrite length_fmap, length_seqZ. rewrite Z2Nat.id; [done|]. apply Z.div_pos; lia.
Qed.

Lemma direct_not_indirect f p : is_direct v f p = true → is_indirect v f p = false.
Proof. unfold is_direct, is_indirect. destruct (first_version v f p); by intros ->%Z.eqb_eq. Qed.

(** the item the cursor stands at, of a body that reached [o], read from the position on if
    that is in it *)
Section item.
Context (fuel : nat) (s : rst F) (x : Z * Z) (o : Z) (buf : list Z) (at_ len : Z).
Context (Hx : at_item s x) (Hinside : item_inside data v x) (Hoff : item_offset data v x = o + 1).

Let p := pos (r_file s).
Let n := Z.of_nat (length (item_bytes data v x)).
Let m := Z.min (o + n - p) len.

Context (Ho : 0 <= o <= p) (Hpo : p - o < 4294967296) (Hlen : 0 < len) (Hpl : p + len < 18446744073709551616)
  (Hat : 0 <= at_) (Hbuf : at_ + len <= Z.of_nat (length buf)) (Hfuel : bsize <= Z.of_nat fuel).

Definition item_read : Prop :=
  if p <? o + n
  then ∃ f, read_item fuel (ITEMHEAD v x.2) buf at_ len s =
    (Ok (Some (store buf at_ (slice (item_bytes data v x) (p - o) m), at_ + m, len - m)), read_on s f (p + m)) ∧ inv f
  else read_item fuel (ITEMHEAD v x.2) buf at_ len s = (Ok None, s).

Lemma read_direct : item_direct data v x = true → item_read.
Proof.
  intros Hd. unfold item_read. pose proof leaf_end as [HL0 HL]. pose proof Hinside as (H1 & H2 & H3). fold bsize in H3.
  pose proof (length_item_bytes x (at_block _ _ Hx) (conj Hinside (or_introl Hd))) as Hn. fold n in Hn. rewrite Hd in Hn.
  unfold read_item. rewrite !gets_bind. rewrite (at_info _ _ Hx), (at_offset _ _ Hx), (at_len _ _ Hx), (at_direct _ _ Hx),
    (at_indirect _ _ Hx), (at_place _ _ Hx), Hoff, Hd. fold p.
  replace (p - (o + 1) + 1) with (p - o) by lia. rewrite u32_small by lia. unfold item_bytes. rewrite Hd. cbn [andb].
  destruct (Z.ltb_spec (p - o) (item_len data v x)) as [Hin|Hend].
  2:{ rewrite (proj2 (Z.ltb_ge p (o + n))) by lia. by rewrite (direct_not_indirect _ _ Hd : item_indirect data v x = false). }
  rewrite (proj2 (Z.ltb_lt p (o + n))) by lia. replace (item_len data v x - (p - o)) with (o + n - p) by lia. fold m.
  rewrite (proj2 (Z.ltb_ge FSYSREISER_CACHE_SIZE _)) by lia.
  rewrite <- Z.add_assoc. rewrite (cached_slice _ _ _ _ (at_leaf _ _ Hx)) by lia.
  assert (slice (block x.1) (item_location data v x + (p - o)) m = slice (slice (block x.1) (item_location data v x) (item_len data v x)) (p - o) m) as ->
    by (by rewrite slice_slice by lia).
  set (part := slice (slice _ _ _) _ m).
  assert (Z.of_nat (length part) = m) as Hpart.
  { unfold part. rewrite length_slice; [lia|lia|lia|]. pose proof (at_block _ _ Hx). rewrite length_slice; lia. }
  rewrite (bind_ok _ _ _ _ _ (buffer_put buf at_ part s Hat ltac:(lia))).
  exists (r_fw s). split; [|apply (at_device _ _ Hx)].
  rewrite (bind_ok _ _ _ tt (read_on s (r_fw s) (p + m))); [done|].
  replace (advance_pos m s) with (advance_pos m (Reiserfs.with_fw s (r_fw s))) by (f_equal; by destruct s).
  apply advance_ok. fold p. lia.
Qed.

Lemma read_pointers : item_direct data v x = false → item_indirect data v x = true →
  Forall (on_disk data (Reiserfs.partition_offset v) bsize) (item_pointers data v x) → item_read.
Proof.
  intros Hd Hi Hptr. unfold item_read. pose proof leaf_end as [HL0 HL]. pose proof bsize_range as [HB HB3].
  pose proof Hinside as (H1 & H2 & H3). fold bsize in H3.
  pose proof (length_item_bytes x (at_block _ _ Hx) (conj Hinside (or_intror (conj Hd (conj Hi Hptr))))) as Hn.
  fold n in Hn. rewrite Hd in Hn.
  unfold read_item. rewrite !gets_bind. rewrite (at_info _ _ Hx), (at_offset _ _ Hx), (at_len _ _ Hx), (at_direct _ _ Hx),
    (at_indirect _ _ Hx), (at_place _ _ Hx), Hoff, Hd, Hi. fold p.
  replace (p - (o + 1) + 1) with (p - o) by lia. rewrite u32_small by lia. unfold item_bytes. rewrite Hd, Hi. cbn [andb].
  set (ptrs := item_pointers data v x) in *.
  assert (0 <= item_len data v x / 4 <= bsize) as Hq by (split; [apply Z.div_pos; lia|apply Z.div_le_upper_bound; lia]).
  assert (Z.of_nat (length ptrs) = item_len data v x / 4) as Hpl0
    by (unfold ptrs, item_pointers; rewrite length_fmap, length_seqZ; lia).
  assert (n <= 28672 * 28672) as Hn2 by (change FSYSREISER_CACHE_SIZE with 28672 in HB3; rewrite Hn; clear -Hq HB HB3; nia).
  assert (u32 (Z.shiftl (Z.shiftr (item_len data v x) 2) (blocksize_shift v)) = n) as ->.
  { rewrite Z.shiftl_mul_pow2, Z.shiftr_div_pow2 by lia. change (2 ^ 2) with 4. destruct shift_ok as [_ <-]. fold bsize.
    rewrite <- Hn. apply u32_small. lia. }
  destruct (Z.leb_spec n (p - o)) as [Hend|Hin]; [by rewrite (proj2 (Z.ltb_ge p (o + n))) by lia|].
  rewrite (proj2 (Z.ltb_lt p (o + n))) by lia.
  destruct (read_indirect_ok (LEAF v + item_location data v x) ptrs fuel (p - o) buf at_ len s) as (f & E & Hf).
  - apply (at_info _ _ Hx).
  - apply (at_device _ _ Hx).
  - intros k Hk. rewrite <- Z.add_assoc. pose proof (Z.mul_div_le (item_len data v x) 4 ltac:(lia)).
    rewrite (cached32 _ x.1) by (apply (at_leaf _ _ Hx) || lia). symmetry. apply nth_lookup_Some.
    unfold ptrs, item_pointers. rewrite list_lookup_fmap, lookup_seqZ_lt by lia. cbn. fold bsize. fold (block x.1).
    do 2 f_equal. lia.
  - rewrite Hpl0. pose proof (Z.mul_div_le (item_len data v x) 4 ltac:(lia)). lia.
  - exact Hptr.
  - rewrite Hpl0, <- Hn. lia.
  - rewrite Hpl0, <- Hn. lia.
  - done.
  - done.
  - done.
  - lia.
  - done.
  - assert (0 <= (p - o) / bsize) by (apply Z.div_pos; lia). lia.
  - exists f. split; [|done]. rewrite Hpl0, <- Hn in E. replace (n - (p - o)) with (o + n - p) in E by lia. fold p m in E.
    by rewrite (bind_ok _ _ _ _ _ E).
Qed.

Lemma read_item_ok : body_item data v x → item_read.
Proof. intros [_ [Hd|(Hd & Hi & Hptr)]]; [by apply read_direct|by apply read_pointers]. Qed.
End item.

Context (shallow : tree_depth v <= cached_slots v)
  (leaves_ok : Forall (λ l, 0 < nr l) (leaves data (Reiserfs.partition_offset v) bsize depth root)).
Notation stands := (stands disk inv data v root).

(** the next item of the tree, when there is one *)
Lemma next_item fuel s x y ys : bsize <= Z.of_nat fuel → stands s x (y :: ys) →
  ∃ s', next_key stack fuel s = (Ok true, s') ∧ keeps s s' ∧ stands s' y ys.
Proof.
  intros Hf Hs. pose proof bsize_range as [HB _]. unfold REISERFS_MAX_TREE_HEIGHT in depth_ok.
  exact (next_key_ok disk inv data data_bounded stack v root fits no_journal offset_nonneg depth_ok root_ok fuel s x (y :: ys)
    shallow ltac:(lia) leaves_ok Hs).
Qed.

(** what a read changes: the position, and the place in the tree *)
Definition has_read s s' (p : Z) : Prop :=
  r_file s' = set_pos p (r_file s) ∧ open_buffer s' = open_buffer s ∧ file_dir_id (cur s') = file_dir_id (cur s) ∧
  file_objectid (cur s') = file_objectid (cur s) ∧ errnum s' = 0.

Lemma has_read_next s s1 s2 s' f p q : s1 = read_on s f p → keeps s1 s2 → has_read s2 s' q → has_read s s' q.
Proof.
  intros -> (A1 & B1 & C1 & D1 & _) (A2 & B2 & C2 & D2 & E2). split_and!; [|by rewrite B2|by rewrite C2|by rewrite D2|done].
  rewrite A2, A1. done.
Qed.

Lemma body_bytes_cons x xs : body_bytes data v (x :: xs) = item_bytes data v x ++ body_bytes data v xs.
Proof. done. Qed.

Lemma loop_read objectid after : ∀ xs x o fuel buf at_ len s, let p := pos (r_file s) in
  stands s x (xs ++ after) → body data v objectid o (x :: xs) → file_objectid (cur s) = objectid → errnum s = 0 →
  0 <= o <= p → 0 < len → p + len <= o + Z.of_nat (length (body_bytes data v (x :: xs))) → p + len <= INT_MAX → 0 <= at_ →
  at_ + len <= Z.of_nat (length buf) → bsize + Z.of_nat (length xs) < Z.of_nat fuel →
  ∃ s', read_loop stack fuel buf at_ len s =
      (Ok (store buf at_ (slice (body_bytes data v (x :: xs)) (p - o) len), at_ + len), s') ∧
    has_read s s' (p + len) ∧ ∃ y ys, stands s' y ys.
Proof.
  induction xs as [|y xs IH]; intros x o fuel buf at_ len s p Hst (Hobj & Hoff & Hitem & Hbody) Hfo He Ho Hlen Hend Hmax Hat
    Hbuf Hfuel; (destruct fuel as [|fuel]; [lia|]); pose proof (stands_at _ _ _ Hst) as Hx; change INT_MAX with 2147483647 in Hmax;
    cbn [read_loop]; rewrite !gets_bind, He, (at_head _ _ Hx); cbn [Z.eqb negb];
    rewrite (at_object _ _ Hx), Hobj, Hfo, Z.eqb_refl; cbn [negb];
    pose proof (read_item_ok (S fuel) s x o buf at_ len Hx (proj1 Hitem) Hoff ltac:(fold p; lia) ltac:(fold p; lia) Hlen ltac:(fold p; lia) Hat Hbuf
      ltac:(lia) Hitem) as Hr; unfold item_read in Hr; fold p in Hr; rewrite body_bytes_cons in Hend |- *; rewrite length_app in Hend; cbn [length] in Hfuel;
    set (n := Z.of_nat (length (item_bytes data v x))) in *; set (m := Z.min (o + n - p) len) in *.
  - change (body_bytes data v []) with (@nil Z) in *. cbn [length] in Hend. rewrite app_nil_r.
    rewrite (proj2 (Z.ltb_lt p (o + n))) in Hr by lia. destruct Hr as (f & E & Hf). rewrite (bind_ok _ _ _ _ _ E).
    assert (m = len) as -> by lia. rewrite Z.sub_diag. eexists. split; [reflexivity|].
    split; [by split_and!|]. eexists _, _. by apply (stands_read_on _ _ _ _ _ Hst).
  - destruct (Z.ltb_spec p (o + n)) as [Hin|Hpast].
    + destruct Hr as (f & E & Hf). rewrite (bind_ok _ _ _ _ _ E). pose proof (stands_read_on _ _ _ f (p + m) Hst Hf) as Hst1.
      set (s1 := read_on s f (p + m)) in *. destruct (Z.eqb_spec (len - m) 0) as [Hdone|Hmore].
      * assert (m = len) as Em by lia. eexists. split; [rewrite Em, slice_app_l by lia; reflexivity|].
        split; [by split_and!; [unfold s1; rewrite Em|..]|]. by eexists _, _.
      * destruct (next_item (S fuel) s1 x y (xs ++ after) ltac:(lia) Hst1) as (s2 & E2 & Hk2 & Hst2).
        rewrite (bind_ok _ _ _ _ _ E2). pose proof Hk2 as (A & _ & _ & D & B).
        assert (pos (r_file s2) = p + m) as Ep by (by rewrite A).
        assert (Z.of_nat (length (slice (item_bytes data v x) (p - o) m)) = m) as Hl by (rewrite length_slice; lia).
        destruct (IH y (o + n) fuel (store buf at_ (slice (item_bytes data v x) (p - o) m)) (at_ + m) (len - m) s2 Hst2 Hbody)
          as (s' & E3 & Hread & Hst3); rewrite ?Ep; [by rewrite D|by apply B|lia|lia|lia|unfold INT_MAX; lia|lia|rewrite length_store; lia|lia|].
        rewrite Ep in E3, Hread. exists s'. split; [|split; [|done]].
        -- rewrite E3. set (part := slice (item_bytes data v x) (p - o) m) in *.
           assert (slice (item_bytes data v x ++ body_bytes data v (y :: xs)) (p - o) len =
             part ++ slice (body_bytes data v (y :: xs)) (p + m - (o + n)) (len - m)) as ->.
           { replace len with (m + (len - m)) at 1 by lia. rewrite slice_app by lia. rewrite slice_app_l by lia. f_equal.
             replace (p - o + m) with (n + (p + m - (o + n))) by lia. unfold n. by rewrite slice_app_r by lia. }
           replace (at_ + m) with (at_ + Z.of_nat (length part)) by lia. rewrite store_store by lia. rewrite Hl.
           by replace (at_ + m + (len - m)) with (at_ + len) by lia.
        -- replace (p + m + (len - m)) with (p + len) in Hread by lia. by eapply has_read_next.
    + rewrite (bind_ok _ _ _ _ _ Hr).
      destruct (next_item (S fuel) s x y (xs ++ after) ltac:(lia) Hst) as (s2 & E2 & Hk2 & Hst2).
      rewrite (bind_ok _ _ _ _ _ E2). pose proof Hk2 as (A & _ & _ & D & B).
      assert (pos (r_file s2) = p) as Ep by (by rewrite A).
      destruct (IH y (o + n) fuel buf at_ len s2 Hst2 Hbody)
        as (s' & E3 & Hread & Hst3); rewrite ?Ep; [by rewrite D|by apply B|lia|lia|lia|unfold INT_MAX; lia|lia|lia|lia|].
      rewrite Ep in E3, Hread. exists s'. split; [|split; [|done]].
      * rewrite E3. do 4 f_equal. replace (p - o) with (n + (p - (o + n))) by lia. unfold n. by rewrite slice_app_r by lia.
      * eapply (has_read_next s s); [|exact Hk2|exact Hread]. symmetry. apply read_on_same.
Qed.

(** ** Objects

    The stat data of an object and its other items, which lie together. *)

Definition stat_key (x : Z * Z) : tkey := leaf_key data (Reiserfs.partition_offset v) bsize x.1 x.2.

Definition object_at (dir_id objectid : Z) (st : Z * Z) (xs after : list (Z * Z)) : Prop :=
  (∃ before, items data v root = before ++ (st :: xs) ++ after ∧ Forall (λ y, item_object data v y ≠ objectid) before) ∧
  Forall (λ y, item_object data v y ≠ objectid) after ∧
  stat_key st = (dir_id, objectid, 0) ∧
  Forall (λ y, item_object data v y = objectid ∧ stat_key y ≠ (dir_id, objectid, 0)) xs.

Lemma object_place s y ys dir_id objectid st xs after : object_at dir_id objectid st xs after → stands s y ys →
  item_object data v y = objectid → (y = st ∧ ys = xs ++ after) ∨ ∃ pre suf, xs = pre ++ y :: suf ∧ ys = suf ++ after.
Proof.
  intros ((before & E & Hb) & Ha & _ & _) Hs Hy. destruct (stands_items _ _ _ _ _ _ _ _ Hs) as [before' E'].
  rewrite E in E'. destruct (in_middle (λ z, item_object data v z = objectid) after y ys Ha Hy _ _ _ Hb E') as (m1 & m2 & Em & ->).
  destruct m1 as [|z m1]; injection Em as -> ->; [by left|right; by eexists _, _].
Qed.

Lemma stat_object x dir_id objectid : stat_key x = (dir_id, objectid, 0) →
  item_object data v x = objectid ∧ item_offset data v x = 0 ∧ item_direct data v x = false ∧ item_indirect data v x = false.
Proof.
  unfold stat_key, leaf_key, key_at. intros [= _ Ho Hk]. apply Z.lor_eq_0_iff in Hk as [H1 H2].
  unfold item_object, item_offset, item_direct, item_indirect, IH_KEY_OFFSET, is_direct, is_indirect, offset_v2_k_offset,
    offset_v2_k_type, le64_at, head. fold bsize. split; [exact Ho|].
  unfold k_offset, k_uniqueness in *.
  rewrite <- (Z.add_assoc _ 8 4). change (8 + 4) with 12. rewrite H1, H2.
  by destruct (first_version v _ _).
Qed.

(** searching an object leads to its stat data *)
Lemma search_object fuel s dir_id objectid st xs after : bsize <= Z.of_nat fuel → coherent disk inv data v root s →
  object_at dir_id objectid st xs after →
  ∃ s', search_stat stack fuel dir_id objectid s = (Ok true, s') ∧ keeps (Reiserfs.with_errnum s 0) s' ∧ stands s' st (xs ++ after).
Proof.
  intros Hfuel Hs Hobj. pose proof bsize_range as [HB _]. pose proof Hobj as ((before & E & _) & _ & Hst & Hxs).
  unfold REISERFS_MAX_TREE_HEIGHT in depth_ok.
  assert (in_tree data (Reiserfs.partition_offset v) bsize depth root (dir_id, objectid, 0)) as Hin.
  { assert (st ∈ items data v root) as Hel by (rewrite E; set_solver). unfold items in Hel.
    apply list_elem_of_bind in Hel as (l & Hx & Hl). unfold items_of in Hx. apply list_elem_of_fmap in Hx as (i & -> & Hi).
    apply elem_of_seqZ in Hi. apply (in_leaves _ _ _ _ _ _ l Hl). apply in_leaf. exists i. split; [|exact Hst].
    rewrite Z.add_0_l in Hi. exact Hi. }
  destruct (search_stat_ok disk inv data data_bounded stack v root fits no_journal offset_nonneg depth_ok root_ok fuel dir_id objectid s
    Hs ltac:(lia)) as (s' & E1 & Hr). fold bsize depth in E1, Hr.
  rewrite bool_decide_true in E1 by done. destruct (decide _) as [_|]; [|done].
  destruct Hr as ((l & i & rest & Hst' & Hk) & Hkeep). exists s'. split; [done|]. split; [done|].
  assert (stat_key (l, i) = (dir_id, objectid, 0)) as Hk' by done. destruct (stat_object _ _ _ Hk') as (Ho & _).
  destruct (object_place _ _ _ _ _ _ _ _ Hobj Hst' Ho) as [[<- ->]|(pre & suf & -> & _)]; [done|].
  exfalso. apply Forall_app in Hxs as [_ Hxs]. apply Forall_cons_iff in Hxs as [[_ Hne] _]. done.
Qed.

(** ** Files *)

(** [file] is open: the reader knows its object and stands somewhere in the tree *)
Definition file_open (dir_id objectid : Z) s : Prop :=
  file_dir_id (cur s) = dir_id ∧ file_objectid (cur s) = objectid ∧ ∃ y ys, stands s y ys.

Lemma body_app objectid pre y suf : ∀ o, body data v objectid o (pre ++ y :: suf) →
  body data v objectid (o + Z.of_nat (length (body_bytes data v pre))) (y :: suf).
Proof.
  induction pre as [|x pre IH]; intros o; [by rewrite Z.add_0_r|]. intros (_ & _ & _ & Hb). apply IH in Hb.
  rewrite body_bytes_cons, length_app, Nat2Z.inj_add, Z.add_assoc. exact Hb.
Qed.

Lemma body_bytes_app xs ys : body_bytes data v (xs ++ ys) = body_bytes data v xs ++ body_bytes data v ys.
Proof. unfold body_bytes. by rewrite fmap_app, concat_app. Qed.

(** an item that is not data is passed over *)
Lemma read_item_none fuel s x buf at_ len : at_item s x → item_direct data v x = false → item_indirect data v x = false →
  read_item fuel (ITEMHEAD v x.2) buf at_ len s = (Ok None, s).
Proof.
  intros Hx Hd Hi. unfold read_item. by rewrite !gets_bind, (at_info _ _ Hx), (at_direct _ _ Hx), (at_indirect _ _ Hx), Hd, Hi.
Qed.

(** on from the stat data of a file, the position being anywhere in it *)
Lemma read_from_stat objectid st x xs after fuel fuel' s buf len : let p := pos (r_file s) in
  stands s st ((x :: xs) ++ after) → body data v objectid 0 (x :: xs) → file_objectid (cur s) = objectid →
  errnum s = 0 → 0 <= p → 0 < len → p + len <= Z.of_nat (length (body_bytes data v (x :: xs))) → p + len <= INT_MAX →
  len <= Z.of_nat (length buf) → bsize <= Z.of_nat fuel → bsize + Z.of_nat (length xs) < Z.of_nat fuel' →
  ∃ s1 s', next_key stack fuel s = (Ok true, s1) ∧
    read_loop stack fuel' buf 0 len s1 = (Ok (store buf 0 (slice (body_bytes data v (x :: xs)) p len), len), s') ∧
    has_read s s' (p + len) ∧ ∃ y ys, stands s' y ys.
Proof.
  intros p Hst Hbody Hfo He Hp Hlen Hin Hmax Hbuf Hfuel Hfuel'.
  destruct (next_item fuel s st x (xs ++ after) Hfuel Hst) as (s1 & E1 & Hk & Hst1).
  pose proof Hk as (A & _ & _ & D & B). assert (pos (r_file s1) = p) as Ep by (by rewrite A).
  destruct (loop_read objectid after xs x 0 fuel' buf 0 len s1 Hst1 Hbody) as (s' & E & Hr & Hpl); rewrite ?Ep;
    [by rewrite D|by apply B|lia|lia|lia|lia|lia|lia|lia|].
  rewrite Ep, Z.sub_0_r in E. rewrite Ep in Hr. exists s1, s'. split; [done|]. split; [exact E|]. split; [|done].
  eapply (has_read_next s s); [|exact Hk|exact Hr]. symmetry. apply read_on_same.
Qed.

(** the places a read can start from: elsewhere, from where the stat data are searched
    again, the stat data themselves, or an item of the file *)
Section data_reading.
Context (dir_id objectid : Z) (st : Z * Z) (x : Z * Z) (xs after : list (Z * Z)) (fuel : nat) (s : rst F) (buf : list Z) (n : Z).
Let p := pos (r_file s).
Let whole := body_bytes data v (x :: xs).
Context (Hobj : object_at dir_id objectid st (x :: xs) after) (Hbody : body data v objectid 0 (x :: xs))
  (Ho : file_objectid (cur s) = objectid) (He : errnum s = 0) (Hp : 0 <= p) (Hn : 0 < n)
  (Hin : p + n <= Z.of_nat (length whole)) (Hmax : p + n <= INT_MAX) (Hbuf : n <= Z.of_nat (length buf))
  (Hfuel : bsize + Z.of_nat (S (length xs)) + 1 < Z.of_nat fuel).

Definition loop_reads s1 : Prop :=
  ∃ s', read_loop stack fuel buf 0 n s1 = (Ok (store buf 0 (slice whole p n), n), s') ∧ has_read s s' (p + n) ∧ ∃ y ys, stands s' y ys.

Lemma read_searched y ys : stands s y ys →
  ∃ s1 s2, search_stat stack fuel dir_id objectid s = (Ok true, s1) ∧ next_key stack fuel s1 = (Ok true, s2) ∧ loop_reads s2.
Proof.
  intros Hst.
  destruct (search_object fuel s dir_id objectid st (x :: xs) after ltac:(lia)) as (s1 & E1 & Hk1 & Hst1);
    [by destruct y; apply Hst|done|].
  pose proof Hk1 as (A1 & B1 & C1 & D1 & F1). assert (pos (r_file s1) = p) as Ep1 by (by rewrite A1).
  destruct (read_from_stat objectid st x xs after fuel fuel s1 buf n) as (s2 & s' & E2 & E3 & Hr & Hpl);
    rewrite ?Ep1; [done|done|by rewrite D1|by apply F1|done|done|done|done|done|lia|lia|].
  rewrite Ep1 in E3, Hr. exists s1, s2. split; [done|]. split; [done|]. exists s'. split; [done|]. split; [|done].
  destruct Hr as (A2 & B2 & C2 & D2 & F2).
  split_and!; [by rewrite A2, A1|by rewrite B2, B1|by rewrite C2, C1|by rewrite D2, D1|done].
Qed.

Lemma read_at_stat : stands s st ((x :: xs) ++ after) → loop_reads s.
Proof.
  intros Hst. destruct Hobj as (_ & _ & Hk & _). destruct (stat_object _ _ _ Hk) as (Hobject & _ & Hd0 & Hi0).
  unfold loop_reads. destruct fuel as [|fuel']; [lia|].
  destruct (read_from_stat objectid st x xs after (S fuel') fuel' s buf n) as (s2 & s' & E2 & E3 & Hr & Hpl);
    try fold p; [done|done|done|done|done|done|done|done|done|lia|lia|].
  exists s'. split; [|done]. cbn [read_loop]. rewrite !gets_bind.
  pose proof (stands_at _ _ _ Hst) as Hy. rewrite (at_head _ _ Hy), (at_object _ _ Hy), He, Ho, Hobject.
  cbn [Z.eqb negb]. rewrite Z.eqb_refl. cbn [negb].
  rewrite (bind_ok _ _ _ _ _ (read_item_none (S fuel') s st buf 0 n Hy Hd0 Hi0)), (bind_ok _ _ _ _ _ E2). exact E3.
Qed.

Lemma read_inside pre y suf : x :: xs = pre ++ y :: suf → stands s y (suf ++ after) → item_offset data v y <= p + 1 → loop_reads s.
Proof.
  intros Exs Hst Hle. pose proof Hbody as Hb. rewrite Exs in Hb. apply body_app in Hb. rewrite Z.add_0_l in Hb.
  set (o := Z.of_nat (length (body_bytes data v pre))) in *. pose proof Hb as (_ & Hoff & _).
  assert (whole = body_bytes data v pre ++ body_bytes data v (y :: suf)) as Ew by (unfold whole; by rewrite Exs, body_bytes_app).
  pose proof (f_equal (@length _) Ew) as Etot. rewrite length_app in Etot.
  pose proof (f_equal (@length _) Exs) as El. rewrite length_app in El. cbn [length] in El. unfold INT_MAX in Hmax.
  destruct (loop_read objectid after suf y o fuel buf 0 n s Hst Hb) as (s' & E3 & Hr & Hpl);
    fold p; [done|done|lia|done|lia|unfold INT_MAX; lia|lia|lia|lia|].
  exists s'. split; [|done]. fold p in E3. rewrite E3. do 4 f_equal. rewrite Ew. replace p with (o + (p - o)) at 2 by lia.
  unfold o. by rewrite slice_app_r by lia.
Qed.
End data_reading.

Lemma data_read dir_id objectid st xs after fuel s buf n : let p := pos (r_file s) in
  object_at dir_id objectid st xs after → body data v objectid 0 xs → file_open dir_id objectid s →
  0 <= p → 0 < n → p + n <= Z.of_nat (length (body_bytes data v xs)) → p + n <= INT_MAX → n <= Z.of_nat (length buf) →
  bsize + Z.of_nat (length xs) + 1 < Z.of_nat fuel →
  ∃ s', reiserfs_read_data stack fuel buf n s = (Ok (n, store buf 0 (slice (body_bytes data v xs) p n)), s') ∧
    has_read s s' (p + n) ∧ file_open dir_id objectid s'.
Proof.
  intros p Hobj Hbody (Hd & Ho & y & ys & Hst) Hp Hn Hin Hmax Hbuf Hfuel.
  destruct xs as [|x xs]; [cbn in Hin; lia|]. cbn [length] in Hfuel.
  pose proof (stands_at _ _ _ Hst) as Hy. set (s0 := Reiserfs.with_errnum s 0).
  assert (stands s0 y ys) as Hst0 by (by destruct y).
  unfold reiserfs_read_data. rewrite (bind_ok _ _ _ tt s0) by done. rewrite !gets_bind.
  change (info s0) with (info s). change (cur s0) with (cur s). change (fsys s0) with (fsys s). change (r_file s0) with (r_file s).
  rewrite (at_info _ _ Hy), (at_head _ _ Hy), (at_object _ _ Hy), (at_offset _ _ Hy), Ho, Hd. fold p.
  rewrite u64_small by (unfold INT_MAX in Hmax; lia).
  match goal with |- context [(if ?c then ?a else mret tt)] => set (lost := c); set (look := a) end.
  assert (∃ s1, (if lost then look else mret tt) s0 = (Ok tt, s1) ∧ loop_reads x xs fuel s0 buf n s1)
    as (s1 & E1 & s' & E2 & Hread & Hst').
  { destruct lost eqn:Elost.
    - destruct (read_searched dir_id objectid st x xs after fuel s0 buf n Hobj Hbody Ho Hp Hn Hin Hmax Hbuf Hfuel y ys Hst0)
        as (s1 & s2 & E1 & E2 & Hl). exists s2. split; [|exact Hl]. unfold look. by rewrite (bind_ok _ _ _ _ _ E1), (bind_ok _ _ _ _ _ E2).
    - exists s0. split; [done|]. unfold lost in Elost. apply orb_false_iff in Elost as [Eo%negb_false_iff%Z.eqb_eq Ep%Z.ltb_ge].
      destruct (object_place _ _ _ _ _ _ _ _ Hobj Hst0 Eo) as [[-> ->]|(pre & suf & Exs & ->)].
      + by eapply (read_at_stat dir_id objectid st x xs after).
      + by eapply (read_inside objectid x xs after fuel s0 buf n). }
  change (r_file s0) with (r_file s) in E2, Hread. fold p in E2, Hread.
  exists s'. split; [|split; [exact Hread|]].
  - rewrite (bind_ok _ _ _ _ _ E1), (bind_ok _ _ _ _ _ E2), gets_bind. destruct Hread as (_ & _ & _ & _ & ->).
    cbn [Z.eqb negb]. unfold INT_MAX in Hmax. by rewrite s32_small by (unfold INT_MIN, INT_MAX; lia).
  - destruct Hread as (_ & _ & E3 & E4 & _). split; [by rewrite E3|]. split; [by rewrite E4|done].
Qed.

(** ** Directories *)

(** the loop over the entries of an item in the cache *)
Lemma find_entry_ok comp loc l n : ∀ j e s, slice (fsys s) (LEAF v) bsize = block l →
  Z.of_nat (length (fsys s)) = FSYSREISER_CACHE_SIZE → cstr_ok comp → 0 <= loc → 0 <= j → 0 <= e →
  entries_inside n (block l) bsize loc j e →
  ∃ r, find_entry n (fsys s) (LEAF v + loc) (LEAF v + loc + j * DEH_SIZE) (LEAF v + loc + e) comp s = (Ok r, s) ∧
    match name_lookup comp (item_entries n (block l) loc j e) with
    | Some id => ∃ de, r = Some de ∧ (le32_at (fsys s) (de + 4), le32_at (fsys s) (de + 8)) = id
    | None => r = None
    end.
Proof.
  pose proof leaf_end as [HL0 HL].
  induction n as [|n IH]; intros j e s Hl Hroom Hc Hloc Hj He; [by exists None|]. cbn [entries_inside item_entries find_entry].
  intros (Hde & Hle & Hend & Hname & Hin). unfold DEH_SIZE in *.
  rewrite (proj2 (Z.ltb_ge FSYSREISER_CACHE_SIZE _)), (proj2 (Z.leb_gt FSYSREISER_CACHE_SIZE _)) by lia. cbn [orb].
  assert (∀ c, 0 <= c → c + 2 <= 16 → le16_at (fsys s) (LEAF v + loc + j * 16 + c) = le16_at (block l) (loc + j * 16 + c)) as E16.
  { intros c Hc0 Hc2. rewrite <- !Z.add_assoc. rewrite (cached16 _ l) by (done || lia). f_equal. }
  rewrite !E16 by lia. set (b := block l) in *. set (p := le16_at b (loc + j * 16 + 12)) in *.
  destruct (IH (j + 1) p s Hl Hroom Hc Hloc ltac:(lia) ltac:(lia) Hin) as (r & E & Hr).
  replace (LEAF v + loc + (j + 1) * 16) with (LEAF v + loc + j * 16 + 16) in E by lia.
  destruct (Z.eqb_spec (Z.land (le16_at b (loc + j * 16 + 14)) (Z.shiftl 1 DEH_Visible)) 0) as [Hv|Hv]; cbn [negb]; [by exists r|].
  rewrite entry_name_ok by lia. replace (LEAF v + loc + e - (LEAF v + loc + p)) with (e - p) by lia.
  rewrite <- (Z.add_assoc (LEAF v) loc p), (cached_slice _ l) by (done || lia). fold b.
  rewrite strcmp_eqb by done. cbn [name_lookup]. rewrite Z.add_assoc.
  case_decide as Hd.
  - rewrite bool_decide_true by done. eexists. split; [reflexivity|]. eexists. split; [done|].
    rewrite <- !Z.add_assoc. rewrite !(cached32 _ l) by (done || lia). fold b. done.
  - rewrite bool_decide_false by done. by exists r.
Qed.

Lemma coherent_stands s y ys : stands s y ys → coherent disk inv data v root s.
Proof. destruct y. intros [Hs _]. exact Hs. Qed.

(** the loop over the items of a directory, from the item before them *)
Lemma name_searched objectid comp after : ∀ xs y fuel s, stands s y (xs ++ after) →
  Forall (λ x, item_object data v x = objectid ∧ dir_item data v x) xs →
  Forall (λ x, item_object data v x ≠ objectid) after →
  (after = [] → Forall (λ x, k_objectid (block x.1) 8 ≠ objectid) (y :: xs)) →
  cstr_ok comp → bsize + Z.of_nat (length xs) < Z.of_nat fuel →
  ∃ r s', find_name stack fuel objectid comp s = (Ok (Some r), s') ∧ coherent disk inv data v root s' ∧ keeps s s' ∧
    match name_lookup comp (concat (entries data v <$> xs)) with
    | Some id => ∃ de, r = Some de ∧ (le32_at (fsys s') (de + 4), le32_at (fsys s') (de + 8)) = id
    | None => r = None
    end.
Proof.
  pose proof bsize_range as [HB _]. unfold REISERFS_MAX_TREE_HEIGHT in depth_ok.
  induction xs as [|x xs IH]; intros y fuel s Hst Hxs Hafter Hlast Hc Hfuel; (destruct fuel as [|fuel]; [lia|]); cbn [find_name].
  - destruct (next_key_ok disk inv data data_bounded stack v root fits no_journal offset_nonneg depth_ok root_ok (S fuel) s y after
      shallow ltac:(lia) leaves_ok Hst) as (s1 & E1 & Hk1 & Hr1). rewrite (bind_ok _ _ _ _ _ E1). cbn [negb].
    exists None, s1. rewrite !gets_bind.
    assert (∃ ih, current_ih (cur s1) = Some ih ∧ coherent disk inv data v root s1 ∧ k_objectid (fsys s1) ih ≠ objectid)
      as (ih & Eih & Hs1 & Hne).
    { destruct after as [|a after].
      - destruct Hr1 as (Hs1 & Hl & Eih). exists (LEAF v + 8). split; [done|]. split; [done|].
        specialize (Hlast eq_refl). apply Forall_cons_iff in Hlast as [Hlast _].
        unfold k_objectid in *. rewrite <- Z.add_assoc, (cached32 _ y.1) by (done || lia). done.
      - apply Forall_cons_iff in Hafter as [Ha _]. pose proof (stands_at _ _ _ Hr1) as Hat.
        exists (ITEMHEAD v a.2). split; [apply (at_head _ _ Hat)|]. split; [by eapply coherent_stands|].
        by rewrite (at_object _ _ Hat). }
    rewrite Eih, (proj2 (Z.eqb_neq _ _) Hne). done.
  - destruct (next_item (S fuel) s y x (xs ++ after) ltac:(lia) Hst) as (s1 & E1 & Hk1 & Hst1).
    rewrite (bind_ok _ _ _ _ _ E1). cbn [negb]. rewrite !gets_bind. pose proof (stands_at _ _ _ Hst1) as Hat.
    apply Forall_cons_iff in Hxs as [[Hobj [Hinside Hent]] Hxs]. destruct Hinside as (Hi1 & Hi2 & Hi3).
    rewrite (at_head _ _ Hat), (at_object _ _ Hat), Hobj, Z.eqb_refl. cbn [negb].
    rewrite (at_entries _ _ Hat), (at_len _ _ Hat), (at_place _ _ Hat).
    destruct (find_entry_ok comp (item_location data v x) x.1 (entry_count data v x) 0 (item_len data v x) s1
      (at_leaf _ _ Hat) (at_room _ _ Hat) Hc Hi1 ltac:(lia) Hi2 Hent) as (r & E2 & Hr).
    rewrite Z.mul_0_l, Z.add_0_r in E2. unfold entry_count in E2. fold (block x.1) in E2. rewrite (bind_ok _ _ _ _ _ E2).
    cbn [fmap list_fmap concat]. rewrite name_lookup_app. unfold entries at 1. fold bsize. fold (block x.1).
    destruct (name_lookup comp (item_entries _ (block x.1) _ _ _)) as [id|].
    + destruct Hr as (de & -> & Hid). exists (Some de), s1. split; [done|]. split; [by eapply coherent_stands|]. split; [done|].
      by exists de.
    + rewrite Hr. destruct (IH x fuel s1 Hst1 Hxs Hafter) as (r' & s' & E3 & Hs' & Hk' & Hr'); [|done|cbn [length] in Hfuel; lia|].
      { intros Ha. specialize (Hlast Ha). by apply Forall_cons_iff in Hlast as [_ Hlast]. }
      exists r', s'. split; [exact E3|]. split; [done|]. split; [by etransitivity|done].
Qed.

(** ** Paths *)

(** the object [id] is on the disk as the node [n] says *)
Definition node_on (id : Z * Z) (n : node) : Prop :=
  object_at id.1 id.2 (n_stat n) (n_items n) (n_after n) ∧
  0 <= item_location data v (n_stat n) ∧ item_location data v (n_stat n) + SD_ROOM <= bsize ∧
  match n_kind n with
  | Directory =>
      S_ISDIR (stat_mode data v (n_stat n)) = true ∧ Forall (dir_item data v) (n_items n) ∧
      (n_after n = [] → Forall (λ x, k_objectid (block x.1) 8 ≠ id.2) (n_stat n :: n_items n))
  | Regular size =>
      S_ISREG (stat_mode data v (n_stat n)) = true ∧ stat_size data v (n_stat n) = size ∧ body data v id.2 0 (n_items n) ∧
      0 <= size <= Z.of_nat (length (body_bytes data v (n_items n))) ∧
      Z.of_nat (length (body_bytes data v (n_items n))) <= INT_MAX
  end.

Context (vol : Z * Z → option node) (volume_on : ∀ id n, vol id = Some n → node_on id n) (volume_closed : closed data v vol).

(** what [reiserfs_open_file] comes to *)
Definition arrived s (r : found) (b : bool) s' : Prop :=
  match r with
  | Found size xs =>
      b = true ∧ r_file s' = set_pos 0 (set_len size (r_file s)) ∧ coherent disk inv data v root s' ∧
      ∃ id st after, object_at id.1 id.2 st xs after ∧ body data v id.2 0 xs ∧
        0 <= size <= Z.of_nat (length (body_bytes data v xs)) ∧ Z.of_nat (length (body_bytes data v xs)) <= INT_MAX ∧
        (xs ≠ [] → file_open id.1 id.2 s')
  | NotFound e => b = false ∧ errnum s' = e
  end.

Lemma object_length dir_id objectid st xs after : object_at dir_id objectid st xs after →
  (length xs <= length (items data v root))%nat.
Proof. clear shift_ok depth_ok. intros ((before & -> & _) & _). rewrite !length_app. cbn [length]. lia. Qed.

(** the kind of an object, in its stat data in the cache *)
Lemma stat_cached s st rest : stands s st rest → 0 <= item_location data v st → item_location data v st + SD_ROOM <= bsize →
  sd_mode (fsys s) (current_item (cur s)) = stat_mode data v st ∧
  sd_size (fsys s) (ITEMHEAD v st.2) (current_item (cur s)) = stat_size data v st.
Proof.
  intros Hst H1 H2. unfold SD_ROOM in H2. pose proof (stands_at _ _ _ Hst) as Hat. rewrite (at_place _ _ Hat).
  unfold sd_mode, stat_mode, sd_size, stat_size. rewrite (at_version _ _ Hat).
  rewrite (cached16 _ st.1) by (apply (at_leaf _ _ Hat) || lia). split; [done|].
  unfold le64_at. rewrite <- !Z.add_assoc. rewrite !(cached32 _ st.1) by (apply (at_leaf _ _ Hat) || lia). done.
Qed.

Lemma kind_facts mode : (S_ISDIR mode = true → S_ISLNK mode = false ∧ S_ISREG mode = false) ∧
  (S_ISREG mode = true → S_ISLNK mode = false ∧ S_ISDIR mode = false).
Proof. unfold S_ISDIR, S_ISREG, S_ISLNK. split; intros ->%Z.eqb_eq; by split. Qed.

(** the end of the path at a file *)
Lemma open_regular fuel s id st xs after size : bsize + 1 < Z.of_nat fuel →
  object_at id.1 id.2 st xs after → stands s st (xs ++ after) →
  ∃ s', (Reiserfs.set_file 0 size;; set_fileinfo id.1 id.2;; next_key stack fuel) s = (Ok true, s') ∧
    r_file s' = set_pos 0 (set_len size (r_file s)) ∧ coherent disk inv data v root s' ∧ (xs ≠ [] → file_open id.1 id.2 s').
Proof.
  intros Hfuel Hobj Hst. unfold REISERFS_MAX_TREE_HEIGHT in depth_ok. pose proof bsize_range as [HB _].
  set (s1 := with_cur (Reiserfs.with_file s (set_pos 0 (set_len size (r_file s))))
    (Cursor id.1 id.2 (current_ih (cur s)) (current_item (cur s)) (Reiserfs.blocks (cur s)) (next_key_nr (cur s)))).
  assert (stands s1 st (xs ++ after)) as Hst1.
  { destruct st as [l i]. destruct Hst as ((Hv & Hd & Hs) & Hsl & Hi & Hih & Hit & pend & Ht & Er).
    split; [split; [done|]; split; [exact Hd|exact Hs]|]. split; [done|]. split; [done|]. split; [done|]. split; [done|].
    exists pend. split; [|done]. revert Ht. apply trail_agree. by intros e _. }
  destruct (next_key_ok disk inv data data_bounded stack v root fits no_journal offset_nonneg depth_ok root_ok fuel s1 st (xs ++ after)
    shallow ltac:(lia) leaves_ok Hst1) as (s2 & E2 & Hk2 & Hr2).
  exists s2. split; [exact E2|]. destruct Hk2 as (A & _ & C & D & _). split; [exact A|].
  destruct (xs ++ after) as [|y ys] eqn:Exs.
  - split; [apply Hr2|]. by destruct xs.
  - split; [by eapply coherent_stands|]. intros _. split; [exact C|]. split; [exact D|]. by exists y, ys.
Qed.

Lemma arrived_frame s s1 r b s' : r_file s1 = r_file s → arrived s1 r b s' → arrived s r b s'.
Proof. intros E. unfold arrived. by rewrite E. Qed.

(** each turn of the walk finds the stat data of the object it has come to *)
Lemma object_reached fuel s id n : bsize < Z.of_nat fuel → coherent disk inv data v root s → node_on id n →
  ∃ s1, search_stat stack fuel id.1 id.2 s = (Ok true, s1) ∧ r_file s1 = r_file s ∧ stands s1 (n_stat n) (n_items n ++ n_after n) ∧
    sd_mode (fsys s1) (current_item (cur s1)) = stat_mode data v (n_stat n) ∧
    sd_size (fsys s1) (ITEMHEAD v (n_stat n).2) (current_item (cur s1)) = stat_size data v (n_stat n) ∧
    current_ih (cur s1) = Some (ITEMHEAD v (n_stat n).2) ∧ current_item (cur s1) + SD_ROOM <= FSYSREISER_CACHE_SIZE.
Proof.
  intros Hfuel Hs (Hobj & Hl1 & Hl2 & _). pose proof leaf_end as [HL0 HL].
  destruct (search_object fuel s id.1 id.2 _ _ _ ltac:(lia) Hs Hobj) as (s1 & E1 & Hk1 & Hst).
  destruct (stat_cached _ _ _ Hst Hl1 Hl2) as [Emode Esize]. pose proof (stands_at _ _ _ Hst) as Hat. pose proof Hk1 as (A1 & _).
  exists s1. split_and!; [done|by rewrite A1|done|done|done|apply (at_head _ _ Hat)|]. rewrite (at_place _ _ Hat). lia.
Qed.

(** the end of the path *)
Lemma walk_ends fuel arg lb p id pd po links r n s : bsize + 1 < Z.of_nat (S fuel) →
  coherent disk inv data v root s → vol id = Some n → path_from arg lb p = r → path_end r →
  ∃ b s', walk stack (S fuel) arg lb p id.1 id.2 pd po links s = (Ok b, s') ∧ arrived s (resolve data v vol id []) b s'.
Proof.
  intros Hfuel Hs Hn Hpath Hr. pose proof (volume_on _ _ Hn) as Hon. cbn [walk resolve]. rewrite Hn.
  destruct (object_reached (S fuel) s id n ltac:(lia) Hs Hon) as (s1 & E1 & A1 & Hst & Emode & Esize & Eih & Hroom).
  rewrite (bind_ok _ _ _ _ _ E1). cbn [negb]. rewrite !gets_bind, Emode, (proj2 (Z.ltb_ge FSYSREISER_CACHE_SIZE _)), Hpath by lia.
  destruct r as [|e r]; [done|].
  assert ((e =? 0) || isspace e = true) as -> by (destruct Hr as [->| ->]; [done|apply orb_true_r]).
  destruct Hon as (Hobj & _ & _ & Hkind). destruct (n_kind n) as [|size].
  - destruct Hkind as (Hm & _). destruct (proj1 (kind_facts _) Hm) as [-> ->]. cbn [negb].
    eexists false, _. split; [reflexivity|]. by split.
  - destruct Hkind as (Hm & Hsz & Hbody & Hin & Hmax). destruct (proj2 (kind_facts _) Hm) as [-> _]. rewrite Hm. cbn [negb].
    rewrite Eih, Esize, Hsz.
    destruct (open_regular (S fuel) s1 id _ _ _ size Hfuel Hobj Hst) as (s2 & E2 & Ef & Hs2 & Hop).
    exists true, s2. split; [exact E2|]. apply (arrived_frame _ s1); [done|]. split; [done|]. split; [done|].
    split; [done|]. by exists id, (n_stat n), (n_after n).
Qed.

(** a component of the path: the entry of a directory, or an error *)
Lemma walk_step fuel arg lb p id pd po links k c rest n s : bsize + Z.of_nat (length (n_items n)) + 1 < Z.of_nat (S fuel) →
  coherent disk inv data v root s → vol id = Some n → 0 <= path_at p → path_from arg lb p = replicate (S k) 47 ++ c ++ rest →
  comp_ok c → path_end rest ∨ deref rest = 47 → rest ≠ [] →
  let walked := walk stack (S fuel) arg lb p id.1 id.2 pd po links s in
  let next := advance (advance p (S k)) (length c) in
  match n_kind n, name_lookup c (node_entries data v n) with
  | Regular _, _ => ∃ s', walked = (Ok false, s') ∧ errnum s' = FILE_ERR_NOTDIR
  | Directory, None => ∃ s', walked = (Ok false, s') ∧ errnum s' = FILE_ERR_NOTFOUND
  | Directory, Some id' => ∃ s', walked = walk stack fuel arg lb next id'.1 id'.2 id.1 id.2 links s' ∧
      coherent disk inv data v root s' ∧ r_file s' = r_file s ∧ 0 <= path_at next ∧ path_from arg lb next = rest
  end.
Proof.
  intros Hfuel Hs Hn Hp Hpath Hc Hnext Hrest walked next. subst walked. pose proof (volume_on _ _ Hn) as Hon. cbn [walk].
  destruct (object_reached (S fuel) s id n ltac:(lia) Hs Hon) as (s1 & E1 & A1 & Hst & Emode & Esize & Eih & Hroom).
  rewrite (bind_ok _ _ _ _ _ E1). cbn [negb]. rewrite !gets_bind, Emode, (proj2 (Z.ltb_ge FSYSREISER_CACHE_SIZE _)), Hpath by lia.
  destruct Hon as (Hobj & _ & _ & Hkind). pose proof Hobj as (_ & Hafter & _ & Hitems).
  destruct (n_kind n) as [|size] eqn:Ek.
  2:{ destruct Hkind as (Hm & _). destruct (proj2 (kind_facts _) Hm) as [-> ->]. cbn [negb].
      eexists _. split; [reflexivity|done]. }
  destruct Hkind as (Hm & Hdirs & Hlast). destruct (proj1 (kind_facts _) Hm) as [-> _]. rewrite Hm. cbn [negb].
  rewrite (slashes_replicate (S k)) by (by apply (comp_head c rest)).
  rewrite path_advance, Hpath by done. rewrite (drop_app_length' (replicate (S k) 47)) by by rewrite length_replicate.
  rewrite (component_app c rest) by (done || apply Hc).
  assert ((length (c ++ rest) <=? length c)%nat = false) as ->
    by (apply Nat.leb_gt; rewrite length_app; destruct rest; [done|cbn [length]; lia]).
  rewrite take_app_length.
  destruct (name_searched id.2 c (n_after n) (n_items n) (n_stat n) (S fuel) s1 Hst) as (res & s2 & E2 & Hs2 & Hk2 & Hres).
  { apply Forall_forall. intros x Hx. rewrite Forall_forall in Hitems, Hdirs. split; [apply (Hitems x Hx)|by apply Hdirs]. }
  { done. }
  { done. }
  { destruct Hc as [_ Hc]. eapply Forall_impl; [exact Hc|]. by intros x [? _]. }
  { lia. }
  cbn [replicate app]. change ((47 =? 0) || isspace 47) with false. cbn iota.
  rewrite (bind_ok _ _ _ _ _ E2). fold (node_entries data v n) in Hres. pose proof Hk2 as (A2 & _).
  destruct (name_lookup c (node_entries data v n)) as [id'|].
  2:{ subst res. eexists _. split; [reflexivity|done]. }
  destruct Hres as (de & -> & Hid). rewrite gets_bind. exists s2.
  split; [by rewrite <- Hid|]. split; [done|]. split; [by rewrite A2, A1|]. split; [cbn; lia|]. unfold next.
  rewrite !path_advance, Hpath by (cbn; lia). by rewrite (drop_app_length' (replicate (S k) 47)), drop_app_length by by rewrite length_replicate.
Qed.

Lemma path_walked comps : ∀ fuel arg lb p id pd po links r n s,
  coherent disk inv data v root s → vol id = Some n → 0 <= path_at p → path_from arg lb p = path_text comps ++ r → path_end r →
  Forall (λ c, comp_ok c.2) comps →
  bsize + Z.of_nat (length (items data v root)) + Z.of_nat (length comps) + 1 < Z.of_nat fuel →
  ∃ b s', walk stack fuel arg lb p id.1 id.2 pd po links s = (Ok b, s') ∧
    arrived s (resolve data v vol id (map snd comps)) b s'.
Proof.
  induction comps as [|[k c] comps IH]; intros fuel arg lb p id pd po links r n s Hs Hn Hp Hpath Hr Hok Hfuel;
    (destruct fuel as [|fuel]; [lia|]).
  - apply (walk_ends _ _ _ _ _ _ _ _ r n); (done || lia).
  - inversion Hok as [|? ? Hc Hcs]; subst. cbn [snd length] in Hc, Hfuel. cbn [map resolve snd]. rewrite Hn.
    assert (path_text ((k, c) :: comps) ++ r = replicate (S k) 47 ++ c ++ path_text comps ++ r) as Ed
      by (unfold path_text; cbn [map concat]; by rewrite <- !app_assoc).
    rewrite Ed in Hpath. pose proof (path_text_next comps r Hcs Hr) as Hnext. destruct (volume_on _ _ Hn) as (Hobj & _).
    pose proof (object_length _ _ _ _ _ Hobj) as Hlen.
    pose proof (walk_step fuel arg lb p id pd po links k c _ n s ltac:(lia) Hs Hn Hp Hpath Hc Hnext) as Hstep. cbv zeta in Hstep.
    destruct (n_kind n) as [|size] eqn:Ek; [destruct (name_lookup c (node_entries data v n)) as [id'|] eqn:El|].
    + destruct Hstep as (s2 & -> & Hs2 & A2 & Hp2 & Hpath2); [by destruct comps as [|[]]; [destruct r|]|].
      destruct (volume_closed _ _ _ _ Hn Ek El) as [n' Hn'].
      destruct (IH fuel arg lb _ id' id.1 id.2 links r n' s2 Hs2 Hn' Hp2 Hpath2 Hr Hcs ltac:(lia)) as (b & s' & E3 & Harr).
      exists b, s'. split; [exact E3|]. by apply (arrived_frame _ s2).
    + destruct Hstep as (s' & E & He); [by destruct comps as [|[]]; [destruct r|]|]. exists false, s'. split; [exact E|by split].
    + destruct Hstep as (s' & E & He); [by destruct comps as [|[]]; [destruct r|]|]. exists false, s'. split; [exact E|by split].
Qed.
End reading.

(** ** Opening files *)

(** the partition the reader takes *)
Definition starts_at (part : option partition_t) (fspec : boot_fspec) (poff : Z) : Prop :=
  if Devpath.part fspec =? 0 then poff = 0
  else ∃ p, part = Some p ∧ u64 (part_start p * blocksize p) = poff.

(** the volume [vol] is on the disk at [poff], with blocks of [2 ^ shift] bytes *)
Record reiserfs_volume (data : list Z) (poff shift : Z) (vol : Z * Z → option node) : Prop := ReiserfsVolume {
  rv_bounded : Z.of_nat (length data) < 18446744073709551616;
  rv_good : mountable data poff shift;
  rv_tree : tree_ok data poff (sb_blocksize data poff) (Z.to_nat (tree_depth (mounted data poff shift))) None None (sb_root data poff);
  rv_shallow : tree_depth (mounted data poff shift) <= cached_slots (mounted data poff shift);
  rv_leaves : Forall (λ l, 0 < nr_items data poff (sb_blocksize data poff) l)
    (leaves data poff (sb_blocksize data poff) (Z.to_nat (tree_depth (mounted data poff shift))) (sb_root data poff));
  rv_nodes id n : vol id = Some n → node_on data (mounted data poff shift) (sb_root data poff) id n;
  rv_closed : closed data (mounted data poff shift) vol;
  rv_root : is_Some (vol (REISERFS_ROOT_PARENT_OBJECTID, REISERFS_ROOT_OBJECTID));
}.

Section opening.
Context {F : Type} `{Firmware F} (disk : Z) (inv : F → Prop) (data : list Z) `{!SeekDevice disk inv data}.
Context (env : prom_env) (low stack : list Z) (bplan : bool) (poff shift : Z) (vol : Z * Z → option node).
Context (on_volume : reiserfs_volume data poff shift vol).
Implicit Types s : rst F.

Notation v := (mounted data poff shift).
Notation root := (sb_root data poff).

Lemma mounted_shift : 0 <= blocksize_shift v ∧ vol_blocksize v = 2 ^ blocksize_shift v.
Proof.
  destruct (rv_good _ _ _ _ on_volume) as (_ & _ & _ & _ & Hs & Hb & _). cbn [mounted blocksize_shift vol_blocksize].
  split; [lia|done].
Qed.

Lemma mounted_facts : journal_transactions v = 0 ∧ 0 <= Reiserfs.partition_offset v ∧ 1 <= tree_depth v < REISERFS_MAX_TREE_HEIGHT.
Proof.
  destruct (rv_good _ _ _ _ on_volume) as (Hp & _ & _ & _ & _ & _ & _ & _ & Hd). exact (conj eq_refl (conj Hp Hd)).
Qed.

(** the state of the reader with a file open *)
Definition open_at (id : Z * Z) s : Prop := file_open disk inv data v root id.1 id.2 s.

Lemma open_path_ok fuel file part fspec d path comps s f :
  starts_at part fspec poff → Z.of_nat (length (fsys s)) = FSYSREISER_CACHE_SIZE → length (open_buffer s) = 1024%nat →
  dev fspec = Some d → cstr_ok d → (length d < 1020)%nat → Devpath.file fspec = Some path → (length path < 1024)%nat →
  path = path_text comps → Forall (λ c, comp_ok c.2) comps →
  prom_open (Xfs.disk_name bplan d) (r_fw s) = (disk, f) → inv f → invalid_device disk = false →
  vol_blocksize v + Z.of_nat (length (items data v root)) + Z.of_nat (length comps) + 1 < Z.of_nat fuel →
  ∃ e file' s', reiserfs_open_path env low stack bplan fuel file part fspec s = (Ok (e, file'), s') ∧
    match resolve data v vol (REISERFS_ROOT_PARENT_OBJECTID, REISERFS_ROOT_OBJECTID) (map snd comps) with
    | NotFound err => e = err
    | Found size xs =>
        e = FILE_ERR_OK ∧ file' = set_pos 0 (set_len size (set_of_device disk file)) ∧
        ∃ id st after, object_at data v root id.1 id.2 st xs after ∧ body data v id.2 0 xs ∧
          0 <= size <= Z.of_nat (length (body_bytes data v xs)) ∧ Z.of_nat (length (body_bytes data v xs)) <= INT_MAX ∧
          (xs ≠ [] → open_at id s')
    end.
Proof.
  intros Hpart Hroom Hbuf Hdev Hdok Hdlen Hfile Hplen -> Hok Hopen Hf Hvalid Hfuel.
  destruct mounted_facts as (Hj & Hpo & Hdepth).
  pose proof (mounted_fits data poff shift (rv_good _ _ _ _ on_volume)) as Hfits. cbn zeta in Hfits.
  assert (∃ k, fuel = S k) as [fuel' Ef] by (destruct fuel as [|k]; [lia|by exists k]).
  unfold reiserfs_open_path.
  assert ((if Devpath.part fspec =? 0 then mret 0
     else match part with Some p => mret (u64 (part_start p * blocksize p)) | None => fail NullPointer end) s = (Ok poff, s)) as E0.
  { unfold starts_at in Hpart. destruct (Devpath.part fspec =? 0); [by rewrite Hpart|]. by destruct Hpart as (p & -> & <-). }
  rewrite (bind_ok _ _ _ _ _ E0). clear E0.
  set (s1 := with_cur (with_info s (volume0 poff)) cursor0).
  rewrite (bind_ok _ _ _ tt (with_info s (volume0 poff))) by done. rewrite (bind_ok _ _ _ tt s1) by done.
  rewrite gets_bind. change (open_buffer s1) with (open_buffer s). rewrite Hdev, Hfile. cbn [cstr].
  rewrite cstring_strncpy by (done || lia). fold (Xfs.disk_name bplan d).
  pose proof (length_strncpy d 1020) as Hls.
  set (b1 := store (open_buffer s) 0 (strncpy d 1020)).
  assert (length b1 = 1024%nat) as Hb1 by (unfold b1; rewrite length_store; lia).
  assert (length (Xfs.disk_name bplan d ++ [0%Z]) <= 1024)%nat as Hname
    by (unfold Xfs.disk_name; rewrite !length_app; destruct bplan; [|change (length (bs ":0")) with 2%nat]; cbn [length]; lia).
  rewrite (bind_ok _ _ _ _ _ (buffer_put b1 0 (Xfs.disk_name bplan d ++ [0]) s1 ltac:(lia) ltac:(lia))).
  set (b2 := store b1 0 (Xfs.disk_name bplan d ++ [0])). assert (length b2 = 1024%nat) as Hb2 by (unfold b2; rewrite length_store; lia).
  rewrite (bind_ok _ _ _ tt (with_open_buffer s1 b2)) by done.
  rewrite (bind_ok _ _ _ disk (with_fw (with_open_buffer s1 b2) f)) by (cbv beta; change (r_fw (with_open_buffer s1 b2)) with (r_fw s); by rewrite Hopen).
  set (file1 := set_of_device disk file). set (s2 := with_file (with_fw (with_open_buffer s1 b2) f) file1).
  rewrite (bind_ok _ _ _ tt s2) by done. rewrite Hvalid.
  destruct (read_super_ok disk inv data (rv_bounded _ _ _ _ on_volume) env stack poff shift (rv_good _ _ _ _ on_volume) fuel' s2)
    as (s3 & E3 & Hs3 & Hob3 & Hrf3); [by split|done|done|done|].
  rewrite <- Ef in E3. rewrite (bind_ok _ _ _ _ _ E3). cbn [negb]. rewrite gets_bind, Hob3. change (open_buffer s2) with b2.
  assert (length (path_text comps ++ [0%Z]) <= 1024)%nat as Hpl by (rewrite length_app; cbn [length]; lia).
  rewrite (bind_ok _ _ _ _ _ (buffer_put b2 0 (path_text comps ++ [0]) s3 ltac:(lia) ltac:(lia))).
  set (b3 := store b2 0 (path_text comps ++ [0])). rewrite (bind_ok _ _ _ tt (with_open_buffer s3 b3)) by done.
  destruct (rv_root _ _ _ _ on_volume) as [n Hn].
  set (s4 := with_errnum (with_open_buffer s3 b3) 0).
  destruct (path_walked disk inv data (rv_bounded _ _ _ _ on_volume) stack v root Hfits Hj Hpo Hdepth mounted_shift (rv_tree _ _ _ _ on_volume)
    (rv_shallow _ _ _ _ on_volume) (rv_leaves _ _ _ _ on_volume) vol (rv_nodes _ _ _ _ on_volume) (rv_closed _ _ _ _ on_volume)
    comps fuel b3 (loaded stack 0 PATH_MAX) (Path false 0) (REISERFS_ROOT_PARENT_OBJECTID, REISERFS_ROOT_OBJECTID) 0 0 0
    (0 :: drop (length (path_text comps ++ [0])) b2) n s4) as (b & s5 & E5 & Harr); try done.
  - unfold path_from, b3, store. cbn [path_at in_link]. change (Z.to_nat 0) with O. rewrite drop_0.
    cbn [take app]. by rewrite <- app_assoc.
  - by left.
  - assert (reiserfs_open_file stack fuel b3 (with_open_buffer s3 b3) = (Ok b, s5)) as E6 by exact E5.
    rewrite (bind_ok _ _ _ _ _ E6), gets_bind.
    destruct (resolve data v vol _ (map snd comps)) as [size xs|err].
    + destruct Harr as (-> & Hrf & _ & Hobj). cbn [negb]. eexists _, _, _. split; [reflexivity|]. split; [done|].
      split; [|exact Hobj]. rewrite Hrf. change (r_file s4) with (r_file s3). by rewrite Hrf3.
    + destruct Harr as (-> & Herr). cbn [negb]. eexists _, _, _. split; [reflexivity|]. exact Herr.
Qed.

Lemma read_ok fuel id st xs after file s p n buf : object_at data v root id.1 id.2 st xs after → body data v id.2 0 xs →
  Z.of_nat (length (body_bytes data v xs)) <= INT_MAX → open_at id s → of_device file = disk →
  0 <= p → 0 < n → p + n <= Z.of_nat (length (body_bytes data v xs)) → n <= Z.of_nat (length buf) →
  vol_blocksize v + Z.of_nat (length (items data v root)) + 1 < Z.of_nat fuel →
  ∃ s', reiserfs_read stack fuel (set_pos p file) n buf s =
      (Ok (n, slice (body_bytes data v xs) p n ++ drop (Z.to_nat n) buf, set_pos (p + n) file), s') ∧ open_at id s'.
Proof.
  intros Hobj Hbody Hmax (Hd & Ho & y & ys & Hst) Hdev Hp Hn Hin Hbuf Hfuel.
  destruct mounted_facts as (Hj & Hpo & Hdepth).
  pose proof (mounted_fits data poff shift (rv_good _ _ _ _ on_volume)) as Hfits. cbn zeta in Hfits.
  pose proof Hobj as Hlen. apply object_length in Hlen.
  set (s1 := with_file s (set_pos p file)).
  assert (open_at id s1) as Hop.
  { split; [exact Hd|]. split; [exact Ho|]. exists y, ys. destruct y as [l i]. destruct Hst as ((Hv & [_ Hi] & Hs) & Hrest).
    split; [split; [done|]; split; [by split|exact Hs]|exact Hrest]. }
  destruct (data_read disk inv data (rv_bounded _ _ _ _ on_volume) stack v root Hfits Hj Hpo Hdepth mounted_shift
    (rv_tree _ _ _ _ on_volume) (rv_shallow _ _ _ _ on_volume) (rv_leaves _ _ _ _ on_volume) id.1 id.2 st xs after fuel s1 buf n
    Hobj Hbody Hop) as (s2 & E2 & Hread & Hop2); [done|done|done|cbn; unfold INT_MAX in *; lia|done|lia|].
  cbn [r_file s1 with_file pos set_pos] in E2, Hread.
  exists s2. split; [|exact Hop2]. unfold reiserfs_read. rewrite (bind_ok _ _ _ tt s1) by done.
  rewrite (bind_ok _ _ _ _ _ E2), gets_bind. destruct Hread as (-> & _). do 4 f_equal.
  unfold store. change (Z.to_nat 0) with O. rewrite take_0, length_slice by lia. done.
Qed.
End opening.

(** ** Properties *)

(** C9: opening a file of a ReiserFS volume follows the path from the root through the
    directories of the tree, as the specification [resolve] says: it fails with the error
    of [resolve], or the file has the size its stat data record and any part of it, read at
    any time and in any order, is the bytes of its items: those kept in the tree and those
    of the blocks it points to. *)
Theorem reiserfs_file_opened {F : Type} `{Firmware F} disk (inv : F → Prop) data `{!SeekDevice disk inv data} env low stack bplan
    poff shift vol fuel file part fspec d comps s f :
  let v := mounted data poff shift in
  reiserfs_volume data poff shift vol → starts_at part fspec poff →
  Z.of_nat (length (fsys s)) = FSYSREISER_CACHE_SIZE → length (open_buffer s) = 1024%nat →
  dev fspec = Some d → cstr_ok d → (length d < 1020)%nat →
  Devpath.file fspec = Some (path_text comps) → (length (path_text comps) < 1024)%nat → Forall (λ c, comp_ok c.2) comps →
  prom_open (Xfs.disk_name bplan d) (r_fw s) = (disk, f) → inv f → invalid_device disk = false →
  vol_blocksize v + Z.of_nat (length (items data v (sb_root data poff))) + Z.of_nat (length comps) + 1 < Z.of_nat fuel →
  ∃ e file' s', reiserfs_open_path env low stack bplan fuel file part fspec s = (Ok (e, file'), s') ∧
    match resolve data v vol (REISERFS_ROOT_PARENT_OBJECTID, REISERFS_ROOT_OBJECTID) (map snd comps) with
    | NotFound err => e = err
    | Found size xs =>
        e = FILE_ERR_OK ∧ pos file' = 0 ∧ len file' = size ∧
        ∃ readable, (xs ≠ [] → readable s') ∧ ∀ t p n buf, readable t → 0 <= p → 0 < n → p + n <= size → n <= Z.of_nat (length buf) →
          ∃ t', reiserfs_read stack fuel (set_pos p file') n buf t =
            (Ok (n, slice (body_bytes data v xs) p n ++ drop (Z.to_nat n) buf, set_pos (p + n) file'), t') ∧ readable t'
    end.
Proof.
  intros v Hvol Hpart Hroom Hbuf Hdev Hd Hdl Hfile Hpl Hok Hopen Hf Hvalid Hfuel.
  destruct (open_path_ok disk inv data env low stack bplan poff shift vol Hvol fuel file part fspec d (path_text comps) comps s f)
    as (e & file' & s' & E & Hres); try done.
  exists e, file', s'. split; [exact E|]. fold v in Hres.
  destruct (resolve data v vol _ (map snd comps)) as [size xs|err]; [|done].
  destruct Hres as (-> & -> & id & st & after & Hobj & Hbody & Hsize & Hmax & Hopened).
  split; [done|]. split; [done|]. split; [done|]. exists (open_at disk inv data poff shift id). split; [done|].
  intros t p n buf Ht Hp Hn Hend Hnb. subst v.
  apply (read_ok disk inv data stack poff shift vol Hvol fuel id st xs after _ t p n buf Hobj Hbody Hmax Ht); try done; lia.
Qed.

(** ** An example

    The volume of [mount_disk]: the directory [/] and the file [/vmlinux], whose bytes are
    in block 132 and in the second leaf. *)

Definition mount_volume : volume := Volume 0 0 0 0 2 2 9 512 55 0.

Definition mount_root_node : node := Node (130, 0) [(130, 1)] [(130, 2); (131, 0); (131, 1)] Directory.
Definition mount_file_node : node := Node (130, 2) [(131, 0); (131, 1)] [] (Regular 600).

Definition mount_nodes (id : Z * Z) : option node :=
  if decide (id = (1, 2)) then Some mount_root_node else if decide (id = (2, 3)) then Some mount_file_node else None.

Lemma block_129 : blk mount_disk 0 512 129 = node_root 130 131.
Proof. rewrite mount_root. by_decision. Qed.
Lemma block_130 : blk mount_disk 0 512 130 = leaf_root.
Proof. unfold blk. transitivity (slice mount_tail 1024 512); [exact (mount_slice 1024 512 ltac:(lia))|by_decision]. Qed.
Lemma block_131 : blk mount_disk 0 512 131 = leaf_file 132.
Proof. unfold blk. transitivity (slice mount_tail 1536 512); [exact (mount_slice 1536 512 ltac:(lia))|by_decision]. Qed.
Lemma block_132 : blk mount_disk 0 512 132 = replicate 512 65.
Proof. unfold blk. transitivity (slice mount_tail 2048 512); [exact (mount_slice 2048 512 ltac:(lia))|by_decision]. Qed.

Lemma mount_mounted : mounted mount_disk 0 9 = mount_volume.
Proof.
  destruct mount_fields as (Hj & Hb & Hr & _ & Hv).
  assert (sb_jsize mount_disk 0 = 0) as Hs by (unfold sb_jsize; rewrite mount_super; by_decision).
  unfold mounted. rewrite Hj, Hb, Hr, Hv, Hs, block_129.
  assert (blkh_level (node_root 130 131) 0 = 2) as -> by by_decision. reflexivity.
Qed.

Lemma mount_children : nr_items mount_disk 0 512 129 = 1 ∧ child mount_disk 0 512 129 0 = 130 ∧
  child mount_disk 0 512 129 1 = 131 ∧ nr_items mount_disk 0 512 130 = 3 ∧ nr_items mount_disk 0 512 131 = 2.
Proof. unfold child, nr_items. rewrite block_129, block_130, block_131. by_decision. Qed.

Lemma mount_leaves : leaves mount_disk 0 512 2 129 = [130; 131].
Proof.
  destruct mount_children as (E1 & E2 & E3 & _).
  change (seqZ 0 (nr_items mount_disk 0 512 129 + 1) ≫= (λ i, [child mount_disk 0 512 129 i]) = [130; 131]).
  rewrite E1. change (seqZ 0 (1 + 1)) with [0; 1]. cbn. by rewrite E2, E3.
Qed.

Lemma mount_items : items mount_disk mount_volume 129 = [(130, 0); (130, 1); (130, 2); (131, 0); (131, 1)].
Proof.
  destruct mount_children as (_ & _ & _ & E1 & E2).
  change (leaves mount_disk 0 512 2 129 ≫= items_of mount_disk mount_volume = [(130, 0); (130, 1); (130, 2); (131, 0); (131, 1)]).
  rewrite mount_leaves. unfold items_of. cbn [mbind list_bind app].
  change (nr_items mount_disk (Reiserfs.partition_offset mount_volume) (vol_blocksize mount_volume)) with (nr_items mount_disk 0 512).
  by rewrite E1, E2.
Qed.

Lemma mount_on_disk b : 128 < b < 133 → on_disk mount_disk 0 512 b.
Proof. intros Hb. split; [lia|]. rewrite mount_length. lia. Qed.

Lemma mount_leaf_ok lo hi b : 128 < b < 133 → blkh_level (blk mount_disk 0 512 b) 0 = 1 →
  let nr := nr_items mount_disk 0 512 b in
  0 <= nr <= 20 → Forall (λ i, above lo (leaf_key mount_disk 0 512 b i) ∧ below (leaf_key mount_disk 0 512 b i) hi) (seqZ 0 nr) →
  tree_ok mount_disk 0 512 1 lo hi b.
Proof.
  intros Hb Hl nr Hn Hk. split; [by apply mount_on_disk|]. split; [exact Hl|]. split; [apply Hn|]. split; [|exact Hk].
  fold nr. unfold BLKH_SIZE, IH_SIZE. lia.
Qed.

Lemma mount_tree : tree_ok mount_disk 0 512 2 None None 129.
Proof.
  destruct mount_children as (E1 & E2 & E3 & E4 & E5).
  change (on_disk mount_disk 0 512 129 ∧ blkh_level (blk mount_disk 0 512 129) 0 = 2 ∧ 0 <= nr_items mount_disk 0 512 129 ∧
    DC 0 (nr_items mount_disk 0 512 129) (nr_items mount_disk 0 512 129 + 1) <= 512 ∧
    Forall (λ i, above None (node_key mount_disk 0 512 129 i) ∧ below (node_key mount_disk 0 512 129 i) None)
      (seqZ 0 (nr_items mount_disk 0 512 129)) ∧
    Forall (λ i, Forall (λ j, ¬ klt (node_key mount_disk 0 512 129 j) (node_key mount_disk 0 512 129 i))
      (seqZ i (nr_items mount_disk 0 512 129 - i))) (seqZ 0 (nr_items mount_disk 0 512 129)) ∧
    Forall (λ i, tree_ok mount_disk 0 512 1 (child_lo mount_disk 0 512 None 129 i) (child_hi mount_disk 0 512 None 129 i)
      (child mount_disk 0 512 129 i)) (seqZ 0 (nr_items mount_disk 0 512 129 + 1))).
  split; [apply mount_on_disk; lia|]. unfold child_lo, child_hi, node_key. rewrite E1, block_129.
  do 5 (split; [by_decision|]). change (seqZ 0 (1 + 1)) with [0; 1].
  apply Forall_cons_2; [|apply Forall_cons_2; [|by apply Forall_nil]]; rewrite ?E2, ?E3; apply mount_leaf_ok; try lia;
    rewrite ?E4, ?E5; unfold leaf_key; rewrite ?block_130, ?block_131; by_decision.
Qed.

Lemma mount_pointers : item_pointers mount_disk mount_volume (131, 0) = [132].
Proof.
  unfold item_pointers, item_location, item_len. change (blk mount_disk _ _ _) with (blk mount_disk 0 512 131).
  rewrite block_131. by_decision.
Qed.

(** each field of an item *)
Ltac by_item := unfold stat_key, stat_mode, stat_size, item_object, item_offset, item_location, item_len, item_direct, item_indirect,
    item_inside, leaf_key, nr_items, entries, entry_count, dir_item, item_location, item_len;
  cbn [fst snd mount_volume Reiserfs.partition_offset vol_blocksize]; rewrite ?block_129, ?block_130, ?block_131; by_decision.

Lemma mount_bytes : item_bytes mount_disk mount_volume (131, 0) = replicate 512 65 ∧
  item_bytes mount_disk mount_volume (131, 1) = replicate 88 66.
Proof.
  unfold item_bytes.
  assert (item_direct mount_disk mount_volume (131, 0) = false) as -> by by_item.
  assert (item_indirect mount_disk mount_volume (131, 0) = true) as -> by by_item.
  assert (item_direct mount_disk mount_volume (131, 1) = true) as -> by by_item.
  split; [|by_item]. rewrite mount_pointers.
  change (blk mount_disk 0 512 132 ++ [] = replicate 512 65). by rewrite block_132.
Qed.

Lemma mount_entries : node_entries mount_disk mount_volume mount_root_node = [(bs ".", (1, 2)); (bs "vmlinux", (2, 3))].
Proof.
  unfold node_entries. change (n_items mount_root_node) with [(130, 1)].
  change (entries mount_disk mount_volume (130, 1) ++ [] = [(bs ".", (1, 2)); (bs "vmlinux", (2, 3))]).
  rewrite app_nil_r. unfold entries, entry_count, item_location, item_len.
  change (blk mount_disk _ _ _) with (blk mount_disk 0 512 130). rewrite block_130. by_decision.
Qed.

Lemma mount_objects : Forall (λ '(x, (o, k)), item_object mount_disk mount_volume x = o ∧
    stat_key mount_disk mount_volume x = k)
  [((130, 0), (2, (1, 2, 0))); ((130, 1), (2, (1, 2, 501))); ((130, 2), (3, (2, 3, 0))); ((131, 0), (3, (2, 3, 4294967295)));
   ((131, 1), (3, (2, 3, 4294967295)))].
Proof. repeat apply Forall_cons_2; try apply Forall_nil; exact I || (split; by_item). Qed.

Lemma mount_body : body mount_disk mount_volume 3 0 [(131, 0); (131, 1)].
Proof.
  destruct mount_bytes as [E1 E2]. cbn [body]. rewrite E1. unfold body_item. rewrite mount_pointers.
  split; [by_item|]. split; [by_item|]. split.
  { split; [by_item|]. right. split; [by_item|]. split; [by_item|].
    apply Forall_cons_2; [|by apply Forall_nil]. exact (mount_on_disk 132 ltac:(lia)). }
  split; [by_item|]. split; [by_item|]. split; [|done]. split; [by_item|]. left. by_item.
Qed.

Lemma mount_root_on : node_on mount_disk mount_volume 129 (1, 2) mount_root_node.
Proof.
  pose proof mount_objects as Ho. repeat (apply Forall_cons_iff in Ho as [[? ?] Ho]). clear Ho.
  split; [|split; [by_item|split; [by_item|]]].
  - split; [|split; [|split]].
    + exists []. split; [exact mount_items|by apply Forall_nil].
    + repeat apply Forall_cons_2; try (by apply Forall_nil); cbn [fst snd]; congruence.
    + done.
    + repeat apply Forall_cons_2; try (by apply Forall_nil); (split; [done|]; cbn [fst snd]; congruence).
  - split; [by_item|]. split; [|done]. apply Forall_cons_2; [by_item|by apply Forall_nil].
Qed.

Lemma mount_file_on : node_on mount_disk mount_volume 129 (2, 3) mount_file_node.
Proof.
  pose proof mount_objects as Ho. repeat (apply Forall_cons_iff in Ho as [[? ?] Ho]). clear Ho.
  split; [|split; [by_item|split; [by_item|]]].
  - split; [|split; [|split]].
    + exists [(130, 0); (130, 1)]. split; [exact mount_items|]. repeat apply Forall_cons_2; try (by apply Forall_nil); cbn [fst snd]; congruence.
    + by apply Forall_nil.
    + done.
    + repeat apply Forall_cons_2; try (by apply Forall_nil); (split; [done|]; cbn [fst snd]; congruence).
  - split; [by_item|]. split; [by_item|]. split; [exact mount_body|].
    destruct mount_bytes as [E1 E2]. unfold body_bytes. cbn [n_items mount_file_node fmap list_fmap concat]. rewrite E1, E2. by_decision.
Qed.

Lemma mount_on_volume : reiserfs_volume mount_disk 0 9 mount_nodes.
Proof.
  destruct mount_fields as (_ & Hb & Hr & _). split; rewrite ?mount_mounted, ?Hb, ?Hr; cbn [tree_depth cached_slots mount_volume].
  - rewrite mount_length. lia.
  - exact mount_good.
  - exact mount_tree.
  - lia.
  - change (Z.to_nat 2) with 2%nat. rewrite mount_leaves. destruct mount_children as (_ & _ & _ & E1 & E2).
    apply Forall_cons_2; [by rewrite E1|]. apply Forall_cons_2; [by rewrite E2|by apply Forall_nil].
  - intros id n. unfold mount_nodes. repeat case_decide; intros [= <-]; subst; [exact mount_root_on|exact mount_file_on].
  - intros id n c id'. unfold mount_nodes at 1. destruct (decide _) as [_|_]; [intros [= <-] _ Hl|].
    2:{ destruct (decide _) as [_|_]; [intros [= <-] E; discriminate E|intros E; discriminate E]. }
    rewrite mount_entries in Hl. apply name_lookup_in, elem_of_cons in Hl as [[= -> ->]|Hl]; [by exists mount_root_node|].
    apply list_elem_of_singleton in Hl as [= -> ->]. by exists mount_file_node.
  - by exists mount_root_node.
Qed.

Definition mount_spec : boot_fspec := Devpath.set_file (Some (bs "/vmlinux")) (set_dev (Some (bs "hd")) fspec0).
Definition mount_env : prom_env := PromEnv 0 0 0 0 false.

Example reiserfs_file_opened_witness :
  ∃ e file' s', reiserfs_open_path mount_env [] [] false 600 (BFile None 0 0 0 0 None 0) None mount_spec mount_state =
      (Ok (e, file'), s') ∧
    e = FILE_ERR_OK ∧ len file' = 600 ∧
    ∃ file2 s2, reiserfs_read [] 600 (set_pos 510 file') 4 (zeros 4) s' = (Ok (4, [65; 65; 66; 66], file2), s2).
Proof.
  assert (Z.of_nat (length mount_disk) < 18446744073709551616) as Hlen by (rewrite mount_length; lia).
  destruct (reiserfs_file_opened (H := image_firmware) 7 (of_image mount_disk) mount_disk
    (SeekDevice0 := image_seeks 7 mount_disk Hlen) mount_env [] [] false 0 9 mount_nodes 600 (BFile None 0 0 0 0 None 0) None
    mount_spec (bs "hd") [(0%nat, bs "vmlinux")] mount_state (Image mount_disk 512 0 [] [])) as (e & file' & s' & E & Hres).
  - exact mount_on_volume.
  - reflexivity.
  - exact (length_zeros FSYSREISER_CACHE_SIZE ltac:(by_decision)).
  - reflexivity.
  - reflexivity.
  - by_decision.
  - by_decision.
  - reflexivity.
  - by_decision.
  - by_decision.
  - reflexivity.
  - exact eq_refl.
  - reflexivity.
  - destruct mount_fields as (_ & _ & -> & _). rewrite mount_mounted, mount_items. by_decision.
  - rewrite mount_mounted in Hres. unfold resolve in Hres. cbn [map snd] in Hres.
    change (mount_nodes (REISERFS_ROOT_PARENT_OBJECTID, REISERFS_ROOT_OBJECTID)) with (Some mount_root_node) in Hres.
    cbn iota in Hres. change (n_kind mount_root_node) with Directory in Hres. cbn iota in Hres. rewrite mount_entries in Hres.
    assert (name_lookup (bs "vmlinux") [(bs ".", (1, 2)); (bs "vmlinux", (2, 3))] = Some (2, 3)) as El by by_decision.
    rewrite El in Hres. change (mount_nodes (2, 3)) with (Some mount_file_node) in Hres. cbn iota in Hres.
    change (n_kind mount_file_node) with (Regular 600) in Hres. cbn iota in Hres.
    destruct Hres as (-> & _ & Hsize & readable & Hopen & Hread). exists FILE_ERR_OK, file', s'.
    split; [exact E|]. split; [reflexivity|]. split; [exact Hsize|].
    destruct (Hread s' 510 4 (zeros 4)) as (t & Et & _); [apply Hopen; discriminate|lia|lia|lia|by_decision|].
    eexists _, t. rewrite Et. destruct mount_bytes as [E1 E2]. unfold body_bytes. cbn [n_items mount_file_node fmap list_fmap concat].
    rewrite E1, E2. reflexivity.
Defined.
