(* ===== verification/Ext2.v ===== *)
(** The Ext2 reader, [second/fs_ext2.c], over libext2fs.

    The library is not part of the repository: its functions are the class [Libext2], over
    the state of the reader, which they reach through the operations of the I/O manager.
    [FS] is what [ext2_filsys] points to.  The static variables of fs_ext2.c are the state
    [est], those of a read in progress [range]; [e_file] is what [cur_file] and
    [read_cur_file] point to, the file given to [ext2_open].  [block_buffer] is an address
    of the heap. *)
From S2P Require Import Prelude Ctype CString Numeric Vsprintf Malloc Prom Disk Devpath Partition Fs.

(** ** Data *)

Definition MAX_READ_RANGE : Z := 256.
Definition BLOCK_ABORT : Z := 2.
Definition EXT2_ROOT_INO : Z := 2.
Definition EXT2_FLAG_RW : Z := 1.
Definition EXT2_ET_SHORT_READ : Z := 2133571364.
Definition EXT2_ET_BAD_DEVICE_NAME : Z := 2133571386.
Definition EXT2_ET_SYMLINK_LOOP : Z := 2133571392.
Definition EXT2_ET_LLSEEK_FAILED : Z := 2133571397.
Definition EXT2_ET_FILE_NOT_FOUND : Z := 2133571404.
Definition sizeof_io_channel : Z := 96.

(** what is used of [struct struct_io_channel]: its address, its name and [block_size] *)
Record io_channel := IoChannel {
  ch_address : Z;
  ch_name : Z;
  ch_block_size : Z;
}.

(** the read in progress: [read_buffer] is the buffer of the caller and the place in it *)
Record range := Range {
  read_range_start : Z;
  read_range_count : Z;
  read_last_logical : Z;
  read_total : Z;
  read_max : Z;
  read_result : Z;
  read_buffer : list Z;
  read_at : Z;
}.

Record est (W FS : Type) := ESt {
  e_fw : W;
  e_heap : heap;
  e_file : boot_file;
  opened : bool;
  bsize : Z;
  doff : Z;
  dend : Z;
  e_fs : option FS;
  cur_file : bool;
  block_buffer : Z;
  open_buffer : list Z;
  rd : range;
}.
Arguments ESt {W FS}. Arguments e_fw {W FS}. Arguments e_heap {W FS}. Arguments e_file {W FS}. Arguments opened {W FS}.
Arguments bsize {W FS}. Arguments doff {W FS}. Arguments dend {W FS}. Arguments e_fs {W FS}. Arguments cur_file {W FS}.
Arguments block_buffer {W FS}. Arguments open_buffer {W FS}. Arguments rd {W FS}.

Section setters.
Context {V W FS : Type} (s : est V FS).
Definition with_fw (x : W) : est W FS := ESt x (e_heap s) (e_file s) (opened s) (bsize s) (doff s) (dend s) (e_fs s) (cur_file s) (block_buffer s) (open_buffer s) (rd s).
Definition with_heap (x : heap) : est V FS := ESt (e_fw s) x (e_file s) (opened s) (bsize s) (doff s) (dend s) (e_fs s) (cur_file s) (block_buffer s) (open_buffer s) (rd s).
Definition with_file (x : boot_file) : est V FS := ESt (e_fw s) (e_heap s) x (opened s) (bsize s) (doff s) (dend s) (e_fs s) (cur_file s) (block_buffer s) (open_buffer s) (rd s).
Definition with_opened (x : bool) : est V FS := ESt (e_fw s) (e_heap s) (e_file s) x (bsize s) (doff s) (dend s) (e_fs s) (cur_file s) (block_buffer s) (open_buffer s) (rd s).
Definition with_bsize (x : Z) : est V FS := ESt (e_fw s) (e_heap s) (e_file s) (opened s) x (doff s) (dend s) (e_fs s) (cur_file s) (block_buffer s) (open_buffer s) (rd s).
Definition with_bounds (x y : Z) : est V FS := ESt (e_fw s) (e_heap s) (e_file s) (opened s) (bsize s) x y (e_fs s) (cur_file s) (block_buffer s) (open_buffer s) (rd s).
Definition with_fs (x : option FS) : est V FS := ESt (e_fw s) (e_heap s) (e_file s) (opened s) (bsize s) (doff s) (dend s) x (cur_file s) (block_buffer s) (open_buffer s) (rd s).
Definition with_cur_file (x : bool) : est V FS := ESt (e_fw s) (e_heap s) (e_file s) (opened s) (bsize s) (doff s) (dend s) (e_fs s) x (block_buffer s) (open_buffer s) (rd s).
Definition with_block_buffer (x : Z) : est V FS := ESt (e_fw s) (e_heap s) (e_file s) (opened s) (bsize s) (doff s) (dend s) (e_fs s) (cur_file s) x (open_buffer s) (rd s).
Definition with_open_buffer (x : list Z) : est V FS := ESt (e_fw s) (e_heap s) (e_file s) (opened s) (bsize s) (doff s) (dend s) (e_fs s) (cur_file s) (block_buffer s) x (rd s).
Definition with_rd (x : range) : est V FS := ESt (e_fw s) (e_heap s) (e_file s) (opened s) (bsize s) (doff s) (dend s) (e_fs s) (cur_file s) (block_buffer s) (open_buffer s) x.
End setters.

(** [struct struct_io_manager]; what is read comes with the result *)
Record io_manager (st : Type) := IoManager {
  io_open : list Z → Z → stm st fault (Z * option io_channel);
  io_close : io_channel → stm st fault Z;
  io_set_blksize : io_channel → Z → stm st fault (Z * io_channel);
  io_read_blk : io_channel → Z → Z → stm st fault (Z * list Z);
  io_write_blk : io_channel → Z → Z → list Z → stm st fault Z;
  io_flush : io_channel → stm st fault Z;
}.

(** libext2fs: the functions fs_ext2.c calls, and [fs->blocksize] and [fs->io].  A result
    other than 0 is an error code; the iterator gets a block and its number in the file *)
Class Libext2 (st FS : Type) := {
  fs_blocksize : FS → Z;
  fs_io : FS → io_channel;
  ext2fs_open : io_manager st → list Z → Z → stm st fault (Z * option FS);
  ext2fs_namei_follow : FS → Z → Z → list Z → stm st fault (Z * Z);
  ext2fs_block_iterate : FS → Z → (Z → Z → stm st fault Z) → stm st fault Z;
  ext2fs_read_inode : FS → Z → stm st fault (Z * Z);
  ext2fs_close : FS → stm st fault Z;
}.

Definition set_inode (i : Z) (f : boot_file) : boot_file :=
  BFile (Fs.fs f) (device_kind f) (of_device f) i (pos f) (buffer f) (len f).

Section ext2.
Context {F : Type} `{Firmware F} {FS : Type}.
Context (env : prom_env) (low : list Z) (bplan : bool).
Notation st := (est F FS).

Definition set_rd (r : range) : stm st fault unit := modify (λ s, with_rd s r).
Definition set_file (f : boot_file) : stm st fault unit := modify (λ s, with_file s f).
Definition say (fmt : list Z) (args : list arg) : stm st fault unit :=
  modify (λ s, with_fw s (prom_printf env fmt args (e_fw s))).
Definition e_malloc (size : Z) : stm st fault Z := λ s,
  let '(p, h) := malloc size (e_heap s) in (Ok p, with_heap s h).
Definition e_free (p : Z) : stm st fault unit := modify (λ s, with_heap s (free p (e_heap s))).

(** what libext2fs reports errors with: the format goes to [prom_printf], its arguments do not *)
Definition com_err (fmt : list Z) : stm st fault unit := say fmt [].

(** bytes stored in the heap *)
Definition e_store (p : Z) (b : list Z) : stm st fault unit :=
  if p =? 0 then fail NullPointer
  else modify (λ s, let h := e_heap s in
         with_heap s (Heap (malloc_ptr h) (malloc_top h) (last_alloc h) (mem_store (mem h) p b))).
Definition e_load (p n : Z) : stm st fault (list Z) := gets (λ s, mem_load (mem (e_heap s)) p (Z.to_nat n)).

(** a remainder and a quotient by the block size *)
Definition by_bsize (f : Z → Z → Z) (x : Z) : stm st fault Z :=
  b ← gets bsize; if b =? 0 then fail DivideByZero else mret (f x b).

(** ** The I/O manager *)

Definition linux_open (name : list Z) (flags : Z) : stm st fault (Z * option io_channel) :=
  io ← e_malloc sizeof_io_channel;
  if io =? 0 then mret (EXT2_ET_BAD_DEVICE_NAME, None)
  else
    e_store io (replicate (Z.to_nat sizeof_io_channel) 0);;
    nm ← e_malloc (Z.of_nat (length name) + 1);
    e_store nm (name ++ [0]);;
    b ← gets bsize;
    mret (0, Some (IoChannel io nm b)).

Definition linux_close (channel : io_channel) : stm st fault Z := e_free (ch_address channel);; mret 0.

Definition linux_set_blksize (channel : io_channel) (blksize : Z) : stm st fault (Z * io_channel) :=
  modify (λ s, with_bsize s (u32 blksize));;
  p ← gets block_buffer;
  (if p =? 0 then mret tt
   else
     e_free p;;
     p ← e_malloc (u32 (u32 blksize * 2));
     modify (λ s, with_block_buffer s p));;
  mret (0, IoChannel (ch_address channel) (ch_name channel) blksize).

(** the error code and the bytes stored at [data] *)
Definition linux_read_blk (channel : io_channel) (block count : Z) : stm st fault (Z * list Z) :=
  if count =? 0 then mret (0, [])
  else
    s ← get_st;
    let tempb := u64 (u64 (u32 block * bsize s) + doff s) in
    if negb (dend s =? 0) && (dend s <? tempb) then mret (EXT2_ET_LLSEEK_FAILED, [])
    else
      let size := if count <? 0 then s32 (- count) else s32 (count * bsize s) in
      if negb (cur_file s) then fail NullPointer
      else
        let '(_, f) := prom_lseek (of_device (e_file s)) tempb (e_fw s) in
        let '(n, b, f) := prom_read (of_device (e_file s)) (u32 size) f in
        modify (λ s, with_fw s f);;
        mret (if n =? size then 0 else EXT2_ET_SHORT_READ, take (Z.to_nat (u32 size)) b).

Definition linux_write_blk (channel : io_channel) (block count : Z) (data : list Z) : stm st fault Z := mret 0.
Definition linux_flush (channel : io_channel) : stm st fault Z := mret 0.

Definition struct_linux_manager : io_manager st :=
  IoManager st linux_open linux_close linux_set_blksize linux_read_blk linux_write_blk linux_flush.

(** ** Opening *)

Context `{Libext2 st FS}.

(** the end of [ext2_open] when it fails *)
Definition bail (error : Z) : stm st fault (Z * boot_file) :=
  fs ← gets e_fs;
  (match fs with Some fs => _ ← ext2fs_close fs; mret tt | None => mret tt end);;
  modify (λ s, with_fs s None);;
  modify (λ s, with_fw s (prom_close (of_device (e_file s)) (e_fw s)));;
  p ← gets block_buffer;
  (if p =? 0 then mret tt else e_free p);;
  modify (λ s, with_block_buffer s 0);;
  modify (λ s, with_cur_file s false);;
  file ← gets e_file;
  mret (error, file).

(** from the file system opened to the file found *)
Definition lookup (fs : FS) (file_name : list Z) : stm st fault (Z * boot_file) :=
  p ← e_malloc (u32 (fs_blocksize fs * 2));
  modify (λ s, with_block_buffer s p);;
  if p =? 0 then bail FILE_IOERR
  else
    '(result, ino) ← ext2fs_namei_follow fs EXT2_ROOT_INO EXT2_ROOT_INO file_name;
    modify (λ s, with_file s (set_inode ino (e_file s)));;
    if negb (result =? 0) then
      bail (if result =? EXT2_ET_SYMLINK_LOOP then FILE_ERR_SYMLINK_LOOP
            else if result =? EXT2_ET_FILE_NOT_FOUND then FILE_ERR_NOTFOUND
            else FILE_IOERR)
    else
      modify (λ s, with_file s (set_pos 0 (e_file s)));;
      modify (λ s, with_opened s true);;
      file ← gets e_file;
      mret (FILE_ERR_OK, file).

(** [doff] and [dend] *)
Definition part_bounds (part : option partition_t) : Z * Z :=
  match part with
  | Some p =>
      let o := u64 (part_start p * blocksize p) in (o, u64 (o + u64 (part_size p * blocksize p)))
  | None => (0, 0)
  end.

Definition ext2_open_file (file : boot_file) (part : option partition_t) (fspec : boot_fspec)
    : stm st fault (Z * boot_file) :=
  busy ← gets opened;
  if busy : bool then mret (FILE_ERR_FSBUSY, file)
  else if negb (device_kind file =? FILE_DEVICE_BLOCK) && negb (device_kind file =? FILE_DEVICE_ISCSI) then
    mret (FILE_ERR_BADDEV, file)
  else
    modify (λ s, with_fs s None);;
    modify (λ s, with_bsize s 1024);;
    modify (λ s, with_bounds s (part_bounds part).1 (part_bounds part).2);;
    set_file file;;
    modify (λ s, with_cur_file s true);;
    b ← gets open_buffer;
    let b := store b 0 (strncpy (cstr low (dev fspec)) 1020) in
    let name := cstring b ++ (if bplan then [] else bs ":0") in
    (if Z.of_nat (length b) <=? Z.of_nat (length name) then fail Overrun
     else modify (λ s, with_open_buffer s (store b 0 (name ++ [0]))));;
    d ← (λ s, let '(d, f) := prom_open name (e_fw s) in (Ok d, with_fw s f));
    set_file (set_of_device d file);;
    if d =? PROM_INVALID_HANDLE then mret (FILE_IOERR, set_of_device d file)
    else
      '(result, fs) ← ext2fs_open struct_linux_manager name EXT2_FLAG_RW;
      modify (λ s, with_fs s fs);;
      if negb (result =? 0) then bail FILE_ERR_BAD_FSYS
      else
        match fs with
        | None => fail NullPointer
        | Some fs => lookup fs (cstr low (Devpath.file fspec))
        end.

(** ** Reading *)

(** the buffer of the caller after bytes were put at the place of [read_buffer], and how
    far the read is then *)
Definition put_bytes (b : list Z) (r : range) : stm st fault (list Z) :=
  if Z.of_nat (length (read_buffer r)) <? read_at r + Z.of_nat (length b) then fail Overrun
  else mret (store (read_buffer r) (read_at r) b).

Definition move_pos (n : Z) : stm st fault unit :=
  modify (λ s, with_file s (set_pos (u64 (pos (e_file s) + n)) (e_file s))).

(** [n] bytes more were read, [buf] is the buffer then *)
Definition got (n : Z) (buf : list Z) (r : range) : range :=
  Range (read_range_start r) (read_range_count r) (read_last_logical r) (u32 (read_total r + n)) (u32 (read_max r - n))
    (read_result r) buf (read_at r + n).

Definition set_range (start count : Z) (r : range) : range :=
  Range start count (read_last_logical r) (read_total r) (read_max r) (read_result r) (read_buffer r) (read_at r).
Definition set_last_logical (l : Z) (r : range) : range :=
  Range (read_range_start r) (read_range_count r) l (read_total r) (read_max r) (read_result r) (read_buffer r) (read_at r).
Definition set_result (e : Z) (r : range) : range :=
  Range (read_range_start r) (read_range_count r) (read_last_logical r) (read_total r) (read_max r) e (read_buffer r) (read_at r).

Definition io_channel_read_blk (block count : Z) : stm st fault (Z * list Z) :=
  fs ← gets e_fs;
  match fs with None => fail NullPointer | Some fs => linux_read_blk (fs_io fs) block count end.

(** the part of [read_dump_range] that reads the whole blocks: whether it did *)
Definition dump_blocks (count : Z) : stm st fault bool :=
  if count =? 0 then mret true
  else
    b ← gets bsize; r ← gets rd;
    let size := s32 (count * b) in
    '(e, data) ← io_channel_read_blk (read_range_start r) count;
    buf ← put_bytes data r;
    if negb (e =? 0) then
      set_rd (set_result e (Range (read_range_start r) (read_range_count r) (read_last_logical r) (read_total r) (read_max r)
        (read_result r) buf (read_at r)));;
      mret false
    else
      set_rd (Range (u32 (read_range_start r + count)) (u32 (read_range_count r - count)) (u32 (read_last_logical r + count))
        (u32 (read_total r + size)) (u32 (read_max r - size)) e buf (read_at r + size));;
      move_pos size;;
      mret true.

(** the part that reads the last block *)
Definition dump_rest : stm st fault bool :=
  r ← gets rd;
  if (read_max r =? 0) || (read_range_count r =? 0) then mret true
  else
    p ← gets block_buffer;
    '(e, data) ← io_channel_read_blk (read_range_start r) 1;
    e_store p data;;
    if negb (e =? 0) then set_rd (set_result e r);; mret false
    else
      b ← e_load p (read_max r);
      buf ← put_bytes b r;
      move_pos (read_max r);;
      set_rd (Range (read_range_start r) (read_range_count r) (read_last_logical r) (u32 (read_total r + read_max r)) 0 e buf
        (read_at r));;
      mret true.

Definition read_dump_range : stm st fault Z :=
  b ← gets bsize; r ← gets rd;
  let count := s32 (read_range_count r) in
  let count := if read_max r <? u32 (count * b) then s32 (count - 1) else count in
  ok ← dump_blocks count;
  if negb ok then mret BLOCK_ABORT
  else
    ok ← dump_rest;
    if negb ok then mret BLOCK_ABORT
    else
      r ← gets rd;
      set_rd (set_range 0 0 r);;
      mret (if read_max r =? 0 then BLOCK_ABORT else 0).

(** [memset] of what follows the place of the read, of [n] bytes or what is left to read *)
Definition zero_fill (n : Z) : stm st fault unit :=
  r ← gets rd;
  let n := Z.min n (read_max r) in
  buf ← put_bytes (replicate (Z.to_nat n) 0) r;
  set_rd (got n buf r);;
  move_pos n.

(** the whole blocks of a hole: whether the read goes on *)
Definition fill_blocks (lg_block : Z) : stm st fault bool :=
  b ← gets bsize; r ← gets rd;
  let nzero := u32 ((lg_block - read_last_logical r) * b) in
  (if nzero =? 0 then mret tt else zero_fill nzero);;
  r ← gets rd;
  if negb (nzero =? 0) && (read_max r =? 0) then mret false
  else set_rd (set_last_logical (u32 lg_block) r);; mret true.

(** holes before the block: whether the read goes on *)
Definition fill_hole (lg_block : Z) : stm st fault bool :=
  r ← gets rd;
  if (lg_block =? 0) || (u32 lg_block =? read_last_logical r) then mret true
  else
    p ← gets (λ s, pos (e_file s)); b ← gets bsize;
    offset ← by_bsize Z.modulo p;
    if offset =? 0 then fill_blocks lg_block
    else
      zero_fill (b - offset);;
      r ← gets rd;
      set_rd (set_last_logical (u32 (read_last_logical r + 1)) r);;
      if read_max r =? 0 then mret false else fill_blocks lg_block.

(** a read that starts inside the block *)
Definition read_unaligned (blocknr lg_block offset : Z) : stm st fault Z :=
  b ← gets bsize; p ← gets block_buffer;
  '(e, data) ← io_channel_read_blk blocknr 1;
  e_store p data;;
  r ← gets rd;
  if negb (e =? 0) then set_rd (set_result e r);; mret BLOCK_ABORT
  else
    let size := Z.min (b - offset) (read_max r) in
    data ← e_load (p + offset) size;
    buf ← put_bytes data r;
    move_pos size;;
    set_rd (set_result e (set_last_logical (u32 (lg_block + 1)) (got size buf r)));;
    r ← gets rd;
    mret (if read_max r =? 0 then BLOCK_ABORT else 0).

(** the block is the next one of the range *)
Definition contiguous (r : range) (blocknr lg_block : Z) : bool :=
  negb (read_range_start r =? 0) && (read_range_count r <? MAX_READ_RANGE) &&
  (blocknr =? u32 (read_range_start r + read_range_count r)) &&
  (u32 lg_block =? u32 (read_last_logical r + read_range_count r)).

(** the end of [read_iterator], the range being dumped *)
Definition start_range (blocknr lg_block : Z) : stm st fault Z :=
  on ← fill_hole lg_block;
  if negb on then mret BLOCK_ABORT
  else
    p ← gets (λ s, pos (e_file s)); b ← gets bsize;
    offset ← by_bsize Z.modulo p;
    if negb (offset =? 0) then read_unaligned blocknr lg_block offset
    else if negb (blocknr =? 0) then
      r ← gets rd;
      set_rd (set_range blocknr 1 r);;
      mret (if read_max r <=? b then BLOCK_ABORT else 0)
    else mret 0.

Definition read_iterator (blocknr lg_block : Z) : stm st fault Z :=
  if lg_block <? 0 then mret 0
  else
    p ← gets (λ s, pos (e_file s)); b ← gets bsize; r ← gets rd;
    first ← by_bsize Z.div p;
    if lg_block <? first then mret 0
    else if contiguous r blocknr lg_block then
      let count := u32 (read_range_count r + 1) in
      set_rd (set_range (read_range_start r) count r);;
      mret (if read_max r <=? u32 (count * b) then BLOCK_ABORT else 0)
    else
      done ← (if read_range_start r =? 0 then mret 0 else read_dump_range);
      if negb (done =? 0) then mret BLOCK_ABORT else start_range blocknr lg_block.

(** the result, the bytes of the buffer and the file *)
Definition ext2_read (file : boot_file) (size : Z) (buffer : list Z) : stm st fault (Z * list Z * boot_file) :=
  on ← gets opened;
  if negb on then mret (FILE_IOERR, buffer, file)
  else
    set_file file;;
    first ← by_bsize Z.div (pos file);
    set_rd (Range 0 0 (u32 first) 0 size 0 buffer 0);;
    fs ← gets e_fs;
    match fs with
    | None => fail NullPointer
    | Some fs =>
        retval ← ext2fs_block_iterate fs (inode file) read_iterator;
        r ← gets rd;
        let retval := if retval =? BLOCK_ABORT then read_result r else retval in
        retval ← (if (retval =? 0) && negb (read_range_start r =? 0) then
                    _ ← read_dump_range;
                    r ← gets rd;
                    mret (read_result r)
                  else mret retval);
        (if retval =? 0 then mret tt else say (bs "ext2: i/o error %ld in read" ++ [10]) [AInt retval]);;
        r ← gets rd; file ← gets e_file;
        mret (s32 (read_total r), read_buffer r, file)
    end.

Definition ext2_seek (file : boot_file) (newpos : Z) : stm st fault (Z * boot_file) :=
  on ← gets opened;
  mret (if on : bool then (FILE_ERR_OK, set_pos newpos file) else (FILE_CANT_SEEK, file)).

Definition ext2_close (file : boot_file) : stm st fault Z :=
  on ← gets opened;
  if negb on then mret FILE_IOERR
  else
    p ← gets block_buffer;
    (if p =? 0 then mret tt else e_free p);;
    modify (λ s, with_block_buffer s 0);;
    fs ← gets e_fs;
    (match fs with Some fs => _ ← ext2fs_close fs; mret tt | None => mret tt end);;
    modify (λ s, with_fs s None);;
    modify (λ s, with_fw s (prom_close (of_device file) (e_fw s)));;
    modify (λ s, with_opened s false);;
    mret 0.

Definition ext2_ino_size (file : boot_file) : stm st fault Z :=
  fs ← gets e_fs;
  match fs with
  | None => fail NullPointer
  | Some fs => '(e, size) ← ext2fs_read_inode fs (inode file); mret (if e =? 0 then size else 0)
  end.
End ext2.

(** ** Files on the disk: the specification *)

(** two maps over ranges of numbers *)
Lemma map_seqZ_0 {A} (h : Z → A) c n : map h (seqZ c n) = map (λ j, h (c + j)) (seqZ 0 n).
Proof. unfold seqZ. rewrite !map_map. apply map_ext. intros i. f_equal. lia. Qed.

Lemma map_seqZ_shift {A} (f g : Z → A) a b n : (∀ j, 0 <= j < n → f (a + j) = g (b + j)) → map f (seqZ a n) = map g (seqZ b n).
Proof.
  intros Hfg. rewrite (map_seqZ_0 f a), (map_seqZ_0 g b). apply map_ext_in. intros j Hj. apply Hfg.
  apply list_elem_of_In, elem_of_seqZ in Hj. lia.
Qed.

Section contents.
Context (data : list Z) (B off : Z).

(** the block of the disk that holds block [k] of the file *)
Fixpoint block_at (l : list (Z * Z)) (k : Z) : option Z :=
  match l with
  | [] => None
  | (b, lg) :: l => if lg =? k then Some b else block_at l k
  end.

(** the blocks of a file in the order of their numbers, the first of which is [c] at least;
    those with a negative number hold no data *)
Fixpoint in_order (c : Z) (l : list (Z * Z)) : Prop :=
  match l with
  | [] => True
  | (b, lg) :: l => if lg <? 0 then in_order c l else c <= lg ∧ in_order (lg + 1) l
  end.

(** the number of blocks up to the last one *)
Fixpoint blocks_end (c : Z) (l : list (Z * Z)) : Z :=
  match l with
  | [] => c
  | (b, lg) :: l => blocks_end (if lg <? 0 then c else lg + 1) l
  end.

(** the bytes of the file; a hole reads as zeros *)
Definition file_byte (l : list (Z * Z)) (p : Z) : Z :=
  match block_at l (p / B) with Some b => byte_at data (off + b * B + p `mod` B) | None => 0 end.
Definition file_bytes (l : list (Z * Z)) (p n : Z) : list Z := map (file_byte l) (seqZ p n).

#[export] Instance in_order_dec l : ∀ c, Decision (in_order c l).
Proof. induction l as [|[b lg] l IH]; intros c; cbn [in_order]; [apply _|]. destruct (lg <? 0); apply _. Defined.

Lemma in_order_mono l : ∀ c c', c' <= c → in_order c l → in_order c' l.
Proof.
  induction l as [|[b lg] l IH]; intros c c' Hc; cbn; [done|]. destruct (lg <? 0); [by apply IH|]. intros [? ?]. split; [lia|done].
Qed.

Lemma block_at_before l : ∀ c k, in_order c l → 0 <= k < c → block_at l k = None.
Proof.
  induction l as [|[b lg] l IH]; intros c k Ho Hk; cbn in *; [done|].
  destruct (Z.ltb_spec lg 0); [rewrite (proj2 (Z.eqb_neq lg k)) by lia; by eapply IH|].
  destruct Ho as [Hc Ho]. rewrite (proj2 (Z.eqb_neq lg k)) by lia. eapply IH; [exact Ho|lia].
Qed.

Lemma blocks_end_le l : ∀ c, in_order c l → c <= blocks_end c l.
Proof.
  induction l as [|[b lg] l IH]; intros c Ho; cbn in *; [lia|]. destruct (lg <? 0); [by apply IH|].
  destruct Ho as [Hc Ho]. specialize (IH _ Ho). lia.
Qed.

Lemma length_file_bytes l p n : 0 <= n → Z.of_nat (length (file_bytes l p n)) = n.
Proof. intros. unfold file_bytes. rewrite length_map, length_seqZ. lia. Qed.

Lemma file_bytes_app l p m n : 0 <= m → 0 <= n → file_bytes l p (m + n) = file_bytes l p m ++ file_bytes l (p + m) n.
Proof. intros. unfold file_bytes. by rewrite seqZ_app, map_app by lia. Qed.

(** whole blocks that lie behind each other on the disk too *)
Lemma mapped_bytes l b k o n : 0 < B → 0 <= k → 0 <= o → 0 <= n → 0 <= off + b * B + o →
  (∀ j, 0 <= j → j * B < o + n → block_at l (k + j) = Some (b + j)) →
  off + b * B + o + n <= Z.of_nat (length data) →
  file_bytes l (k * B + o) n = slice data (off + b * B + o) n.
Proof.
  intros HB Hk Ho Hn Hoff Hmap Hin. rewrite <- loaded_slice by lia. unfold file_bytes, loaded.
  apply map_seqZ_shift. intros j Hj. unfold file_byte.
  assert ((k * B + o + j) / B = k + (o + j) / B) as -> by (rewrite <- Z.add_assoc, Z.add_comm, Z.div_add by lia; lia).
  assert ((k * B + o + j) `mod` B = (o + j) `mod` B) as -> by (rewrite <- Z.add_assoc, Z.add_comm, Z_mod_plus_full; done).
  pose proof (Z.div_mod (o + j) B). rewrite Hmap; [|apply Z.div_pos; lia|].
  - f_equal. lia.
  - pose proof (Z.mul_div_le (o + j) B). lia.
Qed.

Lemma hole_bytes l p n : 0 < B → 0 <= p → (∀ k, p / B <= k → k * B < p + n → block_at l k = None) →
  file_bytes l p n = replicate (Z.to_nat n) 0.
Proof.
  intros HB Hp Hmap. unfold file_bytes. apply list_eq_same_length with (Z.to_nat n);
    [by rewrite length_replicate|by rewrite length_map, length_seqZ|].
  intros i x y Hi Hx Hy. apply lookup_replicate in Hy as [-> _]. apply list_lookup_fmap_Some in Hx as (j & -> & Hj).
  apply lookup_seqZ in Hj as [-> Hj]. unfold file_byte. rewrite Hmap; [done|apply Z.div_le_mono; lia|].
  pose proof (Z.mul_div_le (p + Z.of_nat i) B). lia.
Qed.
End contents.

(** what the library does with a file: its blocks are given to the iterator in turn, until
    it returns [BLOCK_ABORT]; the device may be read in between *)
Class IteratesBlocks {F FS : Type} `{!Libext2 (est F FS) FS} (inv : F → Prop) (fs : FS) (ino : Z) (calls : list (Z * Z)) :=
  iterate_rule : ∀ (f : Z → Z → stm (est F FS) fault Z) (I : list (Z * Z) → est F FS → Prop) (Q : est F FS → Prop),
    (∀ l s w, I l s → inv w → I l (with_fw s w)) → (∀ s w, Q s → inv w → Q (with_fw s w)) →
    (∀ b lg l s, I ((b, lg) :: l) s → ∃ r s', f b lg s = (Ok r, s') ∧ if r =? BLOCK_ABORT then Q s' else r = 0 ∧ I l s') →
    (∀ s, I [] s → Q s) →
    ∀ s, I calls s → ∃ s', ext2fs_block_iterate fs ino f s = (Ok 0, s') ∧ Q s'.

(** a block of the file can be read *)
Definition block_ok (data : list Z) (B off dend : Z) (b : Z) : Prop :=
  0 < b < 4294967296 ∧ off + (b + 1) * B <= Z.of_nat (length data) ∧ (dend = 0 ∨ off + b * B <= dend).

(** the file is one the reader can read: its blocks come in order, lie in the partition,
    and it is smaller than 4 GB *)
Definition file_ok (data : list Z) (B off dend : Z) (calls : list (Z * Z)) : Prop :=
  in_order 0 calls ∧ Forall (λ c, 0 <= c.2 → block_ok data B off dend c.1 ∧ (c.2 + 1) * B < 4294967296) calls.

Lemma mul_bounds k m B x : 0 <= k <= m → 0 < B → m * B <= x → 0 <= k * B <= x.
Proof. nia. Qed.

(** bytes stored in the heap and loaded again *)
Lemma load_stored m a l o k : 0 <= o → 0 <= k → o + k <= Z.of_nat (length l) →
  mem_load (mem_store m a l) (a + o) (Z.to_nat k) = slice l o k.
Proof.
  intros. rewrite <- loaded_slice by lia. unfold mem_load, loaded, seqZ. rewrite map_map. apply map_ext_in.
  intros i Hi%in_seq. unfold mem_store. rewrite (proj2 (Z.leb_le _ _)), (proj2 (Z.ltb_lt _ _)) by lia. cbn [andb]. f_equal. lia.
Qed.

Lemma block_small lg B x : 0 <= lg → 0 < B → (lg + 1) * B < x → lg < x ∧ 0 <= lg * B.
Proof. nia. Qed.

Section read.
Context {F : Type} `{Firmware F} {FS : Type} `{!Libext2 (est F FS) FS}.
Context (disk : Z) (inv : F → Prop) (data : list Z) `{!SeekDevice disk inv data}.
Context (data_bounded : Z.of_nat (length data) < 18446744073709551616).
Context (fs : FS) (calls : list (Z * Z)) (B off dend0 : Z) (file0 : boot_file) (p0 n : Z) (buf0 : list Z).
Context (B_ok : 0 < B ∧ MAX_READ_RANGE * B <= INT_MAX) (off_nonneg : 0 <= off) (dev_ok : of_device file0 = disk).
Context (n_ok : 0 < n <= INT_MAX ∧ n <= Z.of_nat (length buf0)) (p0_ok : 0 <= p0 ∧ p0 + n < 4294967296).
Context (calls_ok : file_ok data B off dend0 calls).
Implicit Types s : est F FS.

Notation bytes := (file_bytes data B off calls).
Notation maps := (block_at calls).

(** what does not change during a read *)
Definition ready s : Prop :=
  opened s = true ∧ e_fs s = Some fs ∧ cur_file s = true ∧ bsize s = B ∧ doff s = off ∧ dend s = dend0 ∧
  block_buffer s ≠ 0 ∧ inv (e_fw s).

(** [t] bytes were read; the range and the block after them.  The place in the buffer is
    not moved on by the last bytes *)
Definition progress s (rs rc ll t : Z) : Prop :=
  ready s ∧ 0 <= t <= n ∧ e_file s = set_pos (p0 + t) file0 ∧
  ∃ a, (t < n → a = t) ∧ rd s = Range rs rc ll t (n - t) 0 (store buf0 0 (bytes p0 t)) a.

Lemma progress_fw s w rs rc ll t : progress s rs rc ll t → inv w → progress (with_fw s w) rs rc ll t.
Proof. intros ((? & ? & ? & ? & ? & ? & ? & _) & ?) Hw. split; [|done]. by split_and!. Qed.

Lemma maps_ok k b : maps k = Some b → 0 <= k → block_ok data B off dend0 b ∧ (k + 1) * B < 4294967296.
Proof.
  destruct calls_ok as [_ Hf]. clear -Hf. revert k b. induction calls as [|[b lg] l IH]; intros k b' Hm Hk; [done|]. cbn in Hm.
  apply Forall_cons in Hf as [Hb Hf]. destruct (Z.eqb_spec lg k) as [->|]; [injection Hm as <-; by apply Hb|by apply IH].
Qed.

Lemma read_blocks_ok s b k : ready s → of_device (e_file s) = disk → block_ok data B off dend0 b →
  block_ok data B off dend0 (b + k - 1) → 1 <= k <= MAX_READ_RANGE →
  ∃ w, io_channel_read_blk b k s = (Ok (0, slice data (off + b * B) (k * B)), with_fw s w) ∧ inv w.
Proof.
  intros (Ho & Hfs & Hc & Hb & Hoff & Hdend & Hbb & Hw) Hd [Hb1 [Hin1 Hdend1]] [Hb2 [Hin2 _]] Hk.
  destruct B_ok as [HB Hmax]. unfold MAX_READ_RANGE in *. change INT_MAX with 2147483647 in Hmax.
  pose proof (mul_bounds k 256 B _ ltac:(lia) HB Hmax) as Hkb. pose proof (Z.mul_pos_pos k B ltac:(lia) HB) as Hkb0.
  unfold io_channel_read_blk. rewrite gets_bind, Hfs. unfold linux_read_blk. rewrite (proj2 (Z.eqb_neq k 0)) by lia.
  rewrite (bind_ok _ _ _ s s) by done. rewrite Hb, Hoff, Hdend, Hc, Hd, (u32_small b) by lia.
  assert (off + b * B + k * B <= Z.of_nat (length data)) as Hin by lia.
  pose proof (Z.mul_nonneg_nonneg b B ltac:(lia) ltac:(lia)).
  rewrite (u64_small (b * B)), u64_small by lia.
  assert (negb (dend0 =? 0) && (dend0 <? b * B + off) = false) as ->.
  { destruct (Z.eqb_spec dend0 0); [done|]. apply Z.ltb_ge. lia. }
  rewrite (proj2 (Z.ltb_ge k 0)) by lia. rewrite s32_small by (change INT_MAX with 2147483647; unfold INT_MIN; lia).
  rewrite u32_small by lia. cbn [negb].
  destruct (sd_range (e_fw s) (b * B + off) (k * B) Hw) as (r & f1 & f2 & E1 & Hr & E2 & Hf2);
    [lia|change INT_MAX with 2147483647; lia|lia|].
  rewrite E1, E2. rewrite (bind_ok _ _ _ tt (with_fw s f2)) by done. rewrite Z.eqb_refl.
  exists f2. split; [|done]. rewrite take_ge by (unfold slice; rewrite length_take; lia).
  by rewrite (Z.add_comm (b * B)).
Qed.

(** bytes of the file put behind those that were read *)
Lemma put_bytes_ok s r t m : read_buffer r = store buf0 0 (bytes p0 t) → read_at r = t → 0 <= t → 0 <= m → t + m <= n →
  put_bytes (bytes (p0 + t) m) r s = (Ok (store buf0 0 (bytes p0 (t + m))), s).
Proof.
  intros Eb Ea Ht Hm Hle. destruct n_ok as [_ Hl]. unfold put_bytes. rewrite Eb, Ea.
  pose proof (length_file_bytes data B off calls p0 t Ht) as L1.
  pose proof (length_file_bytes data B off calls (p0 + t) m Hm) as L2.
  assert (length (store buf0 0 (bytes p0 t)) = length buf0) as L3 by (apply length_store; lia).
  rewrite L3, L2, (proj2 (Z.ltb_ge _ _)) by lia.
  rewrite <- L1 at 2. rewrite <- (Z.add_0_l (Z.of_nat (length (bytes p0 t)))), store_store by lia.
  by rewrite file_bytes_app by lia.
Qed.

Lemma progress_ready s rs rc ll t : progress s rs rc ll t → ready s ∧ of_device (e_file s) = disk.
Proof. intros (Hr & _ & -> & _). done. Qed.

Lemma zero_fill_ok s rs rc ll t k : progress s rs rc ll t → t < n → 0 <= k → let m := Z.min k (n - t) in
  (∀ j, (p0 + t) / B <= j → j * B < p0 + t + m → maps j = None) →
  ∃ s', zero_fill k s = (Ok tt, s') ∧ progress s' rs rc ll (t + m).
Proof.
  intros (Hr & Ht & Hf & a & Ha & Er) Hlt Hk m Hhole. rewrite (Ha Hlt) in Er. clear a Ha. destruct B_ok as [HB _].
  unfold zero_fill. rewrite gets_bind, Er. set (r0 := Range _ _ _ _ _ _ _ _).
  change (Z.min k (read_max r0)) with m.
  rewrite <- (hole_bytes data B off calls (p0 + t) m) by (done || lia).
  rewrite (bind_ok _ _ _ _ _ (put_bytes_ok s r0 t m eq_refl eq_refl ltac:(lia) ltac:(lia) ltac:(lia))).
  eexists. split; [reflexivity|]. split; [exact Hr|]. split; [lia|]. cbn [e_file with_file with_rd rd].
  split; [rewrite Hf; unfold set_pos; cbn; f_equal; rewrite u64_small by lia; lia|].
  exists (t + m). split; [done|].
  unfold got. cbn [r0 read_range_start read_range_count read_last_logical read_total read_max read_result read_at].
  change INT_MAX with 2147483647 in n_ok. rewrite !u32_small by lia. f_equal; lia.
Qed.

(** the whole blocks of a range *)
Lemma dump_blocks_ok s rs rc ll t k : progress s rs rc ll t → 0 <= ll → ll * B = p0 + t → 0 <= k <= rc → rc <= MAX_READ_RANGE →
  k * B <= n - t → (∀ j, 0 <= j < k → maps (ll + j) = Some (rs + j)) →
  ∃ s', dump_blocks k s = (Ok true, s') ∧ progress s' (if k =? 0 then rs else u32 (rs + k)) (rc - k) (ll + k) (t + k * B).
Proof.
  intros Hp Hll Hpos Hk Hrc Hkb Hmap. pose proof Hp as (Hr & Ht & Hf & a & Ha & Er). destruct B_ok as [HB Hmax].
  change INT_MAX with 2147483647 in Hmax, n_ok. unfold dump_blocks. destruct (Z.eqb_spec k 0) as [->|Hk0].
  { exists s. split; [done|]. by rewrite Z.sub_0_r, !Z.add_0_r. }
  assert (t < n) as Hlt by (pose proof (Z.mul_pos_pos k B); lia). rewrite (Ha Hlt) in Er. clear a Ha.
  pose proof Hr as (_ & _ & _ & Hb & _). rewrite !gets_bind, Hb, Er. set (r0 := Range _ _ _ _ _ _ _ _).
  pose proof (Z.mul_nonneg_nonneg k B ltac:(lia) ltac:(lia)) as Hkb0.
  destruct (maps_ok ll rs) as [Hok1 _]; [by rewrite <- (Z.add_0_r ll), <- (Z.add_0_r rs); apply Hmap; lia|done|].
  destruct (maps_ok (ll + k - 1) (rs + k - 1)) as [Hok2 Hend]; [rewrite <- !Z.add_sub_assoc; apply Hmap; lia|lia|].
  destruct (read_blocks_ok s rs k Hr) as (w & E & Hw); [by rewrite Hf|done|done|lia|].
  change (read_range_start r0) with rs. rewrite (bind_ok _ _ _ _ _ E).
  assert (slice data (off + rs * B) (k * B) = bytes (p0 + t) (k * B)) as ->.
  { rewrite <- Hpos, <- (Z.add_0_r (ll * B)), <- (Z.add_0_r (off + rs * B)). symmetry. destruct Hok2 as (_ & Hin & _).
    apply mapped_bytes; try done; try lia.
    - pose proof (Z.mul_nonneg_nonneg rs B). unfold block_ok in Hok1. lia.
    - intros j Hj Hjk. apply Hmap. split; [done|]. apply (Z.mul_lt_mono_pos_r B); lia. }
  rewrite (bind_ok _ _ _ _ _ (put_bytes_ok (with_fw s w) r0 t (k * B) eq_refl eq_refl ltac:(lia) ltac:(lia) ltac:(lia))).
  cbn [Z.eqb negb]. eexists. split; [reflexivity|]. split.
  { destruct Hr as (? & ? & ? & ? & ? & ? & ? & _). by split_and!. }
  split; [lia|]. cbn [e_file with_file with_rd with_fw rd]. rewrite s32_small by (change INT_MAX with 2147483647; unfold INT_MIN; lia).
  split; [rewrite Hf; unfold set_pos; cbn; f_equal; rewrite u64_small by lia; lia|].
  exists (t + k * B). split; [done|].
  cbn [r0 read_range_start read_range_count read_last_logical read_total read_max read_at].
  pose proof (Z.mul_nonneg_nonneg ll B Hll ltac:(lia)).
  assert (ll + k < 4294967296) by nia.
  rewrite (u32_small (rc - k)), (u32_small (ll + k)), (u32_small (t + _)), (u32_small (n - t - _)) by (unfold MAX_READ_RANGE in *; lia).
  f_equal; lia.
Qed.

(** a block read into [block_buffer] *)
Lemma read_block_ok s b o k p : ready s → of_device (e_file s) = disk → block_ok data B off dend0 b → block_buffer s = p →
  0 <= o → 0 <= k → o + k <= B →
  ∃ s' w h, io_channel_read_blk b 1 s = (Ok (0, slice data (off + b * B) B), with_fw s w) ∧
    e_store p (slice data (off + b * B) B) (with_fw s w) = (Ok tt, s') ∧ s' = with_heap (with_fw s w) h ∧ inv w ∧
    mem_load (mem h) (p + o) (Z.to_nat k) = slice data (off + b * B + o) k.
Proof.
  intros Hr Hd Hb Hp Ho Hk Hle. pose proof Hr as (_ & _ & _ & _ & _ & _ & Hp0 & _). rewrite Hp in Hp0.
  destruct (read_blocks_ok s b 1 Hr Hd Hb) as (w & E & Hw); [by replace (b + 1 - 1) with b by lia|done|].
  rewrite Z.mul_1_l in E. eexists _, w, _. split; [exact E|].
  split; [unfold e_store; rewrite (proj2 (Z.eqb_neq p 0)) by done; reflexivity|]. split; [reflexivity|]. split; [exact Hw|].
  destruct Hb as (Hb0 & Hin & _). pose proof (Z.mul_nonneg_nonneg b B ltac:(lia) ltac:(lia)).
  cbn [mem]. rewrite load_stored; [|done|done|rewrite length_slice; lia]. apply slice_slice; lia.
Qed.

Lemma dump_rest_ok s rs rc ll t : progress s rs rc ll t → 0 <= ll → n = t ∨ rc = 0 ∨
    (rc = 1 ∧ ll * B = p0 + t ∧ maps ll = Some rs ∧ n - t <= B) →
  ∃ s', dump_rest s = (Ok true, s') ∧ progress s' rs rc ll (if rc =? 0 then t else n).
Proof.
  intros Hp Hll Hcase. pose proof Hp as (Hr & Ht & Hf & a & Ha & Er). unfold dump_rest. rewrite gets_bind, Er.
  set (r0 := Range _ _ _ _ _ _ _ _). change (read_max r0) with (n - t). change (read_range_count r0) with rc.
  destruct (Z.eqb_spec rc 0) as [->|Hrc].
  { rewrite orb_true_r. by exists s. }
  destruct (Z.eqb_spec (n - t) 0) as [Hnt|Hnt].
  { exists s. split; [done|]. by replace n with t by lia. }
  destruct Hcase as [|[|(-> & Hpos & Hmap & Hle)]]; [lia|done|]. cbn [orb].
  specialize (Ha ltac:(lia)). subst a. destruct B_ok as [HB _].
  destruct (maps_ok ll rs Hmap Hll) as [Hok Hend]. change INT_MAX with 2147483647 in n_ok.
  rewrite gets_bind. change (read_range_start r0) with rs.
  destruct (read_block_ok s rs 0 (n - t) (block_buffer s) Hr) as (s1 & w & h & E1 & E2 & Es1 & Hw & El); [by rewrite Hf|done|done|done|lia|lia|].
  rewrite (bind_ok _ _ _ _ _ E1), (bind_ok _ _ _ _ _ E2). cbn [Z.eqb negb]. rewrite Z.add_0_r in El.
  assert (e_load (block_buffer s) (n - t) s1 = (Ok (bytes (p0 + t) (n - t)), s1)) as E3.
  { unfold e_load, gets. rewrite Es1. cbn [e_heap with_heap]. rewrite El. do 2 f_equal.
    rewrite <- Hpos, <- (Z.add_0_r (ll * B)). symmetry. destruct Hok as (Hb0 & Hin & _).
    pose proof (Z.mul_nonneg_nonneg rs B ltac:(lia) ltac:(lia)).
    apply mapped_bytes; try done; try lia. intros j Hj Hlt. assert (j = 0) as ->; [|by rewrite !Z.add_0_r].
    apply Z.le_antisymm; [|done]. apply Z.lt_succ_r, (Z.mul_lt_mono_pos_r B); lia. }
  rewrite (bind_ok _ _ _ _ _ E3).
  rewrite (bind_ok _ _ _ _ _ (put_bytes_ok s1 r0 t (n - t) eq_refl eq_refl ltac:(lia) ltac:(lia) ltac:(lia))).
  eexists. split; [reflexivity|]. subst s1. split.
  { destruct Hr as (? & ? & ? & ? & ? & ? & ? & _). by split_and!. }
  split; [lia|]. cbn [e_file with_file with_rd with_fw with_heap rd].
  split; [rewrite Hf; unfold set_pos; cbn; f_equal; rewrite u64_small by lia; lia|].
  exists t. split; [lia|]. cbn [r0 read_range_start read_range_count read_last_logical read_total read_max read_at].
  rewrite u32_small by lia. replace (t + (n - t)) with n by lia. by rewrite Z.sub_diag.
Qed.

(** blocks of the file that are still to be read: all but the last one are read whole *)
Definition pending (rs rc ll t : Z) : Prop :=
  1 <= rc <= MAX_READ_RANGE ∧ 0 <= ll ∧ ll * B = p0 + t ∧ (∀ j, 0 <= j < rc → maps (ll + j) = Some (rs + j)) ∧
  (rc - 1) * B < n - t.

Lemma read_dump_range_ok s rs rc ll t : progress s rs rc ll t → pending rs rc ll t → let t' := Z.min (t + rc * B) n in
  ∃ s' ll', read_dump_range s = (Ok (if t' =? n then BLOCK_ABORT else 0), s') ∧ progress s' 0 0 ll' t' ∧
    (t' < n → ll' = ll + rc).
Proof.
  intros Hp (Hrc & Hll & Hpos & Hmap & Hlast) t'. pose proof Hp as (Hr & Ht & _ & a & _ & Er). destruct B_ok as [HB Hmax].
  change INT_MAX with 2147483647 in Hmax, n_ok. pose proof Hr as (_ & _ & _ & Hb & _).
  pose proof (mul_bounds rc MAX_READ_RANGE B _ ltac:(lia) HB Hmax) as Hrb.
  unfold read_dump_range. rewrite !gets_bind, Hb, Er. cbn [read_range_count read_max]. unfold MAX_READ_RANGE in Hrc.
  rewrite (s32_small rc) by (change INT_MAX with 2147483647; unfold INT_MIN; lia). rewrite (u32_small (rc * B)) by lia.
  rewrite (s32_small (rc - 1)) by (change INT_MAX with 2147483647; unfold INT_MIN; lia).
  assert (∀ s1 rs1 rc1 ll1, progress s1 rs1 rc1 ll1 t' → ∃ s2,
    (r ← gets rd; set_rd (set_range 0 0 r);; mret (if read_max r =? 0 then BLOCK_ABORT else 0)) s1 =
    (Ok (if t' =? n then BLOCK_ABORT else 0), s2) ∧ progress s2 0 0 ll1 t') as Hend.
  { intros s1 rs1 rc1 ll1 (Hr1 & Ht1 & Hf1 & a1 & Ha1 & Er1). rewrite gets_bind, Er1. eexists. split.
    - rewrite (bind_ok _ _ _ tt _) by done. cbn [read_max]. unfold mret, stm_ret. do 2 f_equal.
      destruct (Z.eqb_spec (n - t') 0), (Z.eqb_spec t' n); try done; lia.
    - split; [exact Hr1|]. split; [done|]. split; [exact Hf1|]. by exists a1. }
  destruct (Z.ltb_spec (n - t) (rc * B)) as [Hshort|Hfull].
  - destruct (dump_blocks_ok s rs rc ll t (rc - 1) Hp Hll Hpos) as (s1 & E1 & Hp1);
      [lia|unfold MAX_READ_RANGE; lia|lia|intros; apply Hmap; lia|].
    rewrite (bind_ok _ _ _ _ _ E1). cbn [negb]. replace (rc - (rc - 1)) with 1 in Hp1 by lia.
    assert (maps (ll + (rc - 1)) = Some (rs + (rc - 1))) as Hm by (apply Hmap; lia).
    destruct (maps_ok _ _ Hm ltac:(lia)) as [[Hb1 _] _].
    assert ((if rc - 1 =? 0 then rs else u32 (rs + (rc - 1))) = rs + (rc - 1)) as Ers.
    { destruct (Z.eqb_spec (rc - 1) 0); [lia|]. apply u32_small. lia. }
    rewrite Ers in Hp1. destruct (dump_rest_ok _ _ _ _ _ Hp1) as (s2 & E2 & Hp2); [lia|right; right; split_and!; [done|lia|done|lia]|].
    rewrite (bind_ok _ _ _ _ _ E2). cbn [negb]. cbn [Z.eqb] in Hp2. assert (t' = n) as Et by lia. rewrite <- Et in Hp2 at 1.
    destruct (Hend _ _ _ _ Hp2) as (s3 & E3 & Hp3). exists s3, (ll + (rc - 1)). split; [exact E3|]. split; [exact Hp3|lia].
  - destruct (dump_blocks_ok s rs rc ll t rc Hp Hll Hpos) as (s1 & E1 & Hp1);
      [lia|unfold MAX_READ_RANGE; lia|lia|done|].
    rewrite (bind_ok _ _ _ _ _ E1). cbn [negb]. rewrite Z.sub_diag in Hp1.
    destruct (dump_rest_ok _ _ _ _ _ Hp1) as (s2 & E2 & Hp2); [lia|by right; left|].
    rewrite (bind_ok _ _ _ _ _ E2). cbn [negb]. cbn [Z.eqb] in Hp2. assert (t + rc * B = t') as Et by lia. rewrite Et in Hp2.
    destruct (Hend _ _ _ _ Hp2) as (s3 & E3 & Hp3). exists s3, (ll + rc). split; [exact E3|]. by split.
Qed.

Lemma progress_last_logical s rs rc ll t l : progress s rs rc ll t → progress (with_rd s (set_last_logical l (rd s))) rs rc l t.
Proof. intros (Hr & Ht & Hf & a & Ha & Er). split; [exact Hr|]. split; [done|]. split; [done|]. exists a. by rewrite Er. Qed.

(** the whole blocks of a hole before block [lg] *)
Lemma fill_blocks_ok s ll t lg : progress s 0 0 ll t → t < n → 0 <= ll → ll * B = p0 + t → ll <= lg → (lg + 1) * B < 4294967296 →
  (∀ j, ll <= j < lg → maps j = None) →
  ∃ s' l' t', fill_blocks lg s = (Ok (t' <? n), s') ∧ progress s' 0 0 l' t' ∧
    (t' < n → l' = lg ∧ p0 + t' = lg * B) ∧ (t' = n → p0 + n <= lg * B).
Proof.
  intros Hp Hlt Hll Hpos Hle Hlg Hhole. pose proof Hp as (Hr & Ht & _ & a & _ & Er). destruct B_ok as [HB _].
  pose proof Hr as (_ & _ & _ & Hb & _). unfold fill_blocks. rewrite !gets_bind, Hb, Er. cbn [read_last_logical].
  destruct (block_small lg B 4294967296 ltac:(lia) HB Hlg) as [Hlg32 Hlg0].
  pose proof (Z.mul_le_mono_nonneg_r ll lg B ltac:(lia) Hle).
  rewrite (u32_small ((lg - ll) * B)), (u32_small lg) by lia.
  destruct (Z.eqb_spec ((lg - ll) * B) 0) as [Hz|Hz].
  - rewrite (bind_ok _ _ _ tt s) by done. rewrite gets_bind, Er. cbn [negb andb]. rewrite <- Er.
    exists (with_rd s (set_last_logical lg (rd s))), lg, t. rewrite (proj2 (Z.ltb_lt t n)) by done.
    split; [done|]. split; [by apply (progress_last_logical _ _ _ ll)|]. split; [lia|lia].
  - destruct (zero_fill_ok s 0 0 ll t ((lg - ll) * B) Hp Hlt) as (s1 & E1 & Hp1); [lia| |].
    { intros j Hj Hjk. apply Hhole. rewrite <- Hpos, Z.div_mul in Hj by lia. split; [done|].
      apply (Z.mul_lt_mono_pos_r B); lia. }
    set (t' := t + Z.min ((lg - ll) * B) (n - t)) in *. rewrite (bind_ok _ _ _ _ _ E1).
    pose proof Hp1 as (_ & _ & _ & a1 & _ & Er1). rewrite gets_bind, Er1. cbn [negb andb read_max].
    destruct (Z.eqb_spec (n - t') 0) as [Hn|Hn].
    + exists s1, ll, t'. rewrite (proj2 (Z.ltb_ge t' n)) by lia. split; [done|]. split; [done|]. split; lia.
    + rewrite <- Er1. exists (with_rd s1 (set_last_logical lg (rd s1))), lg, t'. rewrite (proj2 (Z.ltb_lt t' n)) by lia.
      split; [done|]. split; [by apply (progress_last_logical _ _ _ ll)|]. split; lia.
Qed.

(** the hole between where the read is and a block behind *)
Lemma fill_hole_ok s t lg : let ll := (p0 + t) / B in
  progress s 0 0 ll t → t < n → ll <= lg → (lg + 1) * B < 4294967296 → (∀ j, ll <= j < lg → maps j = None) →
  ∃ s' l' t', fill_hole lg s = (Ok (t' <? n), s') ∧ progress s' 0 0 l' t' ∧
    (t' < n → l' = lg ∧ t' = if ll =? lg then t else lg * B - p0) ∧ (t' = n → p0 + n <= lg * B).
Proof.
  intros ll Hp Hlt Hle Hlg Hhole. pose proof Hp as (Hr & Ht & Hf & a & _ & Er). destruct B_ok as [HB _].
  pose proof Hr as (_ & _ & _ & Hb & _). change INT_MAX with 2147483647 in n_ok.
  assert (0 <= ll) as Hll by (apply Z.div_pos; lia).
  destruct (block_small lg B 4294967296 ltac:(lia) HB Hlg) as [Hlg32 Hlg0].
  unfold fill_hole. rewrite gets_bind, Er. cbn [read_last_logical]. rewrite (u32_small lg) by lia.
  destruct (Z.eqb_spec ll lg) as [Heq|Hne].
  { rewrite (proj2 (Z.eqb_eq lg ll)), orb_true_r by done. exists s, ll, t. rewrite (proj2 (Z.ltb_lt t n)) by done.
    split; [done|]. split; [done|]. split; [done|lia]. }
  rewrite (proj2 (Z.eqb_neq lg ll)), (proj2 (Z.eqb_neq lg 0)) by lia. cbn [orb]. rewrite !gets_bind, Hf, Hb.
  cbn [pos set_pos]. rewrite (bind_ok _ _ _ ((p0 + t) `mod` B) s)
    by (unfold by_bsize; rewrite gets_bind, Hb, (proj2 (Z.eqb_neq B 0)) by lia; done).
  pose proof (Z.div_mod (p0 + t) B ltac:(lia)) as Hdm. fold ll in Hdm. pose proof (Z.mod_pos_bound (p0 + t) B HB) as Hmb.
  set (o := (p0 + t) `mod` B) in *.
  pose proof (Z.mul_le_mono_nonneg_r (ll + 1) lg B ltac:(lia) ltac:(lia)) as Hnext.
  destruct (Z.eqb_spec o 0) as [Ho|Ho].
  - destruct (fill_blocks_ok s ll t lg) as (s' & l' & t' & E & Hp' & Hlt' & Hn'); try done; [lia|].
    exists s', l', t'. split; [done|]. split; [done|]. split; [|done]. intros Hl. destruct (Hlt' Hl). lia.
  - destruct (zero_fill_ok s 0 0 ll t (B - o) Hp Hlt) as (s1 & E1 & Hp1); [lia| |].
    { fold ll. intros j Hj Hjk. apply Hhole. split; [done|]. apply (Z.mul_lt_mono_pos_r B); lia. }
    set (t1 := t + Z.min (B - o) (n - t)) in *. rewrite (bind_ok _ _ _ _ _ E1).
    pose proof Hp1 as (_ & _ & _ & a1 & _ & Er1). rewrite gets_bind, Er1. cbn [read_last_logical read_max].
    rewrite (u32_small (ll + 1)) by lia. rewrite <- Er1.
    pose proof (progress_last_logical _ _ _ _ _ (ll + 1) Hp1) as Hp2.
    rewrite (bind_ok _ _ _ tt (with_rd s1 (set_last_logical (ll + 1) (rd s1)))) by done.
    destruct (Z.eqb_spec (n - t1) 0) as [Hn|Hn].
    + eexists _, _, t1. rewrite (proj2 (Z.ltb_ge t1 n)) by lia. split; [reflexivity|]. split; [exact Hp2|]. split; lia.
    + destruct (fill_blocks_ok _ (ll + 1) t1 lg Hp2) as (s' & l' & t' & E & Hp' & Hlt' & Hn'); try lia.
      { intros j Hj. apply Hhole. lia. }
      exists s', l', t'. split; [exact E|]. split; [done|]. split; [|done]. intros Hl. destruct (Hlt' Hl). lia.
Qed.

Lemma by_bsize_ok s f x : bsize s = B → by_bsize f x s = (Ok (f x B), s).
Proof. intros Hb. unfold by_bsize. rewrite gets_bind, Hb, (proj2 (Z.eqb_neq B 0)) by (destruct B_ok; lia). done. Qed.

Lemma ready_heap s w h : ready s → inv w → ready (with_heap (with_fw s w) h).
Proof. intros (? & ? & ? & ? & ? & ? & ? & _) Hw. by split_and!. Qed.

(** a read that starts inside a block *)
Lemma read_unaligned_ok s b lg t : let o := (p0 + t) `mod` B in let t' := Z.min (t + (B - o)) n in
  progress s 0 0 lg t → t < n → lg = (p0 + t) / B → maps lg = Some b →
  ∃ s', read_unaligned b lg o s = (Ok (if t' =? n then BLOCK_ABORT else 0), s') ∧ progress s' 0 0 (lg + 1) t'.
Proof.
  intros o t' Hp Hlt Hlg Hm. pose proof Hp as (Hr & Ht & Hf & a & Ha & Er). destruct B_ok as [HB _].
  rewrite (Ha Hlt) in Er. clear a Ha. pose proof Hr as (_ & _ & _ & Hb & _). change INT_MAX with 2147483647 in n_ok.
  pose proof (Z.div_mod (p0 + t) B ltac:(lia)) as Hdm. pose proof (Z.mod_pos_bound (p0 + t) B HB) as Hmb.
  rewrite <- Hlg in Hdm. fold o in Hdm, Hmb. assert (0 <= lg) as Hlg0 by (subst lg; apply Z.div_pos; lia).
  destruct (maps_ok lg b Hm Hlg0) as [Hok Hend]. destruct (block_small lg B 4294967296 Hlg0 HB Hend) as [Hlg32 _].
  unfold read_unaligned. rewrite !gets_bind, Hb. set (k := Z.min (B - o) (n - t)).
  destruct (read_block_ok s b o k (block_buffer s) Hr) as (s1 & w & h & E1 & E2 & Es1 & Hw & El); [by rewrite Hf|done|done|lia|lia|lia|].
  rewrite (bind_ok _ _ _ _ _ E1), (bind_ok _ _ _ _ _ E2), gets_bind. cbn [Z.eqb negb].
  assert (rd s1 = rd s) as Erd by (by rewrite Es1). rewrite Erd, Er. set (r0 := Range _ _ _ _ _ _ _ _).
  change (Z.min (B - o) (read_max r0)) with k.
  assert (e_load (block_buffer s + o) k s1 = (Ok (bytes (p0 + t) k), s1)) as E3.
  { unfold e_load, gets. rewrite Es1. cbn [e_heap with_heap]. rewrite El. do 2 f_equal. destruct Hok as (Hb0 & Hin & _).
    replace (p0 + t) with (lg * B + o) by lia. symmetry. pose proof (Z.mul_nonneg_nonneg b B ltac:(lia) ltac:(lia)).
    apply mapped_bytes; try done; try lia. intros j Hj Hjk. assert (j = 0) as ->; [|by rewrite !Z.add_0_r].
    apply Z.le_antisymm; [|done]. apply Z.lt_succ_r, (Z.mul_lt_mono_pos_r B); lia. }
  rewrite (bind_ok _ _ _ _ _ E3).
  rewrite (bind_ok _ _ _ _ _ (put_bytes_ok s1 r0 t k eq_refl eq_refl ltac:(lia) ltac:(lia) ltac:(lia))).
  assert (t + k = t') as Etk by lia. eexists. split.
  - rewrite (bind_ok _ _ _ tt _) by done. rewrite (bind_ok _ _ _ tt _) by done. rewrite gets_bind. cbn [rd with_rd].
    unfold set_result, set_last_logical, got. cbn [r0 read_max]. rewrite u32_small by lia.
    unfold mret, stm_ret. do 2 f_equal. destruct (Z.eqb_spec (n - t - k) 0), (Z.eqb_spec t' n); try done; lia.
  - split; [subst s1; by apply (ready_heap s w h)|]. split; [lia|]. cbn [e_file with_file with_rd rd].
    split; [rewrite Es1; cbn [e_file with_heap with_fw]; rewrite Hf; unfold set_pos; cbn; f_equal; rewrite u64_small by lia; lia|].
    exists t'. split; [done|]. unfold set_result, set_last_logical, got.
    cbn [r0 read_range_start read_range_count read_last_logical read_total read_max read_at read_result read_buffer].
    rewrite !u32_small by lia. rewrite Etk. f_equal; lia.
Qed.

(** between two calls of the iterator: the blocks before [c] were seen *)
Definition between (c : Z) s : Prop := ∃ rs rc ll t, progress s rs rc ll t ∧ t < n ∧ 0 <= c ∧
  (rs = 0 ∧ rc = 0 ∧ ll = (p0 + t) / B ∧ c <= ll ∧ (t = 0 ∨ p0 + t = c * B) ∨
   rs ≠ 0 ∧ pending rs rc ll t ∧ c = ll + rc ∧ rc * B < n - t).

(** nothing is left to read but what is pending *)
Definition finished s : Prop := p0 + n <= blocks_end 0 calls * B ∧
  ((∃ ll, progress s 0 0 ll n) ∨ ∃ rs rc ll t, rs ≠ 0 ∧ progress s rs rc ll t ∧ pending rs rc ll t ∧ n - t <= rc * B).

Definition step_post (c r : Z) s : Prop := if r =? BLOCK_ABORT then finished s else r = 0 ∧ between c s.

Lemma start_range_ok s t lg b : let ll := (p0 + t) / B in
  progress s 0 0 ll t → t < n → ll <= lg → maps lg = Some b → (∀ j, ll <= j < lg → maps j = None) →
  (lg + 1) * B <= blocks_end 0 calls * B →
  ∃ r s', start_range b lg s = (Ok r, s') ∧ step_post (lg + 1) r s'.
Proof.
  intros ll Hp Hlt Hle Hm Hhole Hend. destruct B_ok as [HB _]. change INT_MAX with 2147483647 in n_ok.
  pose proof Hp as (_ & Ht & _). assert (0 <= ll) as Hll by (apply Z.div_pos; lia).
  destruct (maps_ok lg b Hm ltac:(lia)) as [Hok Hsmall].
  destruct (fill_hole_ok s t lg Hp Hlt Hle Hsmall Hhole) as (s1 & l1 & t1 & E1 & Hp1 & Hon & Hoff).
  unfold start_range. rewrite (bind_ok _ _ _ _ _ E1). pose proof Hp1 as (Hr1 & Ht1 & Hf1 & a1 & Ha1 & Er1).
  destruct (Z.ltb_spec t1 n) as [Hlt1|Hge]; cbn [negb].
  2: { assert (t1 = n) as -> by lia. exists BLOCK_ABORT, s1. split; [done|]. split; [specialize (Hoff eq_refl); lia|].
       left. by exists l1. }
  destruct (Hon Hlt1) as [-> Et1]. pose proof Hr1 as (_ & _ & _ & Hb1 & _).
  assert ((p0 + t1) / B = lg) as Hdiv.
  { fold ll in Et1. revert Et1. destruct (Z.eqb_spec ll lg) as [Heq|]; intros Et1; rewrite Et1; [exact Heq|]. replace (p0 + (lg * B - p0)) with (lg * B) by lia.
    by rewrite Z.div_mul by lia. }
  rewrite !gets_bind, Hf1. cbn [pos set_pos]. rewrite (bind_ok _ _ _ _ _ (by_bsize_ok s1 Z.modulo (p0 + t1) Hb1)).
  pose proof (Z.div_mod (p0 + t1) B ltac:(lia)) as Hdm. rewrite Hdiv in Hdm. pose proof (Z.mod_pos_bound (p0 + t1) B HB).
  destruct (Z.eqb_spec ((p0 + t1) `mod` B) 0) as [Ho|Ho]; cbn [negb].
  - destruct Hok as [Hb0 _]. rewrite (proj2 (Z.eqb_neq b 0)) by lia. cbn [negb]. rewrite gets_bind, Er1, Hb1. cbn [read_max].
    assert (progress (with_rd s1 (set_range b 1 (rd s1))) b 1 lg t1) as Hp2.
    { split; [exact Hr1|]. split; [done|]. split; [done|]. exists a1. split; [exact Ha1|].
      by rewrite Er1. }
    assert (pending b 1 lg t1) as Hpend.
    { split; [unfold MAX_READ_RANGE; lia|]. split; [lia|]. split; [lia|]. split; [|lia]. intros j Hj.
      assert (j = 0) as -> by lia. by rewrite !Z.add_0_r. }
    rewrite <- Er1. eexists _, (with_rd s1 (set_range b 1 (rd s1))). split; [reflexivity|]. unfold step_post.
    destruct (Z.leb_spec (n - t1) B) as [Hfin|Hmore]; cbn [Z.eqb].
    + split; [lia|]. right. exists b, 1, lg, t1. split; [lia|]. split; [done|]. split; [done|lia].
    + split; [done|]. exists b, 1, lg, t1. split; [done|]. split; [done|]. split; [lia|]. right. split_and!; [lia|done|done|lia].
  - destruct (read_unaligned_ok s1 b lg t1 Hp1 Hlt1 (eq_sym Hdiv) Hm) as (s2 & E2 & Hp2).
    set (t2 := Z.min (t1 + (B - (p0 + t1) `mod` B)) n) in *.
    eexists _, s2. split; [exact E2|]. unfold step_post. destruct (Z.eqb_spec t2 n) as [Hfin|Hmore]; cbn [Z.eqb].
    + split; [lia|]. left. exists (lg + 1). by rewrite Hfin in Hp2.
    + split; [done|]. exists 0, 0, (lg + 1), t2. split; [done|]. split; [lia|]. split; [lia|]. left.
      assert (p0 + t2 = (lg + 1) * B) as E by lia. split_and!; try done; [|right; done].
      by rewrite E, Z.div_mul by lia.
Qed.

(** what is known when the calls left are [l] *)
Definition iterating (l : list (Z * Z)) s : Prop := ∃ c, between c s ∧ in_order c l ∧ (∀ k, c <= k → maps k = block_at l k) ∧
  blocks_end 0 calls = blocks_end c l.

Lemma between_fw c s w : between c s → inv w → between c (with_fw s w).
Proof. intros (rs & rc & ll & t & Hp & Hrest) Hw. exists rs, rc, ll, t. split; [by apply progress_fw|done]. Qed.

Lemma finished_fw s w : finished s → inv w → finished (with_fw s w).
Proof.
  intros [He [[ll Hp]|(rs & rc & ll & t & Hrs & Hp & Hrest)]] Hw; (split; [done|]); [left; exists ll|right; exists rs, rc, ll, t];
    [by apply progress_fw|split; [done|]; split; [by apply progress_fw|done]].
Qed.

Lemma step_post_mono c c' r s : step_post c r s → c' = c → step_post c' r s.
Proof. by intros ? ->. Qed.

(** a block that is not the next one of the range *)
Lemma new_range_ok s c lg b : between c s → c <= lg → maps lg = Some b → (∀ j, c <= j < lg → maps j = None) →
  (lg + 1) * B <= blocks_end 0 calls * B → (pos (e_file s)) / B <= lg →
  ∃ r s', (done ← (if read_range_start (rd s) =? 0 then mret 0 else read_dump_range);
    if negb (done =? 0) then mret BLOCK_ABORT else start_range b lg) s = (Ok r, s') ∧ step_post (lg + 1) r s'.
Proof.
  intros (rs & rc & ll & t & Hp & Hlt & Hc & Hcase) Hle Hm Hhole Hend. pose proof Hp as (_ & Ht & Hf & a & _ & Er).
  rewrite Hf. cbn [pos set_pos]. intros Hfirst. rewrite Er. cbn [read_range_start]. destruct B_ok as [HB _].
  destruct Hcase as [(-> & -> & -> & Hcl & Ht0)|(Hrs & Hpend & -> & Hrc)].
  - cbn [Z.eqb]. rewrite ret_bind. cbn [Z.eqb negb]. apply (start_range_ok s t); try done. intros j Hj. apply Hhole. lia.
  - rewrite (proj2 (Z.eqb_neq rs 0)) by done. destruct (read_dump_range_ok s rs rc ll t Hp Hpend) as (s1 & l1 & E1 & Hp1 & Hl1).
    assert (Z.min (t + rc * B) n = t + rc * B) as Em by lia. rewrite Em in E1, Hp1, Hl1.
    rewrite (bind_ok _ _ _ _ _ E1). rewrite (proj2 (Z.eqb_neq (t + rc * B) n)) by lia. cbn [Z.eqb negb].
    rewrite Hl1 in Hp1 by lia. destruct Hpend as (_ & _ & Hpos & _).
    assert ((p0 + (t + rc * B)) / B = ll + rc) as Ediv.
    { replace (p0 + (t + rc * B)) with ((ll + rc) * B) by lia. by rewrite Z.div_mul by lia. }
    apply (start_range_ok s1 (t + rc * B)); rewrite ?Ediv; try done; lia.
Qed.

Lemma iterator_ok b lg l s : iterating ((b, lg) :: l) s →
  ∃ r s', read_iterator b lg s = (Ok r, s') ∧ if r =? BLOCK_ABORT then finished s' else r = 0 ∧ iterating l s'.
Proof.
  intros (c & Hbet & Hord & Hmaps & Hend). cbn [in_order blocks_end block_at] in *. unfold read_iterator.
  destruct (Z.ltb_spec lg 0) as [Hneg|Hpos].
  { exists 0, s. split; [done|]. split; [done|]. exists c. split; [done|]. split; [done|]. split; [|done].
    intros k Hk. rewrite Hmaps by done. rewrite (proj2 (Z.eqb_neq lg k)); [done|]. destruct Hbet as (? & ? & ? & ? & _ & _ & ? & _). lia. }
  destruct Hord as [Hcl Hord]. pose proof Hbet as (rs & rc & ll & t & Hp & Hlt & Hc & Hcase).
  pose proof Hp as (Hr & Ht & Hf & a & Ha & Er). destruct B_ok as [HB Hmax]. change INT_MAX with 2147483647 in Hmax, n_ok.
  assert (maps lg = Some b) as Hm by (rewrite Hmaps by done; by rewrite Z.eqb_refl).
  assert (∀ j, c <= j < lg → maps j = None) as Hhole.
  { intros j Hj. rewrite Hmaps, (proj2 (Z.eqb_neq lg j)) by lia. apply (block_at_before l (lg + 1)); [done|lia]. }
  assert (∀ k, lg + 1 <= k → maps k = block_at l k) as Hnext.
  { intros k Hk. rewrite Hmaps, (proj2 (Z.eqb_neq lg k)) by lia. done. }
  pose proof (blocks_end_le _ _ Hord) as Hle. rewrite <- Hend in Hle.
  pose proof (Z.mul_le_mono_nonneg_r _ _ B ltac:(lia) Hle) as HleB.
  assert (∀ r s', step_post (lg + 1) r s' → if r =? BLOCK_ABORT then finished s' else r = 0 ∧ iterating l s') as Hpost.
  { intros r s'. unfold step_post. destruct (r =? BLOCK_ABORT); [done|]. intros [-> Hb']. split; [done|]. by exists (lg + 1). }
  destruct (maps_ok lg b Hm Hpos) as [[Hb0 _] Hsmall]. destruct (block_small lg B 4294967296 Hpos HB Hsmall) as [Hlg32 _].
  pose proof Hr as (_ & _ & _ & Hbs & _). rewrite !gets_bind, Hbs.
  rewrite (bind_ok _ _ _ _ _ (by_bsize_ok s Z.div (pos (e_file s)) Hbs)).
  assert (pos (e_file s) = p0 + t) as Epos by (by rewrite Hf). rewrite Epos.
  destruct (Z.ltb_spec lg ((p0 + t) / B)) as [Hskip|Hfirst].
  { exists 0, s. split; [done|]. apply Hpost. split; [done|]. exists rs, rc, ll, t. split; [done|]. split; [done|]. split; [lia|].
    destruct Hcase as [(-> & -> & -> & Hcl' & Ht0)|(Hrs & (Hrc & Hll & Hlp & _) & -> & _)].
    - left. split_and!; try done; [lia|]. left. destruct Ht0 as [|E]; [done|]. rewrite E, Z.div_mul in Hskip by lia. lia.
    - exfalso. rewrite <- Hlp, Z.div_mul in Hskip by lia. lia. }
  destruct (contiguous (rd s) b lg) eqn:Hcont.
  - rewrite Er in *. unfold contiguous in Hcont. cbn [read_range_start read_range_count read_last_logical] in Hcont.
    rewrite !andb_true_iff, negb_true_iff, Z.eqb_neq, Z.ltb_lt, !Z.eqb_eq in Hcont. destruct Hcont as (((Hrs & Hrc) & Hbn) & Hln).
    destruct Hcase as [(? & _)|(_ & (Hrc1 & Hll & Hlp & Hmap & _) & -> & Hrcb)]; [done|].
    destruct (maps_ok (ll + (rc - 1)) (rs + (rc - 1))) as [[Hlast _] Hlsm]; [apply Hmap; lia|lia|].
    destruct (block_small (ll + (rc - 1)) B 4294967296 ltac:(lia) HB Hlsm) as [Hl32 _].
    assert (rs + rc < 4294967296) as Hrs32.
    { destruct (Z.eq_dec (rs + rc) 4294967296) as [E|]; [rewrite E in Hbn; change (u32 4294967296) with 0 in Hbn|]; lia. }
    assert (ll + rc < 4294967296) as Hlc32 by lia.
    rewrite u32_small in Hbn by (unfold block_ok in *; lia). rewrite u32_small in Hln by lia. rewrite u32_small in Hln by lia. subst b lg.
    cbn [read_range_start read_range_count read_max]. unfold MAX_READ_RANGE in *.
    pose proof (mul_bounds (rc + 1) 256 B _ ltac:(lia) HB Hmax) as Hcb.
    rewrite (u32_small (rc + 1)) by lia. rewrite (u32_small ((rc + 1) * B)) by lia.
    set (s1 := with_rd s (set_range rs (rc + 1) (Range rs rc ll t (n - t) 0 (store buf0 0 (bytes p0 t)) a))).
    assert (progress s1 rs (rc + 1) ll t) as Hp1 by (split; [exact Hr|]; split; [done|]; split; [done|]; by exists a).
    assert (pending rs (rc + 1) ll t) as Hpend.
    { split; [unfold MAX_READ_RANGE; lia|]. split; [done|]. split; [done|]. split; [|lia]. intros j Hj.
      destruct (decide (j = rc)) as [->|]; [done|]. apply Hmap. lia. }
    eexists _, s1. split; [reflexivity|]. apply Hpost. unfold step_post.
    destruct (Z.leb_spec (n - t) ((rc + 1) * B)) as [Hfin|Hmore]; cbn [Z.eqb].
    + split; [lia|]. right. by exists rs, (rc + 1), ll, t.
    + split; [done|]. exists rs, (rc + 1), ll, t. split; [done|]. split; [done|]. split; [lia|]. right. split_and!; try done; lia.
  - destruct (new_range_ok s c lg b Hbet Hcl Hm Hhole HleB) as (r & s' & E & Hs'); [by rewrite Epos|].
    exists r, s'. split; [exact E|]. by apply Hpost.
Qed.

(** what is pending when the calls are over *)
Definition flush : stm (est F FS) fault Z :=
  r ← gets rd;
  if (0 =? 0) && negb (read_range_start r =? 0) then _ ← read_dump_range; r ← gets rd; mret (read_result r) else mret 0.

Lemma flush_ok s : finished s ∨ iterating [] s → let m := Z.min n (Z.max 0 (blocks_end 0 calls * B - p0)) in
  ∃ s' rs rc ll, flush s = (Ok 0, s') ∧ progress s' rs rc ll m.
Proof.
  intros Hs m. destruct B_ok as [HB _].
  assert (∀ rs rc ll t, rs ≠ 0 → progress s rs rc ll t → pending rs rc ll t → Z.min (t + rc * B) n = m →
    ∃ s' rs' rc' ll', flush s = (Ok 0, s') ∧ progress s' rs' rc' ll' m) as Hdump.
  { intros rs rc ll t Hrs Hp Hpend Em. destruct (read_dump_range_ok s rs rc ll t Hp Hpend) as (s1 & l1 & E1 & Hp1 & _).
    rewrite Em in E1, Hp1. unfold flush. pose proof Hp as (_ & _ & _ & a & _ & Er). rewrite gets_bind, Er. cbn [read_range_start].
    rewrite (proj2 (Z.eqb_neq rs 0)) by done. cbn [Z.eqb negb andb]. rewrite (bind_ok _ _ _ _ _ E1), gets_bind.
    pose proof Hp1 as (_ & _ & _ & a1 & _ & Er1). rewrite Er1. by exists s1, 0, 0, l1. }
  assert (∀ rc ll t, progress s 0 rc ll t → t = m → ∃ s' rs' rc' ll', flush s = (Ok 0, s') ∧ progress s' rs' rc' ll' m) as Hdone.
  { intros rc ll t Hp ->. pose proof Hp as (_ & _ & _ & a & _ & Er). unfold flush. rewrite gets_bind, Er. by exists s, 0, rc, ll. }
  destruct Hs as [[Hend [[ll Hp]|(rs & rc & ll & t & Hrs & Hp & Hpend & Hle)]]|(c & Hbet & _ & _ & Hend)].
  - apply (Hdone 0 ll n Hp). lia.
  - apply (Hdump rs rc ll t); try done. pose proof Hp as (_ & Ht & _). lia.
  - cbn [blocks_end] in Hend. assert (m = Z.min n (Z.max 0 (c * B - p0))) as Em by (unfold m; by rewrite Hend).
    destruct Hbet as (rs & rc & ll & t & Hp & Hlt & Hc & Hcase). clearbody m.
    pose proof Hp as (_ & Ht & _). destruct Hcase as [(-> & -> & -> & Hcl & Ht0)|(Hrs & Hpend & -> & Hrc)].
    + apply (Hdone 0 ((p0 + t) / B) t Hp). clear Hdone Hdump Hp. destruct Ht0 as [->|E]; [|lia]. rewrite Z.add_0_r in Hcl.
      pose proof (Z.mul_div_le p0 B HB) as H0. pose proof (Z.mul_le_mono_nonneg_r c (p0 / B) B ltac:(lia) Hcl) as Hmul.
      revert H0 Hmul. clear Hcl. generalize (p0 / B). intros q ? ?. lia.
    + apply (Hdump rs rc ll t); try done. destruct Hpend as (Hrc1 & _ & Hpos & _). pose proof (Z.mul_nonneg_nonneg rc B ltac:(lia) ltac:(lia)). lia.
Qed.

Context (ino : Z) `{!IteratesBlocks inv fs ino calls} (env : prom_env) (inode_ok : inode file0 = ino) (start : pos file0 = p0).

Lemma ext2_read_ok s : ready s → let m := Z.min n (Z.max 0 (blocks_end 0 calls * B - p0)) in
  ∃ s', ext2_read env file0 n buf0 s = (Ok (m, store buf0 0 (bytes p0 m), set_pos (p0 + m) file0), s') ∧ ready s'.
Proof.
  intros Hr m. destruct B_ok as [HB Hmax]. change INT_MAX with 2147483647 in Hmax. pose proof n_ok as [Hn Hnl].
  change INT_MAX with 2147483647 in Hn. pose proof Hr as (Hop & Hfs & _ & Hb & _).
  unfold ext2_read. rewrite gets_bind, Hop. cbn [negb]. rewrite (bind_ok _ _ _ tt (with_file s file0)) by done.
  rewrite (bind_ok _ _ _ _ _ (by_bsize_ok (with_file s file0) Z.div (pos file0) Hb)). rewrite start.
  assert (0 <= p0 / B <= p0) as Hdiv by (split; [apply Z.div_pos; lia|apply Z.div_le_upper_bound; nia]).
  rewrite (u32_small (p0 / B)) by lia.
  set (s0 := with_rd (with_file s file0) (Range 0 0 (p0 / B) 0 n 0 buf0 0)). rewrite (bind_ok _ _ _ tt s0) by done.
  rewrite gets_bind. change (e_fs s0) with (e_fs s). rewrite Hfs.
  assert (iterating calls s0) as Hstart.
  { exists 0. split.
    - exists 0, 0, (p0 / B), 0. split; [|split; [lia|]; split; [lia|]; left; rewrite Z.add_0_r; split_and!; try done; [lia|by left]].
      split; [exact Hr|]. split; [lia|]. rewrite Z.add_0_r, Z.sub_0_r. split; [rewrite <- start; by destruct file0|].
      exists 0. split; [done|]. unfold s0. reflexivity.
    - split; [apply calls_ok|]. by split. }
  destruct (iterate_rule (FS := FS) (inv := inv) (fs := fs) (ino := ino) (calls := calls) read_iterator iterating
    (λ s, finished s ∨ iterating [] s)) with s0 as (s1 & E1 & Hs1); try done.
  { intros l t w (c & Hc & Hrest) Hw. exists c. split; [by apply between_fw|done]. }
  { intros t w [Hq|(c & Hc & Hrest)] Hw; [left; by apply finished_fw|right]. exists c. split; [by apply between_fw|done]. }
  { intros b lg l t Ht. destruct (iterator_ok b lg l t Ht) as (r & s' & E & Hs'). exists r, s'. split; [done|].
    destruct (r =? BLOCK_ABORT); [by left|done]. }
  { intros t Ht. by right. }
  rewrite inode_ok, (bind_ok _ _ _ _ _ E1). rewrite gets_bind. change (0 =? BLOCK_ABORT) with false. cbv zeta. cbn match.
  destruct (flush_ok s1 Hs1) as (s2 & rs & rc & ll & E2 & Hp2). fold m in Hp2. unfold flush in E2. rewrite gets_bind in E2.
  rewrite (bind_ok _ _ _ _ _ E2). cbn [Z.eqb]. rewrite ret_bind.
  pose proof Hp2 as (Hr2 & Ht2 & Hf2 & a & _ & Er2). rewrite !gets_bind, Er2, Hf2. cbn [read_total read_buffer].
  rewrite s32_small by (change INT_MAX with 2147483647; unfold INT_MIN; lia). exists s2. by split.
Qed.
End read.

(** ** In the file layer *)

(** the place of the static variables among those of the file systems; the heap is the one
    of the program *)
Class Ext2State (X FS : Type) := {
  ext2_static : X → est unit FS;
  set_ext2_static : est unit FS → X → X;
}.

Section layer.
Context {F : Type} `{Firmware F} {X FS : Type} `{Ext2State X FS} `{Libext2 (est F FS) FS}.

Definition on_ext2 {A} (m : stm (est F FS) fault A) : stm (fstate F X) fault A := λ s,
  let b := f_base s in
  let '(r, x) := m (with_heap (with_fw (ext2_static (f_priv s)) (pfw b)) (pheap b)) in
  (r, FState (PState (Partition.block_buffer b) (plist b) (e_heap x) (e_fw x)) (f_bufs s) (fserrorno s)
        (set_ext2_static (with_fw x tt) (f_priv s))).

Definition ext2_open (low : list Z) (bplan : bool) : open_fn F X := λ file part fspec,
  on_ext2 (ext2_open_file low bplan file part fspec).
End layer.

(** ** Opening and closing *)

Section opening.
Context {F : Type} `{Firmware F} {FS : Type} `{!Libext2 (est F FS) FS}.
Implicit Types s : est F FS.

(** what the variables of the reader are between its operations *)
Definition consistent s : Prop :=
  length (open_buffer s) = 1024%nat ∧
  if opened s then e_fs s ≠ None ∧ block_buffer s ≠ 0 ∧ cur_file s = true else e_fs s = None ∧ block_buffer s = 0.

(** the library reaches the state through the I/O manager only, which changes neither the
    file nor these variables *)
Definition framed s s' : Prop :=
  opened s' = opened s ∧ e_fs s' = e_fs s ∧ block_buffer s' = block_buffer s ∧ cur_file s' = cur_file s ∧
  e_file s' = e_file s ∧ open_buffer s' = open_buffer s.

(** there is memory for the name of the I/O channel, the allocation of which [linux_open]
    does not check *)
Definition name_fits (name : list Z) (h : heap) : Prop :=
  (malloc sizeof_io_channel h).1 = 0 ∨ (malloc (Z.of_nat (length name) + 1) (malloc sizeof_io_channel h).2).1 ≠ 0.

Class Framed := {
  open_framed name s : block_buffer s = 0 → name_fits name (e_heap s) → ∃ e fs s', ext2fs_open struct_linux_manager name EXT2_FLAG_RW s = (Ok (e, fs), s') ∧
    framed s s' ∧ (e = 0 → fs ≠ None);
  namei_framed fs root cwd name s : ∃ e ino s', ext2fs_namei_follow fs root cwd name s = (Ok (e, ino), s') ∧ framed s s';
  close_framed fs s : ∃ e s', ext2fs_close fs s = (Ok e, s') ∧ framed s s';
}.
Context `{!Framed}.

(** the file system closed, if there is one *)
Lemma close_fs_ok s (o : option FS) :
  ∃ s', (match o with Some fs => _ ← ext2fs_close fs; mret tt | None => mret tt end) s = (Ok tt, s') ∧ framed s s'.
Proof.
  destruct o as [fs|]; [|exists s; by split_and!]. destruct (close_framed fs s) as (e & s' & E & Hf).
  exists s'. split; [by rewrite (bind_ok _ _ _ _ _ E)|done].
Qed.

Lemma free_ok s p : ∃ s', (if p =? 0 then mret tt else e_free p) s = (Ok tt, s') ∧ framed s s'.
Proof. destruct (p =? 0); eexists; split; try reflexivity; by split_and!. Qed.

Lemma bail_ok s e : opened s = false → length (open_buffer s) = 1024%nat →
  ∃ s', bail e s = (Ok (e, e_file s), s') ∧ consistent s' ∧ opened s' = false ∧ e_file s' = e_file s.
Proof.
  intros Ho Hl. unfold bail. rewrite gets_bind. destruct (close_fs_ok s (e_fs s)) as (s1 & E1 & H1).
  rewrite (bind_ok _ _ _ _ _ E1). set (s2 := with_fs s1 None). rewrite (bind_ok _ _ _ tt s2) by done.
  set (s3 := with_fw s2 (prom_close (of_device (e_file s2)) (e_fw s2))). rewrite (bind_ok _ _ _ tt s3) by done.
  rewrite gets_bind. destruct (free_ok s3 (block_buffer s3)) as (s4 & E4 & H4). rewrite (bind_ok _ _ _ _ _ E4).
  rewrite (bind_ok _ _ _ tt (with_block_buffer s4 0)) by done.
  rewrite (bind_ok _ _ _ tt (with_cur_file (with_block_buffer s4 0) false)) by done. rewrite gets_bind.
  destruct H1 as (H11 & _ & _ & _ & H15 & H16). destruct H4 as (H41 & H42 & _ & _ & H45 & H46).
  assert (opened s4 = false) as Ho4 by (rewrite H41; cbn; by rewrite H11).
  assert (e_file s4 = e_file s) as Hf4 by (rewrite H45; cbn; by rewrite H15).
  eexists. split; [cbn; rewrite Hf4; reflexivity|]. split; [|by split]. split; [cbn; rewrite H46; cbn; by rewrite H16|].
  cbn [opened with_cur_file with_block_buffer]. rewrite Ho4. split; [cbn; rewrite H42; done|done].
Qed.

(** the state and the file after [ext2_open] *)
Definition opening (r : result fault (Z * boot_file)) s : Prop :=
  ∃ e file, r = Ok (e, file) ∧ consistent s ∧ (e = FILE_ERR_OK ↔ opened s = true) ∧
    (opened s = true → e_file s = file ∧ pos file = 0).

Lemma bail_opening s e : opened s = false → length (open_buffer s) = 1024%nat → e ≠ FILE_ERR_OK →
  opening (bail e s).1 (bail e s).2.
Proof.
  intros Ho Hl He. destruct (bail_ok s e Ho Hl) as (s' & -> & Hc & Ho' & _). exists e, (e_file s). split; [done|]. split; [done|].
  cbn [snd]. rewrite Ho'. by split.
Qed.

Lemma lookup_opening s fs name : opened s = false → e_fs s = Some fs → cur_file s = true → length (open_buffer s) = 1024%nat →
  opening (lookup fs name s).1 (lookup fs name s).2.
Proof.
  intros Ho Hfs Hcur Hl. unfold lookup.
  destruct (malloc (u32 (fs_blocksize fs * 2)) (e_heap s)) as [p h] eqn:Em.
  rewrite (bind_ok _ _ _ p (with_heap s h)) by (unfold e_malloc; by rewrite Em).
  set (s1 := with_block_buffer (with_heap s h) p). rewrite (bind_ok _ _ _ tt s1) by done.
  destruct (Z.eqb_spec p 0) as [|Hp]; [by apply bail_opening|].
  destruct (namei_framed fs EXT2_ROOT_INO EXT2_ROOT_INO name s1) as (e & ino & s2 & E2 & H1 & H2 & H3 & H4 & H5 & H6).
  rewrite (bind_ok _ _ _ _ _ E2). set (s3 := with_file s2 (set_inode ino (e_file s2))). rewrite (bind_ok _ _ _ tt s3) by done.
  assert (opened s3 = false) as Ho3 by (cbn; by rewrite H1).
  assert (length (open_buffer s3) = 1024%nat) as Hl3 by (cbn; by rewrite H6).
  destruct (Z.eqb_spec e 0) as [|He]; cbn [negb].
  2: { apply bail_opening; [done|done|]. destruct (e =? EXT2_ET_SYMLINK_LOOP); [done|]. by destruct (e =? EXT2_ET_FILE_NOT_FOUND). }
  rewrite (bind_ok _ _ _ tt (with_file s3 (set_pos 0 (e_file s3)))) by done.
  rewrite (bind_ok _ _ _ tt (with_opened (with_file s3 (set_pos 0 (e_file s3))) true)) by done. rewrite gets_bind.
  eexists _, _. split; [reflexivity|]. split; [|done]. split; [exact Hl3|]. cbn. rewrite H2, H3, H4.
  split; [by rewrite (Hfs : e_fs s1 = _)|done].
Qed.

Context (low : list Z) (bplan : bool).

Lemma ext2_open_ok file part fspec d s : consistent s → dev fspec = Some d → cstr_ok d → Z.of_nat (length d) < 1020 →
  name_fits (d ++ (if bplan then [] else bs ":0")) (e_heap s) →
  ∃ r s', ext2_open_file low bplan file part fspec s = (r, s') ∧
    if opened s then r = Ok (FILE_ERR_FSBUSY, file) ∧ s' = s else opening r s'.
Proof.
  intros [Hl Hs] Hdev Hd Hlen Hfits. unfold ext2_open_file. rewrite gets_bind. destruct (opened s) eqn:Ho; [by eexists _, _|].
  destruct Hs as [Hfs Hbb].
  destruct (negb _ && negb _).
  { eexists _, _. split; [reflexivity|]. eexists _, _. split; [reflexivity|]. split; [split; [done|by rewrite Ho]|].
    rewrite Ho. by split. }
  do 5 (erewrite bind_ok by reflexivity). rewrite gets_bind.
  match goal with |- context [open_buffer ?t] => set (s1 := t) end.
  rewrite Hdev. cbn [cstr]. set (b := store (open_buffer s1) 0 (strncpy d 1020)).
  assert (cstring b = d) as Eb by (apply cstring_strncpy; [done|lia]).
  assert (length b = 1024%nat) as Hb.
  { unfold b. etransitivity; [apply length_store; [done|]|exact Hl]. pose proof (length_strncpy d 1020).
    change (open_buffer s1) with (open_buffer s). lia. }
  rewrite Eb. set (name := d ++ (if bplan then [] else bs ":0")).
  assert (Z.of_nat (length name) < 1024) as Hn by (unfold name; rewrite length_app; destruct bplan; [|change (length (bs ":0")) with 2%nat]; cbn [length]; lia).
  rewrite (proj2 (Z.leb_gt _ _)) by lia. set (s2 := with_open_buffer s1 (store b 0 (name ++ [0]))).
  rewrite (bind_ok _ _ _ tt s2) by done. destruct (prom_open name (e_fw s2)) as [dv f] eqn:Ed.
  rewrite (bind_ok _ _ _ dv (with_fw s2 f)) by (by rewrite Ed).
  set (s3 := with_file (with_fw s2 f) (set_of_device dv file)). rewrite (bind_ok _ _ _ tt s3) by done.
  assert (length (open_buffer s3) = 1024%nat) as Hl3.
  { cbn. rewrite length_store; [done|lia|]. rewrite length_app. cbn. lia. }
  assert (opened s3 = false) as Ho3 by exact Ho.
  destruct (dv =? PROM_INVALID_HANDLE).
  { eexists _, _. split; [reflexivity|]. eexists _, _. split; [reflexivity|].
    split; [split; [exact Hl3|rewrite Ho3; by split]|]. rewrite Ho3. by split. }
  destruct (open_framed name s3 Hbb Hfits) as (e & ofs & s4 & E4 & (H1 & H2 & H3 & H4 & H5 & H6) & Hsome).
  rewrite (bind_ok _ _ _ _ _ E4), (bind_ok _ _ _ tt (with_fs s4 ofs)) by done.
  assert (opened (with_fs s4 ofs) = false) as Ho4 by (cbn; by rewrite H1).
  assert (length (open_buffer (with_fs s4 ofs)) = 1024%nat) as Hl4 by (cbn; by rewrite H6).
  destruct (Z.eqb_spec e 0) as [He|He]; cbn [negb].
  - destruct ofs as [fs|]; [|by destruct (Hsome He)].
    eexists _, _. split; [apply surjective_pairing|]. by apply lookup_opening.
  - eexists _, _. split; [apply surjective_pairing|]. by apply bail_opening.
Qed.

Lemma ext2_close_ok file s : consistent s →
  ∃ s', ext2_close file s = (Ok (if opened s then 0 else FILE_IOERR), s') ∧ consistent s' ∧ opened s' = false.
Proof.
  intros [Hl Hs]. unfold ext2_close. rewrite gets_bind. destruct (opened s) eqn:Ho; cbn [negb].
  2: { exists s. split; [done|]. split; [|done]. split; [done|by rewrite Ho]. }
  rewrite gets_bind. destruct (free_ok s (block_buffer s)) as (s1 & E1 & H1). rewrite (bind_ok _ _ _ _ _ E1).
  set (s2 := with_block_buffer s1 0). rewrite (bind_ok _ _ _ tt s2) by done. rewrite gets_bind.
  destruct (close_fs_ok s2 (e_fs s2)) as (s3 & E3 & H3). rewrite (bind_ok _ _ _ _ _ E3).
  do 3 (erewrite bind_ok by reflexivity). eexists. split; [reflexivity|]. split; [|done].
  destruct H1 as (_ & _ & _ & _ & _ & H16), H3 as (_ & _ & H33 & _ & _ & H36).
  split; [cbn; rewrite H36; cbn; by rewrite H16|]. cbn. by split; [|rewrite H33].
Qed.
End opening.

(** ** Properties *)

(** C12: reading a file gives its bytes: those of its blocks where they lie on the disk, and
    zeros for holes, from the position on and up to the last block.  Reads of ranges of
    blocks that follow each other, of the parts of blocks at both ends and of holes fit
    together; the position moves on by the number of bytes read, which is the result. *)
Theorem ext2_file_read {F} `{Firmware F} {FS} `{LE : !Libext2 (est F FS) FS} disk inv data `{!SeekDevice disk inv data} env
    fs calls B off dend0 file n buf ino `{!IteratesBlocks inv fs ino calls} (s : est F FS) :
  Z.of_nat (length data) < 18446744073709551616 → 0 < B ∧ MAX_READ_RANGE * B <= INT_MAX → 0 <= off →
  of_device file = disk → inode file = ino → 0 <= pos file ∧ pos file + n < 4294967296 →
  0 < n <= INT_MAX ∧ n <= Z.of_nat (length buf) → file_ok data B off dend0 calls → ready inv fs B off dend0 s →
  let m := Z.min n (Z.max 0 (blocks_end 0 calls * B - pos file)) in
  ∃ s', ext2_read env file n buf s =
      (Ok (m, store buf 0 (file_bytes data B off calls (pos file) m), set_pos (pos file + m) file), s') ∧
    ready inv fs B off dend0 s'.
Proof. intros. by apply (ext2_read_ok disk inv data) with (fs := fs) (dend0 := dend0) (ino := ino). Qed.

(** C13: the variables of the reader stay consistent: [opened] is set exactly while there are
    a file system and a block buffer, and both are given back otherwise.  A file is opened
    with result [FILE_ERR_OK] and position 0 or not at all; while one is open another one is
    refused with nothing changed; closing always leaves the reader ready to open. *)
Theorem ext2_consistent {F} `{Firmware F} {FS} `{LE : !Libext2 (est F FS) FS} `{FR : !Framed} low (bplan : bool) file part fspec d
    (s : est F FS) :
  consistent s → dev fspec = Some d → cstr_ok d → Z.of_nat (length d) < 1020 →
  name_fits (d ++ (if bplan then [] else bs ":0")) (e_heap s) →
  (∃ r s', ext2_open_file low bplan file part fspec s = (r, s') ∧
    if opened s then r = Ok (FILE_ERR_FSBUSY, file) ∧ s' = s else opening r s') ∧
  ∃ s', ext2_close file s = (Ok (if opened s then 0 else FILE_IOERR), s') ∧ consistent s' ∧ opened s' = false.
Proof. intros. split; [by apply (ext2_open_ok low bplan file part fspec d)|by apply ext2_close_ok]. Qed.

(** ** An example

    A library over a table of files, the blocks of which have 16 bytes. *)

Record table := Table { t_io : io_channel; t_files : list (list Z * list (Z * Z)) }.

(** the position of a name in the table *)
Fixpoint find_file (l : list (list Z * list (Z * Z))) (name : list Z) (i : Z) : option Z :=
  match l with
  | [] => None
  | (nm, _) :: l => if bool_decide (nm = name) then Some i else find_file l name (i + 1)
  end.

Section table_lib.
Context {F : Type} `{Firmware F} (files : list (list Z * list (Z * Z))).
Notation st := (est F table).

Definition table_blocks (fs : table) (ino : Z) : list (Z * Z) := (nth (Z.to_nat ino) (t_files fs) ([], [])).2.

Fixpoint visit (f : Z → Z → stm st fault Z) (l : list (Z * Z)) : stm st fault Z :=
  match l with
  | [] => mret 0
  | (b, lg) :: l => r ← f b lg; if r =? BLOCK_ABORT then mret 0 else visit f l
  end.

Definition table_open (m : io_manager st) (name : list Z) (flags : Z) : stm st fault (Z * option table) :=
  '(e, ch) ← io_open st m name flags;
  match ch with
  | None => mret (e, None)
  | Some ch =>
      '(e, ch) ← io_set_blksize st m ch 16;
      mret (e, Some (Table ch files))
  end.

#[export] Instance table_lib : Libext2 st table := {|
  fs_blocksize _ := 16;
  fs_io := t_io;
  ext2fs_open := table_open;
  ext2fs_namei_follow fs _ _ name := mret (match find_file (t_files fs) name 0 with
                                           | Some i => (0, i) | None => (EXT2_ET_FILE_NOT_FOUND, 0) end);
  ext2fs_block_iterate fs ino f := visit f (table_blocks fs ino);
  ext2fs_read_inode fs ino := mret (0, Z.of_nat (length (table_blocks fs ino)) * 16);
  ext2fs_close fs := linux_close (t_io fs);
|}.

#[export] Instance table_iterates inv fs ino : IteratesBlocks inv fs ino (table_blocks fs ino).
Proof.
  intros f I Q _ _ Hstep Hend. cbn [ext2fs_block_iterate table_lib].
  induction (table_blocks fs ino) as [|[b lg] l IH]; intros s Hs; cbn [visit].
  - exists s. split; [done|by apply Hend].
  - destruct (Hstep b lg l s Hs) as (r & s1 & E & Hr). rewrite (bind_ok _ _ _ _ _ E).
    destruct (r =? BLOCK_ABORT); [by exists s1|]. apply IH, Hr.
Qed.

Lemma malloc_size size h : (malloc size h).1 ≠ 0 → ∃ h', malloc size h = ((malloc size h).1, h').
Proof. exists (malloc size h).2. apply surjective_pairing. Qed.

Lemma malloc_same size h m : (malloc size (Heap (malloc_ptr h) (malloc_top h) (last_alloc h) m)).1 = (malloc size h).1.
Proof. unfold malloc. cbn. destruct (malloc_ptr h =? 0); [done|]. by destruct (malloc_top h <? _). Qed.

Lemma e_store_ok p b (s : st) : p ≠ 0 → e_store p b s =
  (Ok tt, with_heap s (Heap (malloc_ptr (e_heap s)) (malloc_top (e_heap s)) (last_alloc (e_heap s)) (mem_store (mem (e_heap s)) p b))).
Proof. intros Hp. unfold e_store. by rewrite (proj2 (Z.eqb_neq p 0)). Qed.

Lemma linux_open_ok name flags (s : st) : name_fits name (e_heap s) →
  ∃ e ch s', linux_open name flags s = (Ok (e, ch), s') ∧ framed s s' ∧ (ch = None → e ≠ 0).
Proof.
  intros Hfits. unfold linux_open. destruct (malloc sizeof_io_channel (e_heap s)) as [io h] eqn:Em.
  unfold name_fits in Hfits. rewrite Em in Hfits. cbn [fst snd] in Hfits.
  rewrite (bind_ok _ _ _ io (with_heap s h)) by (unfold e_malloc; by rewrite Em).
  destruct (Z.eqb_spec io 0) as [|Hio]; [eexists _, _, _; split; [reflexivity|]; split; [by split_and!|intros _ [=]]|].
  destruct Hfits as [|Hnm]; [done|]. rewrite (bind_ok _ _ _ _ _ (e_store_ok _ _ _ Hio)). change (e_heap (with_heap s h)) with h.
  set (h1 := Heap (malloc_ptr h) (malloc_top h) (last_alloc h) (mem_store (mem h) io (replicate (Z.to_nat sizeof_io_channel) 0))).
  destruct (malloc (Z.of_nat (length name) + 1) h1) as [nm h2] eqn:Em2.
  erewrite bind_ok by (unfold e_malloc; change (e_heap (with_heap (with_heap s h) h1)) with h1; rewrite Em2; reflexivity).
  assert (nm ≠ 0) as Hnm0.
  { assert ((malloc (Z.of_nat (length name) + 1) h1).1 = (malloc (Z.of_nat (length name) + 1) h).1) as E by apply malloc_same.
    rewrite Em2 in E. cbn [fst] in E. by rewrite E. }
  rewrite (bind_ok _ _ _ _ _ (e_store_ok _ _ _ Hnm0)), gets_bind. eexists _, _, _. split; [reflexivity|]. by split_and!.
Qed.

#[export] Instance table_framed : Framed.
Proof.
  split.
  - intros name s Hbb Hfits. cbn [ext2fs_open table_lib]. unfold table_open. cbn [io_open io_set_blksize struct_linux_manager].
    destruct (linux_open_ok name EXT2_FLAG_RW s Hfits) as (e & ch & s1 & E1 & Hf & Hch). rewrite (bind_ok _ _ _ _ _ E1).
    destruct ch as [ch|]; [|exists e, None, s1; split; [done|]; split; [done|]; intros ->; by destruct Hch].
    unfold linux_set_blksize. destruct Hf as (H1 & H2 & H3 & H4 & H5 & H6).
    eexists 0, _, _. split.
    { erewrite bind_ok by (erewrite bind_ok by reflexivity; rewrite gets_bind; cbn [block_buffer with_bsize];
        rewrite H3, Hbb; cbn [Z.eqb]; rewrite ret_bind; reflexivity). reflexivity. }
    split; [by split_and!|done].
  - intros fs root cwd name s. cbn. destruct (find_file (t_files fs) name 0); eexists _, _, _; split; try reflexivity; by split_and!.
  - intros fs s. eexists _, _. split; [reflexivity|]. by split_and!.
Qed.
End table_lib.

(** the bytes of the disk are their own addresses.  [conf] has two blocks that lie behind
    each other, a hole, and one more; an indirect block comes in between *)
Definition example_disk : list Z := seqZ 0 160.
Definition example_calls : list (Z * Z) := [(3, 0); (4, 1); (9, -1); (7, 3)].
Definition example_files : list (list Z * list (Z * Z)) := [(bs "/none", []); (bs "/conf", example_calls)].
Definition example_heap : heap := Heap 4096 65536 0 (λ _, 0).
Definition example_table : table := Table (IoChannel 4100 4200 16) example_files.
Definition example_file : boot_file := BFile None FILE_DEVICE_BLOCK 7 1 5 None 0.
Definition example_range : range := Range 0 0 0 0 0 0 [] 0.
Definition example_open : est image table :=
  ESt (Image example_disk 512 0 [] []) example_heap example_file true 16 0 0 (Some example_table) true 5000
    (replicate 1024 0) example_range.

Example ext2_file_read_witness :
  ∃ s', ext2_read (H0 := table_lib example_files) (PromEnv 0 0 0 0 false) example_file 50 (replicate 50 255) example_open =
    (Ok (50, seqZ 53 27 ++ replicate 16 0 ++ seqZ 112 7, set_pos 55 example_file), s').
Proof.
  destruct (ext2_file_read (H := image_firmware) (LE := table_lib example_files) 7 (of_image example_disk) example_disk
    (SeekDevice0 := image_seeks 7 example_disk ltac:(by_decision)) (PromEnv 0 0 0 0 false) example_table example_calls 16 0 0
    example_file 50 (replicate 50 255) 1 (IteratesBlocks0 := table_iterates example_files _ _ _) example_open) as (s' & E & _);
    [by_decision|by_decision|by_decision|reflexivity|reflexivity|by_decision|by_decision|by_decision|by split_and!|].
  exists s'. exact E.
Defined.

Definition example_closed : est image table :=
  ESt (Image example_disk 512 0 [] []) example_heap example_file false 0 0 0 None false 0 (replicate 1024 0) example_range.
Definition example_spec (name : list Z) : boot_fspec := Devpath.set_file (Some name) (set_dev (Some (bs "hd")) fspec0).

Example ext2_consistent_witness :
  (∃ r s', ext2_open_file (H0 := table_lib example_files) [] false example_file None (example_spec (bs "/conf")) example_closed = (r, s') ∧
    opening r s') ∧
  ∃ s', ext2_close (H0 := table_lib example_files) example_file example_closed = (Ok FILE_IOERR, s') ∧ opened s' = false.
Proof.
  destruct (ext2_consistent (H := image_firmware) (LE := table_lib example_files) (FR := table_framed example_files) [] false
    example_file None (example_spec (bs "/conf")) (bs "hd") example_closed) as [(r & s' & E & Ho) (s2 & E2 & _ & Ho2)];
    [split; [by_decision|by split]|reflexivity|by_decision|by_decision|right; by_decision|].
  split; [exists r, s'; exact (conj E Ho)|exists s2; exact (conj E2 Ho2)].
Defined.

(** a file of the table opened and read: the results, and the bytes *)
Definition example_read (name : list Z) (p n : Z) : result fault (Z * option (Z * list Z)) :=
  match ext2_open_file (H0 := table_lib example_files) [] false example_file None (example_spec name) example_closed with
  | (Ok (e, f), s) =>
      if negb (e =? FILE_ERR_OK) then Ok (e, None)
      else
        match (ext2_read (H0 := table_lib example_files) (PromEnv 0 0 0 0 false) (set_pos p f) n (replicate (Z.to_nat n) 255) s).1 with
        | Ok (r, b, _) => Ok (e, Some (r, b))
        | Err e => Err e
        | Fuel => Fuel
        end
  | (Err e, _) => Err e
  | (Fuel, _) => Fuel
  end.

Example file_missing : example_read (bs "/other") 0 4 = Ok (FILE_ERR_NOTFOUND, None).
Proof. by_decision. Qed.

(** a read ends with the last block, not with the size in the inode *)
Example read_to_block_end : example_read (bs "/conf") 60 8 = Ok (FILE_ERR_OK, Some (4, [124; 125; 126; 127; 255; 255; 255; 255])).
Proof. by_decision. Qed.

(** a second file is refused while one is open *)
Example second_open_refused :
  (ext2_open_file (H0 := table_lib example_files) [] false example_file None (example_spec (bs "/conf")) example_open).1 =
  Ok (FILE_ERR_FSBUSY, example_file).
Proof. reflexivity. Qed.

(** [linux_read_blk] lets a read start at the end of the partition: the test is for what is
    behind [dend] *)
Example read_at_partition_end :
  (linux_read_blk (FS := table) (IoChannel 0 0 16) 6 2 (with_bounds example_open 0 96)).1 = Ok (0, seqZ 96 32).
Proof. by_decision. Qed.
