(* ===== verification/Elf.v ===== *)
(** The ELF loader of [second/yaboot.c]: [is_elf32], [is_elf64], [load_elf32] and
    [load_elf64].

    The two loaders are one definition, over what differs between the two formats.  The
    kernel file is reached through the operations of its file system, an interface here;
    memory is the one of the heap.  A segment stored outside the memory claimed for the
    kernel is [Overrun]. *)
From S2P Require Import Prelude Ctype CString Numeric Vsprintf Malloc Prom Disk Devpath Partition Fs.

(** ** The formats *)

(** [loadinfo_t]; [elf] are the bytes of the header read so far.  [flat_vmlinux] is the
    global variable. *)
Record loadinfo := LoadInfo {
  elf : list Z;
  base : Z;
  memsize : Z;
  filesize : Z;
  offset : Z;
  load_loc : Z;
  entry : Z;
  flat_vmlinux : bool;
}.

(** a program header *)
Record phdr := Phdr {
  p_type : Z;
  p_offset : Z;
  p_vaddr : Z;
  p_filesz : Z;
  p_memsz : Z;
}.

Definition PT_LOAD : Z := 1.
Definition ET_EXEC : Z := 2.
Definition ET_DYN : Z := 3.
Definition EM_PPC : Z := 20.
Definition EM_PPC64 : Z := 21.
Definition ELFCLASS32 : Z := 1.
Definition ELFCLASS64 : Z := 2.
Definition ELFDATA2MSB : Z := 2.

(** [sizeof(Elf_Ident)] *)
Definition ident_size : Z := 20.

Definition KERNEL_LINK_ADDR_PPC32 : Z := 3221225472.
Definition KERNEL_LINK_ADDR_PPC64 : Z := 13835058055282163712.
Definition KERNELADDR : Z := 0.

(** what differs between the formats: the sizes of the headers, the fields, the
    conversion of an [int] compared with a size of a segment, the room left behind the
    kernel, the address it is linked at and the one another image is loaded at, and the
    messages *)
Record elf_format := ElfFormat {
  ehdr_size : Z;
  phdr_size : Z;
  e_entry : list Z → Z;
  e_phoff : list Z → Z;
  e_phnum : list Z → Z;
  get_phdr : list Z → Z → phdr;
  of_int : Z → Z;
  room : Z;
  link_addr : Z;
  other_addr : Z → Z → Z;
  msg_header : list Z;
  msg_seek : list Z;
  msg_read : list Z;
}.

Definition elf32 : elf_format := {|
  ehdr_size := 52;
  phdr_size := 32;
  e_entry e := be32 e 24;
  e_phoff e := be32 e 28;
  e_phnum e := be16 e 44;
  get_phdr t o := Phdr (be32 t o) (be32 t (o + 4)) (be32 t (o + 8)) (be32 t (o + 16)) (be32 t (o + 20));
  of_int n := u32 n;
  room := 1048576;
  link_addr := KERNEL_LINK_ADDR_PPC32;
  other_addr load_loc entry := load_loc;
  msg_header := 10 :: bs "Can't read Elf32 image header" ++ [10];
  msg_seek := bs "seek error" ++ [10];
  msg_read := bs "read error" ++ [10];
|}.

Definition elf64 : elf_format := {|
  ehdr_size := 64;
  phdr_size := 56;
  e_entry e := be64 e 24;
  e_phoff e := be64 e 32;
  e_phnum e := s16 (be16 e 56);
  get_phdr t o := Phdr (be32 t o) (be64 t (o + 8)) (be64 t (o + 16)) (be64 t (o + 32)) (be64 t (o + 40));
  of_int n := u64 n;
  room := 0;
  link_addr := KERNEL_LINK_ADDR_PPC64;
  other_addr load_loc entry := u32 entry;
  msg_header := 10 :: bs "Can't read Elf64 image header" ++ [10];
  msg_seek := bs "Seek error" ++ [10];
  msg_read := bs "Read error" ++ [10];
|}.

Definition is_elf (class : Z) (e : list Z) : bool :=
  (byte_at e 0 =? 127) && (byte_at e 1 =? 69) && (byte_at e 2 =? 76) && (byte_at e 3 =? 70) &&
  (byte_at e 4 =? class) && (byte_at e 5 =? ELFDATA2MSB).

Definition e_type (e : list Z) : Z := be16 e 16.
Definition e_machine (e : list Z) : Z := be16 e 18.

Definition is_elf32 (li : loadinfo) : bool :=
  is_elf ELFCLASS32 (elf li) && (e_type (elf li) =? ET_EXEC) && (e_machine (elf li) =? EM_PPC).

Definition is_elf64 (li : loadinfo) : bool :=
  is_elf ELFCLASS64 (elf li) && ((e_type (elf li) =? ET_EXEC) || (e_type (elf li) =? ET_DYN)) &&
  (e_machine (elf li) =? EM_PPC64).

(** ** The size of the kernel *)

(** segments that are loaded *)
Definition loadable (p : phdr) : bool := (p_type p =? PT_LOAD) && negb (p_offset p =? 0).

Definition scan_step (li : loadinfo) (p : phdr) : loadinfo :=
  if negb (loadable p) then li
  else if memsize li =? 0 then
    LoadInfo (elf li) (base li) (u32 (p_memsz p)) (u32 (p_filesz p)) (u32 (p_offset p)) (u32 (p_vaddr p))
      (entry li) (flat_vmlinux li)
  else
    LoadInfo (elf li) (base li) (u32 (p_offset p + p_memsz p - offset li))
      (u32 (p_offset p + p_filesz p - offset li)) (offset li) (load_loc li) (entry li) (flat_vmlinux li).

(** the program headers read, and what the code makes of them *)
Definition headers (c : elf_format) (n : Z) (table : list Z) : list phdr :=
  map (λ i, get_phdr c table (i * phdr_size c)) (seqZ 0 n).

Definition scan (li : loadinfo) (ps : list phdr) : loadinfo :=
  foldl scan_step
    (LoadInfo (elf li) (base li) 0 0 0 (load_loc li) (entry li) (flat_vmlinux li)) ps.

(** [_ALIGN(addr, 1 << 20)] *)
Definition align_1M (addr : Z) : Z := Z.land (u32 (addr + 1048575)) (Z.lnot 1048575).

(** ** Loading *)

(** the operations of the file system of a file *)
Class FileAccess (S : Type) := {
  fread : boot_file → Z → stm S fault (Z * list Z * boot_file);
  fseek : boot_file → Z → stm S fault (Z * boot_file);
}.

Section load.
Context {F : Type} `{Firmware F} {X : Type} `{FileAccess (fstate F X)}.
Context (env : prom_env).

Definition say (msg : list Z) : stm (fstate F X) fault unit := print env msg [].

Definition elf_malloc (size : Z) : stm (fstate F X) fault Z := on_base (part_malloc size).
Definition elf_free (a : Z) : stm (fstate F X) fault unit := on_base (part_free a).

(** bytes stored at an address of the memory claimed *)
Definition store_at (a : Z) (b : list Z) : stm (fstate F X) fault unit :=
  on_base (λ p, let h := pheap p in
    (Ok tt, PState (block_buffer p) (plist p)
              (Heap (malloc_ptr h) (malloc_top h) (last_alloc h) (mem_store (mem h) a b)) (pfw p))).

(** the second loop: whether every segment was loaded *)
Fixpoint load_segments (c : elf_format) (li : loadinfo) (ps : list phdr) (file : boot_file)
    : stm (fstate F X) fault (bool * boot_file) :=
  match ps with
  | [] => mret (true, file)
  | p :: ps =>
      if negb (loadable p) then load_segments c li ps file
      else
        '(r, file) ← fseek file (u32 (p_offset p));
        if negb (r =? FILE_ERR_OK) then
          say (bs "Seek error" ++ [10]);;
          call (λ f, (tt, prom_release env (base li) (memsize li) f));; mret (false, file)
        else
          let off := u32 (p_vaddr p - load_loc li) in
          '(n, b, file) ← fread file (u32 (p_filesz p));
          if memsize li <? off + Z.of_nat (length b) then fail Overrun
          else
            store_at (base li + off) b;;
            if negb (of_int c n =? p_filesz p) then
              say (bs "Read failed" ++ [10]);;
              call (λ f, (tt, prom_release env (base li) (memsize li) f));; mret (false, file)
            else load_segments c li ps file
  end.

(** what is claimed for the kernel once its headers are known: the header of [li] is
    complete *)
Definition placed (c : elf_format) (li : loadinfo) : loadinfo :=
  let flat := e_entry c (elf li) =? link_addr c in
  LoadInfo (elf li) (base li) (u32 (align_1M (memsize li) + room c)) (filesize li) (offset li) (load_loc li)
    (entry li) flat.

Definition load_address (c : elf_format) (li : loadinfo) : Z :=
  if flat_vmlinux li then KERNELADDR else other_addr c (load_loc li) (e_entry c (elf li)).

Definition with_base (b : Z) (li : loadinfo) : loadinfo :=
  LoadInfo (elf li) b (memsize li) (filesize li) (offset li) (load_loc li) (entry li) (flat_vmlinux li).

(** the result, the file and [*loadinfo]; [ident_size] bytes of the header have been read.
    After a short header the code frees [ph], which has no value yet *)
Definition load_elf (c : elf_format) (file : boot_file) (li : loadinfo)
    : stm (fstate F X) fault (Z * boot_file * loadinfo) :=
  let size := ehdr_size c - ident_size in
  '(n, rest, file) ← fread file size;
  let e := store (elf li) ident_size rest in
  let li := LoadInfo e (base li) (memsize li) (filesize li) (offset li) (load_loc li) (entry li)
              (flat_vmlinux li) in
  if n <? size then say (msg_header c);; fail Indeterminate
  else
    let li := LoadInfo e (base li) (memsize li) (filesize li) (offset li) (load_loc li)
                (u32 (e_entry c e)) (flat_vmlinux li) in
    let bytes := u32 (phdr_size c * e_phnum c e) in
    ph ← elf_malloc bytes;
    if ph =? 0 then say (bs "Malloc error" ++ [10]);; mret (0, file, li)
    else
      '(r, file) ← fseek file (u32 (e_phoff c e));
      if negb (r =? FILE_ERR_OK) then say (msg_seek c);; elf_free ph;; mret (0, file, li)
      else
        '(n, table, file) ← fread file bytes;
        if negb (u32 n =? bytes) then say (msg_read c);; elf_free ph;; mret (0, file, li)
        else
          let ps := headers c (e_phnum c e) table in
          let li := scan li ps in
          if memsize li =? 0 then
            say (bs "Can't find a loadable segment !" ++ [10]);; elf_free ph;; mret (0, file, li)
          else
            let li := placed c li in
            claimed ← call (prom_claim_chunk env (load_address c li) (memsize li));
            match claimed with
            | Ok b =>
                let li := with_base b li in
                if b =? PROM_INVALID_HANDLE then
                  say (bs "Claim error, can't allocate kernel memory" ++ [10]);; elf_free ph;;
                  mret (0, file, li)
                else
                  '(ok, file) ← load_segments c li ps file;
                  elf_free ph;;
                  mret ((if ok : bool then 1 else 0), file, li)
            | _ => out_of_fuel
            end.

Definition load_elf32 : boot_file → loadinfo → stm (fstate F X) fault (Z * boot_file * loadinfo) :=
  load_elf elf32.
Definition load_elf64 : boot_file → loadinfo → stm (fstate F X) fault (Z * boot_file * loadinfo) :=
  load_elf elf64.
End load.

(** ** Files that hold their contents *)

(** [inv s file p]: in the state [s] the file stands at position [p] of [contents].  Inside of
    the contents it is read exactly; what a read past their end gives depends on the file
    system.  What is stored in memory and claimed from the firmware does not disturb it. *)
Class HoldsFile {F : Type} `{Firmware F} {X : Type} `{FileAccess (fstate F X)} (env : prom_env)
    (contents : list Z) (inv : fstate F X → boot_file → Z → Prop) := {
  hf_seek s file p q : inv s file p → 0 <= q < 4294967296 →
    ∃ file' s', fseek file q s = (Ok (FILE_ERR_OK, file'), s') ∧ inv s' file' q ∧
      pheap (f_base s') = pheap (f_base s);
  hf_read s file p n : inv s file p → 0 <= p → 0 <= n <= INT_MAX → p + n <= Z.of_nat (length contents) →
    ∃ file' s', fread file n s = (Ok (n, slice contents p n, file'), s') ∧ inv s' file' (p + n) ∧
      pheap (f_base s') = pheap (f_base s);
  hf_base s file p b : inv s file p →
    pfw b = pfw (f_base s) ∨ (∃ a n, pfw b = (prom_claim_chunk env a n (pfw (f_base s))).2) →
    inv (FState b (f_bufs s) (fserrorno s) (f_priv s)) file p;
}.

(** where a segment goes, from the start of the kernel *)
Definition segment_offset (li : loadinfo) (p : phdr) : Z := u32 (p_vaddr p - load_loc li).

(** a segment whose bytes are in the file and whose place is in the memory claimed *)
Definition segment_ok (contents : list Z) (li : loadinfo) (p : phdr) : Prop :=
  loadable p = true →
  0 <= p_offset p < 4294967296 ∧ 0 <= p_filesz p <= INT_MAX ∧
  p_offset p + p_filesz p <= Z.of_nat (length contents) ∧
  segment_offset li p + p_filesz p <= memsize li.

(** two segments that do not share memory *)
Definition segments_apart (li : loadinfo) (p q : phdr) : Prop :=
  segment_offset li p + p_filesz p <= segment_offset li q ∨
  segment_offset li q + p_filesz q <= segment_offset li p.

(** the memory after the segments [ps] were loaded *)
Definition load_memory (contents : list Z) (li : loadinfo) (m : memory) (ps : list phdr) : memory :=
  foldl (λ m p, mem_store m (base li + segment_offset li p) (slice contents (p_offset p) (p_filesz p)))
    m (filter (λ p, loadable p = true) ps).

Lemma load_memory_cons contents li m p ps :
  load_memory contents li m (p :: ps) =
    load_memory contents li
      (if loadable p then mem_store m (base li + segment_offset li p) (slice contents (p_offset p) (p_filesz p))
       else m) ps.
Proof.
  unfold load_memory. rewrite filter_cons. destruct (loadable p) eqn:El.
  - by rewrite decide_True by done.
  - by rewrite decide_False by done.
Qed.

Section loading.
Context {F : Type} `{Firmware F} {X : Type} `{FileAccess (fstate F X)}.
Context (env : prom_env) (contents : list Z) (inv : fstate F X → boot_file → Z → Prop).
Context {HF : HoldsFile env contents inv}.
Implicit Types s : fstate F X.

Lemma length_contents_slice p n : 0 <= p → 0 <= n → p + n <= Z.of_nat (length contents) →
  Z.of_nat (length (slice contents p n)) = n.
Proof. intros. rewrite length_slice; lia. Qed.

Lemma load_segments_ok c li ps file s p : (∀ n, 0 <= n <= INT_MAX → of_int c n = n) →
  Forall (segment_ok contents li) ps → inv s file p →
  ∃ file' s', load_segments env c li ps file s = (Ok (true, file'), s') ∧ (∃ s0 p0, inv s0 file' p0) ∧
    mem (pheap (f_base s')) = load_memory contents li (mem (pheap (f_base s))) ps.
Proof.
  intros Hc Hps. revert file s p.
  induction Hps as [|ph ps Hph Hps IH]; intros file s p Hi; cbn [load_segments]; [by eexists _, _; split; [|split; [eexists _, _|]]|].
  rewrite load_memory_cons. unfold segment_ok in Hph. destruct (loadable ph) eqn:El.
  - destruct (Hph eq_refl) as (Ho & Hn & Hfile & Hmem). cbn [negb].
    rewrite (u32_small (p_offset ph)), (u32_small (p_filesz ph)) by (unfold INT_MAX in *; lia).
    destruct (hf_seek s file p (p_offset ph) Hi Ho) as (file1 & s1 & E1 & Hi1 & M1).
    rewrite (bind_ok _ _ _ _ _ E1). cbn iota. rewrite Z.eqb_refl. cbn [negb].
    destruct (hf_read s1 file1 (p_offset ph) (p_filesz ph) Hi1 ltac:(lia) Hn Hfile) as (file2 & s2 & E2 & Hi2 & M2).
    pose proof (length_contents_slice (p_offset ph) (p_filesz ph) ltac:(lia) ltac:(lia) Hfile) as Hlen.
    rewrite (bind_ok _ _ _ _ _ E2). cbn iota. fold (segment_offset li ph). rewrite Hlen.
    destruct (Z.ltb_spec (memsize li) (segment_offset li ph + p_filesz ph)); [lia|].
    unfold store_at at 1, on_base at 1. erewrite bind_ok by reflexivity. rewrite Hc, Z.eqb_refl by done. cbn [negb].
    match goal with |- ∃ file' s', load_segments _ _ _ _ _ ?s3 = _ ∧ _ =>
      destruct (IH file2 s3 (p_offset ph + p_filesz ph)) as (file' & s' & E & Hi' & M) end.
    { apply hf_base; [done|by left]. }
    exists file', s'. split; [exact E|]. split; [exact Hi'|]. rewrite M. cbn [f_base pheap mem]. by rewrite M2, M1.
  - cbn [negb]. by apply (IH file s p).
Qed.
End loading.

(** ** The memory of disjoint segments *)

Lemma load_memory_other contents li m ps a n :
  Forall (λ p, loadable p = true →
    a + Z.of_nat n <= base li + segment_offset li p ∨
    base li + segment_offset li p + Z.of_nat (length (slice contents (p_offset p) (p_filesz p))) <= a) ps →
  mem_load (load_memory contents li m ps) a n = mem_load m a n.
Proof.
  intros Hps. revert m. induction Hps as [|p ps Hp Hps IH]; intros m; [done|].
  rewrite load_memory_cons, IH. destruct (loadable p) eqn:El; [|done]. apply mem_load_ext. intros x Hx. apply mem_store_other. specialize (Hp eq_refl). lia.
Qed.

Lemma load_memory_segments contents li m ps :
  Forall (segment_ok contents li) ps →
  ForallOrdPairs (segments_apart li) (filter (λ p, loadable p = true) ps) →
  Forall (λ p, loadable p = true →
    mem_load (load_memory contents li m ps) (base li + segment_offset li p) (Z.to_nat (p_filesz p)) =
    slice contents (p_offset p) (p_filesz p)) ps.
Proof.
  intros Hps. revert m. induction Hps as [|p ps Hp Hps IH]; intros m Ha; [constructor|].
  rewrite filter_cons in Ha. rewrite load_memory_cons. destruct (decide (loadable p = true)) as [El|El].
  - rewrite El. inversion Ha as [|? ? Hapart Ha']; subst.
    constructor; [|by apply IH]. intros _. destruct (Hp El) as (Ho & Hn & Hfile & _).
    assert (Z.to_nat (p_filesz p) = length (slice contents (p_offset p) (p_filesz p))) as Elen.
    { rewrite length_slice; lia. }
    rewrite (load_memory_other contents li _ ps).
    + rewrite Elen. apply mem_load_store.
    + apply Forall_forall. intros q Hq Hql. rewrite Forall_forall in Hps, Hapart.
      destruct (Hps q Hq Hql) as (? & ? & ? & _).
      assert (segments_apart li p q) as Hpq.
      { apply Hapart, list_elem_of_filter. by split. }
      unfold segments_apart in Hpq. rewrite length_slice by lia. lia.
  - destruct (loadable p) eqn:E; [done|]. constructor; [congruence|]. by apply IH.
Qed.

(** ** A whole file *)

(** the fields of the header are in the header *)
Definition header_local (c : elf_format) : Prop :=
  ident_size <= ehdr_size c <= 64 ∧ 0 < phdr_size c ∧ (∀ n, 0 <= n <= INT_MAX → of_int c n = n) ∧
  ∀ a b, (∀ i, 0 <= i < ehdr_size c → byte_at a i = byte_at b i) →
    e_entry c a = e_entry c b ∧ e_phoff c a = e_phoff c b ∧ e_phnum c a = e_phnum c b.

Lemma elf32_local : header_local elf32.
Proof.
  split; [done|]. split; [done|]. split; [intros n Hn; apply u32_small; unfold INT_MAX in Hn; simpl; lia|].
  intros a b E. cbn [elf32 e_entry e_phoff e_phnum ehdr_size] in *. unfold be32, be16.
  by rewrite !E by lia.
Qed.

Lemma elf64_local : header_local elf64.
Proof.
  split; [done|]. split; [done|]. split; [intros n Hn; apply u64_small; unfold INT_MAX in Hn; simpl; lia|].
  intros a b E. cbn [elf64 e_entry e_phoff e_phnum ehdr_size] in *. unfold be64, be32, be16.
  by rewrite !E by lia.
Qed.

Lemma byte_at_store_at l i v j : 0 <= i → i <= Z.of_nat (length l) → 0 <= j →
  byte_at (store l i v) j =
    if (i <=? j) && (j <? i + Z.of_nat (length v)) then byte_at v (j - i) else byte_at l j.
Proof.
  intros Hi Hl Hj. unfold store, byte_at. destruct (Z.ltb_spec j 0); [lia|].
  assert (length (take (Z.to_nat i) l) = Z.to_nat i) as Ht by (rewrite length_take; lia).
  destruct (Z.leb_spec i j) as [Hij|Hij]; simpl.
  - rewrite app_nth2 by lia. rewrite Ht. destruct (Z.ltb_spec j (i + Z.of_nat (length v))) as [Hv|Hv].
    + destruct (Z.ltb_spec (j - i) 0); [lia|]. rewrite app_nth1 by lia. f_equal. lia.
    + rewrite app_nth2 by lia. rewrite !nth_lookup, lookup_drop. do 2 f_equal. lia.
  - rewrite app_nth1 by lia. rewrite !nth_lookup, lookup_take, decide_True by lia. done.
Qed.

(** the header in memory after its first bytes and the rest were read from a file *)
Definition whole_header (c : elf_format) (contents : list Z) (li : loadinfo) : list Z :=
  store (elf li) ident_size (slice contents ident_size (ehdr_size c - ident_size)).

Lemma whole_header_fields c contents li : header_local c → ehdr_size c <= Z.of_nat (length contents) →
  length (elf li) = 64%nat → take 20 (elf li) = take 20 contents →
  e_entry c (whole_header c contents li) = e_entry c contents ∧
  e_phoff c (whole_header c contents li) = e_phoff c contents ∧
  e_phnum c (whole_header c contents li) = e_phnum c contents.
Proof.
  intros (Hsz & _ & _ & Hloc) Hlen Hl Ht. apply Hloc. intros i Hi. unfold whole_header, ident_size in *.
  rewrite byte_at_store_at by lia. rewrite length_slice by lia.
  destruct (Z.leb_spec 20 i) as [Hi2|Hi2]; simpl.
  - destruct (Z.ltb_spec i (20 + Z.of_nat (Z.to_nat (ehdr_size c - 20)))); [|lia].
    rewrite byte_at_slice by lia. f_equal. lia.
  - unfold byte_at. destruct (Z.ltb_spec i 0); [lia|].
    assert (∀ l : list Z, nth (Z.to_nat i) l 0 = nth (Z.to_nat i) (take 20 l) 0) as E.
    { intros l. by rewrite !nth_lookup, lookup_take, decide_True by lia. }
    by rewrite (E (elf li)), (E contents), Ht.
Qed.

(** the program headers of a file *)
Definition file_headers (c : elf_format) (contents : list Z) : list phdr :=
  headers c (e_phnum c contents)
    (slice contents (e_phoff c contents) (phdr_size c * e_phnum c contents)).

(** what the code computes of the kernel from them *)
Definition sized (c : elf_format) (contents : list Z) (li : loadinfo) : loadinfo :=
  scan (LoadInfo (whole_header c contents li) (base li) (memsize li) (filesize li) (offset li) (load_loc li)
          (u32 (e_entry c contents)) (flat_vmlinux li)) (file_headers c contents).

Definition layout (c : elf_format) (contents : list Z) (li : loadinfo) : loadinfo :=
  placed c (sized c contents li).

(** a file the loader can load: the headers are in it, there is something to load, and
    the segments are in the file, fit in the memory asked for and do not overlap *)
Record loadable_file (c : elf_format) (contents : list Z) (li : loadinfo) : Prop := LoadableFile {
  lf_ident : length (elf li) = 64%nat ∧ take 20 (elf li) = take 20 contents;
  lf_header : ehdr_size c <= Z.of_nat (length contents) <= INT_MAX;
  lf_phnum : 0 <= e_phnum c contents;
  lf_phoff : 0 <= e_phoff c contents;
  lf_table : e_phoff c contents + phdr_size c * e_phnum c contents <= Z.of_nat (length contents);
  lf_size : memsize (sized c contents li) ≠ 0;
  lf_address : 0 <= load_address c (layout c contents li);
  lf_segments : Forall (segment_ok contents (layout c contents li)) (file_headers c contents);
  lf_apart : ForallOrdPairs (segments_apart (layout c contents li))
               (filter (λ p, loadable p = true) (file_headers c contents));
}.

Lemma claim_chunk_total {F} `{Firmware F} env virt size (f : F) : 0 <= virt →
  ∃ r f', prom_claim_chunk env virt size f = (Ok r, f').
Proof.
  intros Hv. unfold prom_claim_chunk. destruct (Z.leb_spec virt PROM_CLAIM_MAX_ADDR) as [Hle|Hgt].
  - destruct (claim_up_spec env claim_fuel virt size f) as (r & g & -> & _); [| |by eexists _, _].
    + unfold PROM_CLAIM_MAX_ADDR in *. change claim_step with 262144. lia.
    + unfold PROM_CLAIM_MAX_ADDR in *. change claim_step with 262144.
      change (Z.of_nat claim_fuel) with 1026. lia.
  - assert (claim_up env claim_fuel virt size f = (Ok PROM_INVALID_HANDLE, f)) as ->; [|by eexists _, _].
    assert (∃ n, claim_fuel = S n) as [n ->] by (exists 1025%nat; by vm_compute). cbn [claim_up].
    by destruct (Z.leb_spec virt PROM_CLAIM_MAX_ADDR); [lia|].
Qed.

Section whole_file.
Context {F : Type} `{Firmware F} {X : Type} `{FileAccess (fstate F X)}.
Context (env : prom_env) (contents : list Z) (inv : fstate F X → boot_file → Z → Prop).
Context {HF : HoldsFile env contents inv}.
Implicit Types s : fstate F X.

Lemma elf_malloc_ok size s : (malloc size (pheap (f_base s))).1 ≠ 0 →
  ∃ a s', a ≠ 0 ∧ elf_malloc size s = (Ok a, s') ∧ f_base s' =
    PState (block_buffer (f_base s)) (plist (f_base s)) (malloc size (pheap (f_base s))).2 (pfw (f_base s)) ∧
    s' = FState (f_base s') (f_bufs s) (fserrorno s) (f_priv s).
Proof.
  intros Hm. unfold elf_malloc, on_base, part_malloc. destruct (malloc size (pheap (f_base s))) as [a h].
  exists a. eexists. split; [done|]. split; [done|]. done.
Qed.

(** claiming keeps the file where it is, and the memory as it is *)
Lemma claim_ok s file p a n : inv s file p → 0 <= a →
  ∃ r s', call (prom_claim_chunk env a n) s = (Ok (Ok r), s') ∧ inv s' file p ∧
    pheap (f_base s') = pheap (f_base s).
Proof.
  intros Hi Ha. destruct (claim_chunk_total env a n (pfw (f_base s)) Ha) as (r & f' & E).
  unfold call, on_base. rewrite E. eexists r, _. split; [done|]. split; [|done].
  apply hf_base; [done|]. right. exists a, n. by rewrite E.
Qed.

Lemma load_elf_ok c file li s : header_local c → loadable_file c contents li → inv s file ident_size →
  (malloc (phdr_size c * e_phnum c contents) (pheap (f_base s))).1 ≠ 0 →
  ∃ r file' li' s', load_elf env c file li s = (Ok (r, file', li'), s') ∧ (∃ s0 p0, inv s0 file' p0) ∧
    (r = 0 ∧ base li' = PROM_INVALID_HANDLE ∨
     r = 1 ∧ li' = with_base (base li') (layout c contents li) ∧
     Forall (λ p, loadable p = true →
       mem_load (mem (pheap (f_base s'))) (base li' + segment_offset (layout c contents li) p)
         (Z.to_nat (p_filesz p)) = slice contents (p_offset p) (p_filesz p)) (file_headers c contents)).
Proof.
  intros Hloc Hf Hi Hm. pose proof Hloc as (Hsz & Hphsz & Hint & _). destruct Hf as [[Hl Ht] Hhd Hn Hoff Htab Hmem Had Hseg Hap].
  destruct (whole_header_fields c contents li Hloc ltac:(lia) Hl Ht) as (Ee & Eo & En).
  assert (0 <= phdr_size c * e_phnum c contents <= INT_MAX) as Hbytes by (unfold INT_MAX in *; nia).
  assert (4294967295 = 2 * INT_MAX + 1) as Hmax by done. unfold ident_size in *.
  unfold load_elf, ident_size.
  destruct (hf_read s file 20 (ehdr_size c - 20) Hi) as (file1 & s1 & E1 & Hi1 & M1); [lia..|].
  rewrite (bind_ok _ _ _ _ _ E1). cbn iota. destruct (Z.ltb_spec (ehdr_size c - 20) (ehdr_size c - 20)); [lia|].
  fold ident_size. fold (whole_header c contents li). rewrite Ee, Eo, En.
  rewrite (u32_small (phdr_size c * e_phnum c contents)) by lia.
  rewrite <- M1 in Hm.
  destruct (elf_malloc_ok (phdr_size c * e_phnum c contents) s1 Hm) as (a & s2 & Ha & E2 & B2 & S2).
  rewrite (bind_ok _ _ _ _ _ E2). destruct (Z.eqb_spec a 0); [done|].
  assert (inv s2 file1 (20 + (ehdr_size c - 20))) as Hi2.
  { rewrite S2, B2. apply hf_base; [done|by left]. }
  rewrite (u32_small (e_phoff c contents)) by lia.
  destruct (hf_seek s2 file1 _ (e_phoff c contents) Hi2) as (file3 & s3 & E3 & Hi3 & M3); [lia|].
  rewrite (bind_ok _ _ _ _ _ E3). cbn iota. rewrite Z.eqb_refl. cbn [negb].
  destruct (hf_read s3 file3 (e_phoff c contents) (phdr_size c * e_phnum c contents) Hi3)
    as (file4 & s4 & E4 & Hi4 & M4); [lia..|].
  rewrite (bind_ok _ _ _ _ _ E4). cbn iota.
  rewrite (u32_small (phdr_size c * e_phnum c contents)), Z.eqb_refl by lia. cbn [negb].
  fold (file_headers c contents). cbn [elf base memsize filesize offset load_loc entry flat_vmlinux].
  fold (sized c contents li). destruct (Z.eqb_spec (memsize (sized c contents li)) 0); [done|].
  fold (layout c contents li).
  destruct (claim_ok s4 file4 _ (load_address c (layout c contents li)) (memsize (layout c contents li)) Hi4 Had)
    as (b & s5 & E5 & Hi5 & M5).
  rewrite (bind_ok _ _ _ _ _ E5). destruct (Z.eqb_spec b PROM_INVALID_HANDLE) as [->|Hb].
  - erewrite bind_ok by reflexivity. erewrite bind_ok by reflexivity. eexists 0, _, _, _. split; [done|]. split; [by eexists _, _|]. by left.
  - destruct (load_segments_ok env contents inv c (with_base b (layout c contents li)) (file_headers c contents) file4 s5 _
      Hint Hseg Hi5) as (file6 & s6 & E6 & Hi6 & M6).
    rewrite (bind_ok _ _ _ _ _ E6). cbn iota. unfold elf_free at 1, on_base, part_free.
    erewrite bind_ok by reflexivity. eexists 1, _, _, _. split; [done|]. split; [exact Hi6|]. right. split; [done|]. split; [done|].
    cbn [f_base pheap base with_base].
    assert (∀ x, mem (free a x) = mem x) as Hfree by (intros x; unfold free; by repeat case_match).
    rewrite Hfree, M6.
    exact (load_memory_segments contents (with_base b (layout c contents li)) _ _ Hseg Hap).
Qed.
End whole_file.

(** ** Kernels from the network *)

Section net.
Context {F : Type} `{Firmware F} {X : Type}.
Implicit Types s : fstate F X.

Definition net_access : FileAccess (fstate F X) := {|
  fread file n := of_net_read file n;
  fseek file q := of_net_seek file q;
|}.

(** a network file loaded whole, at position [p] *)
Definition net_at (contents : list Z) s (file : boot_file) (p : Z) : Prop :=
  0 <= p ∧ (∃ a, buffer file = Some (a, contents)) ∧ len file = Z.of_nat (length contents) ∧
  Z.of_nat (length contents) <= LOAD_BUFFER_SIZE ∧ pos file = Z.min p (len file).

Lemma net_holds env contents : HoldsFile (H0 := net_access) env contents (net_at contents).
Proof.
  split.
  - intros s file p q (Hp & [a Ha] & Hl & Hmax & _) Hq. cbn [fseek net_access]. unfold of_net_seek.
    eexists _, s. split; [done|]. split; [|done]. split; [lia|]. split; [by exists a|]. split; [done|].
    split; [done|]. cbn [pos set_pos len]. rewrite Hl. destruct (Z.ltb_spec (Z.of_nat (length contents)) q); lia.
  - intros s file p n (Hp & [a Ha] & Hl & Hmax & Hpos) _ Hn Hin. cbn [fread net_access].
    pose proof (net_read_spec file a contents p n s Ha Hl Hmax Hp ltac:(unfold INT_MAX in Hn; lia)) as E.
    unfold of_net_seek in E. rewrite ret_bind in E.
    assert (set_pos (if len file <? p then len file else p) file = file) as Es.
    { destruct file as [fsn kd dv ino ps bf ln]. unfold set_pos; cbn [len pos buffer fs device_kind of_device inode] in *.
      rewrite Hpos. f_equal. destruct (Z.ltb_spec ln p); lia. }
    rewrite Es, Hl, (Z.min_l p), Z.min_l in E by lia.
    eexists _, s. split; [exact E|]. split; [|done]. split; [lia|]. split; [by exists a|].
    split; [done|]. split; [done|]. cbn [pos set_pos len]. lia.
  - intros s file p b Hi _. exact Hi.
Qed.
End net.

(** ** Theorems *)

(** C4: a kernel whose headers are in the file, whose segments are in the file, fit in
    the memory the loader asks for and do not overlap is loaded: every loadable segment
    is in memory, at its address relative to the first one, byte for byte as in the
    file; the only other outcome is that the firmware has no memory to claim. *)
Theorem elf_loaded {F} `{Firmware F} {X} `{FileAccess (fstate F X)} env contents
    (inv : fstate F X → boot_file → Z → Prop) `{!HoldsFile env contents inv} c file li (s : fstate F X) :
  c = elf32 ∨ c = elf64 → loadable_file c contents li → inv s file ident_size →
  (malloc (phdr_size c * e_phnum c contents) (pheap (f_base s))).1 ≠ 0 →
  ∃ r file' li' s', load_elf env c file li s = (Ok (r, file', li'), s') ∧
    (r = 0 ∧ base li' = PROM_INVALID_HANDLE ∨
     r = 1 ∧ li' = with_base (base li') (layout c contents li) ∧
     Forall (λ p, loadable p = true →
       mem_load (mem (pheap (f_base s'))) (base li' + segment_offset (layout c contents li) p)
         (Z.to_nat (p_filesz p)) = slice contents (p_offset p) (p_filesz p)) (file_headers c contents)).
Proof.
  intros Hc Hf Hi Hm. destruct (load_elf_ok env contents inv c file li s) as (r & file' & li' & s' & E & _ & Hr);
    [destruct Hc as [-> | ->]; [apply elf32_local|apply elf64_local]|done..|]. by exists r, file', li', s'.
Qed.

(** a small kernel of two segments *)
Definition kernel : list Z :=
  [127; 69; 76; 70; 1; 2; 1] ++ replicate 9 0 ++ put_be16 2 ++ put_be16 20 ++ put_be32 1 ++
  put_be32 3221225472 ++ put_be32 52 ++ put_be32 0 ++ put_be32 0 ++ put_be16 52 ++ put_be16 32 ++
  put_be16 2 ++ replicate 6 0 ++
  put_be32 1 ++ put_be32 116 ++ put_be32 3221225472 ++ put_be32 0 ++ put_be32 5 ++ put_be32 8 ++ put_be32 7 ++ put_be32 1 ++
  put_be32 1 ++ put_be32 121 ++ put_be32 3221225488 ++ put_be32 0 ++ put_be32 6 ++ put_be32 6 ++ put_be32 7 ++ put_be32 1 ++
  bs "hello" ++ bs "kernel".

Definition kernel_file : boot_file :=
  BFile (Some FsNet) FILE_DEVICE_NET 7 0 20 (Some (8388608, kernel)) (Z.of_nat (length kernel)).

Definition ident_read : loadinfo := LoadInfo (take 20 kernel ++ replicate 44 0) 0 0 0 0 0 0 false.

Lemma kernel_loadable : loadable_file elf32 kernel ident_read.
Proof.
  split; [by_decision|by_decision|by_decision|by_decision|by_decision|by_decision|by_decision| |].
  - repeat apply List.Forall_cons; [intros _; by_decision|intros _; by_decision|constructor].
  - assert (filter (λ p, loadable p = true) (file_headers elf32 kernel) = file_headers elf32 kernel) as -> by (by vm_compute).
    apply FOP_cons; [|apply FOP_cons; [constructor|constructor]].
    apply List.Forall_cons; [left; by_decision|constructor].
Qed.

Lemma elf_loaded_witness :
  let s := fs0 [] 512 in
  is_elf32 ident_read = true ∧
  ∃ file' li' s', load_elf (H0 := net_access) (PromEnv 0 0 7 0 false) elf32 kernel_file ident_read s =
      (Ok (1, file', li'), s') ∧
    mem_load (mem (pheap (f_base s'))) (base li') 5 = bs "hello" ∧
    mem_load (mem (pheap (f_base s'))) (base li' + 16) 6 = bs "kernel".
Proof.
  intros s. split; [by vm_compute|].
  set (env := PromEnv 0 0 7 0 false).
  destruct (@elf_loaded image _ unit net_access env kernel (net_at kernel) (net_holds env kernel) elf32
    kernel_file ident_read s) as (r & file' & li' & s' & E & Hr);
    [by left|exact kernel_loadable| |by_decision|].
  { split; [done|]. split; [by eexists|]. split; [done|]. split; by vm_compute. }
  assert ((match (load_elf (H0 := net_access) env elf32 kernel_file ident_read s).1 with
           | Ok (r, _, _) => r | _ => 0 end) = 1) as E1 by (by vm_compute).
  rewrite E in E1. cbn [fst] in E1. destruct Hr as [[E0 _]|(_ & _ & Hseg)]; [exfalso; lia|]. subst r.
  exists file', li', s'. split; [exact E|].
  assert (file_headers elf32 kernel = [Phdr 1 116 3221225472 5 8; Phdr 1 121 3221225488 6 6]) as Eh by (by vm_compute).
  rewrite Eh in Hseg. apply Forall_cons_iff in Hseg as [H1 Hseg]. apply Forall_cons_iff in Hseg as [H2 _].
  specialize (H1 eq_refl). specialize (H2 eq_refl).
  assert (segment_offset (layout elf32 kernel ident_read) (Phdr 1 116 3221225472 5 8) = 0) as E0 by (by vm_compute).
  assert (segment_offset (layout elf32 kernel ident_read) (Phdr 1 121 3221225488 6 6) = 16) as E2 by (by vm_compute).
  rewrite E0, Z.add_0_r in H1. rewrite E2 in H2. split; [exact H1|exact H2].
Defined.
