(* ===== verification/Boot.v ===== *)
(** [second/yaboot.c], its state and its configuration: the static buffers, the words of
    the command line, the parameters of the kernel, message files, and the search for
    the configuration file.

    Strings in static buffers are reached through pointers into them, so that two names
    for one buffer see each other's stores; other strings are values, and the blocks they
    are copied to are taken to be available.  A NULL pointer used as a string reads the
    bytes at address 0, the parameter [low]. *)
From S2P Require Import Prelude Ctype CString Numeric Vsprintf Malloc Prom Disk Cfg Cmdline Devpath Partition Fs Elf.
From S2P Require Md5.

(** ** Data *)

(** the static buffers *)
Inductive ubuf :=
  | Cbuff | Passwdbuff | Bootdevice | Bootoncelabel | Bootargs | Bootlastlabel | Fw_nbr_reboots
  | Given_bootargs | Imagepath | Initrdpath | Manualinitrd | Params_buffer.

#[export] Instance ubuf_eq_dec : EqDecision ubuf.
Proof. solve_decision. Defined.

Definition BOOTDEVSZ : Z := 2048.
Definition BOOTLASTSZ : Z := 1024.
Definition FW_NBR_REBOOTSZ : Z := 4.

Definition buf_size (b : ubuf) : Z :=
  match b with
  | Cbuff | Passwdbuff => CMD_LENG
  | Bootdevice => BOOTDEVSZ
  | Bootlastlabel => BOOTLASTSZ
  | Fw_nbr_reboots => FW_NBR_REBOOTSZ
  | Params_buffer => 2048
  | Bootoncelabel | Bootargs | Given_bootargs | Imagepath | Initrdpath | Manualinitrd => 1024
  end.

(** a string: in a static buffer from an offset on, or somewhere else *)
Inductive cptr := At (b : ubuf) (o : Z) | Text (s : list Z).

Definition _MACH_Pmac : Z := 2.
Definition _MACH_chrp : Z := 4.
Definition _MACH_bplan : Z := 8192.

Definition CONFIG_FILE_NAME : list Z := bs "yaboot.conf".
Definition CONFIG_FILE_MAX : Z := 32768.
Definition MESSAGE_FILE_MAX : Z := 2048.

(** the scalar variables; [useconf] is what loading the configuration returned *)
Record vars := Vars {
  useconf : Z;
  fw_reboot_cnt : Z;
  password : option (list Z);
  boot : boot_fspec;
  fgcolor : Z;
  bgcolor : Z;
  pause_after : bool;
  pause_message : list Z;
  given_by_user : bool;
  first : bool;
  definitrd : bool;
  hasarg : bool;
}.

Definition set_useconf v x := Vars v (fw_reboot_cnt x) (password x) (boot x) (fgcolor x) (bgcolor x) (pause_after x)
  (pause_message x) (given_by_user x) (first x) (definitrd x) (hasarg x).
Definition set_fw_reboot_cnt v x := Vars (useconf x) v (password x) (boot x) (fgcolor x) (bgcolor x) (pause_after x)
  (pause_message x) (given_by_user x) (first x) (definitrd x) (hasarg x).
Definition set_password v x := Vars (useconf x) (fw_reboot_cnt x) v (boot x) (fgcolor x) (bgcolor x) (pause_after x)
  (pause_message x) (given_by_user x) (first x) (definitrd x) (hasarg x).
Definition set_boot v x := Vars (useconf x) (fw_reboot_cnt x) (password x) v (fgcolor x) (bgcolor x) (pause_after x)
  (pause_message x) (given_by_user x) (first x) (definitrd x) (hasarg x).
Definition set_fgcolor v x := Vars (useconf x) (fw_reboot_cnt x) (password x) (boot x) v (bgcolor x) (pause_after x)
  (pause_message x) (given_by_user x) (first x) (definitrd x) (hasarg x).
Definition set_bgcolor v x := Vars (useconf x) (fw_reboot_cnt x) (password x) (boot x) (fgcolor x) v (pause_after x)
  (pause_message x) (given_by_user x) (first x) (definitrd x) (hasarg x).
Definition set_pause_after v x := Vars (useconf x) (fw_reboot_cnt x) (password x) (boot x) (fgcolor x) (bgcolor x) v
  (pause_message x) (given_by_user x) (first x) (definitrd x) (hasarg x).
Definition set_pause_message v x := Vars (useconf x) (fw_reboot_cnt x) (password x) (boot x) (fgcolor x) (bgcolor x)
  (pause_after x) v (given_by_user x) (first x) (definitrd x) (hasarg x).
Definition set_given_by_user v x := Vars (useconf x) (fw_reboot_cnt x) (password x) (boot x) (fgcolor x) (bgcolor x)
  (pause_after x) (pause_message x) v (first x) (definitrd x) (hasarg x).
Definition set_first v x := Vars (useconf x) (fw_reboot_cnt x) (password x) (boot x) (fgcolor x) (bgcolor x)
  (pause_after x) (pause_message x) (given_by_user x) v (definitrd x) (hasarg x).
Definition set_definitrd v x := Vars (useconf x) (fw_reboot_cnt x) (password x) (boot x) (fgcolor x) (bgcolor x)
  (pause_after x) (pause_message x) (given_by_user x) (first x) v (hasarg x).
Definition set_hasarg v x := Vars (useconf x) (fw_reboot_cnt x) (password x) (boot x) (fgcolor x) (bgcolor x)
  (pause_after x) (pause_message x) (given_by_user x) (first x) (definitrd x) v.

(** as the program is loaded *)
Definition vars0 : vars :=
  Vars 0 0 None fspec0 15 0 false (bs "Type go<return> to continue." ++ [10]) false true true false.

(** the rest of the operations of a file system *)
Class FileClose (S : Type) := {
  fclose : boot_file → stm S fault Z;
  fino_size : boot_file → option (stm S fault Z);
}.

Record ystate (F X : Type) := YState {
  y_fs : fstate F X;
  y_cfg : cfg;
  y_bufs : ubuf → list Z;
  y_md5 : Md5.md5;
  y_vars : vars;
}.
Arguments YState {F X} _ _ _ _ _.
Arguments y_fs {F X} _.
Arguments y_cfg {F X} _.
Arguments y_bufs {F X} _.
Arguments y_md5 {F X} _.
Arguments y_vars {F X} _.

(** ** Colors *)

Definition ansi_color_table : list (list Z) :=
  [bs "black"; bs "blue"; bs "green"; bs "cyan"; bs "red"; bs "purple"; bs "brown"; bs "light-gray";
   bs "dark-gray"; bs "light-blue"; bs "light-green"; bs "light-cyan"; bs "light-red"; bs "light-purple";
   bs "yellow"; bs "white"].

Fixpoint color_index (l : list (list Z)) (i : Z) (color : list Z) : Z :=
  match l with
  | [] => -1
  | name :: l => if strcmp color name =? 0 then i else color_index l (i + 1) color
  end.

Definition check_color_text_ui (color : list Z) : Z := color_index ansi_color_table 0 color.

(** ** Words *)

(** the number of spaces at the head *)
Fixpoint spaces (s : list Z) : nat :=
  match s with c :: s => if c =? 32 then S (spaces s) else 0%nat | [] => 0%nat end.

(** the number of characters up to a space *)
Fixpoint word_len (s : list Z) : nat :=
  match s with c :: s => if c =? 32 then 0%nat else S (word_len s) | [] => 0%nat end.

(** the first word of the line at offset [p] of a buffer and the rest: their offsets, and
    the buffer, in which the spaces between them are zeros *)
Definition word_split (buf : list Z) (p : Z) : option Z * option Z * list Z :=
  let s := cstring (drop (Z.to_nat p) buf) in
  let i := spaces s in
  let w := drop i s in
  match w with
  | [] => (None, None, buf)
  | _ =>
      let j := word_len w in
      let g := spaces (drop j w) in
      let linep := p + Z.of_nat i in
      let buf := store buf (linep + Z.of_nat j) (replicate g 0) in
      (Some linep,
       match drop (j + g) w with [] => None | _ => Some (linep + Z.of_nat (j + g)) end,
       buf)
  end.

Section boot.
Context {F : Type} `{Firmware F} {X : Type} `{FileAccess (fstate F X)} `{FileClose (fstate F X)}.
Context (env : prom_env) (low : list Z) (machine : Z).
Context (ext2_open xfs_open reiserfs_open : open_fn F X).
(** loops of the code that wait or follow data of a disk are run for [fuel] steps; the
local variable of type [struct boot_file_t] holds [local_file] *)
Context (fuel : nat) (local_file : boot_file).

Definition ym (A : Type) : Type := stm (ystate F X) fault A.

(** ** Access to the state *)

Definition on_fs {A} (m : stm (fstate F X) fault A) : stm (ystate F X) fault A := λ s,
  let '(r, f) := m (y_fs s) in (r, YState f (y_cfg s) (y_bufs s) (y_md5 s) (y_vars s)).

Definition fw {A} (g : F → A * F) : stm (ystate F X) fault A := on_fs (call g).
Definition tell (fmt : list Z) (args : list arg) : stm (ystate F X) fault unit := on_fs (print env fmt args).

(** an operation of the firmware client that allocates *)
Definition on_heap {A} (g : heap → F → A * heap * F) : stm (ystate F X) fault A :=
  on_fs (on_base (λ b, let '(a, h, f) := g (pheap b) (pfw b) in
  (Ok a, PState (block_buffer b) (plist b) h f))).

Definition get_var {A} (g : vars → A) : stm (ystate F X) fault A := gets (λ s, g (y_vars s)).

Definition set_var (g : vars → vars) : stm (ystate F X) fault unit := modify (λ s,
  YState (y_fs s) (y_cfg s) (y_bufs s) (y_md5 s) (g (y_vars s))).

Definition get_buf (b : ubuf) : stm (ystate F X) fault (list Z) := gets (λ s, y_bufs s b).

Definition set_buf (b : ubuf) (v : list Z) : stm (ystate F X) fault unit := modify (λ s,
  YState (y_fs s) (y_cfg s) (λ c, if decide (c = b) then v else y_bufs s c) (y_md5 s) (y_vars s)).

(** bytes stored in a buffer, inside it *)
Definition put_bytes (b : ubuf) (o : Z) (v : list Z) : stm (ystate F X) fault unit :=
  old ← get_buf b;
  if (0 <=? o) && (o + Z.of_nat (length v) <=? Z.of_nat (length old))
  then set_buf b (store old o v) else fail Overrun.

(** the string at a pointer *)
Definition text (p : option cptr) : stm (ystate F X) fault (list Z) :=
  match p with
  | None => mret low
  | Some (At b o) => buf ← get_buf b; mret (cstring (drop (Z.to_nat o) buf))
  | Some (Text s) => mret s
  end.

Definition buf_text (b : ubuf) : stm (ystate F X) fault (list Z) := text (Some (At b 0)).

(** [strcpy(b, s)], [strncpy(b, s, n)] and [strcat(b, s)] *)
Definition copy_to (b : ubuf) (s : list Z) : stm (ystate F X) fault unit := put_bytes b 0 (strcpy s).
Definition ncopy_to (b : ubuf) (s : list Z) (n : nat) : stm (ystate F X) fault unit := put_bytes b 0 (strncpy s n).
Definition append_to (b : ubuf) (s : list Z) : stm (ystate F X) fault unit :=
  old ← buf_text b; put_bytes b (Z.of_nat (length old)) (strcpy s).

(** a query of the configuration *)
Definition ask_cfg {A} (q : tables → result null_deref A) : stm (ystate F X) fault A :=
  t ← gets (λ s, tabs (y_cfg s));
  match q t with Ok a => mret a | Err _ => fail NullPointer | Fuel => out_of_fuel end.

Definition conf_strg (label : option (list Z)) (item : list Z) : stm (ystate F X) fault (option (list Z)) :=
  ask_cfg (cfg_get_strg label item).
Definition conf_flag (label : option (list Z)) (item : list Z) : stm (ystate F X) fault bool :=
  ask_cfg (cfg_get_flag label item).

(** an operation of the prompt: its buffers are two of the static ones *)
Definition on_prompt {A} (m : bool → tables → stm (cmd F) fault A) : stm (ystate F X) fault A := λ s,
  let base := f_base (y_fs s) in
  let '(r, c) := m (negb (useconf (y_vars s) =? 0)) (tabs (y_cfg s))
     (Cmd (y_bufs s Cbuff) (y_bufs s Passwdbuff) (pfw base)) in
  (r, YState (FState (set_fw (cmd_fw c) base) (f_bufs (y_fs s)) (fserrorno (y_fs s)) (f_priv (y_fs s))) (y_cfg s)
  (λ b, match b with Cbuff => cbuff c | Passwdbuff => passwdbuff c | _ => y_bufs s b end)
  (y_md5 s) (y_vars s)).

Definition maintabfunc (useconf : bool) (t : tables) (once : list Z) : stm (cmd F) fault unit :=
  if useconf then
  shown ← query (cfg_print_images once t);
  ask (λ f, (tt, prom_puts (prom_stdout env) shown f));;
  b ← gets cbuff;
  Cmdline.say env (bs "boot: %s") [AStr (Some (cstring b))]
  else mret tt.

(** ** Parameters of the kernel *)

(** [strcpy(q, s); q = strchr(q, 0)] at an offset of the parameters *)
Definition param_copy (q : Z) (s : list Z) : stm (ystate F X) fault Z :=
  put_bytes Params_buffer q (strcpy s);; mret (q + Z.of_nat (length (cstring s))).

(** [*q++ = ' '] *)
Definition param_space (q : Z) : stm (ystate F X) fault Z :=
  put_bytes Params_buffer q [32];; mret (q + 1).

(** an option with a value *)
Definition param_value (label : list Z) (item prefix : list Z) (q : Z) : stm (ystate F X) fault Z :=
  p ← conf_strg (Some label) item;
  match p with
  | Some p => q ← param_copy q prefix; q ← param_copy q p; param_space q
  | None => mret q
  end.

(** a flag that adds [word], [len] bytes of which are kept *)
Definition param_flag (label : list Z) (item word : list Z) (q : Z) : stm (ystate F X) fault Z :=
  f ← conf_flag (Some label) item;
  if f : bool then param_copy q word else mret q.

(** the options of an image, each followed by a space *)
Definition param_options (label : list Z) (q : Z) : stm (ystate F X) fault Z :=
  q ← param_value label (bs "root") (bs "root=") q;
  q ← param_flag label (bs "read-only") (bs "ro ") q;
  q ← param_flag label (bs "read-write") (bs "rw ") q;
  q ← param_value label (bs "ramdisk") (bs "ramdisk=") q;
  q ← param_value label (bs "initrd-size") (bs "ramdisk_size=") q;
  novideo ← conf_flag (Some label) (bs "novideo");
  q ← (if novideo : bool then q ← param_copy q (bs "video=ofonly"); param_space q else mret q);
  param_value label (bs "append") [] q.

(** [if (params) strcpy(q, params)] *)
Definition param_typed (params : option cptr) (q : Z) : stm (ystate F X) fault unit :=
  match params with
  | Some _ => t ← text params; param_copy q t;; mret tt
  | None => mret tt
  end.

Definition make_params (label : list Z) (params : option cptr) : stm (ystate F X) fault cptr :=
  let buffer := At Params_buffer 0 in
  put_bytes Params_buffer 0 [0];;
  p ← conf_strg (Some label) (bs "literal");
  match p with
  | Some p =>
  q ← param_copy 0 p;
  q ← (if bool_decide (is_Some params) && negb (deref p =? 0) then param_space q else mret q);
  param_typed params q;;
  mret buffer
  | None =>
  q ← param_options label 0;
  put_bytes Params_buffer q [0];;
  pause ← conf_flag (Some label) (bs "pause-after");
  set_var (set_pause_after pause);;
  p ← conf_strg (Some label) (bs "pause-message");
  match p with Some p => set_var (set_pause_message p) | None => mret tt end;;
  param_typed params q;;
  mret buffer
  end.

(** ** Message files *)

(** [n = simple_strtol(p, &endp, 10); if (endp != p && *endp == 0) defpart = n;] *)
Definition partition_value (p : option (list Z)) (defpart : Z) : Z :=
  match p with
  | Some p =>
  let '(n, endp) := simple_strtol p 10 in
  if negb (Nat.eqb (length endp) (length p)) && (deref endp =? 0) then n else defpart
  | None => defpart
  end.

Definition conf_partition (label : option (list Z)) (defpart : Z) : stm (ystate F X) fault Z :=
  p ← conf_strg label (bs "partition"); mret (partition_value p defpart).

(** [parse_device_path], whose iSCSI paths go through [bootdevice] *)
Definition parse_path (imagepath defdevice : option (list Z)) (defpart : Z) (deffile : list Z) (r : boot_fspec)
  : stm (ystate F X) fault (Z * boot_fspec) :=
  b ← get_buf Bootdevice;
  res ← on_heap (λ h f, parse_device_path env low b imagepath defdevice defpart deffile r h f);
  match res with
  | Ok (ok, r, b) => set_buf Bootdevice b;; mret (ok, r)
  | Err e => fail e
  | Fuel => out_of_fuel
  end.

Definition bplan : bool := machine =? _MACH_bplan.

Definition yopen (spec : boot_fspec) (file : boot_file) : stm (ystate F X) fault (Z * boot_file) :=
  on_fs (open_file env low bplan ext2_open xfs_open reiserfs_open fuel spec file).

Definition yalloc (size : Z) : stm (ystate F X) fault Z := on_fs (on_base (part_malloc size)).
Definition yfree (a : Z) : stm (ystate F X) fault unit := on_fs (on_base (part_free a)).

(** the message of a file that cannot be opened *)
Definition tell_error (spec : boot_fspec) (result : Z) : stm (ystate F X) fault unit :=
  tell (bs "%s:%d,") [AStr (dev spec); AInt (part spec)];;
  fw (λ f, (tt, prom_perror env result (cstr low (file spec)) f)).

Definition print_message_file (filename : list Z) : stm (ystate F X) fault unit :=
  b ← get_var boot;
  d ← conf_strg None (bs "device");
  let defdev := match d with Some d => Some d | None => dev b end in
  defpart ← conf_partition None (part b);
  let msgpath := cstring (strncpy filename 1024) in
  '(ok, msgfile) ← parse_path (Some msgpath) defdev defpart (bs "/etc/yaboot.msg") b;
  if ok =? 0 then tell (bs "%s: Unable to parse" ++ [10]) [AStr (Some msgpath)]
  else
  '(result, file) ← yopen msgfile local_file;
  if negb (result =? FILE_ERR_OK) then tell_error msgfile result
  else
  msg ← yalloc (MESSAGE_FILE_MAX + 1);
  if msg =? 0 then on_fs (fclose file);; mret tt
  else
  '(n, data, file) ← on_fs (fread file MESSAGE_FILE_MAX);
  (if n <=? 0 then mret tt else tell (bs "%s") [AStr (Some (cstring data))]);;
  on_fs (fclose file);; yfree msg.

(** ** The configuration file *)

(** the parser reads the bytes of the file; what it prints reaches the console *)
Definition parse_config (name buff : list Z) : stm (ystate F X) fault Z := λ s,
  let c := y_cfg s in
  let base := f_base (y_fs s) in
  let '(r, c) := cfg_parse (pfw base) name buff (Cfg (lx c) (last_token c) (last_item c) (tabs c) (file_name c) []) in
  let s := YState (FState (set_fw (prom_puts (prom_stdout env) (Cfg.console c) (pfw base)) base) (f_bufs (y_fs s))
         (fserrorno (y_fs s)) (f_priv (y_fs s))) c (y_bufs s) (y_md5 s) (y_vars s) in
  match r with Ok r => (Ok r, s) | _ => (Fuel, s) end.

(** a color of the configuration, which becomes the variable *)
Definition conf_color (item : list Z) (setter : Z → vars → vars) : stm (ystate F X) fault unit :=
  p ← conf_strg None item;
  match p with
  | Some p =>
  let c := check_color_text_ui p in
  set_var (setter c);;
  if c =? -1 then tell (bs "Invalid " ++ item ++ bs ": " ++ [34] ++ bs "%s" ++ [34] ++ bs "." ++ [10]) [AStr (Some p)]
  else mret tt
  | None => mret tt
  end.

Definition interpret (forth : list Z) : stm (ystate F X) fault unit := fw (λ f, (tt, prom_interpret forth f)).

Definition set_colors : stm (ystate F X) fault unit :=
  conf_color (bs "fgcolor") set_fgcolor;;
  conf_color (bs "bgcolor") set_bgcolor;;
  bg ← get_var bgcolor;
  (if 0 <=? bg then interpret (format (bs "%x to background-color") [AInt bg]);; tell [12] [] else mret tt);;
  fg ← get_var fgcolor;
  if 0 <=? fg then interpret (format (bs "%x to foreground-color") [AInt fg]) else mret tt.

(** the packet of the network boot, and texts made from it *)
Definition netinfo : stm (ystate F X) fault (option (list Z)) := on_heap (prom_get_netinfo env).
Definition packet_mac (p : option (list Z)) : stm (ystate F X) fault (option (list Z)) :=
  on_heap (λ h f, let '(t, h) := prom_get_mac p h in (t, h, f)).
Definition packet_ip (p : option (list Z)) : stm (ystate F X) fault (option (list Z)) :=
  on_heap (λ h f, let '(t, h) := prom_get_ip p h in (t, h, f)).

(** the default image of a machine that has one under its hardware address *)
Definition set_default_by_mac (macaddr : list Z) : stm (ystate F X) fault Z := λ s,
  match cfg_set_default_by_mac macaddr (tabs (y_cfg s)) with
  | Ok (r, t) => (Ok r, YState (y_fs s) (set_tabs t (y_cfg s)) (y_bufs s) (y_md5 s) (y_vars s))
  | Err _ => (Err NullPointer, s)
  | Fuel => (Fuel, s)
  end.

Definition devtype (d : option (list Z)) : stm (ystate F X) fault Z :=
  k ← fw (prom_get_devtype env (cstr low d));
  match k with Some k => mret k | None => fail Overrun end.

(** what the configuration asks for once it is parsed *)
Definition apply_config (fspec : boot_fspec) : stm (ystate F X) fault unit :=
  kind ← devtype (dev fspec);
  (if kind =? FILE_DEVICE_NET then
   packet ← netinfo;
   macaddr ← packet_mac packet;
   default_mac ← set_default_by_mac (cstr low macaddr);
   if 1 <=? default_mac then tell (bs "Default label was changed to macaddr label." ++ [10]) [] else mret tt
   else mret tt);;
  p ← conf_strg None (bs "init-code");
  match p with Some p => interpret p | None => mret tt end;;
  p ← conf_strg None (bs "password");
  set_var (set_password p);;
  set_colors;;
  p ← conf_strg None (bs "init-message");
  match p with Some p => tell (bs "%s" ++ [10]) [AStr (Some p)] | None => mret tt end;;
  p ← conf_strg None (bs "message");
  match p with Some p => print_message_file p | None => mret tt end.

(** [result] is 1 once the file was parsed, the error of opening it, or 0 *)
Definition load_config_file (fspec : boot_fspec) : stm (ystate F X) fault Z :=
  conf_file ← yalloc CONFIG_FILE_MAX;
  if conf_file =? 0 then tell (bs "Can't alloc config file buffer" ++ [10]) [];; mret 0
  else
  '(result, file) ← yopen fspec local_file;
  if negb (result =? FILE_ERR_OK) then
  tell_error fspec result;;
  tell (bs "Can't open config file" ++ [10]) [];;
  yfree conf_file;; mret result
  else
  '(sz, data, file) ← on_fs (fread file CONFIG_FILE_MAX);
  if sz <=? 0 then
  tell (bs "Error, can't read config file" ++ [10]) [];;
  on_fs (fclose file);; yfree conf_file;; mret 0
  else
  tell (bs "Config file read, %d bytes" ++ [10]) [AInt sz];;
  on_fs (fclose file);;
  parsed ← parse_config (cstr low (Devpath.file fspec)) (take (Z.to_nat sz) data);
  if parsed <? 0 then
  tell (bs "Syntax error or read error config" ++ [10]) [];;
  yfree conf_file;; mret 0
  else
  apply_config fspec;;
  yfree conf_file;; mret 1.

(** ** The configuration of a network boot *)

(** [packet->htype] *)
Definition packet_htype (packet : list Z) : Z := byte_at packet 1.

Definition cfgpath : list Z := if (machine =? _MACH_chrp) || bplan then bs "/etc/" else [].

(** the names with fewer and fewer digits of the address, until one is not refused *)
Fixpoint try_names (n : nat) (fspec : boot_fspec) (name : list Z) : stm (ystate F X) fault (Z * list Z) :=
  match n with
  | O => mret (0, name)
  | S n =>
  rc ← load_config_file (set_file (Some name) fspec);
  if negb (rc =? 0) then mret (rc, name)
  else try_names n fspec (take (length name - 1) name)
  end.

(** the result and [orig_fspec->file] afterwards; the name it replaces is a value, whose
    block is not freed *)
Definition load_my_config_file (orig_fspec : boot_fspec) : stm (ystate F X) fault (Z * boot_fspec) :=
  packet ← netinfo;
  match packet with
  | None => mret (0, orig_fspec)
  | Some packet =>
  let room := packet_hlen packet * 3 + 2 + 6 in
  mac ← packet_mac (Some packet);
  let name := cfgpath ++ format (bs "%02x-") [AInt (packet_htype packet)] ++ cstr low mac in
  if room <? Z.of_nat (length name) + 1 then fail Overrun
  else
  rc ← load_config_file (set_file (Some name) orig_fspec);
  if negb (rc =? 0) then mret (rc, set_file (Some name) orig_fspec)
  else
  ip ← packet_ip (Some packet);
  let name := cfgpath ++ cstr NULL_text ip in
  if room <? Z.of_nat (length name) + 1 then fail Overrun
  else
  '(rc, name) ← try_names (length name - length cfgpath) orig_fspec name;
  mret (rc, if rc =? 0 then orig_fspec else set_file (Some name) orig_fspec)
  end.
End boot.

(** ** Words *)

Lemma spaces_replicate i s : deref s ≠ 32 → spaces (replicate i 32 ++ s) = i.
Proof.
  intros Hs. induction i as [|i IH]; simpl; [|by rewrite IH].
  destruct s as [|c s]; [done|]. simpl in *. by destruct (Z.eqb_spec c 32).
Qed.

Lemma word_len_app w s : 32 ∉ w → (s = [] ∨ deref s = 32) → word_len (w ++ s) = length w.
Proof.
  intros Hw Hs. induction w as [|c w IH]; simpl.
  - destruct s as [|c s]; [done|]. destruct Hs as [?|Hs]; [done|]. simpl in *. by rewrite Hs.
  - destruct (Z.eqb_spec c 32) as [->|]; [set_solver|]. rewrite IH; [done|set_solver].
Qed.

Lemma word_split_spec buf (p i : nat) word g rest tl :
  drop p buf = (replicate i 32 ++ word ++ replicate g 32 ++ rest) ++ 0 :: tl → (p <= length buf)%nat →
  cstr_ok word → cstr_ok rest → 32 ∉ word → word ≠ [] → deref rest ≠ 32 → (g = 0%nat → rest = []) →
  ∃ buf', word_split buf (Z.of_nat p) =
    (Some (Z.of_nat (p + i)), match rest with [] => None | _ => Some (Z.of_nat (p + i + length word + g)) end, buf') ∧
    length buf' = length buf ∧ take p buf' = take p buf ∧
    cstring (drop (p + i) buf') = word ∧ cstring (drop (p + i + length word + g) buf') = rest.
Proof.
  intros Hd Hp Hw Hr Hw32 Hwn Hr32 Hg.
  assert (cstr_ok (replicate i 32 ++ word ++ replicate g 32 ++ rest)) as Hok.
  { rewrite !cstr_ok_app. split; [|split; [done|split; [|done]]]; apply Forall_replicate; by_decision. }
  unfold word_split. rewrite Nat2Z.id, Hd, cstring_terminated by done. cbv zeta.
  assert (deref (word ++ replicate g 32 ++ rest) ≠ 32) as Hd32.
  { destruct word as [|c w]; [done|]. simpl. set_solver. }
  rewrite spaces_replicate by done.
  rewrite (drop_app_length' (replicate i 32)) by (by rewrite length_replicate).
  rewrite word_len_app; [|done|].
  2:{ destruct g; [rewrite Hg by done; by left|by right]. }
  rewrite drop_app_length, spaces_replicate by done.
  rewrite <- drop_drop, drop_app_length, (drop_app_length' (replicate g 32)) by (by rewrite length_replicate).
  set (buf' := store _ _ _).
  assert (buf' = (take p buf ++ replicate i 32 ++ word) ++ replicate g 0 ++ rest ++ 0 :: tl) as Eb.
  { unfold buf'.
    replace buf with ((take p buf ++ replicate i 32 ++ word) ++ replicate g 32 ++ rest ++ 0 :: tl) at 1.
    2:{ rewrite <- (take_drop p buf) at 2. rewrite Hd. by rewrite <- !app_assoc. }
    replace (Z.of_nat p + Z.of_nat i + Z.of_nat (length word))
      with (Z.of_nat (length (take p buf ++ replicate i 32 ++ word))).
    2:{ rewrite !length_app, length_take, length_replicate. lia. }
    apply store_app. by rewrite !length_replicate. }
  assert (length buf' = length buf) as Hlen.
  { rewrite Eb. rewrite <- (take_drop p buf) at 2. rewrite Hd. rewrite !length_app, !length_replicate. simpl. lia. }
  destruct word as [|c w] eqn:Ew; [done|]. rewrite <- Ew in *. clear Hwn.
  exists buf'. split.
  { destruct (word ++ replicate g 32 ++ rest) eqn:E; [by destruct word|]. repeat f_equal; [lia|].
    destruct rest; [done|]. f_equal. lia. }
  split; [done|]. split.
  { rewrite Eb. rewrite <- app_assoc, take_app_le, take_take by (rewrite length_take; lia). f_equal. lia. }
  split.
  - rewrite Eb, <- !app_assoc. rewrite app_assoc.
    rewrite (drop_app_length' (take p buf ++ replicate i 32))
      by (rewrite length_app, length_take, length_replicate; lia).
    destruct g as [|g]; [|by apply cstring_terminated]. rewrite Hg by done. by apply cstring_terminated.
  - rewrite Eb. rewrite app_assoc.
    rewrite (drop_app_length' ((take p buf ++ replicate i 32 ++ word) ++ replicate g 0))
      by (rewrite !length_app, length_take, !length_replicate; lia).
    by apply cstring_terminated.
Qed.

(** ** Parameters of the kernel: the reference *)

Definition value_of (t : tables) (label item : list Z) : option (list Z) :=
  match cfg_get_strg (Some label) item t with Ok v => v | _ => None end.

(** a query that does not use a NULL pointer, and a value that is a string *)
Definition lookup_fine (t : tables) (label item : list Z) : Prop :=
  match cfg_get_strg (Some label) item t with Ok (Some v) => cstr_ok v | Ok None => True | _ => False end.

#[export] Instance lookup_fine_dec t label item : Decision (lookup_fine t label item).
Proof. unfold lookup_fine. repeat case_match; apply _. Defined.

Definition param_items : list (list Z) :=
  [bs "literal"; bs "root"; bs "read-only"; bs "read-write"; bs "ramdisk"; bs "initrd-size"; bs "novideo";
   bs "append"; bs "pause-after"; bs "pause-message"].

Definition item_text (t : tables) (label item prefix : list Z) : list Z :=
  match value_of t label item with Some p => prefix ++ p ++ [32] | None => [] end.

Definition flag_text (t : tables) (label item word : list Z) : list Z :=
  match value_of t label item with Some _ => word | None => [] end.

(** the options of an image, each followed by a space *)
Definition options_text (t : tables) (label : list Z) : list Z :=
  item_text t label (bs "root") (bs "root=") ++
  flag_text t label (bs "read-only") (bs "ro ") ++
  flag_text t label (bs "read-write") (bs "rw ") ++
  item_text t label (bs "ramdisk") (bs "ramdisk=") ++
  item_text t label (bs "initrd-size") (bs "ramdisk_size=") ++
  flag_text t label (bs "novideo") (bs "video=ofonly ") ++
  item_text t label (bs "append") [].

(** the command line of the kernel, with the arguments typed *)
Definition params_text (t : tables) (label : list Z) (typed : option (list Z)) : list Z :=
  match value_of t label (bs "literal") with
  | Some p => p ++ match typed with Some e => (if deref p =? 0 then [] else [32]) ++ e | None => [] end
  | None => options_text t label ++ default [] typed
  end.

Section params.
Context {F : Type} `{Firmware F} {X : Type} (low : list Z).
Implicit Types s : ystate F X.

(** the parameters start with [txt] *)
Definition pbuf (s : ystate F X) (txt : list Z) : Prop :=
  length (y_bufs s Params_buffer) = 2048%nat ∧ take (length txt) (y_bufs s Params_buffer) = txt.

(** nothing but the parameters differs *)
Definition only_params (s s' : ystate F X) : Prop :=
  y_fs s' = y_fs s ∧ y_cfg s' = y_cfg s ∧ y_md5 s' = y_md5 s ∧ y_vars s' = y_vars s ∧
  ∀ b, b ≠ Params_buffer → y_bufs s' b = y_bufs s b.

Lemma only_params_refl s : only_params s s.
Proof. unfold only_params. tauto. Qed.

Lemma only_params_trans s s1 s2 : only_params s s1 → only_params s1 s2 → only_params s s2.
Proof.
  intros (?&?&?&?&Hb) (?&?&?&?&Hb'). unfold only_params. repeat split; try congruence.
  intros b Hn. rewrite Hb', Hb; done.
Qed.

Lemma pbuf_prefix s a b : pbuf s (a ++ b) → pbuf s a.
Proof.
  intros (Hl & Ht). split; [done|].
  assert (take (length a) (take (length (a ++ b)) (y_bufs s Params_buffer)) = a) as E
  by (by rewrite Ht, take_app_length).
  rewrite take_take, length_app in E. by replace (length a `min` (length a + length b))%nat with (length a) in E by lia.
Qed.

Lemma put_params s txt v : pbuf s txt → (length txt + length v <= 2048)%nat →
  ∃ s', put_bytes Params_buffer (Z.of_nat (length txt)) v s = (Ok tt, s') ∧ pbuf s' (txt ++ v) ∧ only_params s s'.
Proof.
  intros (Hl & Ht) Hv. unfold put_bytes, get_buf. rewrite gets_bind, Hl.
  rewrite (proj2 (Z.leb_le 0 _)), (proj2 (Z.leb_le (_ + _) _)) by lia. cbn [andb].
  eexists. split; [done|]. split.
  - unfold pbuf. cbn [y_bufs]. rewrite decide_True by done. split.
  + rewrite length_store; lia.
  + unfold store. rewrite Nat2Z.id, Ht, app_assoc. apply take_app_length.
  - unfold only_params. cbn [y_bufs y_fs y_cfg y_md5 y_vars]. repeat split; try done.
  intros b Hb. by rewrite decide_False.
Qed.

Lemma param_copy_spec s txt v : pbuf s txt → cstr_ok v → (length txt + length v < 2048)%nat →
  ∃ s', param_copy (Z.of_nat (length txt)) v s = (Ok (Z.of_nat (length (txt ++ v))), s') ∧
  pbuf s' ((txt ++ v) ++ [0]) ∧ only_params s s'.
Proof.
  intros Hs Hv Hl. unfold param_copy, strcpy. rewrite cstring_id by done.
  destruct (put_params s txt (v ++ [0]) Hs) as (s' & E & Hp & Ho); [rewrite length_app; simpl; lia|].
  exists s'. rewrite (bind_ok _ _ _ _ _ E). split; [|split; [by rewrite <- app_assoc|done]].
  rewrite length_app, Nat2Z.inj_add. done.
Qed.

(** one step of the chain: the parameters grow by [item] *)
Definition grows (m : Z → stm (ystate F X) fault Z) (item : list Z) (s : ystate F X) : Prop :=
  ∀ txt, pbuf s txt → (length txt + length item < 2048)%nat →
  ∃ s', m (Z.of_nat (length txt)) s = (Ok (Z.of_nat (length (txt ++ item))), s') ∧ pbuf s' (txt ++ item) ∧
  only_params s s'.

Lemma grows_nil s : grows (λ q, mret q) [] s.
Proof. intros txt Hp Hl. exists s. rewrite app_nil_r. split; [done|]. split; [done|apply only_params_refl]. Qed.

Lemma grows_copy v s : cstr_ok v → grows (λ q, param_copy q v) v s.
Proof.
  intros Hv txt Hp Hl. destruct (param_copy_spec s txt v Hp Hv Hl) as (s' & E & Hp' & Ho).
  exists s'. split; [exact E|]. split; [by eapply pbuf_prefix|done].
Qed.

Lemma grows_space s : grows param_space [32] s.
Proof.
  intros txt Hp Hl. unfold param_space. simpl in Hl.
  destruct (put_params s txt [32] Hp) as (s' & E & Hp' & Ho); [simpl; lia|].
  exists s'. rewrite (bind_ok _ _ _ _ _ E). split; [|done]. rewrite length_app. simpl. unfold mret, stm_ret.
  do 2 f_equal. lia.
Qed.

Lemma grows_bind m k a b s : grows m a s → (∀ s', only_params s s' → grows k b s') →
  grows (λ q, q ← m q; k q) (a ++ b) s.
Proof.
  intros Hm Hk txt Hp Hl. rewrite length_app in Hl.
  destruct (Hm txt Hp) as (s1 & E1 & Hp1 & Ho1); [lia|].
  destruct (Hk s1 Ho1 (txt ++ a) Hp1) as (s2 & E2 & Hp2 & Ho2); [rewrite length_app; lia|].
  exists s2. rewrite (bind_ok _ _ _ _ _ E1), E2. rewrite <- app_assoc in *.
  split; [done|]. split; [done|]. by eapply only_params_trans.
Qed.

(** a query of the configuration for an image of the tables [t] *)
Lemma conf_strg_ok s t label item : tabs (y_cfg s) = t → lookup_fine t label item →
  conf_strg (Some label) item s = (Ok (value_of t label item), s).
Proof.
  intros Ht Hf. unfold conf_strg, ask_cfg, value_of, lookup_fine in *. rewrite gets_bind, Ht.
  by destruct (cfg_get_strg _ _ _) as [[v|]| |].
Qed.

Lemma conf_flag_ok s t label item : tabs (y_cfg s) = t → lookup_fine t label item →
  conf_flag (Some label) item s = (Ok (bool_decide (is_Some (value_of t label item))), s).
Proof.
  intros Ht Hf. unfold conf_flag, ask_cfg, cfg_get_flag, value_of, lookup_fine in *. rewrite gets_bind, Ht.
  by destruct (cfg_get_strg _ _ _) as [[v|]| |].
Qed.

Lemma value_ok t label item p : lookup_fine t label item → value_of t label item = Some p → cstr_ok p.
Proof. unfold lookup_fine, value_of. destruct (cfg_get_strg _ _ _) as [[v|]| |]; naive_solver. Qed.

Lemma grows_value s t label item prefix : tabs (y_cfg s) = t → lookup_fine t label item → cstr_ok prefix →
  grows (param_value label item prefix) (item_text t label item prefix) s.
Proof.
  intros Ht Hf Hpre txt Hp Hl. unfold param_value. rewrite (bind_ok _ _ _ _ _ (conf_strg_ok s t label item Ht Hf)).
  pose proof (value_ok t label item) as Hok. unfold item_text in *. destruct (value_of t label item) as [p|].
  - apply (grows_bind (λ q, param_copy q prefix) (λ q, q ← param_copy q p; param_space q) prefix (p ++ [32])); [by apply grows_copy| |done|done].
  intros s' _. apply (grows_bind (λ q, param_copy q p) param_space); [by apply grows_copy, Hok|]. intros s'' _. apply grows_space.
  - by apply grows_nil.
Qed.

Lemma grows_flag s t label item word : tabs (y_cfg s) = t → lookup_fine t label item → cstr_ok word →
  grows (param_flag label item word) (flag_text t label item word) s.
Proof.
  intros Ht Hf Hw txt Hp Hl. unfold param_flag. rewrite (bind_ok _ _ _ _ _ (conf_flag_ok s t label item Ht Hf)).
  unfold flag_text in *. destruct (value_of t label item) as [p|]; [by apply grows_copy|by apply grows_nil].
Qed.

(** the string in the parameters *)
Lemma pbuf_text s txt : pbuf s (txt ++ [0]) → cstr_ok txt → text low (Some (At Params_buffer 0)) s = (Ok txt, s).
Proof.
  intros (Hl & Ht) Hok. unfold text, get_buf. rewrite gets_bind. unfold mret, stm_ret. do 2 f_equal.
  rewrite <- (take_drop (length (txt ++ [0])) (y_bufs s Params_buffer)), Ht. simpl drop.
  rewrite <- app_assoc. by apply cstring_terminated.
Qed.

(** a string that is not in the parameters is still there *)
Lemma text_apart p s s' : (∀ o, p ≠ Some (At Params_buffer o)) →
  (∀ b, b ≠ Params_buffer → y_bufs s' b = y_bufs s b) →
  ∀ e, text low p s = (Ok e, s) → text low p s' = (Ok e, s').
Proof.
  intros Hp Hb e. destruct p as [[b o|x]|]; unfold text, get_buf; rewrite ?gets_bind; [|by intros [= <-]..].
  intros [= <-]. rewrite Hb; [done|]. intros ->. by apply (Hp o).
Qed.

Lemma novideo_grows s t label : tabs (y_cfg s) = t → lookup_fine t label (bs "novideo") →
  grows (λ q, novideo ← conf_flag (Some label) (bs "novideo");
      if novideo : bool then q ← param_copy q (bs "video=ofonly"); param_space q else mret q)
  (flag_text t label (bs "novideo") (bs "video=ofonly ")) s.
Proof.
  intros Ht Hf txt Hp Hl. rewrite (bind_ok _ _ _ _ _ (conf_flag_ok s t label _ Ht Hf)).
  unfold flag_text in *. destruct (value_of t label (bs "novideo")) as [p|]; [|by apply grows_nil].
  apply (grows_bind (λ q, param_copy q (bs "video=ofonly")) param_space (bs "video=ofonly") [32]);
  [apply grows_copy; by_decision|intros; apply grows_space|done|done].
Qed.

Lemma options_grow s t label : tabs (y_cfg s) = t → Forall (lookup_fine t label) param_items →
  grows (param_options label) (options_text t label) s.
Proof.
  intros Ht Hf. unfold param_items in Hf. rewrite !Forall_cons in Hf.
  destruct Hf as (_ & Hroot & Hro & Hrw & Hrd & His & Hnv & Hap & _).
  assert (∀ s' : ystate F X, only_params s s' → tabs (y_cfg s') = t) as Hc by (intros s' (_ & -> & _); done).
  unfold param_options, options_text.
  apply (grows_bind (param_value label (bs "root") (bs "root="))); [apply grows_value; [done|done|by_decision]|].
  intros s1 O1. pose proof (Hc _ O1) as T1.
  apply (grows_bind (param_flag label (bs "read-only") (bs "ro "))); [apply grows_flag; [done|done|by_decision]|].
  intros s2 O2. pose proof (only_params_trans _ _ _ O1 O2) as P2. pose proof (Hc _ P2) as T2.
  apply (grows_bind (param_flag label (bs "read-write") (bs "rw "))); [apply grows_flag; [done|done|by_decision]|].
  intros s3 O3. pose proof (only_params_trans _ _ _ P2 O3) as P3. pose proof (Hc _ P3) as T3.
  apply (grows_bind (param_value label (bs "ramdisk") (bs "ramdisk="))); [apply grows_value; [done|done|by_decision]|].
  intros s4 O4. pose proof (only_params_trans _ _ _ P3 O4) as P4. pose proof (Hc _ P4) as T4.
  apply (grows_bind (param_value label (bs "initrd-size") (bs "ramdisk_size=")));
  [apply grows_value; [done|done|by_decision]|].
  intros s5 O5. pose proof (only_params_trans _ _ _ P4 O5) as P5. pose proof (Hc _ P5) as T5.
  intros txt Hp Hl.
  destruct (grows_bind _ (param_value label (bs "append") []) _ (item_text t label (bs "append") []) s5
  (novideo_grows s5 t label T5 Hnv)) with (txt := txt) as (s' & E & Hs'); [|done|done|].
  { intros s6 O6. pose proof (only_params_trans _ _ _ P5 O6) as P6.
  apply grows_value; [by apply Hc|done|constructor]. }
  exists s'. split; [|done]. rewrite <- E. unfold mbind, stm_bind. by destruct (conf_flag _ _ s5) as [[[]| |] ?].
Qed.

(** the arguments typed: [e] is the string they point to *)
Definition typed_at (params : option cptr) (e : list Z) (s : ystate F X) : Prop :=
  (∀ o, params ≠ Some (At Params_buffer o)) ∧ text low params s = (Ok e, s) ∧ cstr_ok e.

Definition typed_text (params : option cptr) (e : list Z) : option (list Z) :=
  match params with Some _ => Some e | None => None end.

Lemma param_typed_spec params e s s' txt : typed_at params e s →
  (∀ b, b ≠ Params_buffer → y_bufs s' b = y_bufs s b) →
  pbuf s' txt → (params = None → pbuf s' (txt ++ [0])) →
  (length txt + length (default [] (typed_text params e)) < 2048)%nat →
  ∃ s'', param_typed low params (Z.of_nat (length txt)) s' = (Ok tt, s'') ∧
  pbuf s'' ((txt ++ default [] (typed_text params e)) ++ [0]) ∧ only_params s' s''.
Proof.
  intros (Ha & Ht & He) Hb Hp Hp0 Hl. unfold param_typed. destruct params as [p|]; simpl in *.
  - rewrite (bind_ok _ _ _ _ _ (text_apart (Some p) s s' Ha Hb e Ht)).
  destruct (param_copy_spec s' txt e Hp He Hl) as (s'' & E & Hp'' & Ho).
  exists s''. rewrite (bind_ok _ _ _ _ _ E). done.
  - exists s'. rewrite app_nil_r. split; [done|]. split; [by apply Hp0|apply only_params_refl].
Qed.

Lemma pbuf_vars s txt g : pbuf s txt →
  pbuf (YState (y_fs s) (y_cfg s) (y_bufs s) (y_md5 s) (g (y_vars s))) txt.
Proof. done. Qed.

Lemma item_text_ok t label item prefix : lookup_fine t label item → cstr_ok prefix →
  cstr_ok (item_text t label item prefix).
Proof.
  intros Hf Hp. unfold item_text. pose proof (value_ok t label item) as Hv.
  destruct (value_of t label item) as [p|]; [|constructor].
  rewrite !cstr_ok_app. split; [done|]. split; [by apply Hv|by_decision].
Qed.

Lemma flag_text_ok t label item word : cstr_ok word → cstr_ok (flag_text t label item word).
Proof. intros Hw. unfold flag_text. case_match; [done|constructor]. Qed.

Lemma options_text_ok t label : Forall (lookup_fine t label) param_items → cstr_ok (options_text t label).
Proof.
  intros Hf. unfold param_items in Hf. rewrite !Forall_cons in Hf.
  destruct Hf as (_ & Hroot & Hro & Hrw & Hrd & His & Hnv & Hap & _). unfold options_text.
  rewrite !cstr_ok_app. repeat split;
  first [apply item_text_ok; [done|by_decision] | apply flag_text_ok; by_decision].
Qed.

Definition with_vars (g : vars → vars) (s : ystate F X) : ystate F X :=
  YState (y_fs s) (y_cfg s) (y_bufs s) (y_md5 s) (g (y_vars s)).

Lemma pause_message_step (v : option (list Z)) s :
  ∃ g, match v with Some p => set_var (set_pause_message p) | None => mret tt end s = (Ok tt, with_vars g s).
Proof. destruct v as [p|]; [by exists (set_pause_message p)|]. exists (λ x, x). by destruct s. Qed.

(** the command line is the reference text, in the static buffer *)
Lemma make_params_ok s t label params e : tabs (y_cfg s) = t → Forall (lookup_fine t label) param_items →
  length (y_bufs s Params_buffer) = 2048%nat → typed_at params e s →
  (length (params_text t label (typed_text params e)) < 2048)%nat →
  ∃ s', make_params low label params s = (Ok (At Params_buffer 0), s') ∧
  text low (Some (At Params_buffer 0)) s' = (Ok (params_text t label (typed_text params e)), s') ∧
  y_fs s' = y_fs s ∧ (∀ b, b ≠ Params_buffer → y_bufs s' b = y_bufs s b).
Proof.
  intros Ht Hf Hlen Hty Hl. pose proof Hf as Hf'. unfold param_items in Hf'. rewrite !Forall_cons in Hf'.
  destruct Hf' as (Hlit & _ & _ & _ & _ & _ & _ & _ & Hpa & Hpm & _).
  assert (∀ s' : ystate F X, only_params s s' → tabs (y_cfg s') = t) as Hc by (intros s' (_ & -> & _); done).
  unfold make_params. cbv zeta.
  destruct (put_params s [] [0]) as (s1 & E1 & P1 & O1); [by split|simpl; lia|].
  change (Z.of_nat (length (@nil Z))) with 0 in E1. rewrite (bind_ok _ _ _ _ _ E1).
  rewrite (bind_ok _ _ _ _ _ (conf_strg_ok s1 t label _ (Hc _ O1) Hlit)).
  unfold params_text in *. pose proof (value_ok t label (bs "literal")) as Hv.
  destruct (value_of t label (bs "literal")) as [p|].
  - specialize (Hv p Hlit eq_refl).
  destruct (param_copy_spec s1 [] p (pbuf_prefix s1 [] _ P1) Hv) as (s2 & E2 & P2 & O2);
  [rewrite length_app in Hl; simpl; lia|].
  change (Z.of_nat (length (@nil Z))) with 0 in E2. rewrite (bind_ok _ _ _ _ _ E2). simpl app in *.
    set (sep := if bool_decide (is_Some params) && negb (deref p =? 0) then [32] else []).
    assert (p ++ match typed_text params e with Some x => (if deref p =? 0 then [] else [32]) ++ x | None => [] end =
            (p ++ sep) ++ default [] (typed_text params e)) as Etxt.
    { rewrite <- app_assoc. f_equal. unfold sep. destruct params; simpl; [|done]. by destruct (deref p =? 0). }
    rewrite Etxt in *. rewrite !length_app in Hl.
    assert (grows (λ q, if bool_decide (is_Some params) && negb (deref p =? 0) then param_space q else mret q) sep s2)
      as Hsep.
    { unfold sep. destruct (bool_decide (is_Some params) && negb (deref p =? 0)); [apply grows_space|apply grows_nil]. }
    destruct (Hsep p (pbuf_prefix _ _ _ P2)) as (s3 & E3 & P3 & O3); [lia|].
    rewrite (bind_ok _ _ _ _ _ E3).
    pose proof (only_params_trans _ _ _ (only_params_trans _ _ _ O1 O2) O3) as O3'.
    destruct (param_typed_spec params e s s3 (p ++ sep) Hty) as (s4 & E4 & P4 & O4);
      [apply O3'|done| |rewrite length_app; lia|].
    { intros ->. unfold sep in *. simpl in *. injection E3 as _ <-. by rewrite app_nil_r. }
    rewrite (bind_ok _ _ _ _ _ E4). exists s4. split; [done|].
    pose proof (only_params_trans _ _ _ O3' O4) as (Of & _ & _ & _ & Ob).
    split; [|done]. apply pbuf_text; [done|]. destruct Hty as (_ & _ & He).
    apply cstr_ok_app; split; [apply cstr_ok_app; split; [done|]|].
    + unfold sep. destruct (bool_decide (is_Some params) && negb (deref p =? 0)); [by_decision|constructor].
    + destruct params; [done|constructor].
  - rewrite length_app in Hl.
    destruct (options_grow s1 t label (Hc _ O1) Hf [] (pbuf_prefix s1 [] _ P1)) as (s2 & E2 & P2 & O2); [simpl; lia|].
    change (Z.of_nat (length (@nil Z))) with 0 in E2. rewrite (bind_ok _ _ _ _ _ E2). simpl app in *.
    destruct (put_params s2 (options_text t label) [0] P2) as (s3 & E3 & P3 & O3); [simpl; lia|].
    rewrite (bind_ok _ _ _ _ _ E3).
    pose proof (only_params_trans _ _ _ (only_params_trans _ _ _ O1 O2) O3) as O3'.
    rewrite (bind_ok _ _ _ _ _ (conf_flag_ok s3 t label _ (Hc _ O3') Hpa)).
    erewrite (bind_ok (set_var _)) by reflexivity.
    erewrite bind_ok by (apply (conf_strg_ok _ t label); [apply (Hc _ O3')|done]). cbv beta.
    destruct (pause_message_step (value_of t label (bs "pause-message"))
      (with_vars (set_pause_after (bool_decide (is_Some (value_of t label (bs "pause-after"))))) s3)) as [g Eg].
    rewrite (bind_ok _ _ _ _ _ Eg).
    set (s4 := with_vars g _).
    destruct (param_typed_spec params e s s4 (options_text t label) Hty) as (s5 & E5 & P5 & O5);
      [apply O3'|by eapply pbuf_prefix|intros _; exact P3|lia|].
    rewrite (bind_ok _ _ _ _ _ E5). exists s5. split; [done|].
    destruct O5 as (Of & _ & _ & _ & Ob). destruct O3' as (Of' & _ & _ & _ & Ob').
    split; [|split; [rewrite Of; exact Of'|intros b Hb; rewrite Ob by done; by apply Ob']].
    apply pbuf_text; [done|]. destruct Hty as (_ & _ & He).
    apply cstr_ok_app; split; [by apply options_text_ok|]. destruct params; [done|constructor].
Qed.
End params.

(** ** Loading the configuration *)

Section loading.
Context {F : Type} `{Firmware F} {X : Type} `{FileAccess (fstate F X)} `{FileClose (fstate F X)}.
Context (env : prom_env) (low : list Z) (machine : Z).
Context (ext2_open xfs_open reiserfs_open : open_fn F X) (fuel : nat) (local_file : boot_file).
Implicit Types s : ystate F X.

(** the configuration is the one of [s], whatever happened to the files, the console and
    the variables *)
Definition same_config (s s' : ystate F X) : Prop :=
  tabs (y_cfg s') = tabs (y_cfg s) ∧ password (y_vars s') = password (y_vars s).

(** [m] succeeds and keeps the configuration *)
Definition keeps (m : stm (ystate F X) fault unit) (s : ystate F X) : Prop :=
  ∃ s', m s = (Ok tt, s') ∧ same_config s s'.

Lemma keeps_ret s : keeps (mret tt) s.
Proof. by exists s. Qed.

Lemma keeps_fw (g : F → unit * F) s : keeps (fw g) s.
Proof.
  unfold keeps, fw, on_fs, call, on_base. destruct (g (pfw (f_base (y_fs s)))) as [[] f] eqn:E.
  eexists. split; [reflexivity|]. done.
Qed.

Lemma keeps_tell fmt args s : keeps (tell env fmt args) s.
Proof. eexists. by split. Qed.

Lemma keeps_bind m k s : keeps m s → (∀ s', same_config s s' → keeps k s') → keeps (m;; k) s.
Proof.
  intros (s1 & E1 & S1) Hk. destruct (Hk s1 S1) as (s2 & E2 & S2). exists s2.
  rewrite (bind_ok _ _ _ _ _ E1). split; [done|]. unfold same_config in *. destruct S1, S2. split; congruence.
Qed.

Lemma keeps_color item (setter : Z → vars → vars) s : (∀ v x, password (setter v x) = password x) →
  keeps (conf_color env item setter) s.
Proof.
  intros Hp. unfold conf_color, conf_strg, ask_cfg. cbn [cfg_get_strg].
  unfold keeps. rewrite (bind_ok _ _ _ (cfg_get_strg_i (options (tabs (y_cfg s))) item) s) by done.
  destruct (cfg_get_strg_i _ item) as [p|]; [|apply keeps_ret]. cbv zeta.
  apply (keeps_bind (set_var (setter (check_color_text_ui p)))).
  - eexists. split; [done|]. unfold same_config. simpl. by rewrite Hp.
  - intros s' _. case_match; [apply keeps_tell|apply keeps_ret].
Qed.

Lemma keeps_colors s : keeps (set_colors env) s.
Proof.
  unfold set_colors. apply keeps_bind; [by apply keeps_color|]. intros s1 _.
  apply keeps_bind; [by apply keeps_color|]. intros s2 _. unfold keeps, get_var. rewrite gets_bind.
  apply (keeps_bind (if 0 <=? bgcolor (y_vars s2) then _ else _)).
  - case_match; [|apply keeps_ret]. apply keeps_bind; [apply keeps_fw|]. intros; apply keeps_tell.
  - intros s3 _. unfold keeps. rewrite gets_bind. case_match; [apply keeps_fw|apply keeps_ret].
Qed.

(** a device that is not the network, and a configuration without a message file: what
    the configuration asks for is done, and the password is the one it sets *)
Lemma apply_config_ok fspec kind s :
  (∀ f, ∃ f', prom_get_devtype env (cstr low (dev fspec)) f = (Some kind, f')) → kind ≠ FILE_DEVICE_NET →
  cfg_get_strg None (bs "message") (tabs (y_cfg s)) = Ok None →
  ∃ s', apply_config env low machine ext2_open xfs_open reiserfs_open fuel local_file fspec s = (Ok tt, s') ∧
    tabs (y_cfg s') = tabs (y_cfg s) ∧
    Ok (password (y_vars s')) = cfg_get_strg None (bs "password") (tabs (y_cfg s)).
Proof.
  intros Hk Hn Hm. unfold apply_config.
  destruct (Hk (pfw (f_base (y_fs s)))) as (f' & Ef).
  assert (∃ s1, devtype env low (dev fspec) s = (Ok kind, s1) ∧ same_config s s1) as (s1 & E1 & S1).
  { eexists. unfold devtype, fw, on_fs, call, on_base. unfold mbind, stm_bind. rewrite Ef. by split. }
  rewrite (bind_ok _ _ _ _ _ E1). rewrite (proj2 (Z.eqb_neq _ _) Hn), ret_bind.
  assert (∀ s' item, same_config s s' →
    conf_strg None item s' = (Ok (cfg_get_strg_i (options (tabs (y_cfg s))) item), s')) as Hq.
  { intros s' item [Ht _]. unfold conf_strg, ask_cfg. by rewrite gets_bind, Ht. }
  rewrite (bind_ok _ _ _ _ _ (Hq s1 _ S1)).
  assert (keeps (match cfg_get_strg_i (options (tabs (y_cfg s))) (bs "init-code") with
                 | Some p => interpret p | None => mret tt end) s1) as (s2 & E2 & S2)
    by (destruct (cfg_get_strg_i _ (bs "init-code")); [apply keeps_fw|apply keeps_ret]).
  rewrite (bind_ok _ _ _ _ _ E2).
  assert (same_config s s2) as S2' by (destruct S1, S2; split; congruence).
  rewrite (bind_ok _ _ _ _ _ (Hq s2 _ S2')).
  erewrite (bind_ok (set_var _)) by reflexivity.
  set (s3 := YState _ _ _ _ _).
  assert (tabs (y_cfg s3) = tabs (y_cfg s)) as T3 by (destruct S2'; done).
  assert (password (y_vars s3) = cfg_get_strg_i (options (tabs (y_cfg s))) (bs "password")) as P3 by done.
  assert (∀ s' item, same_config s3 s' →
    conf_strg None item s' = (Ok (cfg_get_strg_i (options (tabs (y_cfg s))) item), s')) as Hq3.
  { intros s' item [Ht _]. unfold conf_strg, ask_cfg. by rewrite gets_bind, Ht, T3. }
  destruct (keeps_colors s3) as (s4 & E4 & S4). rewrite (bind_ok _ _ _ _ _ E4).
  rewrite (bind_ok _ _ _ _ _ (Hq3 s4 _ S4)).
  assert (keeps (match cfg_get_strg_i (options (tabs (y_cfg s))) (bs "init-message") with
                 | Some p => tell env (bs "%s" ++ [10]) [AStr (Some p)] | None => mret tt end) s4) as (s5 & E5 & S5)
    by (destruct (cfg_get_strg_i _ (bs "init-message")); [apply keeps_tell|apply keeps_ret]).
  rewrite (bind_ok _ _ _ _ _ E5).
  assert (same_config s3 s5) as S5' by (destruct S4, S5; split; congruence).
  rewrite (bind_ok _ _ _ _ _ (Hq3 s5 _ S5')).
  unfold cfg_get_strg in Hm. injection Hm as ->. exists s5. split; [done|].
  destruct S5' as [-> ->]. split; [done|]. rewrite P3. done.
Qed.
Lemma on_fs_cfg {A} (m : stm (fstate F X) fault A) s r s' : on_fs m s = (r, s') → y_cfg s' = y_cfg s.
Proof. unfold on_fs. destruct (m (y_fs s)) as [r0 f0]. by intros [= <- <-]. Qed.

(** the file that opens, reads and closes *)
Record opens_with (fspec : boot_fspec) (txt : list Z) (s : ystate F X) : Prop := {
  ow_alloc a s1 : yalloc CONFIG_FILE_MAX s = (Ok a, s1) → a ≠ 0;
  ow_file : ∃ file file' s2 s3,
    yopen env low machine ext2_open xfs_open reiserfs_open fuel fspec local_file (yalloc CONFIG_FILE_MAX s).2 =
      (Ok (FILE_ERR_OK, file), s2) ∧
    on_fs (fread file CONFIG_FILE_MAX) s2 = (Ok (Z.of_nat (length txt), txt, file'), s3) ∧
    ∀ x, ∃ r x', fclose file' x = (Ok r, x');
  ow_size : 0 < Z.of_nat (length txt) <= CONFIG_FILE_MAX;
}.

(** the parser run on the machine *)
Lemma parse_config_ok file globals ss s : ready (y_cfg s) → config_ok globals ss →
  ∃ s', parse_config env file (render_config globals ss) s = (Ok 0, s') ∧
    (∀ item, item ∈ all_names → cfg_get_strg None item (tabs (y_cfg s')) = Ok (last_value globals item)) ∧
    (∀ lbl item, cstr_ok lbl → item ∈ all_names →
       cfg_get_strg (Some lbl) item (tabs (y_cfg s')) = Ok (stanza_value globals ss lbl item)).
Proof.
  intros Hr Hok. unfold parse_config.
  set (c := Cfg _ _ _ _ _ _).
  destruct (parse_lookup (pfw (f_base (y_fs s))) file globals ss c Hr Hok) as (c' & E & Hn & Hs).
  rewrite E. eexists. by split; [done|].
Qed.

Lemma load_config_file_ok fspec globals ss kind s :
  ready (y_cfg s) → config_ok globals ss → opens_with fspec (render_config globals ss) s →
  last_value globals (bs "message") = None →
  (∀ f, ∃ f', prom_get_devtype env (cstr low (dev fspec)) f = (Some kind, f')) → kind ≠ FILE_DEVICE_NET →
  ∃ s', load_config_file env low machine ext2_open xfs_open reiserfs_open fuel local_file fspec s = (Ok 1, s') ∧
    (∀ item, item ∈ all_names → conf_strg None item s' = (Ok (last_value globals item), s')) ∧
    (∀ lbl item, cstr_ok lbl → item ∈ all_names →
       conf_strg (Some lbl) item s' = (Ok (stanza_value globals ss lbl item), s')) ∧
    password (y_vars s') = last_value globals (bs "password").
Proof.
  intros Hr Hok [Ha (file & file' & s2 & s3 & Ho & Hrd & Hcl) Hsz] Hm Hk Hkn. unfold load_config_file.
  destruct (yalloc CONFIG_FILE_MAX s) as [ra s1] eqn:Ea. cbn [snd] in Ho.
  assert (y_cfg s1 = y_cfg s) as C1 by (eapply on_fs_cfg; exact Ea).
  assert (∃ a, ra = Ok a) as [a ->].
  { revert Ea. unfold yalloc, on_fs, on_base, part_malloc. destruct (malloc _ _). intros [= <- <-]. by eexists. }
  rewrite (bind_ok _ _ _ _ _ Ea). rewrite (proj2 (Z.eqb_neq a 0) (Ha a s1 eq_refl)).
  rewrite (bind_ok _ _ _ _ _ Ho). rewrite Z.eqb_refl. cbn [negb].
  pose proof (on_fs_cfg _ _ _ _ Ho) as C2. rewrite (bind_ok _ _ _ _ _ Hrd).
  pose proof (on_fs_cfg _ _ _ _ Hrd) as C3.
  set (txt := render_config globals ss) in *.
  destruct (Z.leb_spec (Z.of_nat (length txt)) 0); [lia|].
  set (n := Z.of_nat (length txt)).
  destruct (tell env (bs "Config file read, %d bytes" ++ [10]) [AInt n] s3) as [r4 s4] eqn:E4.
  pose proof (on_fs_cfg _ _ _ _ E4) as C4. assert (r4 = Ok tt) as -> by (unfold tell, on_fs in E4; by injection E4 as <- _).
  rewrite (bind_ok _ _ _ _ _ E4).
  destruct (on_fs (fclose file') s4) as [r5 s5] eqn:E5. pose proof (on_fs_cfg _ _ _ _ E5) as C5.
  assert (∃ z, r5 = Ok z) as [z ->].
  { revert E5. unfold on_fs. destruct (Hcl (y_fs s4)) as (r & x' & ->). intros [= <- <-]. by eexists. }
  rewrite (bind_ok _ _ _ _ _ E5).
  replace (take (Z.to_nat n) txt) with txt by (unfold n; by rewrite Nat2Z.id, firstn_all).
  destruct (parse_config_ok (cstr low (Devpath.file fspec)) globals ss s5) as (s6 & E6 & Hn & Hs).
  { rewrite C5, C4, C3, C2, C1. exact Hr. }
  { exact Hok. }
  rewrite (bind_ok _ _ _ _ _ E6). change (0 <? 0) with false. cbn iota.
  destruct (apply_config_ok fspec kind s6 Hk Hkn) as (s7 & E7 & T7 & P7).
  { rewrite Hn; [by rewrite Hm|by_decision]. }
  rewrite (bind_ok _ _ _ _ _ E7).
  destruct (yfree a s7) as [r8 s8] eqn:E8. pose proof (on_fs_cfg _ _ _ _ E8) as C8.
  assert (r8 = Ok tt ∧ y_vars s8 = y_vars s7) as [-> V8]
    by (revert E8; unfold yfree, on_fs, on_base, part_free; intros [= <- <-]; done).
  rewrite (bind_ok _ _ _ _ _ E8). exists s8. split; [done|].
  split; [|split].
  - intros item Hi. unfold conf_strg, ask_cfg. by rewrite gets_bind, C8, T7, Hn.
  - intros lbl item Hl Hi. unfold conf_strg, ask_cfg. by rewrite gets_bind, C8, T7, Hs.
  - rewrite V8. rewrite Hn in P7 by by_decision. by injection P7.
Qed.
End loading.

(** ** What the words, the parameters and the configuration promise *)

(** the first word of a line and the rest of it are found whatever spaces surround
    them: in the buffer the two are strings of their own, and nothing before the line
    changes. *)
Theorem word_split_words buf (p i : nat) word g rest tl :
  drop p buf = (replicate i 32 ++ word ++ replicate g 32 ++ rest) ++ 0 :: tl → (p <= length buf)%nat →
  cstr_ok word → cstr_ok rest → 32 ∉ word → word ≠ [] → deref rest ≠ 32 → (g = 0%nat → rest = []) →
  ∃ buf', word_split buf (Z.of_nat p) =
    (Some (Z.of_nat (p + i)), match rest with [] => None | _ => Some (Z.of_nat (p + i + length word + g)) end, buf') ∧
    length buf' = length buf ∧ take p buf' = take p buf ∧
    cstring (drop (p + i) buf') = word ∧ cstring (drop (p + i + length word + g) buf') = rest.
Proof. apply word_split_spec. Qed.

Lemma word_split_words_witness :
  ∃ buf', word_split (bs "  linux  ro single" ++ [0; 0]) 0 = (Some 2, Some 9, buf') ∧
    length buf' = 20%nat ∧ take 0 buf' = [] ∧
    cstring (drop 2 buf') = bs "linux" ∧ cstring (drop 9 buf') = bs "ro single".
Proof.
  apply (word_split_words (bs "  linux  ro single" ++ [0; 0]) 0 2 (bs "linux") 2 (bs "ro single") [0]);
    first [by_decision | reflexivity | simpl; lia | discriminate].
Defined.

(** C17: the command line of the kernel is the options of the image, each followed by a
    space, or its literal one, and the arguments typed; it is a string in the static
    buffer of 2048 bytes whenever it fits there, and no other buffer changes. *)
Theorem make_params_text {F} `{Firmware F} {X} low t label params e (s : ystate F X) :
  tabs (y_cfg s) = t → Forall (lookup_fine t label) param_items →
  length (y_bufs s Params_buffer) = 2048%nat → typed_at low params e s →
  (length (params_text t label (typed_text params e)) < 2048)%nat →
  ∃ s', make_params low label params s = (Ok (At Params_buffer 0), s') ∧
    text low (Some (At Params_buffer 0)) s' = (Ok (params_text t label (typed_text params e)), s') ∧
    y_fs s' = y_fs s ∧ (∀ b, b ≠ Params_buffer → y_bufs s' b = y_bufs s b).
Proof. apply make_params_ok. Qed.

(** a machine whose configuration is [c] *)
Definition ui0 {F} (f : F) (c : cfg) : ystate F unit :=
  YState (FState (PState (replicate 2048 0) [] heap0 f) (λ _, replicate 1024 0) 0 tt) c
    (λ b, replicate (Z.to_nat (buf_size b)) 0) Md5.md5_static vars0.

Definition example_cfg : cfg :=
  (cfg_parse script0 (bs "yaboot.conf") (render_config example_globals example_stanzas) cfg_initial).2.

Lemma make_params_text_witness :
  let s := ui0 script0 example_cfg in
  ∃ s', make_params [] (bs "o") (Some (Text (bs "init=/bin/sh"))) s = (Ok (At Params_buffer 0), s') ∧
    text [] (Some (At Params_buffer 0)) s' = (Ok (bs "ro single init=/bin/sh"), s') ∧
    y_fs s' = y_fs s ∧ (∀ b, b ≠ Params_buffer → y_bufs s' b = y_bufs s b).
Proof.
  intros s.
  assert (params_text (tabs example_cfg) (bs "o") (Some (bs "init=/bin/sh")) = bs "ro single init=/bin/sh") as E
    by (by vm_compute).
  destruct (make_params_text [] (tabs example_cfg) (bs "o") (Some (Text (bs "init=/bin/sh"))) (bs "init=/bin/sh") s)
    as (s' & E1 & E2 & E3 & E4).
  - reflexivity.
  - by_decision.
  - by vm_compute.
  - split; [discriminate|]. split; [reflexivity|by_decision].
  - cbn [typed_text]. rewrite E. vm_compute. lia.
  - exists s'. cbn [typed_text] in E2. rewrite E in E2. split; [exact E1|]. split; [exact E2|]. split; [exact E3|exact E4].
Defined.

(** values of the configuration alone can be longer than the buffer *)
Example make_params_overruns :
  let v := replicate 500 97 in
  let c := (cfg_parse script0 (bs "c")
    (render_config [(bs "root", Some v); (bs "ramdisk", Some v); (bs "initrd-size", Some v); (bs "append", Some v)]
       [Stanza (bs "/v") (bs "l") []]) cfg_initial).2 in
  (make_params [] (bs "l") (Some (Text (replicate 30 98))) (ui0 script0 c)).1 = Err Overrun.
Proof. vm_compute. reflexivity. Qed.

(** C5: loading the configuration, from the file to the queries: when the file opens and
    reads on whatever file system, and is a configuration written out, then loading it
    succeeds, every query of the boot code gives back what was written, and the password
    is the one of the file. *)
Theorem config_loaded {F} `{Firmware F} {X} `{FileAccess (fstate F X)} `{FileClose (fstate F X)}
    env low machine ext2 xfs reiserfs fuel local_file fspec globals ss kind (s : ystate F X) :
  ready (y_cfg s) → config_ok globals ss →
  opens_with env low machine ext2 xfs reiserfs fuel local_file fspec (render_config globals ss) s →
  last_value globals (bs "message") = None →
  (∀ f, ∃ f', prom_get_devtype env (cstr low (dev fspec)) f = (Some kind, f')) → kind ≠ FILE_DEVICE_NET →
  ∃ s', load_config_file env low machine ext2 xfs reiserfs fuel local_file fspec s = (Ok 1, s') ∧
    (∀ item, item ∈ all_names → conf_strg None item s' = (Ok (last_value globals item), s')) ∧
    (∀ lbl item, cstr_ok lbl → item ∈ all_names →
       conf_strg (Some lbl) item s' = (Ok (stanza_value globals ss lbl item), s')) ∧
    password (y_vars s') = last_value globals (bs "password").
Proof. apply load_config_file_ok. Qed.

Definition example_text : list Z := render_config example_globals example_stanzas.

(** a file system that knows one file *)
Definition one_file : open_fn Disk.image unit := λ file _ _, mret (FILE_ERR_OK, file).
Definition other_fs : open_fn Disk.image unit := λ file _ _, mret (FILE_ERR_BAD_FSYS, file).

Definition text_access : FileAccess (fstate Disk.image unit) := {|
    fread file n := mret (Z.of_nat (length example_text), example_text, file);
    fseek file p := mret (FILE_ERR_OK, file);
  |}.
Definition text_close : FileClose (fstate Disk.image unit) := {| fclose file := mret 0; fino_size file := None |}.

(** the firmware of a disk image, whose device is always a disk *)
Definition disk_firmware : Firmware Disk.image := {|
    of_finddevice := of_finddevice; of_getprop _ _ _ _ := (6, bs "block" ++ [0]); of_getproplen := of_getproplen;
    of_setprop := of_setprop; Prom.of_open := Prom.of_open; Prom.of_close := Prom.of_close; Prom.of_seek := Prom.of_seek;
    Prom.of_read := Prom.of_read;
    of_write := of_write; of_block_size := of_block_size; of_load := of_load; of_claim := of_claim;
    of_release := of_release; of_interpret := of_interpret; of_milliseconds := of_milliseconds;
    of_screen := of_screen; of_package := of_package; of_set_color := of_set_color;
    of_enter := of_enter; of_exit := of_exit;
  |}.

Lemma opened_by {A S} (r : result fault (Z * A) * S) :
  match r.1 with Ok (e, _) => e =? 0 | _ => false end = true → ∃ x s', r = (Ok (0, x), s').
Proof. destruct r as [[[e x]| |] s']; [|done..]. simpl. intros ->%Z.eqb_eq. by exists x, s'. Qed.

Lemma config_loaded_witness :
  let s := ui0 (pfw (disk0 mac_disk 512)) cfg_initial in
  ∃ s', load_config_file (H := disk_firmware) (H0 := text_access) (H1 := text_close) env1 [] _MACH_chrp
      one_file other_fs other_fs 50 file0 (set_dev (Some (bs "hd")) (set_part 2 fspec0)) s = (Ok 1, s') ∧
    conf_strg None (bs "default") s' = (Ok (Some (bs "linux")), s') ∧
    conf_strg (Some (bs "o")) (bs "append") s' = (Ok (Some (bs "single")), s').
Proof.
  intros s. set (fspec := set_dev (Some (bs "hd")) (set_part 2 fspec0)).
  destruct (config_loaded (H := disk_firmware) (H0 := text_access) (H1 := text_close) env1 [] _MACH_chrp
    one_file other_fs other_fs 50 file0 fspec example_globals example_stanzas FILE_DEVICE_BLOCK s)
    as (s' & E & Hn & Hs & _).
  - split; [reflexivity|]. split; [reflexivity|]. split; reflexivity.
  - by_decision.
  - split.
    + assert (match (yalloc CONFIG_FILE_MAX s).1 with Ok a => negb (a =? 0) | _ => false end = true) as Ea by (by vm_compute).
      intros a s1 Es. rewrite Es in Ea. cbn [fst] in Ea. by apply negb_true_iff, Z.eqb_neq in Ea.
    + destruct (opened_by (yopen (H := disk_firmware) env1 [] _MACH_chrp one_file other_fs other_fs 50 fspec file0
        (yalloc CONFIG_FILE_MAX s).2)) as (file & s2 & E); [by vm_compute|].
      eexists file, file, s2, _. split; [exact E|]. split; [reflexivity|].
      intros x. exists 0, x. reflexivity.
    + vm_compute. split; [reflexivity|discriminate].
  - reflexivity.
  - intros f. exists f. reflexivity.
  - discriminate.
  - exists s'. split; [exact E|]. split; [apply (Hn (bs "default")); by_decision|].
    apply (Hs (bs "o") (bs "append")); by_decision.
Defined.

(** the search for the configuration of a network boot ends at the first name that cannot
    be opened: the error of [open_file] is taken for a file that was loaded *)
Definition net_tree : script :=
  Script [(bs "/chosen", 7); (bs "net", 8)]
    [((7, bs "dhcp-response"), [2; 1; 6; 0] ++ replicate 12 0 ++ [10; 0; 0; 1] ++ replicate 8 0 ++
                               [0; 26; 100; 1; 2; 3] ++ replicate 266 0);
     ((8, bs "device_type"), bs "network" ++ [0])] [] [] [] 0.

Definition no_file : open_fn script unit := λ file _ _, mret (FILE_ERR_BAD_FSYS, file).
Definition no_access : FileAccess (fstate script unit) := {|
  fread file n := mret (FILE_ERR_EOF, [], file); fseek file p := mret (FILE_ERR_EOF, file) |}.
Definition no_close : FileClose (fstate script unit) := {| fclose file := mret 0; fino_size file := None |}.

Example netboot_search_stops :
  let s := ui0 net_tree cfg_initial in
  let r := load_my_config_file (H0 := no_access) (H1 := no_close) env1 [] _MACH_chrp no_file no_file no_file 50 file0
             (set_dev (Some (bs "net")) fspec0) s in
  match r.1 with Ok (rc, spec) => (rc, Devpath.file spec) | _ => (0, None) end =
    (FILE_ERR_BAD_FSYS, Some (bs "/etc/01-00-1a-64-01-02-03")).
Proof. vm_compute. reflexivity. Qed.
