(* ===== verification/Params.v ===== *)
(** [get_params] of [second/yaboot.c]: what is typed at the boot prompt, or chosen for the
    user, becomes the kernel to boot, its ramdisk and its arguments; commands of the
    prompt and passwords are dealt with on the way. *)
From S2P Require Import Prelude Ctype CString Numeric Vsprintf Malloc Prom Disk Cfg Cmdline Devpath Partition Fs Elf Boot.
From S2P Require Md5.

(** ** Data *)

(** [struct boot_param_t] *)
Record boot_param := BootParam {
  kernel : boot_fspec;
  rd : boot_fspec;
  args : option cptr;
}.

(** the structure cleared, with no partitions and the empty arguments *)
Definition params0 : boot_param := BootParam (set_part (-1) fspec0) (set_part (-1) fspec0) (Some (Text [])).

Definition DEFAULT_TIMEOUT : Z := -1.

Definition help_text : list Z :=
  [10] ++
  bs "Press the tab key for a list of defined images." ++ [10] ++
  bs "The label marked with a " ++ [34] ++ bs "*" ++ [34] ++
   bs " is is the default image, press <return> to boot it." ++ [10] ++
  [10] ++
  bs "To boot any other label simply type its name and press <return>." ++ [10] ++
  [10] ++
  bs "To boot a kernel image which is not defined in the yaboot configuration " ++ [10] ++
  bs "file, enter the kernel image name as [[device:][partno],]/path, where " ++ [10] ++
  [34] ++ bs "device:" ++ [34] ++ bs " is the OpenFirmware device path to the disk the image " ++ [10] ++
  bs "resides on, and " ++ [34] ++ bs "partno" ++ [34] ++ bs " is the partition number the image resides on." ++
   [10] ++
  bs "Note that the comma (,) is only required if you specify an OpenFirmware" ++ [10] ++
  bs "device, if you only specify a filename you should not start it with a " ++ [34] ++ bs "," ++ [34] ++ [10] ++
  [10] ++
  bs "To boot a alternative initrd file rather than specified in the yaboot" ++ [10] ++
  bs "configuration file, use the " ++ [34] ++ bs "initrd" ++ [34] ++ bs " command on Yaboot's prompt: " ++
   [10] ++
  [34] ++ bs "initrd=[name.img]" ++ [34] ++ bs ". This will load the " ++ [34] ++ bs "name.img" ++ [34] ++
   bs " file after the default" ++ [10] ++
  bs "kernel image. You can, also, specify a different initrd file to any other" ++ [10] ++
  bs "label of the yaboot configuration file. Just type " ++ [34] ++ bs "label initrd=[name.img]" ++ [34] ++
   [10] ++
  bs "and the specified initrd file will be loaded." ++ [10] ++
  [10] ++
  bs "To load an alternative config file rather than /etc/yaboot.conf, enter" ++ [10] ++
  bs "its device, partno and path, on Open Firmware Prompt:" ++ [10] ++
  bs "boot conf=device:partno,/path/to/configfile" ++ [10] ++
  bs ".To reload the config file or load a new one, use the " ++ [34] ++ bs "conf" ++ [34] ++ bs " command" ++
   [10] ++
  bs "on Yaboot's prompt:" ++ [10] ++
  bs "conf [device=device] [partition=partno] [file=/path/to/configfile]" ++ [10] ++
  [10] ++
  bs "If you omit " ++ [34] ++ bs "device" ++ [34] ++ bs " and " ++ [34] ++ bs "partno" ++ [34] ++
   bs ", Yaboot will use their current" ++ [10] ++
  bs "values. You can check them by entering " ++ [34] ++ bs "conf" ++ [34] ++ bs " on Yaboot's prompt." ++
   [10].

(** the pointer [n] bytes further on; past the end of a string that is not in a static
    buffer nothing is known *)
Definition ptr_add (p : option cptr) (n : nat) (low : list Z) : option (option cptr) :=
  match p with
  | None => Some (Some (Text (drop n low)))
  | Some (At b o) => Some (Some (At b (o + Z.of_nat n)))
  | Some (Text s) => if (n <=? length s)%nat then Some (Some (Text (drop n s))) else None
  end.

Section params.
Context {F : Type} `{Firmware F} {X : Type} `{FileAccess (fstate F X)} `{FileClose (fstate F X)}.
Context (env : prom_env) (low : list Z) (machine : Z).
Context (ext2_open xfs_open reiserfs_open : open_fn F X).
Context (fuel : nat) (local_file : boot_file).

(** ** The line *)

Definition conf_default : stm (ystate F X) fault (option cptr) :=
  d ← ask_cfg cfg_get_default; mret (option_map Text d).

Definition split_words (b : ubuf) : stm (ystate F X) fault (option cptr * option cptr) :=
  buf ← get_buf b;
  let '(line, params, buf) := word_split buf 0 in
  set_buf b buf;;
  mret (option_map (At b) line, option_map (At b) params).

Definition check (str : list Z) : stm (ystate F X) fault unit :=
  pw ← get_var password;
  match pw with
  | None => mret tt
  | Some pw =>
      st ← gets y_md5;
      st ← on_prompt (λ uc t, check_password env uc t fuel str pw st);
      modify (λ s, YState (y_fs s) (y_cfg s) (y_bufs s) st (y_vars s))
  end.

(** the timeout of the configuration, when it has one *)
Definition conf_timeout (timeout : Z) : stm (ystate F X) fault Z :=
  uc ← get_var useconf;
  if uc =? 0 then mret timeout
  else
    q ← conf_strg None (bs "timeout");
    mret match q with
         | Some q => if deref q =? 0 then timeout else (simple_strtol q 0).1
         | None => timeout
         end.

(** the image and the arguments of the firmware's command line, the first time; the
    timeout *)
Definition command_line : stm (ystate F X) fault (option cptr * option cptr * Z) :=
  f ← get_var first;
  cnt ← get_var fw_reboot_cnt;
  '(image, args, timeout) ←
    (if f && (cnt =? 0) then
       set_var (set_first false);;
       '(image, args) ← split_words Bootargs;
       match image with
       | Some _ =>
           t ← text low image;
           tell env (bs "Default supplied on the command line: %s ") [AStr (Some t)];;
           match args with
           | Some _ => a ← text low args; tell env (bs "%s") [AStr (Some a)]
           | None => mret tt
           end;;
           tell env [10] []
       | None => mret tt
       end;;
       timeout ← conf_timeout DEFAULT_TIMEOUT;
       mret (image, args, timeout)
     else mret (None, Some (Text []), -1));
  mret (image, args, if cnt =? 0 then timeout else 1).

(** [do c = prom_nbgetchar(); while (c == -1 && prom_getms() <= end);] *)
Fixpoint key_loop (n : nat) (end_ : Z) : stm (ystate F X) fault Z :=
  match n with
  | O => out_of_fuel
  | S n =>
      c ← fw (prom_nbgetchar env);
      if negb (c =? -1) then mret c
      else t ← fw prom_getms; if t <=? end_ then key_loop n end_ else mret c
  end.

(** [cbuff[0] = c; cbuff[1] = 0] *)
Definition put_key (c : Z) : stm (ystate F X) fault unit := put_bytes Cbuff 0 [u8 c; 0].

(** the key pressed before the timeout: newline when there was none, -1 when the prompt
    waits for ever *)
Definition wait_key (timeout : Z) : stm (ystate F X) fault Z :=
  if timeout =? -1 then mret (-1)
  else
    beg ← fw prom_getms;
    c ← (if 0 <? timeout then key_loop fuel (s32 (beg + 100 * timeout)) else mret (-1));
    if c =? -1 then mret 10
    else
      (if negb ((c =? 10) || (c =? 9) || (c =? 13) || (c =? 8)) then put_key c else mret tt);;
      mret c.

Definition show_images : stm (ystate F X) fault unit :=
  once ← buf_text low Bootoncelabel;
  on_prompt (λ uc t, maintabfunc env uc t once).

(** the image of the label that is a single key *)
Definition single_key (c : Z) : stm (ystate F X) fault bool :=
  if (c =? -1) || (c =? 10) || (c =? 13) then mret false
  else if c =? 9 then show_images;; mret false
  else if 32 <=? c then
    put_key c;;
    line ← buf_text low Cbuff;
    single ← conf_flag (Some line) (bs "single-key");
    uc ← get_var useconf;
    if single && negb (uc =? 0) then tell env (bs "%s" ++ [10]) [AStr (Some line)];; mret true
    else mret false
  else mret false.

(** the image when no line is typed *)
Definition default_image (args : option cptr) : stm (ystate F X) fault (option cptr * option cptr) :=
  once ← get_buf Bootoncelabel;
  last ← get_buf Bootlastlabel;
  if negb (byte_at once 0 =? 0) then mret (Some (At Bootoncelabel 0), args)
  else if negb (byte_at last 0 =? 0) then split_words Bootlastlabel
  else d ← conf_default; mret (d, args).

(** a line typed *)
Definition typed_line : stm (ystate F X) fault (option cptr * option cptr) :=
  once ← buf_text low Bootoncelabel;
  on_prompt (λ uc t, cmdedit env uc t fuel (Some (maintabfunc env uc t once)) false);;
  tell env [10] [];;
  line ← buf_text low Cbuff;
  copy_to Given_bootargs line;;
  set_var (set_given_by_user true);;
  split_words Cbuff.

Definition choose_image (c : Z) (image args : option cptr) : stm (ystate F X) fault (option cptr * option cptr) :=
  single ← single_key c;
  let image := if single : bool then Some (At Cbuff 0) else image in
  if (c =? 10) || (c =? 13) then
    '(image, args) ← match image with Some _ => mret (image, args) | None => default_image args end;
    match image with
    | Some _ => t ← text low image; tell env (bs "%s") [AStr (Some t)]
    | None => mret tt
    end;;
    match args with
    | Some _ => a ← text low args; tell env (bs " %s") [AStr (Some a)]
    | None => mret tt
    end;;
    tell env [10] [];;
    mret (image, args)
  else if single : bool then mret (image, args)
  else typed_line.

(** ** A ramdisk given by hand *)

(** [strncmp(p, "initrd=", 7) == 0] *)
Definition is_initrd (p : option cptr) : stm (ystate F X) fault bool :=
  t ← text low p; mret (strncmp t (bs "initrd=") 7 =? 0).

(** the image and its arguments, or [None] when [get_params] returns *)
Definition initrd_command (image args : option cptr) : stm (ystate F X) fault (option (option cptr * option cptr)) :=
  in_args ← is_initrd args;
  (if in_args : bool then set_var (set_definitrd false) else mret tt);;
  in_image ← is_initrd image;
  def ← get_var definitrd;
  if negb (in_image || negb def) then mret (Some (image, args))
  else
    set_var (set_definitrd true);;
    given ← match args with
            | Some _ => set_var (set_hasarg true);; mret args
            | None => mret image
            end;
    let args := None in
    t ← text low given;
    if strlen t =? 0 then tell env (bs "ERROR: no initrd specified!" ++ [10]) [];; mret None
    else
      match ptr_add given 7 low with
      | None => fail Overrun
      | Some p =>
          t ← text low p;
          copy_to Manualinitrd t;;
          set_var (set_definitrd false);;
          tell env (bs "New initrd file specified: %s" ++ [10]) [AStr (Some t)];;
          b ← get_var boot;
          devtype env low (dev b);;
          d ← conf_default;
          mret (Some (d, args))
      end.

(** ** The label *)

(** an image that is missing or empty becomes the default one *)
Definition missing_image (image : option cptr) : stm (ystate F X) fault (option cptr) :=
  uc ← get_var useconf;
  if uc =? 0 then mret image
  else
    t ← text low image;
    if bool_decide (image = None) || (deref t =? 0) then conf_default else mret image.

(** the line is kept for a reboot *)
Definition remember_label (image args : option cptr) : stm (ystate F X) fault unit :=
  t ← text low image;
  copy_to Bootlastlabel t;;
  match args with
  | Some _ =>
      a ← text low args;
      if negb (deref a =? 0) then
        append_to low Bootlastlabel (bs " ");;
        a ← text low args;
        append_to low Bootlastlabel a
      else mret tt
  | None => mret tt
  end;;
  label ← buf_text low Bootlastlabel;
  fw (λ f, let '(_, f) := prom_set_options env (bs "boot-last-label") (label ++ [0]) f in (tt, f)).

(** what a label stands for: whether it is one, the image, the device and partition to
    look on and the arguments *)
Record choice := Choice {
  ch_label : option (list Z);
  ch_image : option cptr;
  ch_device : option (list Z);
  ch_part : Z;
  ch_args : option cptr;
}.

#[local] Instance cptr_eq_dec : EqDecision cptr.
Proof. solve_decision. Defined.

Definition resolve_label (image args : option cptr) (defpart : Z) : stm (ystate F X) fault choice :=
  b ← get_var boot;
  uc ← get_var useconf;
  if uc =? 0 then mret (Choice None image (dev b) defpart args)
  else
    d ← conf_strg None (bs "device");
    defpart ← conf_partition None defpart;
    p ← conf_strg None (bs "pause-message");
    match p with Some p => set_var (set_pause_message p) | None => mret tt end;;
    restricted ← conf_flag None (bs "restricted");
    label ← match image with Some _ => t ← text low image; mret (Some t) | None => mret None end;
    p ← conf_strg label (bs "image");
    match p with
    | None => mret (Choice None image d defpart args)
    | Some p =>
        if deref p =? 0 then mret (Choice None image d defpart args)
        else
          d ← conf_strg label (bs "device");
          let d := match d with Some d => Some d | None => dev b end in
          defpart ← conf_partition label defpart;
          r ← conf_flag label (bs "restricted");
          let restricted := restricted || r in
          pw ← get_var password;
          match label with
          | None => mret (Choice label (Some (Text p)) d defpart args)
          | Some l =>
              (if bool_decide (is_Some args) && bool_decide (is_Some pw) && restricted
               then check (bs "To specify arguments for this image you must enter the password.")
               else if bool_decide (is_Some pw) && negb restricted then check (bs "This image is restricted.")
               else mret tt);;
              params ← make_params low l args;
              mret (Choice label (Some (Text p)) d defpart (Some params))
          end
    end.

(** ** Commands of the prompt *)

(** [strcpy(boot.file, s)] and [strcpy(boot.dev, s)]: the blocks are taken to be long
    enough *)
Definition change_file (s : list Z) : stm (ystate F X) fault unit :=
  b ← get_var boot;
  match Devpath.file b with
  | Some _ => set_var (set_boot (set_file (Some s) b))
  | None => fail NullPointer
  end.

Definition change_dev (s : list Z) : stm (ystate F X) fault unit :=
  b ← get_var boot;
  match dev b with
  | Some _ => set_var (set_boot (set_dev (Some s) b))
  | None => fail NullPointer
  end.

(** the loop over the arguments of [conf]: [args] from the argument on, [space] from the
    space after it on *)
Fixpoint conf_args (n : nat) (args : list Z) (space : option (list Z)) : stm (ystate F X) fault unit :=
  match n with
  | O => mret tt
  | S n =>
      let temp := match space with Some sp => take (length args - length sp) args | None => args end in
      space ←
        (if strncmp temp (bs "file=") 5 =? 0 then change_file (drop 5 temp);; mret space
         else if strncmp temp (bs "device=") 7 =? 0 then change_dev (drop 7 temp);; mret space
         else if strncmp temp (bs "partition=") 10 =? 0 then
           b ← get_var boot;
           set_var (set_boot (set_part (simple_strtol (drop 10 temp) 10).1 b));; mret space
         else mret None);
      let sp := cstr low space in
      if 1 <? strlen sp then
        let args := drop 1 sp in
        conf_args n args (Some (match strchr args 32 with Some sp => sp | None => [] end))
      else mret tt
  end.

(** [args] are the arguments of the command, [bak] the device before it *)
Definition conf_command (args : list Z) (bak : list Z) (defpart : Z) : stm (ystate F X) fault unit :=
  if negb (strlen args =? 0) then
    conf_args 3 args (strchr args 32);;
    tell env (bs "Loading config file..." ++ [10]) [];;
    b ← get_var boot;
    uc ← load_config_file env low machine ext2_open xfs_open reiserfs_open fuel local_file b;
    set_var (set_useconf uc);;
    if 0 <? uc then conf_timeout 0;; mret tt
    else
      tell env (bs "Restoring default values." ++ [10]) [];;
      change_file [];;
      change_dev bak;;
      b ← get_var boot;
      set_var (set_boot (set_part defpart b))
  else
    b ← get_var boot;
    tell env (bs "Current configuration:" ++ [10]) [];;
    tell env (bs "device: %s" ++ [10]) [AStr (dev b)];;
    (if part b <? 0 then tell env (bs "partition: auto" ++ [10]) []
     else tell env (bs "partition: %d" ++ [10]) [AInt (part b)]);;
    (if negb (strlen (cstr low (Devpath.file b)) =? 0)
     then tell env (bs "file: %s" ++ [10]) [AStr (Devpath.file b)]
     else tell env (bs "file: /etc/%s" ++ [10]) [AStr (Some CONFIG_FILE_NAME)]).

(** a command: the value [get_params] returns, or [None] for an image *)
Definition builtin_command (image args : option cptr) (bak : list Z) (defpart : Z)
    : stm (ystate F X) fault (option Z) :=
  t ← text low image;
  pw ← get_var password;
  if strcmp t (bs "help") =? 0 then tell env help_text [];; mret (Some 0)
  else if strcmp t (bs "halt") =? 0 then
    check (bs "Restricted command.");;
    r ← fw (prom_pause env);
    match r with Ok _ => mret (Some 0) | Err _ => fail Overrun | Fuel => out_of_fuel end
  else if strcmp t (bs "bye") =? 0 then check (bs "Restricted command.");; mret (Some 1)
  else if strncmp t (bs "conf") 4 =? 0 then
    match pw with
    | Some _ => check (bs "Restricted command.");; mret (Some 1)
    | None => a ← text low args; conf_command a bak defpart;; mret (Some 0)
    end
  else if deref t =? 36 then
    check (bs "OpenFirmware commands are restricted.");;
    t ← text low image;
    interpret (tail t);;
    mret (Some 0)
  else mret None.

(** ** The files *)

(** the path of the ramdisk, made in its buffer *)
Definition initrd_path (p bak : list Z) : stm (ystate F X) fault unit :=
  def ← get_var definitrd;
  if negb def then
    m ← buf_text low Manualinitrd;
    kind ← (if deref m =? 47 then mret FILE_DEVICE_NET else devtype env low (Some bak));
    if kind =? FILE_DEVICE_NET then ncopy_to Initrdpath m 1024
    else copy_to Initrdpath (bs "/");; append_to low Initrdpath m
  else ncopy_to Initrdpath p 1024.

(** the kernel and the ramdisk; the structure is left as far as it got *)
Definition boot_paths (c : choice) (bak : list Z) : stm (ystate F X) fault boot_param :=
  let p := BootParam (kernel params0) (rd params0) (ch_args c) in
  t ← text low (ch_image c);
  ncopy_to Imagepath t 1024;;
  pw ← get_var password;
  (if bool_decide (ch_label c = None) && bool_decide (is_Some pw)
   then check (bs "To boot a custom image you must enter the password.") else mret tt);;
  b ← get_var boot;
  imagepath ← buf_text low Imagepath;
  '(ok, k) ← parse_path env low (Some imagepath) (ch_device c) (ch_part c) (bs "/vmlinux") b;
  let p := BootParam k (rd p) (args p) in
  if ok =? 0 then tell env (bs "%s: Unable to parse" ++ [10]) [AStr (Some imagepath)];; mret p
  else
    uc ← get_var useconf;
    if uc =? 0 then mret p
    else
      i ← conf_strg (ch_label c) (bs "initrd");
      match i with
      | None => mret p
      | Some i =>
          if deref i =? 0 then mret p
          else
            initrd_path i bak;;
            initrdpath ← buf_text low Initrdpath;
            b ← get_var boot;
            '(ok, r) ← parse_path env low (Some initrdpath) (ch_device c) (ch_part c) (bs "/root.bin") b;
            (if ok =? 0 then tell env (bs "%s: Unable to parse" ++ [10]) [AStr (Some imagepath)] else mret tt);;
            mret (BootParam k r (args p))
      end.

(** ** [get_params]: the value returned and the structure *)

Definition get_params : stm (ystate F X) fault (Z * boot_param) :=
  set_var (set_pause_after false);;
  defpart ← get_var (λ v, part (boot v));
  on_prompt (λ _ _, cmdinit);;
  '(image, args, timeout) ← command_line;
  tell env (bs "boot: ") [];;
  c ← wait_key timeout;
  '(image, args) ← choose_image c image args;
  r ← initrd_command image args;
  match r with
  | None => mret (0, BootParam (kernel params0) (rd params0) None)
  | Some (image, args) =>
      image ← missing_image image;
      remember_label image args;;
      b ← get_var boot;
      let bak := cstr low (dev b) in
      if 1024 <=? Z.of_nat (length bak) then fail Overrun
      else
        ch ← resolve_label image args defpart;
        r ← builtin_command (ch_image ch) (ch_args ch) bak (ch_part ch);
        match r with
        | Some v => mret (v, BootParam (kernel params0) (rd params0) (ch_args ch))
        | None => p ← boot_paths ch bak; mret (0, p)
        end
  end.
End params.

(** ** Passwords *)

Section guards.
Context (X : Type) (env : prom_env) (low : list Z) (fuel : nat).
Implicit Types s : ystate script X.

(** the firmware's script in a state *)
Definition script_of (s : ystate script X) : script := pfw (f_base (y_fs s)).

(** [m] never touches the files and the firmware, whatever its outcome *)
Definition quiet {A} (m : stm (ystate script X) fault A) : Prop := ∀ s, y_fs (m s).2 = y_fs s.

Lemma quiet_bind {A B} (m : stm (ystate script X) fault A) (k : A → stm (ystate script X) fault B) :
  quiet m → (∀ a, quiet (k a)) → quiet (mbind k m).
Proof.
  intros Hm Hk s. unfold mbind, stm_bind. specialize (Hm s). destruct (m s) as [[a|e|] s1]; [|done..].
  by rewrite Hk.
Qed.

Lemma quiet_ret {A} (a : A) : quiet (mret a).
Proof. done. Qed.

Lemma quiet_put b o v : quiet (put_bytes b o v).
Proof. intros s. unfold put_bytes, get_buf. rewrite gets_bind. by case_match. Qed.

Lemma quiet_text p : quiet (text low p).
Proof. intros s. destruct p as [[b o|x]|]; done. Qed.

Lemma quiet_ask {A} (q : tables → result null_deref A) : quiet (ask_cfg q).
Proof. intros s. unfold ask_cfg. rewrite gets_bind. by destruct (q (tabs (y_cfg s))). Qed.

Lemma quiet_set_var g : quiet (set_var g).
Proof. done. Qed.

(** the parts of [make_params] *)
Ltac quiet :=
  repeat first
    [ apply quiet_ret | apply quiet_put | apply quiet_text | apply quiet_ask | apply quiet_set_var
    | apply quiet_bind; [|intros ?]
    | progress unfold make_params, param_options, param_value, param_flag, param_typed, param_copy, param_space,
        conf_strg, conf_flag
    | match goal with
      | |- quiet (if ?b then _ else _) => destruct b
      | |- quiet (match ?o with Some _ => _ | None => _ end) => destruct o
      end ].

Lemma quiet_make_params label params : quiet (make_params low label params).
Proof. quiet. Qed.

(** the check at the prompt: what is typed decides on the reset *)
Lemma check_ok str pw l1 l2 l3 rest s :
  password (y_vars s) = Some pw → entry_ok pw → cstr_ok str → Z.of_nat (length str) < 4294967296 →
  length (Md5.buffer (y_md5 s)) = 64%nat → Z.of_nat (length (y_bufs s Passwdbuff)) = CMD_LENG →
  Forall (λ l, are_bytes l ∧ Forall (λ c, is_end c = false) l ∧ (length l < fuel)%nat) [l1; l2; l3] →
  sc_keys (script_of s) = typed_keys [l1; l2; l3] ++ rest →
  0 <= sc_clock (script_of s) < 1000000000 → (4001 <= fuel)%nat →
  ∃ s', check env fuel str s = (Ok tt, s') ∧ y_cfg s' = y_cfg s ∧ y_vars s' = y_vars s ∧
    (Exists (λ l, opens pw (typed l)) [l1; l2; l3] → sc_commands (script_of s') = sc_commands (script_of s)) ∧
    (¬ Exists (λ l, opens pw (typed l)) [l1; l2; l3] →
     sc_commands (script_of s') = sc_commands (script_of s) ++ [bs "reset-all"]).
Proof.
  intros Hpw Hentry Hstr Hstrl Hmd Hbuf Hls Hkeys Hclock Hfuel. unfold check, get_var. rewrite gets_bind, Hpw, gets_bind.
  set (uc := negb (useconf (y_vars s) =? 0)).
  destruct (check_password_spec env uc (tabs (y_cfg s)) fuel str pw (y_md5 s) l1 l2 l3 rest (y_bufs s Passwdbuff)
    (y_bufs s Cbuff) (script_of s)) as (st' & b' & f' & E & Ho & Hn); [done..|].
  unfold mbind, stm_bind, on_prompt at 1. fold uc. cbv zeta.
  change (Cmd (y_bufs s Cbuff) (y_bufs s Passwdbuff) (pfw (f_base (y_fs s))))
    with (mk true (y_bufs s Passwdbuff) (y_bufs s Cbuff) (script_of s)).
  rewrite E. eexists. split; [done|]. split; [done|]. split; [done|]. by split.
Qed.

(** a label is guarded unless it is restricted and no arguments are given *)
Definition restricted (t : tables) (label : list Z) : bool :=
  bool_decide (is_Some (cfg_get_strg_i (options t) (bs "restricted"))) ||
  bool_decide (is_Some (value_of t label (bs "restricted"))).

Definition guarded (t : tables) (label : list Z) (args : option cptr) : bool :=
  negb (restricted t label) || bool_decide (is_Some args).

Definition label_items : list (list Z) := [bs "image"; bs "device"; bs "partition"; bs "restricted"].

Lemma conf_global s item : conf_strg None item s = (Ok (cfg_get_strg_i (options (tabs (y_cfg s))) item), s).
Proof. done. Qed.

Lemma conf_global_flag s item :
  conf_flag None item s = (Ok (bool_decide (is_Some (cfg_get_strg_i (options (tabs (y_cfg s))) item))), s).
Proof. unfold conf_flag, ask_cfg, cfg_get_flag. rewrite gets_bind. simpl. by destruct (cfg_get_strg_i _ _). Qed.

(** the steps of [resolve_label] up to the check, for the label [l] of an image *)
Lemma resolve_label_steps q args defpart l img s :
  useconf (y_vars s) ≠ 0 → text low (Some q) s = (Ok l, s) →
  Forall (lookup_fine (tabs (y_cfg s)) l) label_items →
  value_of (tabs (y_cfg s)) l (bs "image") = Some img → deref img ≠ 0 →
  ∃ g d part', (∀ v, password (g v) = password v ∧ useconf (g v) = useconf v) ∧
    resolve_label env low fuel (Some q) args defpart s =
    ((let r := restricted (tabs (y_cfg s)) l in
      pw ← get_var password;
      (if bool_decide (is_Some args) && bool_decide (is_Some pw) && r
       then check env fuel (bs "To specify arguments for this image you must enter the password.")
       else if bool_decide (is_Some pw) && negb r then check env fuel (bs "This image is restricted.")
       else mret tt);;
      params ← make_params low l args;
      mret (Choice (Some l) (Some (Text img)) d part' (Some params))) : stm (ystate script X) fault choice)
      (with_vars g s).
Proof.
  intros Huc Hl Hf Himg Hd. unfold label_items in Hf. rewrite !Forall_cons in Hf.
  destruct Hf as (Fi & Fd & Fp & Fr & _).
  assert (∃ g s1, (∀ v, password (g v) = password v ∧ useconf (g v) = useconf v) ∧ s1 = with_vars g s ∧
    (match cfg_get_strg_i (options (tabs (y_cfg s))) (bs "pause-message") with
     | Some p => set_var (set_pause_message p) | None => mret tt end) s = (Ok tt, s1)) as (g & s1 & Hg & Es1 & E1).
  { destruct (cfg_get_strg_i _ (bs "pause-message")) as [pm|].
    - by exists (set_pause_message pm), (with_vars (set_pause_message pm) s).
    - exists (λ v, v), s. split; [done|]. split; [by destruct s|done]. }
  assert (y_cfg s1 = y_cfg s) as C1 by (by rewrite Es1).
  assert (tabs (y_cfg s1) = tabs (y_cfg s)) as T1 by (by rewrite C1).
  assert (text low (Some q) s1 = (Ok l, s1)) as Hl1.
  { rewrite Es1. revert Hl. destruct q as [b o|x]; unfold text, get_buf; rewrite ?gets_bind; unfold mret, stm_ret;
      by intros [= <-]. }
  eexists g, _, _. split; [exact Hg|]. rewrite <- Es1.
  unfold resolve_label. rewrite (bind_ok _ _ _ (boot (y_vars s)) s) by done.
  rewrite (bind_ok _ _ _ (useconf (y_vars s)) s) by done. rewrite (proj2 (Z.eqb_neq _ _) Huc).
  rewrite (bind_ok _ _ _ _ _ (conf_global s _)).
  erewrite (bind_ok (conf_partition None defpart)) by reflexivity.
  rewrite (bind_ok _ _ _ _ _ (conf_global s _)). rewrite (bind_ok _ _ _ _ _ E1).
  rewrite (bind_ok _ _ _ _ _ (conf_global_flag s1 _)).
  rewrite (bind_ok _ _ _ (Some l) s1); [|by rewrite (bind_ok _ _ _ _ _ Hl1)].
  rewrite (bind_ok _ _ _ _ _ (conf_strg_ok s1 _ l _ T1 Fi)), Himg. rewrite (proj2 (Z.eqb_neq _ _) Hd).
  rewrite (bind_ok _ _ _ _ _ (conf_strg_ok s1 _ l _ T1 Fd)).
  unfold conf_partition at 1.
  erewrite (bind_ok (_ ← conf_strg (Some l) (bs "partition"); _))
    by (rewrite (bind_ok _ _ _ _ _ (conf_strg_ok s1 _ l _ T1 Fp)); reflexivity).
  rewrite (bind_ok _ _ _ _ _ (conf_flag_ok s1 _ l _ T1 Fr)).
  unfold restricted. rewrite C1. reflexivity.
Qed.

(** what the guard lets through *)
Lemma resolve_label_guard q args defpart l img pw l1 l2 l3 rest s :
  useconf (y_vars s) ≠ 0 → text low (Some q) s = (Ok l, s) →
  Forall (lookup_fine (tabs (y_cfg s)) l) label_items →
  value_of (tabs (y_cfg s)) l (bs "image") = Some img → deref img ≠ 0 →
  password (y_vars s) = Some pw → entry_ok pw →
  length (Md5.buffer (y_md5 s)) = 64%nat → Z.of_nat (length (y_bufs s Passwdbuff)) = CMD_LENG →
  Forall (λ l, are_bytes l ∧ Forall (λ c, is_end c = false) l ∧ (length l < fuel)%nat) [l1; l2; l3] →
  sc_keys (script_of s) = typed_keys [l1; l2; l3] ++ rest →
  0 <= sc_clock (script_of s) < 1000000000 → (4001 <= fuel)%nat →
  let s' := (resolve_label env low fuel (Some q) args defpart s).2 in
  (guarded (tabs (y_cfg s)) l args = true ∧ ¬ Exists (λ x, opens pw (typed x)) [l1; l2; l3] →
   sc_commands (script_of s') = sc_commands (script_of s) ++ [bs "reset-all"]) ∧
  (guarded (tabs (y_cfg s)) l args = false ∨ Exists (λ x, opens pw (typed x)) [l1; l2; l3] →
   sc_commands (script_of s') = sc_commands (script_of s)).
Proof.
  intros Huc Hl Hf Himg Hd Hpw Hentry Hmd Hbuf Hls Hkeys Hclock Hfuel. cbv zeta.
  destruct (resolve_label_steps q args defpart l img s Huc Hl Hf Himg Hd) as (g & d & part' & Hg & ->).
  set (s1 := with_vars g s). cbv zeta.
  assert (password (y_vars s1) = Some pw) as Hpw1 by (unfold s1; simpl; by rewrite (proj1 (Hg _))).
  rewrite (bind_ok _ _ _ (Some pw) s1) by (unfold get_var, gets; by rewrite Hpw1).
  rewrite (bool_decide_eq_true_2 (is_Some (Some pw))) by by_decision. rewrite andb_true_r. cbn [andb].
  set (r := restricted _ l).
  assert (∀ (m : stm (ystate script X) fault unit) s2, m s1 = (Ok tt, s2) →
    script_of ((m;; (params ← make_params low l args;
                     mret (Choice (Some l) (Some (Text img)) d part' (Some params)))) s1).2 = script_of s2) as Hk.
  { intros m s2 E. rewrite (bind_ok _ _ _ _ _ E). unfold script_of. f_equal. f_equal.
    apply quiet_bind; [apply quiet_make_params|intros; apply quiet_ret]. }
  assert (∀ str, cstr_ok str → Z.of_nat (length str) < 4294967296 → ∃ s2, check env fuel str s1 = (Ok tt, s2) ∧
    (Exists (λ l, opens pw (typed l)) [l1; l2; l3] → sc_commands (script_of s2) = sc_commands (script_of s)) ∧
    (¬ Exists (λ l, opens pw (typed l)) [l1; l2; l3] →
     sc_commands (script_of s2) = sc_commands (script_of s) ++ [bs "reset-all"])) as Hcheck.
  { intros str Hs1 Hs2. destruct (check_ok str pw l1 l2 l3 rest s1) as (s2 & E & _ & _ & Ho & Hn); [done..|].
    by exists s2. }
  unfold guarded. fold r.
  destruct r, (bool_decide (is_Some args)); cbn [andb orb negb].
  - destruct (Hcheck (bs "To specify arguments for this image you must enter the password.")) as (s2 & E & Ho & Hn);
      [by_decision|by_decision|]. rewrite (Hk _ _ E).
    split; [intros [_ ?]; by apply Hn|intros [?|?]; [done|by apply Ho]].
  - rewrite (Hk (mret tt) s1) by done. split; [by intros [? _]|done].
  - destruct (Hcheck (bs "This image is restricted.")) as (s2 & E & Ho & Hn);
      [by_decision|by_decision|]. rewrite (Hk _ _ E).
    split; [intros [_ ?]; by apply Hn|intros [?|?]; [done|by apply Ho]].
  - destruct (Hcheck (bs "This image is restricted.")) as (s2 & E & Ho & Hn);
      [by_decision|by_decision|]. rewrite (Hk _ _ E).
    split; [intros [_ ?]; by apply Hn|intros [?|?]; [done|by apply Ho]].
Qed.
End guards.

(** ** What the prompt promises *)

(** C6: a label of the configuration is guarded as its options say: with a password set,
    an image that is not restricted, or arguments to a restricted one, needs the
    password - after three wrong lines the machine is asked to reset - and a restricted
    image without arguments boots without it.  No other command reaches the firmware. *)
Theorem label_guarded {X} env low fuel q args defpart l img pw l1 l2 l3 rest (s : ystate script X) :
  useconf (y_vars s) ≠ 0 → text low (Some q) s = (Ok l, s) →
  Forall (lookup_fine (tabs (y_cfg s)) l) label_items →
  value_of (tabs (y_cfg s)) l (bs "image") = Some img → deref img ≠ 0 →
  password (y_vars s) = Some pw → entry_ok pw →
  length (Md5.buffer (y_md5 s)) = 64%nat → Z.of_nat (length (y_bufs s Passwdbuff)) = CMD_LENG →
  Forall (λ l, are_bytes l ∧ Forall (λ c, is_end c = false) l ∧ (length l < fuel)%nat) [l1; l2; l3] →
  sc_keys (script_of X s) = typed_keys [l1; l2; l3] ++ rest →
  0 <= sc_clock (script_of X s) < 1000000000 → (4001 <= fuel)%nat →
  let s' := (resolve_label env low fuel (Some q) args defpart s).2 in
  (guarded (tabs (y_cfg s)) l args = true ∧ ¬ Exists (λ x, opens pw (typed x)) [l1; l2; l3] →
   sc_commands (script_of X s') = sc_commands (script_of X s) ++ [bs "reset-all"]) ∧
  (guarded (tabs (y_cfg s)) l args = false ∨ Exists (λ x, opens pw (typed x)) [l1; l2; l3] →
   sc_commands (script_of X s') = sc_commands (script_of X s)).
Proof. apply resolve_label_guard. Qed.

(** a configuration with a password and a restricted image *)
Definition locked_cfg : cfg :=
  (cfg_parse script0 (bs "yaboot.conf")
     (render_config [(bs "password", Some (bs "secret")); (bs "root", Some (bs "/dev/sda3"))]
        [Stanza (bs "/vmlinux") (bs "linux") [(bs "restricted", None); (bs "initrd", Some (bs "/initrd"))];
         Stanza (bs "/old") (bs "old") []]) cfg_initial).2.

Definition locked (keys : list Z) : ystate script unit :=
  let s := ui0 (Script [(bs "hd", 8)] [((8, bs "device_type"), bs "block" ++ [0])] keys [] [] 0) locked_cfg in
  YState (y_fs s) (y_cfg s) (y_bufs s) (y_md5 s)
    (set_boot (set_dev (Some (bs "hd")) (set_part 3 fspec0))
       (set_password (Some (bs "secret")) (set_useconf 1 (y_vars s)))).

Lemma label_guarded_witness :
  let s := locked (typed_keys [bs "a"; bs "b"; bs "c"] ++ []) in
  let s' := (resolve_label env1 [] 4001 (Some (Text (bs "linux"))) (Some (Text (bs "init=/bin/sh"))) 3 s).2 in
  guarded (tabs (y_cfg s)) (bs "linux") (Some (Text (bs "init=/bin/sh"))) = true ∧
  (guarded (tabs (y_cfg s)) (bs "linux") (Some (Text (bs "init=/bin/sh"))) = true ∧
     ¬ Exists (λ x, opens (bs "secret") (typed x)) [bs "a"; bs "b"; bs "c"] →
   sc_commands (script_of unit s') = sc_commands (script_of unit s) ++ [bs "reset-all"]) ∧
  (guarded (tabs (y_cfg s)) (bs "linux") (Some (Text (bs "init=/bin/sh"))) = false ∨
     Exists (λ x, opens (bs "secret") (typed x)) [bs "a"; bs "b"; bs "c"] →
   sc_commands (script_of unit s') = sc_commands (script_of unit s)).
Proof.
  intros s. split; [by vm_compute|].
  apply (label_guarded env1 [] 4001 (Text (bs "linux")) (Some (Text (bs "init=/bin/sh"))) 3 (bs "linux")
    (bs "/vmlinux") (bs "secret") (bs "a") (bs "b") (bs "c") [] s).
  - discriminate.
  - reflexivity.
  - by_decision.
  - by vm_compute.
  - discriminate.
  - reflexivity.
  - split; [by_decision|left; reflexivity].
  - reflexivity.
  - reflexivity.
  - by_decision.
  - reflexivity.
  - vm_compute. split; [discriminate|reflexivity].
  - by_decision.
Defined.

(** ** Runs of the prompt *)

Definition no_files : open_fn script unit := λ file _ _, mret (FILE_ERR_BAD_FSYS, file).
Definition prompt (s : ystate script unit) : result fault (Z * boot_param) * ystate script unit :=
  get_params (H0 := no_access) (H1 := no_close) env1 [] _MACH_chrp no_files no_files no_files 4100 file0 s.

(** the file, the ramdisk and the arguments of a run *)
Definition outcome (r : result fault (Z * boot_param) * ystate script unit) :
    option (option (list Z) * option (list Z) * list Z) :=
  match r.1 with
  | Ok (_, p) =>
      match text [] (args p) r.2 with
      | (Ok a, _) => Some (Devpath.file (kernel p), Devpath.file (rd p), a)
      | _ => None
      end
  | _ => None
  end.

Example prompt_label :
  outcome (prompt (locked (bs "linux" ++ [13]))) =
    Some (Some (bs "/vmlinux"), Some (bs "/initrd"), bs "root=/dev/sda3 ").
Proof. vm_compute. reflexivity. Qed.

Example prompt_arguments :
  let r := prompt (locked (bs "linux  single" ++ [13] ++ bs "secret" ++ [13])) in
  (outcome r, sc_commands (script_of unit r.2)) =
    (Some (Some (bs "/vmlinux"), Some (bs "/initrd"), bs "root=/dev/sda3 single"), []).
Proof. vm_compute. reflexivity. Qed.

Example prompt_path :
  let r := prompt (locked (bs "hd:4,/boot/x" ++ [13] ++ bs "secret" ++ [13])) in
  match r.1 with Ok (_, p) => Some (dev (kernel p), part (kernel p), Devpath.file (kernel p)) | _ => None end =
    Some (Some (bs "hd"), 4, Some (bs "/boot/x")).
Proof. vm_compute. reflexivity. Qed.

(** after a ramdisk was given by hand the next line is taken for one too: what follows
    its first seven characters in the buffer, left from the line before, is the name *)
Example initrd_sticks :
  let r1 := prompt (locked (bs "linux initrd=/other" ++ [13] ++ bs "old" ++ [13; 120; 13; 120; 13; 120; 13])) in
  let r2 := prompt r1.2 in
  (cstring (y_bufs r1.2 Manualinitrd), cstring (y_bufs r2.2 Manualinitrd)) = (bs "/other", bs "nitrd=/other").
Proof. vm_compute. reflexivity. Qed.

(** the label kept for a reboot, when it has arguments, is not found after the reboot:
    the image and the arguments are in the buffer the label is copied to, and the space
    put between them ends up behind the label.  It is taken for a device. *)
Definition rebooted (last : list Z) : ystate script unit :=
  let s := locked [] in
  YState (y_fs s) (y_cfg s) (λ b, if decide (b = Bootlastlabel) then store (y_bufs s b) 0 last else y_bufs s b)
    (y_md5 s) (set_password None (set_fw_reboot_cnt 1 (y_vars s))).

Example reboot_with_arguments :
  let r := prompt (rebooted (bs "linux single")) in
  (match r.1 with Ok (_, p) => Some (dev (kernel p)) | _ => None end, outcome r, cstring (y_bufs r.2 Bootlastlabel)) =
    (Some (Some (bs "linux ")), Some (Some (bs "/vmlinux"), None, []), bs "linux ").
Proof. vm_compute. reflexivity. Qed.

Example reboot_without_arguments :
  let r := prompt (rebooted (bs "linux")) in
  (outcome r, cstring (y_bufs r.2 Bootlastlabel)) =
    (Some (Some (bs "/vmlinux"), Some (bs "/initrd"), bs "root=/dev/sda3 "), bs "linux").
Proof. vm_compute. reflexivity. Qed.
