(* ===== verification/Main.v ===== *)
(** The loop of the boot loader, [yaboot_text_ui], and its start: [yaboot_main] and
    [yaboot_start] of [second/yaboot.c].

    The kernel that is entered is a parameter: the state of the machine when it returns,
    if it does. *)
From S2P Require Import Prelude Ctype CString Numeric Vsprintf Malloc Prom Disk Cfg Cmdline Devpath Partition Fs Elf Boot Params.
From S2P Require Md5.

Definition INITRD_CHUNKSIZE : Z := 1048576.
Definition MALLOCSIZE : Z := 1048576.

(** a file name that is to be looked up beside the configuration: [boot_file] is the two
    backslashes of the blessed folder and the name does not start at a root *)
Definition blessed (boot_file : list Z) : bool :=
  negb (strlen boot_file =? 0) && (strcmp boot_file [92; 92] =? 0).

Definition no_root (name : list Z) : bool := negb (deref name =? 47) && negb (deref name =? 92).

Section main.
Context {F : Type} `{Firmware F} {X : Type} `{FileAccess (fstate F X)} `{FileClose (fstate F X)}.
Context (env : prom_env) (low : list Z) (machine : Z).
Context (ext2_open xfs_open reiserfs_open : open_fn F X).
Context (fuel : nat) (local_file : boot_file).
(** entry point, address and size of the ramdisk *)
Context (run_kernel : Z → Z → Z → fstate F X → option (fstate F X)).

(** a file cleared by [memset] *)
Definition cleared : boot_file := BFile None 0 0 0 0 None 0.

Definition yclaim (addr size : Z) : stm (ystate F X) fault Z :=
  fw (prom_claim env addr size 0).

Definition yclaim_chunk (addr size : Z) : stm (ystate F X) fault Z :=
  r ← fw (prom_claim_chunk env addr size);
  match r with Ok a => mret a | _ => out_of_fuel end.

Definition pause : stm (ystate F X) fault unit :=
  r ← fw (prom_pause env);
  match r with Ok _ => mret tt | Err _ => fail Overrun | Fuel => out_of_fuel end.

(** [malloc(strlen(name) + 3)], then the folder and the name; the second component is the
    block *)
Definition in_folder (folder name : list Z) : stm (ystate F X) fault (option (list Z) * Z) :=
  loc ← yalloc (u32 (strlen name + 3));
  if loc =? 0 then mret (None, 0) else mret (Some (folder ++ name), loc).

(** ** The ramdisk *)

(** [while (initrd_read == len)]: more of the file is read behind what was *)
Fixpoint more_loop (n : nat) (len : Z) (file : boot_file) (initrd_read initrd_more size : Z)
    : stm (ystate F X) fault (Z * boot_file) :=
  match n with
  | O => out_of_fuel
  | S n =>
      if negb (initrd_read =? len) then mret (size, file)
      else
        let want := u32 (initrd_more + len) in
        more ← yclaim want len;
        if negb (more =? want) then
          tell env (bs "Claim failed for initrd memory at %p rc=%p" ++ [10]) [AInt want; AInt more];;
          pause;;
          mret (size, file)
        else
          '(n', b, file) ← on_fs (fread file len);
          on_fs (store_at more b);;
          more_loop n len file (u32 n') more (u32 (size + u32 n'))
  end.

(** the ramdisk of an open file, behind the kernel: its address and size *)
Definition read_ramdisk (file : boot_file) (li : loadinfo) : stm (ystate F X) fault (Z * Z * boot_file) :=
  len ← match fino_size file with
        | Some sz =>
            n ← on_fs sz;
            if 0 <? u32 n then n ← on_fs sz; mret (u32 (n + 4096)) else mret INITRD_CHUNKSIZE
        | None => mret INITRD_CHUNKSIZE
        end;
  initrd_base ← yclaim_chunk (u32 (base li + memsize li)) len;
  if initrd_base =? PROM_INVALID_HANDLE then
    tell env (bs "Claim failed for initrd memory" ++ [10]) [];; mret (0, 0, file)
  else
    '(n, b, file) ← on_fs (fread file len);
    on_fs (store_at initrd_base b);;
    let initrd_size := u32 n in
    let initrd_base := if initrd_size =? 0 then 0 else initrd_base in
    '(size, file) ← more_loop fuel len file initrd_size initrd_base initrd_size;
    mret (initrd_base, size, file).

(** the address and size of the ramdisk of [p], or [None] when memory runs out, and the
    block [loc] afterwards *)
Definition load_ramdisk (p : boot_param) (loc : Z) (li : loadinfo) : stm (ystate F X) fault (option (Z * Z) * Z) :=
  b ← get_var boot;
  let folder := cstr low (Devpath.file b) in
  let name := cstr low (Devpath.file (rd p)) in
  '(rdname, loc, failed) ←
    (if blessed folder && negb (deref name =? 47) && negb (deref (cstr low (Devpath.file (kernel p))) =? 92) then
       (if loc =? 0 then mret tt else yfree loc);;
       '(r, a) ← in_folder folder name;
       match r with
       | Some r => mret (r, a, false)
       | None => tell env (bs "Malloc error" ++ [10]) [];; mret (name, 0, true)
       end
     else mret (name, loc, false));
  if failed : bool then mret (None, loc)
  else
    let spec := set_file (if bool_decide (rdname = name) then Devpath.file (rd p) else Some rdname) (rd p) in
    tell env (bs "Loading ramdisk..." ++ [10]) [];;
    '(result, file) ← yopen env low machine ext2_open xfs_open reiserfs_open fuel spec cleared;
    '(initrd_base, initrd_size) ←
      (if negb (result =? FILE_ERR_OK) then tell_error env low spec result;; mret (0, 0)
       else
         '(a, n, file) ← read_ramdisk file li;
         on_fs (fclose file);; mret (a, n));
    (if negb (initrd_base =? 0) then
       tell env (bs "ramdisk loaded at %p, size: %lu Kbytes" ++ [10])
         [AInt initrd_base; AInt (Z.shiftr initrd_size 10)]
     else tell env (bs "ramdisk load failed !" ++ [10]) [];; pause);;
    mret (Some (initrd_base, initrd_size), loc).

(** ** The kernel *)

(** the identification of the file and the loader it names: whether the kernel is in memory *)
Definition load_kernel (p : boot_param) (file : boot_file) (li : loadinfo) : stm (ystate F X) fault (bool * loadinfo) :=
  '(n, b, file) ← on_fs (fread file ident_size);
  let li := LoadInfo (store (elf li) 0 b) (base li) (memsize li) (filesize li) (offset li) (load_loc li) (entry li)
              (flat_vmlinux li) in
  if u32 n <? ident_size then
    tell env ([10] ++ bs "Can't read Elf e_ident/e_type/e_machine info" ++ [10]) [];;
    on_fs (fclose file);; mret (false, li)
  else if is_elf32 li then
    '(r, file, li) ← on_fs (load_elf32 env file li);
    if r =? 0 then on_fs (fclose file);; mret (false, li)
    else tell env (bs "   Elf32 kernel loaded..." ++ [10]) [];; on_fs (fclose file);; mret (true, li)
  else if is_elf64 li then
    '(r, file, li) ← on_fs (load_elf64 env file li);
    if r =? 0 then on_fs (fclose file);; mret (false, li)
    else tell env (bs "   Elf64 kernel loaded..." ++ [10]) [];; on_fs (fclose file);; mret (true, li)
  else
    tell env (bs "%s: Not a valid ELF image" ++ [10]) [AStr (Devpath.file (kernel p))];;
    on_fs (fclose file);; mret (false, li).

(** [kernel_entry(...)]: whether it returns *)
Definition jump (kernel_entry initrd size : Z) : stm (ystate F X) fault bool := λ s,
  match run_kernel kernel_entry initrd size (y_fs s) with
  | Some fs => (Ok true, YState fs (y_cfg s) (y_bufs s) (y_md5 s) (y_vars s))
  | None => (Ok false, s)
  end.

(** the arguments are handed over and the kernel is entered *)
Definition enter_kernel (p : boot_param) (li : loadinfo) (initrd : Z * Z) : stm (ystate F X) fault bool :=
  a ← text low (args p);
  fw (λ f, (tt, prom_setargs env a f));;
  r ← fw (prom_print_available env);
  match r with
  | Ok _ =>
      let kernel_entry := u32 (base li + entry li - load_loc li) in
      jump kernel_entry (u32 (initrd.1 + load_loc li)) initrd.2
  | Err _ => fail Overrun
  | Fuel => out_of_fuel
  end.

(** one turn of the loop with the parameters [p] and the block [loc]: whether the loop
    goes on, the block and the load information.  The names replaced are values, whose
    blocks are not freed *)
Definition boot_turn (p : boot_param) (loc : Z) (li : loadinfo) : stm (ystate F X) fault (bool * Z * loadinfo) :=
  match Devpath.file (kernel p) with
  | None => mret (true, loc, li)
  | Some name =>
      tell env (bs "Please wait, loading kernel..." ++ [10]) [];;
      b ← get_var boot;
      let folder := cstr low (Devpath.file b) in
      '(name, loc, failed) ←
        (if blessed folder && no_root name then
           '(r, a) ← in_folder folder name;
           match r with
           | Some r => mret (r, a, false)
           | None => tell env (bs "malloc error" ++ [10]) [];; mret (name, 0, true)
           end
         else mret (name, loc, false));
      if failed : bool then mret (true, loc, li)
      else
        let k := set_file (Some name) (kernel p) in
        let p := BootParam k (rd p) (args p) in
        '(result, file) ← yopen env low machine ext2_open xfs_open reiserfs_open fuel k cleared;
        if negb (result =? FILE_ERR_OK) then tell_error env low k result;; mret (true, loc, li)
        else
          '(loaded, li) ← load_kernel p file li;
          if negb loaded then mret (true, loc, li)
          else
            '(initrd, loc) ←
              (if flat_vmlinux li && bool_decide (is_Some (Devpath.file (rd p))) then load_ramdisk p loc li
               else mret (Some (0, 0), loc));
            match initrd with
            | None => mret (true, loc, li)
            | Some initrd => on ← enter_kernel p li initrd; mret (on, loc, li)
            end
  end.

(** the loop: [true] when the user leaves, [false] when a kernel runs *)
Fixpoint text_ui (n : nat) (loc : Z) (li : loadinfo) : stm (ystate F X) fault bool :=
  match n with
  | O => out_of_fuel
  | S n =>
      '(r, p) ← get_params env low machine ext2_open xfs_open reiserfs_open fuel local_file;
      if negb (r =? 0) then mret true
      else
        '(on, loc, li) ← boot_turn p loc li;
        if on : bool then text_ui n loc li else mret false
  end.

(** [stack_li] is what the local variable holds; only [load_loc] is cleared *)
Definition yaboot_text_ui (stack_li : loadinfo) : stm (ystate F X) fault bool :=
  text_ui fuel 0 (LoadInfo (elf stack_li) (base stack_li) (memsize stack_li) (filesize stack_li) (offset stack_li) 0
                    (entry stack_li) (flat_vmlinux stack_li)).

(** ** The start *)

(** the colors of the display, three bytes each *)
Definition default_colors : list Z :=
  [0; 0; 0; 0; 0; 170; 0; 170; 0; 0; 170; 170; 170; 0; 0; 170; 0; 170; 170; 85; 0; 170; 170; 170;
   85; 85; 85; 85; 85; 255; 85; 255; 85; 85; 255; 255; 255; 85; 85; 255; 85; 255; 255; 255; 85; 255; 255; 255].

Fixpoint set_screen_colors (n : nat) (scrn i : Z) : stm (ystate F X) fault unit :=
  match n with
  | O => mret tt
  | S n =>
      fw (λ f, (tt, prom_set_color scrn i (byte_at default_colors (i * 3)) (byte_at default_colors (i * 3 + 1))
                      (byte_at default_colors (i * 3 + 2)) f));;
      set_screen_colors n scrn (i + 1)
  end.

Definition setup_display : stm (ystate F X) fault unit :=
  scrn ← fw prom_screen;
  scrn ←
    (if (scrn =? 0) || (scrn =? PROM_INVALID_HANDLE) then
       display ← fw (λ f, (let '(r, m) := prom_getprop (of_package (prom_stdout env) f) (bs "device_type") 32 f in
                           (0 <? r) && (strncmp m (bs "display") 7 =? 0), f));
       if display : bool then mret (prom_stdout env) else fw (prom_open (bs "screen"))
     else mret scrn);
  if scrn =? PROM_INVALID_HANDLE then tell env (bs "No screen device found !" ++ [10]) []
  else
    set_screen_colors 16 scrn 0;;
    tell env ([27] ++ bs "[1;37m" ++ [27] ++ bs "[2;40m") [];;
    tell env [12] [].

(** a property stored in a buffer, whose result is the length of the property *)
Definition read_chosen (name : list Z) (b : ubuf) : stm (ystate F X) fault Z :=
  '(r, m) ← fw (λ f, (prom_get_chosen env name (buf_size b) f, f)); put_bytes b 0 m;; mret r.

Definition read_option (name : list Z) (b : ubuf) : stm (ystate F X) fault Z :=
  '(r, m) ← fw (λ f, (prom_get_options env name (buf_size b) f, f)); put_bytes b 0 m;; mret r.

(** the number of reboots the firmware counted, and the label of the last boot *)
Definition read_reboots : stm (ystate F X) fault unit :=
  r ← read_option (bs "ibm,client-architecture-support-reboot") Fw_nbr_reboots;
  (if r =? -1 then read_option (bs "ibm,fw-nbr-reboots") Fw_nbr_reboots else mret 0);;
  t ← buf_text low Fw_nbr_reboots;
  let n := (simple_strtol t 10).1 in
  set_var (set_fw_reboot_cnt n);;
  if 0 <? n then read_option (bs "boot-last-label") Bootlastlabel;; mret tt else mret tt.

(** [conf=] at the head of the arguments: the path goes to [bootdevice], the arguments
    lose it *)
Definition conf_argument : stm (ystate F X) fault bool :=
  a ← buf_text low Bootargs;
  if strncmp a (bs "conf=") 5 =? 0 then
    match strchr a 32 with
    | Some end_ =>
        put_bytes Bootargs (Z.of_nat (length a - length end_)) [0];;
        copy_to Bootdevice (drop 5 (take (length a - length end_) a));;
        copy_to Bootargs (tail end_)
    | None => copy_to Bootdevice (drop 5 a);; put_bytes Bootargs 0 [0]
    end;;
    mret true
  else mret false.

(** the path up to its last backslash, which is kept unless nothing comes before it *)
Definition folder_of (name : list Z) : list Z :=
  let last := match strrchr name 92 with Some r => take (length name - length r) name | None => [] end in
  match last with [] => [] | _ => last ++ [92] end.

(** the name of the configuration file *)
Definition conf_path (file : list Z) : list Z :=
  (if (machine =? _MACH_chrp) || (machine =? _MACH_bplan) then bs "/etc/"
   else if strlen file =? 0 then file
   else if strncmp file [92; 92] 2 =? 0 then [92; 92]
   else folder_of file) ++ CONFIG_FILE_NAME.

Definition VERSION : list Z := bs "1.3.17".

Definition apple_warning : list Z :=
  bs "I_know_the_partition_type_is_wrong_and_will_NOT_send_mail_when_booting_breaks".

(** the type of the boot partition of a Mac *)
Definition check_part_type : stm (ystate F X) fault unit :=
  entry ← conf_strg None (bs "ptypewarning");
  let warn := match entry with Some e => negb (strcmp e apple_warning =? 0) | None => true end in
  if negb warn then mret tt
  else
    b ← get_var boot;
    ptype ← on_fs (on_base (get_part_type env fuel (machine =? _MACH_bplan) (cstr low (dev b)) (part b)));
    match ptype with
    | Some t =>
        if negb (strcmp t (bs "Apple_Bootstrap") =? 0) then
          tell env ([10] ++ bs "WARNING: Bootstrap partition type is wrong: " ++ [34] ++ bs "%s" ++ [34; 10] ++
                    bs "         type should be: " ++ [34] ++ bs "Apple_Bootstrap" ++ [34; 10; 10])
            [AStr (Some t)]
        else mret tt
    | None => mret tt
    end.

(** the device and the file of the configuration, as the firmware tells them: [None]
    when they cannot be made out *)
Definition find_boot : stm (ystate F X) fault bool :=
  read_chosen (bs "bootargs") Bootargs;;
  read_chosen (bs "bootpath") Bootdevice;;
  read_reboots;;
  conf_given ← conf_argument;
  d ← get_buf Bootdevice;
  (if byte_at d 0 =? 0 then read_option (bs "boot-device") Bootdevice else mret 0);;
  d ← get_buf Bootdevice;
  if byte_at d 0 =? 0 then tell env (bs "Couldn't determine boot device" ++ [10]) [];; mret false
  else
    once ← get_buf Bootoncelabel;
    (if byte_at once 0 =? 0 then read_option (bs "boot-once") Bootoncelabel else mret 0);;
    fw (λ f, let '(_, f) := prom_set_options env (bs "boot-once") [] f in (tt, f));;
    t ← buf_text low Bootdevice;
    b ← get_var boot;
    '(ok, b) ← parse_path env low (Some t) None (-1) [] b;
    set_var (set_boot b);;
    if ok =? 0 then
      t ← buf_text low Bootdevice;
      tell env (bs "%s: Unable to parse" ++ [10]) [AStr (Some t)];; mret false
    else
      let b := if (machine =? _MACH_bplan) && negb conf_given then set_part (s32 (part b + 1)) b else b in
      let path := conf_path (cstr low (Devpath.file b)) in
      if conf_given then set_var (set_boot b);; mret true
      else if 1024 <=? Z.of_nat (length path) then fail Overrun
      else set_var (set_boot (set_file (Some path) b));; mret true.

(** the configuration, from the network or from the boot device *)
Definition find_config : stm (ystate F X) fault unit :=
  b ← get_var boot;
  kind ← devtype env low (dev b);
  (if kind =? FILE_DEVICE_NET then
     tell env (bs "Try to netboot" ++ [10]) [];;
     '(uc, b) ← load_my_config_file env low machine ext2_open xfs_open reiserfs_open fuel local_file b;
     set_var (set_boot b);;
     set_var (set_useconf uc)
   else mret tt);;
  uc ← get_var useconf;
  if uc =? 0 then
    b ← get_var boot;
    uc ← load_config_file env low machine ext2_open xfs_open reiserfs_open fuel local_file b;
    set_var (set_useconf uc)
  else mret tt.

(** the value returned, or [None] when a kernel runs *)
Definition yaboot_main (stack_li : loadinfo) : stm (ystate F X) fault (option Z) :=
  (if machine =? _MACH_Pmac then setup_display else mret tt);;
  found ← find_boot;
  if negb found then mret (Some (-1))
  else
    find_config;;
    tell env (bs "Welcome to yaboot version " ++ VERSION ++ [10]) [];;
    tell env (bs "Enter " ++ [34] ++ bs "help" ++ [34] ++ bs " to get some basic usage information" ++ [10]) [];;
    (if machine =? _MACH_Pmac then check_part_type else mret tt);;
    left ← yaboot_text_ui stack_li;
    if left : bool then tell env (bs "Bye." ++ [10]) [];; mret (Some 0) else mret None.
End main.

Section start.
Context {F : Type} `{Firmware F} {X : Type} `{FileAccess (fstate F X)} `{FileClose (fstate F X)}.
Context (env : prom_env) (low : list Z).
(** what opens a file depends on the kind of machine *)
Context (ext2_open xfs_open reiserfs_open : bool → open_fn F X).
Context (fuel : nat) (local_file : boot_file) (stack_li : loadinfo).
Context (run_kernel : Z → Z → Z → fstate F X → option (fstate F X)).

(** a property of the root in the static buffer [model] *)
Definition root_prop (root : Z) (name model : list Z) (f : F) : bool * list Z :=
  let '(r, m) := prom_getprop root name 256 f in (0 <? r, store model 0 m).

(** the kind of machine *)
Definition find_machine (f : F) : Z :=
  let root := prom_finddevice (bs "/") f in
  if root =? 0 then _MACH_Pmac
  else
    let '(vendor, model) := root_prop root (bs "CODEGEN,vendor") (replicate 256 0) f in
    if vendor && (strncmp (bs "bplan") model 5 =? 0) then _MACH_bplan
    else
      let '(type, model) := root_prop root (bs "device_type") model f in
      if type && (strncmp (bs "chrp") model 4 =? 0) then _MACH_chrp
      else
        let '(compat, model) := root_prop root (bs "compatible") model f in
        if compat && bool_decide (is_Some (strstr_ptr (cstring model) (bs "ibm,powernv"))) then _MACH_chrp
        else
          let '(name, model) := root_prop root (bs "model") model f in
          if name && (strncmp model (bs "IBM") 3 =? 0) then _MACH_chrp else _MACH_Pmac.

(** an operation on the allocator *)
Definition on_alloc (g : heap → heap) : stm (ystate F X) fault unit :=
  on_heap (λ h f, (tt, g h, f)).

(** the value returned, or [None] when a kernel runs *)
Definition yaboot_start : stm (ystate F X) fault (option Z) :=
  pause ← fw (prom_print_available env);
  match pause with
  | Err _ => fail Overrun
  | Fuel => out_of_fuel
  | Ok _ =>
      malloc_base ← fw (prom_claim_chunk_top env MALLOCSIZE);
      match malloc_base with
      | Ok a =>
          if a =? PROM_INVALID_HANDLE then
            tell env (bs "Can't claim malloc buffer of %d bytes" ++ [10]) [AInt MALLOCSIZE];; mret (Some (-1))
          else
            on_alloc (malloc_init a MALLOCSIZE);;
            machine ← fw (λ f, (find_machine f, f));
            let bplan := machine =? _MACH_bplan in
            r ← yaboot_main env low machine (ext2_open bplan) (xfs_open bplan) (reiserfs_open bplan) fuel local_file
                  run_kernel stack_li;
            match r with
            | None => mret None
            | Some r =>
                on_alloc malloc_dispose;;
                fw (λ f, (tt, prom_release env a MALLOCSIZE f));;
                fw (λ f, (tt, prom_exit f));;
                mret (Some r)
            end
      | _ => out_of_fuel
      end
  end.
End start.

(** ** From the file of the kernel to its entry *)

Section entering.
Context {F : Type} `{Firmware F} {X : Type} `{FileAccess (fstate F X)} `{FileClose (fstate F X)}.
Context (env : prom_env) (low : list Z) (machine : Z).
Context (ext2_open xfs_open reiserfs_open : open_fn F X) (fuel : nat).
Context (run_kernel : Z → Z → Z → fstate F X → option (fstate F X)).
Context (contents : list Z) (inv : fstate F X → boot_file → Z → Prop).
Context {HF : HoldsFile env contents inv}.
Implicit Types s : ystate F X.

(** closing a file that holds the contents succeeds and leaves memory alone *)
Definition closes : Prop :=
  ∀ x0 file p, inv x0 file p →
    ∀ x, ∃ r x', fclose file x = (Ok r, x') ∧ pheap (f_base x') = pheap (f_base x).

(** the load information once the identification is read *)
Definition with_ident (li : loadinfo) : loadinfo :=
  LoadInfo (store (elf li) 0 (slice contents 0 ident_size)) (base li) (memsize li) (filesize li) (offset li)
    (load_loc li) (entry li) (flat_vmlinux li).

(** the format the identification of the file names *)
Definition identified (c : elf_format) (li : loadinfo) : Prop :=
  c = elf32 ∧ is_elf32 (with_ident li) = true ∨
  c = elf64 ∧ is_elf32 (with_ident li) = false ∧ is_elf64 (with_ident li) = true.

(** every segment of the kernel is in memory, at its place *)
Definition kernel_in_memory (c : elf_format) (li li' : loadinfo) (x : fstate F X) : Prop :=
  li' = with_base (base li') (layout c contents (with_ident li)) ∧
  Forall (λ p, loadable p = true →
    mem_load (mem (pheap (f_base x))) (base li' + segment_offset (layout c contents (with_ident li)) p)
      (Z.to_nat (p_filesz p)) = slice contents (p_offset p) (p_filesz p)) (file_headers c contents).

Lemma kernel_in_memory_heap c li li' (x y : fstate F X) :
  pheap (f_base y) = pheap (f_base x) → kernel_in_memory c li li' x → kernel_in_memory c li li' y.
Proof. unfold kernel_in_memory. by intros ->. Qed.

Lemma on_fs_ok {A} (m : stm (fstate F X) fault A) s a x' : m (y_fs s) = (Ok a, x') →
  on_fs m s = (Ok a, YState x' (y_cfg s) (y_bufs s) (y_md5 s) (y_vars s)).
Proof. intros E. unfold on_fs. by rewrite E. Qed.

(** what writes to the console or closes a file leaves memory alone *)
Lemma tell_heap fmt a s : ∃ s', tell env fmt a s = (Ok tt, s') ∧ pheap (f_base (y_fs s')) = pheap (f_base (y_fs s)) ∧
  y_bufs s' = y_bufs s ∧ y_vars s' = y_vars s.
Proof. eexists. by repeat split. Qed.

Lemma close_heap x0 file p0 s : closes → inv x0 file p0 → ∃ r s', on_fs (fclose file) s = (Ok r, s') ∧
  pheap (f_base (y_fs s')) = pheap (f_base (y_fs s)) ∧ y_bufs s' = y_bufs s ∧ y_vars s' = y_vars s.
Proof.
  intros Hc Hi. destruct (Hc x0 file p0 Hi (y_fs s)) as (r & x' & E & Hh). unfold on_fs. rewrite E. by eexists _, _.
Qed.

(** the kernel of an open file is loaded, unless no memory can be claimed *)
Lemma load_kernel_ok c p file li s : closes → identified c li → length (elf li) = 64%nat →
  ident_size <= Z.of_nat (length contents) →
  loadable_file c contents (with_ident li) → inv (y_fs s) file 0 →
  (malloc (phdr_size c * e_phnum c contents) (pheap (f_base (y_fs s)))).1 ≠ 0 →
  ∃ ok li' s', load_kernel env p file li s = (Ok (ok, li'), s') ∧ y_bufs s' = y_bufs s ∧ y_vars s' = y_vars s ∧
    (ok = false ∧ base li' = PROM_INVALID_HANDLE ∨ ok = true ∧ kernel_in_memory c li li' (y_fs s')).
Proof.
  intros Hc Hid Hl Hlen Hf Hi Hm. unfold load_kernel.
  destruct (hf_read (y_fs s) file 0 ident_size Hi) as (file1 & x1 & E1 & Hi1 & M1);
    [lia|unfold ident_size, INT_MAX; lia|lia|].
  rewrite (bind_ok _ _ _ _ _ (on_fs_ok _ _ _ _ E1)). cbv zeta.
  rewrite u32_small by (unfold ident_size; lia). rewrite Z.ltb_irrefl.
  fold (with_ident li). set (s1 := YState x1 _ _ _ _).
  destruct (load_elf_ok env contents inv c file1 (with_ident li) x1) as (r & file2 & li' & x2 & E2 & (x0 & p0 & Hi2) & Hr);
    [by destruct Hid as [[-> _]|[-> _]]; [apply elf32_local|apply elf64_local]|exact Hf|exact Hi1|by rewrite M1|].
  pose proof (on_fs_ok (load_elf env c file1 (with_ident li)) s1 _ _ E2) as E.
  set (s2 := YState x2 _ _ _ _) in E.
  assert (∀ msg, ∃ ok li'' s', (if r =? 0 then on_fs (fclose file2);; mret (false, li')
      else tell env msg [];; on_fs (fclose file2);; mret (true, li')) s2 = (Ok (ok, li''), s') ∧
    y_bufs s' = y_bufs s ∧ y_vars s' = y_vars s ∧
    (ok = false ∧ base li'' = PROM_INVALID_HANDLE ∨ ok = true ∧ kernel_in_memory c li li'' (y_fs s'))) as Hfin.
  { intros msg. destruct Hr as [[-> Hb]|(-> & Hli & Hseg)].
    - change (0 =? 0) with true. cbn iota. destruct (close_heap x0 file2 p0 s2 Hc Hi2) as (z & s3 & E3 & M3 & B3 & V3).
      rewrite (bind_ok _ _ _ _ _ E3). exists false, li', s3. split; [done|]. split; [done|]. split; [done|by left].
    - change (1 =? 0) with false. cbn iota. destruct (tell_heap msg [] s2) as (s3 & E3 & M3 & B3 & V3).
      rewrite (bind_ok _ _ _ _ _ E3). destruct (close_heap x0 file2 p0 s3 Hc Hi2) as (z & s4 & E4 & M4 & B4 & V4).
      rewrite (bind_ok _ _ _ _ _ E4). exists true, li', s4. split; [done|].
      split; [by rewrite B4, B3|]. split; [by rewrite V4, V3|]. right. split; [done|].
      apply (kernel_in_memory_heap _ _ _ x2); [by rewrite M4, M3|]. by split. }
  destruct Hid as [[-> Hid]|(-> & Hid & Hid2)].
  - rewrite Hid. unfold load_elf32. rewrite (bind_ok _ _ _ _ _ E). apply Hfin.
  - rewrite Hid, Hid2. unfold load_elf64. rewrite (bind_ok _ _ _ _ _ E). apply Hfin.
Qed.

Definition with_fs (x : fstate F X) s : ystate F X := YState x (y_cfg s) (y_bufs s) (y_md5 s) (y_vars s).

Lemma on_fs_bufs {A} (m : stm (fstate F X) fault A) s r s' : on_fs m s = (r, s') →
  y_bufs s' = y_bufs s ∧ y_vars s' = y_vars s.
Proof. unfold on_fs. destruct (m (y_fs s)) as [r0 x0]. by intros [= <- <-]. Qed.

Lemma text_same_bufs q s s' a : y_bufs s' = y_bufs s → text low q s = (Ok a, s) → text low q s' = (Ok a, s').
Proof.
  intros Hb. destruct q as [[b o|x]|]; unfold text, get_buf; rewrite ?gets_bind, ?Hb; unfold mret, stm_ret;
    by intros [= <-].
Qed.

(** the kernel is entered where its entry point was loaded, with its arguments *)
Lemma enter_kernel_ok p li initrd s a : yaboot_debug env = false → text low (args p) s = (Ok a, s) →
  ∃ x, pfw (f_base x) = prom_setargs env a (pfw (f_base (y_fs s))) ∧ pheap (f_base x) = pheap (f_base (y_fs s)) ∧
    enter_kernel env low run_kernel p li initrd s =
      match run_kernel (u32 (base li + entry li - load_loc li)) (u32 (initrd.1 + load_loc li)) initrd.2 x with
      | Some x' => (Ok true, with_fs x' s)
      | None => (Ok false, with_fs x s)
      end.
Proof.
  intros Hd Ha. unfold enter_kernel. rewrite (bind_ok _ _ _ _ _ Ha).
  set (x := FState (set_fw (prom_setargs env a (pfw (f_base (y_fs s)))) (f_base (y_fs s))) (f_bufs (y_fs s))
              (fserrorno (y_fs s)) (f_priv (y_fs s))).
  exists x. split; [done|]. split; [done|].
  rewrite (bind_ok _ _ _ tt (with_fs x s)) by done.
  rewrite (bind_ok _ _ _ (Ok tt) (with_fs x s)).
  2:{ unfold fw, on_fs, call, on_base, prom_print_available. rewrite Hd. done. }
  unfold jump. cbn [y_fs with_fs]. by destruct (run_kernel _ _ _ _).
Qed.

(** the parameters name a kernel that opens and no ramdisk *)
Record kernel_found (kf_name : list Z) (p : boot_param) (c : elf_format) (s : ystate F X) : Prop := {
  kf_file : Devpath.file (kernel p) = Some kf_name;
  kf_place : blessed (cstr low (Devpath.file (boot (y_vars s)))) && no_root kf_name = false;
  kf_rd : Devpath.file (rd p) = None;
  kf_open : ∃ file s1,
    yopen env low machine ext2_open xfs_open reiserfs_open fuel (set_file (Some kf_name) (kernel p)) cleared
      (tell env (bs "Please wait, loading kernel..." ++ [10]) [] s).2 = (Ok (FILE_ERR_OK, file), s1) ∧
    inv (y_fs s1) file 0 ∧ (malloc (phdr_size c * e_phnum c contents) (pheap (f_base (y_fs s1)))).1 ≠ 0;
}.

Lemma boot_turn_ok name c p loc li s a : closes → yaboot_debug env = false → identified c li →
  length (elf li) = 64%nat → ident_size <= Z.of_nat (length contents) → loadable_file c contents (with_ident li) →
  kernel_found name p c s → text low (args p) s = (Ok a, s) →
  ∃ li',
    (base li' = PROM_INVALID_HANDLE ∧
     ∃ s', boot_turn env low machine ext2_open xfs_open reiserfs_open fuel run_kernel p loc li s = (Ok (true, loc, li'), s')) ∨
    (∃ x g s', kernel_in_memory c li li' x ∧ pfw (f_base x) = prom_setargs env a g ∧
     boot_turn env low machine ext2_open xfs_open reiserfs_open fuel run_kernel p loc li s =
       match run_kernel (u32 (base li' + entry li' - load_loc li')) (u32 (load_loc li')) 0 x with
       | Some x' => (Ok (true, loc, li'), with_fs x' s')
       | None => (Ok (false, loc, li'), with_fs x s')
       end).
Proof.
  intros Hc Hd Hid Hl Hlen Hf [Hname Hplace Hrd (file & s1 & Ho & Hi & Hm)] Ha. unfold boot_turn. rewrite Hname.
  destruct (tell env (bs "Please wait, loading kernel..." ++ [10]) [] s) as [r0 s0] eqn:E0.
  destruct (on_fs_bufs _ _ _ _ E0) as [B0 V0]. assert (r0 = Ok tt) as ->
    by (revert E0; unfold tell, on_fs; by intros [= <- _]).
  rewrite (bind_ok _ _ _ _ _ E0). cbn [snd] in Ho.
  unfold get_var. rewrite gets_bind, V0. rewrite Hplace.
  rewrite ret_bind. cbn iota. cbn [rd args]. rewrite (bind_ok _ _ _ _ _ Ho). rewrite Z.eqb_refl. cbn [negb].
  destruct (on_fs_bufs _ _ _ _ Ho) as [B1 V1].
  destruct (load_kernel_ok c (BootParam (set_file (Some name) (kernel p)) (rd p) (args p)) file li s1 Hc Hid Hl Hlen Hf Hi Hm)
    as (ok & li' & s2 & E2 & B2 & V2 & Hr).
  rewrite (bind_ok _ _ _ _ _ E2). cbn iota. exists li'. destruct Hr as [[-> Hb]|[-> Hk]].
  - left. split; [done|]. by exists s2.
  - right. cbn [negb]. rewrite Hrd. rewrite (bool_decide_eq_false_2 (is_Some None)) by (by intros []).
    rewrite andb_false_r, ret_bind.
    destruct (enter_kernel_ok (BootParam (set_file (Some name) (kernel p)) (rd p) (args p)) li' (0, 0) s2 a Hd) as (x & Hx & Hh & E).
    { apply (text_same_bufs _ s); [by rewrite B2, B1, B0|done]. }
    exists x, (pfw (f_base (y_fs s2))), s2. split; [by eapply kernel_in_memory_heap|]. split; [done|].
    unfold mbind, stm_bind. rewrite E. cbn [fst snd]. rewrite Z.add_0_l.
    by destruct (run_kernel _ _ _ _).
Qed.
End entering.

(** ** What the loader promises *)

(** C2: from the prompt to the kernel: when the parameters name a file that opens, on any
    file system that reads it faithfully, and the file is an ELF kernel that can be
    loaded, then either no memory can be claimed for it, and the prompt comes back, or
    the kernel is entered - at its entry point relative to where its first segment was
    put, with every segment in memory byte for byte and the arguments handed to the
    firmware. *)
Theorem kernel_entered {F} `{Firmware F} {X} `{FileAccess (fstate F X)} `{FileClose (fstate F X)}
    env low machine ext2 xfs reiserfs fuel run_kernel contents (inv : fstate F X → boot_file → Z → Prop)
    `{!HoldsFile env contents inv} name c p loc li (s : ystate F X) a :
  closes inv → yaboot_debug env = false → identified contents c li → length (elf li) = 64%nat →
  ident_size <= Z.of_nat (length contents) → loadable_file c contents (with_ident contents li) →
  kernel_found env low machine ext2 xfs reiserfs fuel contents inv name p c s → text low (args p) s = (Ok a, s) →
  ∃ li',
    (base li' = PROM_INVALID_HANDLE ∧
     ∃ s', boot_turn env low machine ext2 xfs reiserfs fuel run_kernel p loc li s = (Ok (true, loc, li'), s')) ∨
    (∃ x g s', kernel_in_memory contents c li li' x ∧ pfw (f_base x) = prom_setargs env a g ∧
     boot_turn env low machine ext2 xfs reiserfs fuel run_kernel p loc li s =
       match run_kernel (u32 (base li' + entry li' - load_loc li')) (u32 (load_loc li')) 0 x with
       | Some x' => (Ok (true, loc, li'), with_fs x' s')
       | None => (Ok (false, loc, li'), with_fs x s')
       end).
Proof. exact (boot_turn_ok env low machine ext2 xfs reiserfs fuel run_kernel contents inv name c p loc li s a). Qed.

(** a file system whose one file is the kernel, loaded whole *)
Definition kernel_handle : boot_file :=
  BFile None FILE_DEVICE_BLOCK 0 0 0 (Some (8388608, Elf.kernel)) (Z.of_nat (length Elf.kernel)).

Definition kernel_open : open_fn Disk.image unit := λ file _ _, mret (FILE_ERR_OK, kernel_handle).
Definition kernel_close : FileClose (fstate Disk.image unit) := {| fclose file := mret 0; fino_size file := None |}.

Definition stack_info : loadinfo := LoadInfo (replicate 64 255) 0 0 0 0 0 0 false.

Definition kernel_params : boot_param :=
  BootParam (set_file (Some (bs "/vmlinux")) (set_dev (Some (bs "hd")) (set_part 2 fspec0))) (rd params0)
    (Some (Text (bs "root=/dev/hda3"))).

Lemma opened_as {A S} (r : result fault (Z * A) * S) (P : A → S → bool) :
  match r.1 with Ok (e, x) => (e =? 0) && P x r.2 | _ => false end = true →
  ∃ x s', r = (Ok (0, x), s') ∧ P x s' = true.
Proof.
  destruct r as [[[e x]| |] s']; [|done..]. simpl. rewrite andb_true_iff, Z.eqb_eq. intros [-> ?]. by exists x, s'.
Qed.

Lemma kernel_loads : loadable_file elf32 Elf.kernel (with_ident Elf.kernel stack_info).
Proof.
  assert (with_ident Elf.kernel stack_info = LoadInfo (take 20 Elf.kernel ++ replicate 44 255) 0 0 0 0 0 0 false) as ->
    by (by vm_compute).
  split; [by_decision|by_decision|by_decision|by_decision|by_decision|by_decision|by_decision| |].
  - repeat apply List.Forall_cons; [intros _; by_decision|intros _; by_decision|constructor].
  - assert (filter (λ p, loadable p = true) (file_headers elf32 Elf.kernel) = file_headers elf32 Elf.kernel) as ->
      by (by vm_compute).
    apply FOP_cons; [|apply FOP_cons; [constructor|constructor]].
    apply List.Forall_cons; [left; by_decision|constructor].
Qed.

(** its two segments in memory *)
Lemma kernel_text {X} li' (x : fstate Disk.image X) : kernel_in_memory Elf.kernel elf32 stack_info li' x →
  mem_load (mem (pheap (f_base x))) (base li') 5 = bs "hello" ∧
  mem_load (mem (pheap (f_base x))) (base li' + 16) 6 = bs "kernel".
Proof.
  intros (_ & Hseg).
  assert (with_ident Elf.kernel stack_info = LoadInfo (take 20 Elf.kernel ++ replicate 44 255) 0 0 0 0 0 0 false) as Ew
    by (by vm_compute).
  assert (file_headers elf32 Elf.kernel = [Phdr 1 116 3221225472 5 8; Phdr 1 121 3221225488 6 6]) as Eh
    by (by vm_compute).
  rewrite Ew, Eh in Hseg. apply Forall_cons_iff in Hseg as [H1 Hseg]. apply Forall_cons_iff in Hseg as [H2 _].
  specialize (H1 eq_refl). specialize (H2 eq_refl).
  set (w := LoadInfo (take 20 Elf.kernel ++ replicate 44 255) 0 0 0 0 0 0 false) in *.
  assert (segment_offset (layout elf32 Elf.kernel w) (Phdr 1 116 3221225472 5 8) = 0) as E0 by (by vm_compute).
  assert (segment_offset (layout elf32 Elf.kernel w) (Phdr 1 121 3221225488 6 6) = 16) as E2 by (by vm_compute).
  rewrite E0, Z.add_0_r in H1. rewrite E2 in H2. by split.
Qed.

(** the entry point and the memory there, as the kernel finds them *)
Lemma kernel_entered_witness :
  let s := ui0 (pfw (disk0 mac_disk 512)) cfg_initial in
  let stop (_ _ _ : Z) (_ : fstate Disk.image unit) : option (fstate Disk.image unit) := None in
  ∃ li' x s', boot_turn (H := disk_firmware) (H0 := net_access) (H1 := kernel_close) env1 [] _MACH_chrp
      kernel_open other_fs other_fs 50 stop kernel_params 0 stack_info s = (Ok (false, 0, li'), with_fs x s') ∧
    mem_load (mem (pheap (f_base x))) (base li') 5 = bs "hello" ∧
    mem_load (mem (pheap (f_base x))) (base li' + 16) 6 = bs "kernel".
Proof.
  intros s stop.
  destruct (kernel_entered (H := disk_firmware) (H0 := net_access) (H1 := kernel_close) env1 [] _MACH_chrp
    kernel_open other_fs other_fs 50 stop Elf.kernel (net_at Elf.kernel)
    (HoldsFile0 := @net_holds _ disk_firmware unit env1 Elf.kernel)
    (bs "/vmlinux") elf32 kernel_params 0 stack_info s (bs "root=/dev/hda3")) as (li' & Hr).
  - intros x0 file p _ x. exists 0, x. split; reflexivity.
  - reflexivity.
  - left. split; [reflexivity|]. by vm_compute.
  - reflexivity.
  - by_decision.
  - exact kernel_loads.
  - split; [reflexivity|reflexivity|reflexivity|].
    set (spec := set_file (Some (bs "/vmlinux")) (kernel kernel_params)).
    destruct (opened_as (yopen (H := disk_firmware) env1 [] _MACH_chrp kernel_open other_fs other_fs 50 spec cleared
        (tell (H := disk_firmware) env1 (bs "Please wait, loading kernel..." ++ [10]) [] s).2)
      (λ f st, bool_decide (buffer f = buffer kernel_handle) && (len f =? len kernel_handle) && (pos f =? 0) &&
               negb ((malloc (phdr_size elf32 * e_phnum elf32 Elf.kernel) (pheap (f_base (y_fs st)))).1 =? 0)))
      as (file & s1 & E & Hp); [by vm_compute|].
    rewrite !andb_true_iff, bool_decide_eq_true, negb_true_iff, !Z.eqb_eq, Z.eqb_neq in Hp.
    destruct Hp as [[[Hb Hl] Hpos] Hm].
    exists file, s1. split; [exact E|]. split; [|exact Hm].
    split; [lia|]. split; [exists 8388608; exact Hb|]. split; [exact Hl|]. split; [by_decision|].
    rewrite Hpos, Hl. reflexivity.
  - reflexivity.
  - destruct Hr as [(Hb & s' & E)|(x & g & s' & Hk & _ & E)].
    + exfalso.
      assert (match (boot_turn (H := disk_firmware) (H0 := net_access) (H1 := kernel_close) env1 [] _MACH_chrp
        kernel_open other_fs other_fs 50 stop kernel_params 0 stack_info s).1 with Ok (on, _, _) => negb on | _ => false end
        = true) as Hc by (by vm_compute).
      rewrite E in Hc. discriminate.
    + exists li', x, s'. split; [exact E|]. by apply kernel_text.
Defined.
