(* ===== verification/System.v ===== *)
(** The whole program: the file layer with its file systems, and the start from the entry of
    the firmware.

    [Fs], [Boot] and [Main] leave the readers of disks and what is done with an open file as
    arguments; here they are the tables of operations of the sources, [struct fs_t], over
    one state that holds the static variables of the three readers. *)
From S2P Require Import Prelude Ctype CString Numeric Vsprintf Malloc Prom Disk Cfg Cmdline Devpath Partition Fs Elf Paths Boot Params Main.
From S2P Require Client Xfs Reiserfs Ext2.

(** the static variables of fs_ext2.c, fs_xfs.c and fs_reiserfs.c *)
Record statics (FS : Type) := Statics {
  st_ext2 : Ext2.est unit FS;
  st_xfs : Xfs.xst unit;
  st_reiserfs : Reiserfs.rst unit;
}.
Arguments Statics {FS}. Arguments st_ext2 {FS}. Arguments st_xfs {FS}. Arguments st_reiserfs {FS}.

#[export] Instance statics_ext2 FS : Ext2.Ext2State (statics FS) FS := {|
  Ext2.ext2_static := st_ext2;
  Ext2.set_ext2_static v s := Statics v (st_xfs s) (st_reiserfs s);
|}.
#[export] Instance statics_xfs FS : Xfs.XfsState (statics FS) := {|
  Xfs.xfs_static := st_xfs;
  Xfs.set_xfs_static v s := Statics (st_ext2 s) v (st_reiserfs s);
|}.
#[export] Instance statics_reiserfs FS : Reiserfs.ReiserfsState (statics FS) := {|
  Reiserfs.reiserfs_static := st_reiserfs;
  Reiserfs.set_reiserfs_static v s := Statics (st_ext2 s) (st_xfs s) v;
|}.

(** [struct fs_t]: an operation that is not there is a NULL pointer *)
Record fs_t (S : Type) := FsT {
  name : list Z;
  open : option (boot_file → option partition_t → boot_fspec → stm S fault (Z * boot_file));
  read : option (boot_file → Z → stm S fault (Z * list Z * boot_file));
  seek : option (boot_file → Z → stm S fault (Z * boot_file));
  close : option (boot_file → stm S fault Z);
  ino_size : option (boot_file → stm S fault Z);
}.
Arguments FsT {S}. Arguments name {S}. Arguments open {S}. Arguments read {S}. Arguments seek {S}. Arguments close {S}.
Arguments ino_size {S}.

Section system.
Context {F : Type} `{Firmware F} {FS : Type} `{!Ext2.Libext2 (Ext2.est F FS) FS}.
Context (env : prom_env) (low stack : list Z) (fuel : nat).
Notation st := (fstate F (statics FS)).

(** a reader puts bytes in the buffer of the caller, of [size] bytes; the result comes with
    those it counts.  (What it stores before it fails is not seen by the callers.) *)
Definition in_room (size : Z) (m : list Z → stm st fault (Z * list Z * boot_file)) : stm st fault (Z * list Z * boot_file) :=
  '(n, b, file) ← m (replicate (Z.to_nat size) 0);
  mret (n, take (Z.to_nat n) b, file).

(** an operation that returns the result and the file as it is then *)
Definition result_of (m : stm st fault (Z * boot_file)) : stm st fault Z := '(r, _) ← m; mret r.

Definition fs_default : fs_t st :=
  FsT (bs "defaults") None (Some (default_read env)) (Some (default_seek env)) (Some (default_close env)) None.

Definition of_filesystem : fs_t st :=
  FsT (bs "built-in") (Some (of_open low)) (Some of_read) (Some of_seek) (Some (of_close env)) None.

Definition of_net_filesystem : fs_t st :=
  FsT (bs "built-in network") (Some (of_net_open env low)) (Some of_net_read) (Some of_net_seek) (Some (of_close env))
    (Some (λ file, mret (of_net_ino_size file))).

Definition swap_filesystem (bplan : bool) : fs_t st :=
  FsT (bs "swap signature checker") (Some (swap_open low bplan)) None None None None.

Definition iso_filesystem : fs_t st :=
  FsT (bs "iso9660") (Some iso_open) (Some iso_read) (Some iso_seek) (Some iso_close) None.

Definition ext2_filesystem (bplan : bool) : fs_t st :=
  FsT (bs "ext2") (Some (Ext2.ext2_open low bplan))
    (Some (λ file n, in_room n (λ buf, Ext2.on_ext2 (Ext2.ext2_read env file n buf))))
    (Some (λ file p, Ext2.on_ext2 (Ext2.ext2_seek file p)))
    (Some (λ file, Ext2.on_ext2 (Ext2.ext2_close file)))
    (Some (λ file, Ext2.on_ext2 (Ext2.ext2_ino_size file))).

Definition xfs_filesystem (bplan : bool) : fs_t st :=
  FsT (bs "xfs") (Some (Xfs.xfs_open low stack bplan fuel))
    (Some (λ file n, in_room n (λ buf, Xfs.on_xfs (Xfs.xfs_read stack fuel file n buf))))
    (Some (λ file p, mret (Xfs.xfs_seek file p)))
    (Some (λ file, result_of (Xfs.on_xfs (Xfs.xfs_close file)))) None.

Definition reiserfs_filesystem (bplan : bool) : fs_t st :=
  FsT (bs "reiserfs") (Some (Reiserfs.reiserfs_open env low stack bplan fuel))
    (Some (λ file n, in_room n (λ buf, Reiserfs.on_reiserfs (Reiserfs.reiserfs_read stack fuel file n buf))))
    (Some (λ file p, mret (Reiserfs.reiserfs_seek file p)))
    (Some (λ file, result_of (Reiserfs.on_reiserfs (Reiserfs.reiserfs_close file)))) None.

(** the table a file carries; reading, seeking and closing do not depend on the machine *)
Definition filesystem (k : fs_name) : fs_t st :=
  match k with
  | FsDefault => fs_default
  | FsSwap => swap_filesystem false
  | FsExt2 => ext2_filesystem false
  | FsXfs => xfs_filesystem false
  | FsReiserfs => reiserfs_filesystem false
  | FsOf => of_filesystem
  | FsNet => of_net_filesystem
  end.

(** [file->fs->op]: there may be no table and no operation *)
Definition operation {A} (op : fs_t st → option A) (file : boot_file) : option A :=
  match Fs.fs file with Some k => op (filesystem k) | None => None end.

Definition system_access : FileAccess st := {|
  fread file n := match operation read file with Some r => r file n | None => fail NullPointer end;
  fseek file p := match operation seek file with Some r => r file p | None => fail NullPointer end;
|}.

(** a file without a table has no sizes to ask for *)
Definition system_close : FileClose st := {|
  fclose file := match operation close file with Some r => r file | None => fail NullPointer end;
  fino_size file :=
    match Fs.fs file with
    | Some k => option_map (λ r, r file) (ino_size (filesystem k))
    | None => Some (fail NullPointer)
    end;
|}.

(** an operation that opens files, of the tables that have one *)
Definition opening (t : bool → fs_t st) (bplan : bool) : open_fn F (statics FS) :=
  match open (t bplan) with Some o => o | None => λ _ _ _, fail NullPointer end.
End system.

(** [yaboot_start(r3, r4, r5)], with the entry of the firmware in [r5]: the program from the
    state [s] of a machine that has just loaded it *)
Definition program {F : Type} `{Firmware F} {FS : Type} `{!Ext2.Libext2 (Ext2.est F FS) FS}
    (low stack : list Z) (fuel : nat) (local_file : boot_file) (stack_li : loadinfo)
    (run_kernel : Z → Z → Z → fstate F (statics FS) → option (fstate F (statics FS)))
    : stm (ystate F (statics FS)) fault (option Z) := λ s,
  let x := y_fs s in
  let '(env, _, _, f) := Client.prom_init (pfw (f_base x)) in
  yaboot_start (H0 := system_access env low stack fuel) (H1 := system_close env low stack fuel) env low
    (opening (ext2_filesystem env low)) (opening (xfs_filesystem low stack fuel))
    (opening (reiserfs_filesystem env low stack fuel)) fuel local_file stack_li run_kernel
    (YState (FState (set_fw f (f_base x)) (f_bufs x) (fserrorno x) (f_priv x)) (y_cfg s) (y_bufs s) (y_md5 s) (y_vars s)).

(** ** Opening a file on a partition *)

Section partition.
Context {F : Type} `{Firmware F} {X : Type}.
Context (env : prom_env) (low : list Z) (bplan : bool) (ext2 xfs reiserfs : open_fn F X).
Implicit Types s : fstate F X.

(** the partition with the number asked for is the first of the list that has it *)
Definition numbered (n : Z) (parts : list partition_t) : option partition_t := List.find (λ p, n =? part_number p) parts.

Lemma block_loop_numbered n parts p file fspec s : 0 <= n → numbered n parts = Some p →
  block_loop low bplan ext2 xfs reiserfs parts n file fspec s = (Ok (false, Some p, file), s).
Proof.
  intros Hn. unfold numbered. induction parts as [|q parts IH]; cbn [List.find block_loop]; [done|].
  rewrite (proj2 (Z.eqb_neq n (-1))), (proj2 (Z.leb_le 0 n)) by lia. cbn [andb].
  destruct (n =? part_number q); [by intros [= ->]|exact IH].
Qed.

(** a device with partitions: what [fs_open] makes of the partition is what [open_file]
    returns *)
Lemma open_file_partition fuel spec file d parts p b f s k file' s' :
  dev spec = Some d → 0 <= part spec → prom_get_devtype env d (pfw (f_base s)) = (Some FILE_DEVICE_BLOCK, f) →
  partitions_lookup env fuel bplan d (set_fw f (f_base s)) = (Ok parts, b) → numbered (part spec) parts = Some p →
  fs_open low bplan ext2 xfs reiserfs (set_device_kind FILE_DEVICE_BLOCK (set_fs (Some FsDefault) file)) (Some p) spec
    (FState b (f_bufs s) (fserrorno s) (f_priv s)) = (Ok (k, file'), s') →
  open_file env low bplan ext2 xfs reiserfs fuel spec file s = (Ok (fserrorno s', set_fs k file'), s').
Proof.
  intros Hd Hn Hk Hp Hf E. unfold open_file. rewrite Hd. cbn [cstr]. unfold call, on_base. unfold mbind at 1, stm_bind at 1.
  rewrite Hk. change (negb (0 <? FILE_DEVICE_BLOCK)) with false. cbn iota.
  change ((FILE_DEVICE_BLOCK =? FILE_DEVICE_BLOCK) || _) with true. cbn iota. unfold file_block_open. rewrite Hd. cbn [cstr].
  set (file1 := set_device_kind _ _) in *. set (s1 := FState _ _ _ _).
  assert (on_base (partitions_lookup env fuel bplan d) s1 = (Ok parts, FState b (f_bufs s) (fserrorno s) (f_priv s))) as E1.
  { unfold on_base, s1. cbn [f_base]. by rewrite Hp. }
  rewrite (bind_ok _ _ _ _ _ E1), (bind_ok _ _ _ _ _ (block_loop_numbered _ _ p _ _ _ Hn Hf)). cbn iota.
  rewrite (bind_ok _ _ _ (set_fs k file') s'); [by rewrite gets_bind|]. by rewrite (bind_ok _ _ _ _ _ E).
Qed.

(** the file systems are asked in turn, and one that declines is passed over *)
Lemma open_first_declined k o l file part fspec file1 s s1 :
  o file part fspec s = (Ok (FILE_ERR_BAD_FSYS, file1), s1) →
  open_first ((k, o) :: l) file part fspec s =
    open_first l file1 part fspec (FState (f_base s1) (f_bufs s1) FILE_ERR_BAD_FSYS (f_priv s1)).
Proof.
  intros E. cbn [open_first]. rewrite (bind_ok _ _ _ _ _ E). unfold set_errno, modify. by erewrite bind_ok by reflexivity.
Qed.

Lemma open_first_opened k o l file part fspec file1 r s s1 :
  o file part fspec s = (Ok (r, file1), s1) → r ≠ FILE_ERR_BAD_FSYS →
  open_first ((k, o) :: l) file part fspec s = (Ok (Some k, file1), FState (f_base s1) (f_bufs s1) r (f_priv s1)).
Proof.
  intros E Hr. cbn [open_first]. rewrite (bind_ok _ _ _ _ _ E). unfold set_errno, modify. erewrite bind_ok by reflexivity.
  by rewrite (proj2 (Z.eqb_neq _ _) Hr).
Qed.
End partition.

(** ** Files of XFS volumes *)

Section xfs_files.
Context {F : Type} `{Firmware F} {FS : Type} `{!Ext2.Libext2 (Ext2.est F FS) FS}.
Context (env : prom_env) (low stack : list Z) (fuel : nat).
Context (disk : Z) (inv : F → Prop) (data : list Z) `{!SeekDevice disk inv data}.
Context (poff : Z) (vol : Z → option Xfs.node) (on_disk : Xfs.xfs_volume poff data vol).
Context (claims : ∀ a n f, inv f → inv (prom_claim_chunk env a n f).2).
Notation st := (fstate F (statics FS)).
Implicit Types s : st.

Let g := Xfs.geometry_of (slice data poff Xfs.sizeof_sb).

(** the state of the reader *)
Definition xfs_view s : Xfs.xst F := Xfs.with_fw (st_xfs (f_priv s)) (pfw (f_base s)).

(** what a call of the reader makes of the state *)
Definition xfs_after s (x : Xfs.xst F) : st :=
  FState (set_fw (Xfs.x_fw x) (f_base s)) (f_bufs s) (fserrorno s)
    (Statics (st_ext2 (f_priv s)) (Xfs.with_fw x tt) (st_reiserfs (f_priv s))).

Lemma on_xfs_ok {A} (m : stm (Xfs.xst F) fault A) a x s : m (xfs_view s) = (Ok a, x) →
  Xfs.on_xfs m s = (Ok a, xfs_after s x).
Proof. intros E. unfold Xfs.on_xfs. cbn [Xfs.xfs_static statics_xfs]. fold (xfs_view s). by rewrite E. Qed.

Lemma xfs_view_after s x : xfs_view (xfs_after s x) = x.
Proof. by destruct x. Qed.

(** a file that lies in the extents [xs] *)
Record in_extents (xs : list Xfs.xad) (size : Z) : Prop := InExtents {
  ie_on : Forall (Xfs.extent_on g poff data) xs;
  ie_size : 0 <= size <= Xfs.blocks xs * Xfs.block_bytes g;
  ie_max : Xfs.blocks xs * Xfs.block_bytes g <= INT_MAX;
  ie_fuel : (length xs < fuel)%nat;
}.

Definition xfs_contents (xs : list Xfs.xad) (size : Z) : list Z := slice (Xfs.contents g poff data xs) 0 size.

(** [file] is open at position [p]: the reader is mounted and holds its inode *)
Definition xfs_at (xs : list Xfs.xad) (size : Z) s (file : boot_file) (p : Z) : Prop :=
  Fs.fs file = Some FsXfs ∧ of_device file = disk ∧ len file = size ∧ pos file = p ∧
  Xfs.ready disk inv g poff (xfs_view s) ∧ Xfs.listed (Xfs.inode_buf (xfs_view s)) xs.

Lemma length_extents xs s : Forall (Xfs.extent_on g poff data) xs → Xfs.listed (Xfs.inode_buf (xfs_view s)) xs →
  Z.of_nat (length (Xfs.contents g poff data xs)) = Xfs.blocks xs * Xfs.block_bytes g.
Proof.
  intros Hon (_ & _ & _ & Hok & _). apply Xfs.length_contents; [apply (Xfs.vol_blklog _ _ _ on_disk)| |done|done].
  apply (Xfs.vol_bounded _ _ _ on_disk).
Qed.

Lemma length_xfs_contents xs size s file p : in_extents xs size → xfs_at xs size s file p →
  Z.of_nat (length (xfs_contents xs size)) = size.
Proof.
  intros [Hon Hs _ _] (_ & _ & _ & _ & _ & Hl). unfold xfs_contents.
  pose proof (length_extents _ _ Hon Hl) as Hlen.
  rewrite length_slice; lia.
Qed.

(** the files of a volume are read faithfully *)
Lemma xfs_holds xs size : in_extents xs size →
  HoldsFile (H0 := system_access env low stack fuel) env (xfs_contents xs size) (xfs_at xs size).
Proof.
  intros Hx. split.
  - intros s file p q (Hfs & Hd & Hl & Hp & Hr & Hli) Hq. cbn [fseek system_access]. unfold operation. rewrite Hfs.
    cbn [filesystem seek xfs_filesystem Xfs.xfs_seek]. eexists _, s. split; [reflexivity|].
    exact (conj (conj Hfs (conj Hd (conj Hl (conj eq_refl (conj Hr Hli))))) eq_refl).
  - intros s file p n Hat Hp Hn Hin. rewrite (length_xfs_contents xs size s file p Hx Hat) in Hin.
    destruct Hat as (Hfs & Hd & Hl & Hpos & Hr & Hli). destruct Hx as [Hon Hs Hmax Hfuel].
    cbn [fread system_access]. unfold operation. rewrite Hfs. cbn [filesystem read xfs_filesystem].
    destruct (Xfs.xfs_read_ok disk inv data stack poff vol on_disk size xs file (xfs_view s) fuel p n
      (replicate (Z.to_nat n) 0)) as (file' & x & E & Hp' & Hr' & Hib & Hd' & Hl' & Hfs');
      [done|done|done|done|done|done|done|done|lia|done|rewrite length_replicate; lia|done|].
    assert (set_pos p file = file) as Ef by (destruct file; cbn in Hpos; by subst).
    rewrite Ef in E. unfold in_room. rewrite (bind_ok _ _ _ _ _ (on_xfs_ok _ _ _ _ E)).
    pose proof (length_extents _ _ Hon Hli) as Hlen. fold g.
    rewrite take_app_length' by (rewrite length_slice; lia).
    exists file', (xfs_after s x). split.
    { unfold xfs_contents. by rewrite slice_slice by lia. }
    split; [|done]. split; [by rewrite Hfs'|]. split; [done|]. split; [done|]. split; [done|].
    rewrite xfs_view_after, Hib. by split.
  - intros s file p b (Hfs & Hd & Hl & Hp & Hr & Hli) Hb. repeat (split; [done|]). cbn [f_base f_priv].
    destruct Hr as [(Hg & Ho & Hdv & Hi) Hlen]. split; [|exact Hli]. split; [|exact Hlen].
    repeat (split; [done|]). cbn. destruct Hb as [->|(a & n & ->)]; [exact Hi|by apply claims].
Qed.

(** closing one is closing the device *)
Lemma xfs_closes xs size : closes (H1 := system_close env low stack fuel) (xfs_at xs size).
Proof.
  intros x0 file p (Hfs & _) x. cbn [fclose system_close]. unfold operation. rewrite Hfs.
  cbn [filesystem close xfs_filesystem]. unfold result_of.
  assert (∃ r x', Xfs.xfs_close file (xfs_view x) = (Ok r, x')) as ([r file'] & x' & E).
  { unfold Xfs.xfs_close. destruct (of_device file =? 0); [by eexists _, _|].
    erewrite bind_ok by reflexivity. by eexists _, _. }
  rewrite (bind_ok _ _ _ _ _ (on_xfs_ok _ _ _ _ E)). by eexists _, _.
Qed.
End xfs_files.

(** ** From a volume to the kernel

    The parts together: the partition is found in the table of the disk, the file systems
    before XFS decline it, the path is followed on the volume, and the kernel is loaded from
    the extents of its file and entered. *)

(** what a path that leads nowhere is reported with is not the error of a file system that
    does not know the partition *)
Lemma resolve_known vol comps : ∀ i e, Xfs.resolve vol i comps = Xfs.NotFound e → e ≠ FILE_ERR_BAD_FSYS.
Proof.
  induction comps as [|c comps IH]; intros i e; cbn [Xfs.resolve].
  - destruct (vol i) as [[]|]; intros ?; by simplify_eq.
  - destruct (vol i) as [[es|size xs]|]; [|intros ?; by simplify_eq..].
    destruct (Xfs.dir_lookup _ _) as [j|]; [apply IH|intros ?; by simplify_eq].
Qed.

Section from_volume.
Context {F : Type} `{Firmware F} {FS : Type} `{!Ext2.Libext2 (Ext2.est F FS) FS}.
Context (env : prom_env) (low stack : list Z) (machine : Z) (fuel : nat).
Context (disk : Z) (inv : F → Prop) (data : list Z) `{!SeekDevice disk inv data}.
Context (poff : Z) (vol : Z → option Xfs.node) (on_disk : Xfs.xfs_volume poff data vol).
Notation st := (fstate F (statics FS)).
Implicit Types s : st.

Let g := Xfs.geometry_of (slice data poff Xfs.sizeof_sb).
Let plan := machine =? _MACH_bplan.
Let open_ext2 := opening (ext2_filesystem env low) plan.
Let open_xfs := opening (xfs_filesystem (FS := FS) low stack fuel) plan.
Let open_reiserfs := opening (reiserfs_filesystem (FS := FS) env low stack fuel) plan.

(** [spec] names a path of the volume, on a numbered partition of a disk that starts at
    [poff]; the swap checker and ext2 decline the partition, and leave the state [s'] *)
Record names_volume (spec : boot_fspec) (comps : list (nat * list Z)) (file : boot_file) s s' : Prop := NamesVolume {
  nv_path : Devpath.file spec = Some (path_text comps) ∧ (length (path_text comps) < 1024)%nat ∧
    Forall (λ c, comp_ok c.2) comps ∧ (length comps + 260 <= fuel)%nat;
  nv_part : 0 <= part spec;
  nv_device : ∃ d f parts p b file1 s1 file2,
    dev spec = Some d ∧ cstr_ok d ∧ (length d < 1020)%nat ∧
    prom_get_devtype env d (pfw (f_base s)) = (Some FILE_DEVICE_BLOCK, f) ∧
    partitions_lookup env fuel plan d (set_fw f (f_base s)) = (Ok parts, b) ∧
    numbered (part spec) parts = Some p ∧ Xfs.part_offset (Some p) = poff ∧
    swap_open low plan (set_device_kind FILE_DEVICE_BLOCK (set_fs (Some FsDefault) file)) (Some p) spec
      (FState b (f_bufs s) (fserrorno s) (f_priv s)) = (Ok (FILE_ERR_BAD_FSYS, file1), s1) ∧
    open_ext2 file1 (Some p) spec (FState (f_base s1) (f_bufs s1) FILE_ERR_BAD_FSYS (f_priv s1)) =
      (Ok (FILE_ERR_BAD_FSYS, file2), s') ∧
    ∃ f', prom_open (Xfs.disk_name plan d) (pfw (f_base s')) = (disk, f') ∧ inv f';
  nv_valid : invalid_device disk = false;
  nv_bufs : Z.of_nat (length (Xfs.inode_buf (st_xfs (f_priv s')))) = Xfs.INODE_ROOM ∧
    length (Xfs.open_buffer (st_xfs (f_priv s'))) = 1024%nat;
}.

(** [open_file] gives what the path leads to on the volume *)
Lemma open_file_xfs spec comps file s s' : names_volume spec comps file s s' →
  ∃ e file' s2,
    open_file env low plan open_ext2 open_xfs open_reiserfs fuel spec file s = (Ok (e, file'), s2) ∧
    pheap (f_base s2) = pheap (f_base s') ∧
    match Xfs.resolve vol (Xfs.rootino g) (map snd comps) with
    | Xfs.NotFound err => e = err
    | Xfs.Found size xs =>
        e = FILE_ERR_OK ∧ xfs_at disk inv data poff xs size s2 file' 0 ∧
        ((length xs < fuel)%nat → in_extents fuel data poff xs size)
    end.
Proof.
  intros [(Hfile & Hpl & Hok & Hfuel) Hn
    (d & f & parts & p & b & file1 & s1 & file2 & Hd & Hdok & Hdl & Hk & Hparts & Hnum & Hoff & Hswap & Hext2 & f' & Hopen & Hf)
    Hvalid [Hib Hob]].
  set (s0 := FState (f_base s') (f_bufs s') FILE_ERR_BAD_FSYS (f_priv s')).
  destruct (Xfs.xfs_open_ok disk inv data low stack plan poff vol on_disk fuel file2 (Some p) spec d (path_text comps) comps
    (xfs_view s0) f') as (e & file3 & x & E & Hres); [done|done|done|done|done|done|done|done|done|done|done|done|done|done|].
  assert (e ≠ FILE_ERR_BAD_FSYS) as He.
  { fold g in Hres. destruct (Xfs.resolve vol (Xfs.rootino g) (map snd comps)) as [size xs|err] eqn:Er.
    - destruct Hres as [-> _]. done.
    - subst e. by apply (resolve_known _ _ _ _ Er). }
  pose proof (open_first_declined FsSwap (swap_open low plan)
    [(FsExt2, open_ext2); (FsXfs, open_xfs); (FsReiserfs, open_reiserfs); (FsOf, of_open low)] _ _ _ _ _ _ Hswap) as E1.
  rewrite (open_first_declined _ _ _ _ _ _ _ _ _ Hext2) in E1. fold s0 in E1.
  assert (open_xfs file2 (Some p) spec s0 = (Ok (e, file3), xfs_after s0 x)) as Ex by exact (on_xfs_ok _ _ _ s0 E).
  rewrite (open_first_opened FsXfs open_xfs _ _ _ _ _ _ _ _ Ex He) in E1.
  pose proof (open_file_partition env low plan open_ext2 open_xfs open_reiserfs fuel spec file d parts p b f s _ _ _
    Hd Hn Hk Hparts Hnum E1) as E2.
  eexists e, _, _. split; [exact E2|]. split; [done|]. fold g in Hres.
  destruct (Xfs.resolve vol (Xfs.rootino g) (map snd comps)) as [size xs|err]; [|done].
  destruct Hres as (-> & Hdev & Hpos & Hlen & Hready & Hl & Hon & Hsz & Hmax). split; [done|]. split.
  - split; [done|]. split; [done|]. split; [done|]. split; [done|]. by destruct x.
  - intros Hx. by split.
Qed.

Context (claims : ∀ a n f, inv f → inv (prom_claim_chunk env a n f).2) (run_kernel : Z → Z → Z → st → option st).

(** the kernel of the parameters is a file of the volume, there is no ramdisk, and memory
    for the table of segments of the format [c] *)
Record kernel_on_volume (p : boot_param) (comps : list (nat * list Z)) (xs : list Xfs.xad) (size : Z) (c : elf_format)
    (s : ystate F (statics FS)) : Prop := KernelOnVolume {
  kv_name : Devpath.file (kernel p) = Some (path_text comps);
  kv_place : blessed (cstr low (Devpath.file (boot (y_vars s)))) && no_root (path_text comps) = false;
  kv_rd : Devpath.file (rd p) = None;
  kv_found : Xfs.resolve vol (Xfs.rootino g) (map snd comps) = Xfs.Found size xs;
  kv_short : (length xs < fuel)%nat;
  kv_volume : ∃ s', names_volume (set_file (Some (path_text comps)) (kernel p)) comps cleared
      (y_fs (tell env (bs "Please wait, loading kernel..." ++ [10]) [] s).2) s' ∧
    (malloc (phdr_size c * e_phnum c (xfs_contents data poff xs size)) (pheap (f_base s'))).1 ≠ 0;
}.

Lemma boot_turn_xfs p comps xs size c loc li (s : ystate F (statics FS)) a :
  let contents := xfs_contents data poff xs size in
  yaboot_debug env = false → identified contents c li → length (elf li) = 64%nat →
  ident_size <= Z.of_nat (length contents) → loadable_file c contents (with_ident contents li) →
  kernel_on_volume p comps xs size c s → text low (args p) s = (Ok a, s) →
  ∃ li',
    (base li' = PROM_INVALID_HANDLE ∧
     ∃ y, boot_turn (H0 := system_access env low stack fuel) (H1 := system_close env low stack fuel) env low machine
       open_ext2 open_xfs open_reiserfs fuel run_kernel p loc li s = (Ok (true, loc, li'), y)) ∨
    (∃ x h y, kernel_in_memory contents c li li' x ∧ pfw (f_base x) = prom_setargs env a h ∧
     boot_turn (H0 := system_access env low stack fuel) (H1 := system_close env low stack fuel) env low machine
       open_ext2 open_xfs open_reiserfs fuel run_kernel p loc li s =
       match run_kernel (u32 (base li' + entry li' - load_loc li')) (u32 (load_loc li')) 0 x with
       | Some x' => (Ok (true, loc, li'), with_fs x' y)
       | None => (Ok (false, loc, li'), with_fs x y)
       end).
Proof.
  intros contents Hd Hid Hl Hlen Hf [Hname Hplace Hrd Hres Hshort (s' & Hv & Hm)] Ha.
  destruct (open_file_xfs _ _ _ _ _ Hv) as (e & file & s2 & E & Hheap & Hr). rewrite Hres in Hr.
  destruct Hr as (-> & Hat & Hx).
  pose proof (xfs_holds env low stack fuel disk inv data poff vol on_disk claims xs size (Hx Hshort)) as HF.
  apply (boot_turn_ok (H0 := system_access env low stack fuel) (H1 := system_close env low stack fuel) env low machine
    open_ext2 open_xfs open_reiserfs fuel run_kernel contents (xfs_at disk inv data poff xs size) (HF := HF) (path_text comps));
    [|done|done|done|done|done| |done].
  - apply xfs_closes.
  - split; [done|done|done|]. set (s1 := (tell _ _ _ _).2) in *.
    exists file, (YState s2 (y_cfg s1) (y_bufs s1) (y_md5 s1) (y_vars s1)). split; [|split].
    + apply on_fs_ok. exact E.
    + exact Hat.
    + cbn [y_fs]. by rewrite Hheap.
Qed.
End from_volume.

(** ** Properties *)

(** C3: a kernel on an XFS volume of a partitioned disk, with nothing assumed of the file
    but where its bytes are: when the partition is in the table, the checkers before XFS
    decline it, the path leads to the file and its extents hold a loadable kernel, one turn
    of the main loop enters the kernel at its entry point with every segment at its place in
    memory and its arguments set, or the claim of memory failed. *)
Theorem xfs_kernel_entered {F} `{Firmware F} {FS} `{!Ext2.Libext2 (Ext2.est F FS) FS} env low stack machine fuel
    disk (inv : F → Prop) data `{!SeekDevice disk inv data} poff vol run_kernel p comps xs size c loc li
    (s : ystate F (statics FS)) a :
  let contents := xfs_contents data poff xs size in
  let plan := machine =? _MACH_bplan in
  let turn := boot_turn (H0 := system_access env low stack fuel) (H1 := system_close env low stack fuel) env low machine
    (opening (ext2_filesystem env low) plan) (opening (xfs_filesystem low stack fuel) plan)
    (opening (reiserfs_filesystem env low stack fuel) plan) fuel run_kernel p loc li in
  Xfs.xfs_volume poff data vol → (∀ a n f, inv f → inv (prom_claim_chunk env a n f).2) →
  yaboot_debug env = false → identified contents c li → length (elf li) = 64%nat →
  ident_size <= Z.of_nat (length contents) → loadable_file c contents (with_ident contents li) →
  kernel_on_volume env low machine fuel disk inv data poff vol p comps xs size c s →
  text low (args p) s = (Ok a, s) →
  ∃ li',
    (base li' = PROM_INVALID_HANDLE ∧ ∃ y, turn s = (Ok (true, loc, li'), y)) ∨
    (∃ x h y, kernel_in_memory contents c li li' x ∧ pfw (f_base x) = prom_setargs env a h ∧
     turn s =
       match run_kernel (u32 (base li' + entry li' - load_loc li')) (u32 (load_loc li')) 0 x with
       | Some x' => (Ok (true, loc, li'), with_fs x' y)
       | None => (Ok (false, loc, li'), with_fs x y)
       end).
Proof.
  cbv zeta. intros Hvol Hclaims.
  pose proof (boot_turn_xfs env low stack machine fuel disk inv data poff vol Hvol Hclaims run_kernel p comps xs size c loc
    li s a) as Hr. cbv zeta in Hr. exact Hr.
Qed.

(** ** A disk with a kernel

    A Macintosh map of two entries, the second an XFS volume of 12 blocks of 512 bytes with
    the kernel in its root. *)

Definition volume_root : list (list Z * Z) := [(bs "vmlinux", 18)].
Definition volume_kernel : list Xfs.xad := [Xfs.Xad 0 10 1].

Definition volume_disk : list Z :=
  block_of 512 (put_be16 17746 ++ put_be16 512) ++ mac_block 2 1 63 "Apple" "Apple_partition_map" ++
  mac_block 2 3 12 "linux" "Apple_UNIX_SVR2" ++
  Disk.layout 6144 [(0, Xfs.example_super); (4096, Xfs.example_dir 16 volume_root);
    (4608, Xfs.example_file (Z.of_nat (length Elf.kernel)) volume_kernel); (5120, Elf.kernel)].

Definition volume_nodes : list (Z * Xfs.node) :=
  [(16, Xfs.Directory volume_root); (18, Xfs.Regular (Z.of_nat (length Elf.kernel)) volume_kernel)].

#[local] Existing Instances Xfs.node_on_dec Xfs.entries_in_dec.

Lemma volume_on_disk : Xfs.xfs_volume 1536 volume_disk (Xfs.vol_of volume_nodes).
Proof.
  split; try by_decision.
  - intros ino n Hn. apply Xfs.vol_of_elem in Hn.
    assert (Forall (λ x, Xfs.node_on (Xfs.geometry_of (slice volume_disk 1536 Xfs.sizeof_sb)) 1536 volume_disk x.1 x.2)
              volume_nodes) as Hall by by_decision.
    rewrite Forall_forall in Hall. by apply (Hall (ino, n)).
  - apply Xfs.closed_list. by_decision.
Qed.

(** the firmware whose devices are disks reads them as that of the image *)
Lemma disk_retry tries file n (f : Disk.image) :
  read_retry (H := disk_firmware) tries file n f = read_retry (H := image_firmware) tries file n f.
Proof.
  revert f. induction tries as [|tries IH]; intros f; [done|]. cbn [read_retry]. cbn [of_read of_interpret disk_firmware].
  destruct (Prom.of_read file n f) as [[r b] f1]. destruct (negb _); [done|apply IH].
Qed.

#[export] Instance disk_seeks disk data : Z.of_nat (length data) < 18446744073709551616 →
  SeekDevice (H := disk_firmware) disk (of_image data) data.
Proof.
  intros Hd. split. intros f p n Hf Hp Hn Hin.
  destruct (sd_range (SeekDevice := image_seeks disk data Hd) f p n Hf Hp Hn Hin) as (r & f1 & f2 & E1 & Hr & E2 & Hf2).
  exists r, f1, f2. split; [exact E1|]. split; [exact Hr|]. split; [|exact Hf2].
  rewrite <- E2. unfold prom_read. by rewrite disk_retry.
Qed.

Lemma disk_puts data file t (f : Disk.image) : of_image data f → of_image data (prom_puts (H := disk_firmware) file t f).
Proof.
  unfold prom_puts. destruct (puts_writes _ t) as [ws| |]; [|done|done].
  revert f. induction ws as [|w ws IH]; intros f Hf; simpl; [done|]. by apply IH.
Qed.

Lemma image_claims data a n (f : Disk.image) : of_image data f →
  of_image data (prom_claim_chunk (H := disk_firmware) env1 a n f).2.
Proof.
  intros Hf. unfold prom_claim_chunk.
  assert (∀ k a, (claim_up (H := disk_firmware) env1 k a n f).2 = f) as Hup.
  { induction k as [|k IH]; intros b; cbn [claim_up]; [done|]. destruct (b <=? _); [|done].
    cbn [of_claim disk_firmware image_firmware]. destruct (b =? PROM_INVALID_HANDLE); [apply IH|done]. }
  specialize (Hup claim_fuel a). destruct (claim_up _ _ _ _ _) as [[r| |] f1]; cbn in Hup |- *; subst f1; try done.
  destruct (r =? PROM_INVALID_HANDLE); [|exact Hf].
  by apply disk_puts.
Qed.

(** a library that knows no volume *)
#[export] Instance no_ext2 : Ext2.Libext2 (Ext2.est Disk.image unit) unit := {|
  Ext2.fs_blocksize _ := 1024;
  Ext2.fs_io _ := Ext2.IoChannel 0 0 0;
  Ext2.ext2fs_open _ _ _ := mret (1, None);
  Ext2.ext2fs_namei_follow _ _ _ _ := mret (1, 0);
  Ext2.ext2fs_block_iterate _ _ _ := mret 0;
  Ext2.ext2fs_read_inode _ _ := mret (1, 0);
  Ext2.ext2fs_close _ := mret 0;
|}.

Definition no_file : boot_file := BFile None 0 0 0 0 None 0.

Definition statics0 : statics unit :=
  Statics (Ext2.ESt tt heap0 no_file false 0 0 0 None false 0 (replicate 1024 0) Ext2.example_range)
    (Xfs.XSt tt no_file (replicate 4096 0) (replicate 4096 0) (replicate (Z.to_nat Xfs.INODE_ROOM) 0) (replicate 1024 0) 0 0
       (Xfs.geometry_of []) (Xfs.Extents 0 0 0 false 0 0 0) (Xfs.Entries 0 0 0 0 0 0 None))
    (Reiserfs.RSt tt no_file [] [] (replicate 1024 0) 0 Reiserfs.small_volume Reiserfs.cursor0).

Definition volume_state : ystate Disk.image (statics unit) :=
  let s := ui0 (pfw (disk0 volume_disk 512)) cfg_initial in
  YState (FState (f_base (y_fs s)) (f_bufs (y_fs s)) (fserrorno (y_fs s)) statics0) (y_cfg s) (y_bufs s) (y_md5 s) (y_vars s).

(** what runs that end give, evaluated on their results and not on their states *)
Definition value {A S} (d : A) (r : result fault A * S) : A := match r.1 with Ok a => a | _ => d end.
Definition ended {A S} (r : result fault A * S) : bool := match r.1 with Ok _ => true | _ => false end.

Lemma ended_eq {A S} (d : A) (r : result fault A * S) : ended r = true → r = (Ok (value d r), r.2).
Proof. by destruct r as [[a| |] s]. Qed.

Lemma declined_eq {A S} (d : Z * A) (r : result fault (Z * A) * S) :
  ended r && ((value d r).1 =? FILE_ERR_BAD_FSYS) = true → r = (Ok (FILE_ERR_BAD_FSYS, (value d r).2), r.2).
Proof. destruct r as [[[e a]| |] s]; cbn; [|done..]. by intros ->%Z.eqb_eq. Qed.

Definition vmlinux : list (nat * list Z) := [(0%nat, bs "vmlinux")].

Lemma volume_named : kernel_on_volume (H := disk_firmware) env1 [] _MACH_chrp 300 7 (of_image volume_disk) volume_disk 1536
  (Xfs.vol_of volume_nodes) kernel_params vmlinux volume_kernel (Z.of_nat (length Elf.kernel)) elf32 volume_state.
Proof.
  set (spec := set_file (Some (path_text vmlinux)) (kernel kernel_params)).
  set (s := y_fs (tell (H := disk_firmware) env1 (bs "Please wait, loading kernel..." ++ [10]) [] volume_state).2).
  set (lookup := partitions_lookup (H := disk_firmware) env1 300 false (bs "hd") (f_base s)).
  set (p := Partition 2 (Some (bs "Apple_UNIX_SVR2" ++ [0])) (Some (bs "linux" ++ [0])) 3 12 512 0).
  set (swap := swap_open (H := disk_firmware) [] false (set_device_kind FILE_DEVICE_BLOCK (set_fs (Some FsDefault) cleared))
    (Some p) spec (FState lookup.2 (f_bufs s) (fserrorno s) (f_priv s))).
  set (ext2 := opening (ext2_filesystem (H := disk_firmware) env1 []) false (value (0, no_file) swap).2 (Some p) spec
    (FState (f_base swap.2) (f_bufs swap.2) FILE_ERR_BAD_FSYS (f_priv swap.2))).
  split; [reflexivity|reflexivity|reflexivity|vm_compute; reflexivity|by_decision|].
  exists ext2.2. split; [|by vm_compute].
  split; [|by_decision| |reflexivity|by_decision].
  - split; [reflexivity|]. split; [by_decision|]. split; by_decision.
  - exists (bs "hd"), (pfw (f_base s)), (value [] lookup), p, lookup.2, (value (0, no_file) swap).2, swap.2,
      (value (0, no_file) ext2).2.
    split; [reflexivity|]. split; [by_decision|]. split; [by_decision|]. split; [by vm_compute|].
    split; [apply ended_eq; by vm_compute|]. split; [by vm_compute|]. split; [by vm_compute|].
    split; [apply declined_eq; by vm_compute|]. split; [apply declined_eq; by vm_compute|].
    exists (pfw (f_base ext2.2)). split; [reflexivity|]. by_decision.
Qed.

Lemma xfs_kernel_entered_witness :
  let stop (_ _ _ : Z) (_ : fstate Disk.image (statics unit)) : option (fstate Disk.image (statics unit)) := None in
  let turn := boot_turn (H := disk_firmware) (H0 := system_access (H := disk_firmware) env1 [] [] 300)
    (H1 := system_close (H := disk_firmware) env1 [] [] 300) env1 [] _MACH_chrp
    (opening (ext2_filesystem (H := disk_firmware) env1 []) false) (opening (xfs_filesystem (H := disk_firmware) [] [] 300) false)
    (opening (reiserfs_filesystem (H := disk_firmware) env1 [] [] 300) false) 300 stop kernel_params 0 stack_info in
  ∃ li' x y, turn volume_state = (Ok (false, 0, li'), with_fs x y) ∧
    mem_load (mem (pheap (f_base x))) (base li') 5 = bs "hello" ∧
    mem_load (mem (pheap (f_base x))) (base li' + 16) 6 = bs "kernel".
Proof.
  intros stop turn.
  assert (xfs_contents volume_disk 1536 volume_kernel (Z.of_nat (length Elf.kernel)) = Elf.kernel) as Ek by (by vm_compute).
  destruct (xfs_kernel_entered (H := disk_firmware) env1 [] [] _MACH_chrp 300 7 (of_image volume_disk) volume_disk
    (SeekDevice0 := disk_seeks 7 volume_disk ltac:(by_decision)) 1536 (Xfs.vol_of volume_nodes) stop kernel_params vmlinux
    volume_kernel (Z.of_nat (length Elf.kernel)) elf32 0 stack_info volume_state (bs "root=/dev/hda3")) as (li' & Hr).
  - exact volume_on_disk.
  - intros a n f. apply image_claims.
  - reflexivity.
  - rewrite Ek. left. split; [reflexivity|]. by vm_compute.
  - reflexivity.
  - rewrite Ek. by_decision.
  - rewrite Ek. exact kernel_loads.
  - exact volume_named.
  - reflexivity.
  - rewrite Ek in Hr. destruct Hr as [(Hb & y & E)|(x & h & y & Hk & _ & E)].
    + exfalso. assert (match (turn volume_state).1 with Ok (on, _, _) => negb on | _ => false end = true) as Hc by (by vm_compute).
      change (turn volume_state = (Ok (true, 0, li'), y)) in E. rewrite E in Hc. discriminate.
    + exists li', x, y. split; [exact E|]. by apply kernel_text.
Defined.
