(* ===== verification/Addnote.v ===== *)
(** The host tool [util/addnote.c], which puts the two notes that the firmware of the
    RS/6000 looks for into the boot image, an ELF file: [main] and its macros.

    The state is the file, what a system call makes of it, and the buffer [buf] of the first
    512 bytes.  An access outside of [buf] is [Overrun]; [main] leaves by [Leave] where it
    returns early.  An [int] is 32 bits wide and wraps. *)
From S2P Require Import Prelude.

Definition E_IDENT : Z := 0.
Definition E_PHOFF : Z := 28.
Definition E_PHENTSIZE : Z := 42.
Definition E_PHNUM : Z := 44.
Definition E_HSIZE : Z := 52.
Definition EI_MAGIC : Z := 0.
Definition EI_CLASS : Z := 4.
Definition EI_DATA : Z := 5.
Definition PH_TYPE : Z := 0.
Definition PH_OFFSET : Z := 4.
Definition PH_FILESZ : Z := 16.
Definition PH_HSIZE : Z := 32.
Definition PT_NOTE : Z := 4.
Definition ELFCLASS32 : Z := 1.
Definition ELFDATA2MSB : Z := 2.
Definition elf_magic : list Z := [127; 69; 76; 70].

Definition arch : list Z := bs "PowerPC".
Definition N_DESCR : Z := 6.
Definition descr : list Z := [4294967295; 12582912; 4294967295; 4294967295; 4294967295; 16384].
Definition rpaname : list Z := bs "IBM,RPA-Client-Config".
Definition N_RPA_DESCR : Z := 8.
Definition rpanote : list Z := [0; 64; 0; 40; 1; u32 (-1); 0; 1].

Definition ROUNDUP (len : Z) : Z := Z.land (len + 3) (Z.lnot 3).

(** ** The state *)

(** the file named by the argument, [None] when it cannot be opened; whether it can be
    read; the bytes a write takes, negative when it fails; the text of the last error; and
    the position in the file, what was printed, and [buf] *)
Record host := Host {
  h_file : option (list Z);
  h_reads : bool;
  h_takes : Z;
  h_strerror : list Z;
  h_pos : Z;
  h_stderr : list Z;
  h_buf : list Z;
}.

(** [buf] is zero when the program starts *)
Definition sizeof_buf : Z := 512.
Definition start (file : option (list Z)) (reads : bool) (takes : Z) (strerror : list Z) : host :=
  Host file reads takes strerror 0 [] (replicate (Z.to_nat sizeof_buf) 0).

Definition with_file (f : list Z) (s : host) : host :=
  Host (Some f) (h_reads s) (h_takes s) (h_strerror s) (h_pos s) (h_stderr s) (h_buf s).
Definition with_pos (p : Z) (s : host) : host :=
  Host (h_file s) (h_reads s) (h_takes s) (h_strerror s) p (h_stderr s) (h_buf s).
Definition with_stderr (t : list Z) (s : host) : host :=
  Host (h_file s) (h_reads s) (h_takes s) (h_strerror s) (h_pos s) t (h_buf s).
Definition with_buf (b : list Z) (s : host) : host :=
  Host (h_file s) (h_reads s) (h_takes s) (h_strerror s) (h_pos s) (h_stderr s) b.

Inductive stop := Leave (code : Z) | Undefined (f : fault).
Notation M := (stm host stop).

Definition fprintf (t : list Z) : M unit := modify (λ s, with_stderr (h_stderr s ++ t) s).
Definition perror (t : list Z) : M unit :=
  modify (λ s, with_stderr (h_stderr s ++ t ++ bs ": " ++ h_strerror s ++ [10]) s).

Definition open : M Z := λ s,
  (Ok (match h_file s with Some _ => 3 | None => -1 end), with_pos 0 s).
Definition contents (s : host) : list Z := default [] (h_file s).
Definition read (n : Z) : M Z := λ s,
  if negb (h_reads s) then (Ok (-1), s)
  else
    let b := slice (contents s) (h_pos s) n in
    (Ok (Z.of_nat (length b)), with_pos (h_pos s + Z.of_nat (length b)) (with_buf (store (h_buf s) 0 b) s)).
Definition lseek (p : Z) : M unit := modify (with_pos p).
Definition write (n : Z) : M Z := λ s,
  if h_takes s <? 0 then (Ok (-1), s)
  else
    let b := slice (h_buf s) 0 (Z.min n (h_takes s)) in
    (Ok (Z.of_nat (length b)),
     with_pos (h_pos s + Z.of_nat (length b)) (with_file (store (contents s) (h_pos s) b) s)).

(** ** The buffer *)

Definition in_buf (i : Z) : bool := (0 <=? i) && (i <? sizeof_buf).
Definition get (i : Z) : M Z := λ s,
  if in_buf i then (Ok (byte_at (h_buf s) i), s) else (Err (Undefined Overrun), s).
Definition put (i v : Z) : M unit := λ s,
  if in_buf i then (Ok tt, with_buf (store (h_buf s) i [u8 v]) s) else (Err (Undefined Overrun), s).

Definition GET_16BE (off : Z) : M Z :=
  h ← get off; l ← get (s32 (off + 1)); mret (Z.shiftl h 8 + l).
Definition GET_32BE (off : Z) : M Z :=
  h ← GET_16BE off; l ← GET_16BE (s32 (off + 2)); mret (s32 (Z.shiftl h 16 + l)).
Definition PUT_16BE (off v : Z) : M unit :=
  put off (Z.land (Z.shiftr v 8) 255);; put (s32 (off + 1)) (Z.land v 255).
Definition PUT_32BE (off v : Z) : M unit :=
  PUT_16BE off (Z.shiftr v 16);; PUT_16BE (s32 (off + 2)) v.

(** [strcpy], with the terminator *)
Fixpoint copy (off : Z) (l : list Z) : M unit :=
  match l with
  | [] => mret tt
  | b :: r => put off b;; copy (off + 1) r
  end.
Definition strcpy (off : Z) (t : list Z) : M unit := copy off (t ++ [0]).

(** [for (i = 0; i < N; ++i, ns += 4) PUT_32BE(ns, v[i]);], which leaves [ns] *)
Fixpoint put_words (ns : Z) (l : list Z) : M Z :=
  match l with
  | [] => mret ns
  | v :: r => PUT_32BE ns v;; put_words (ns + 4) r
  end.

(** ** The program *)

Definition nnote : Z := 12 + ROUNDUP (Z.of_nat (length arch) + 1) + N_DESCR * 4.
Definition nnote2 : Z := 12 + ROUNDUP (Z.of_nat (length rpaname) + 1) + N_RPA_DESCR * 4.

Definition leave {A} (code : Z) : M A := fail (Leave code).
Definition notelf {A} (name : list Z) : M A :=
  fprintf (name ++ bs " does not appear to be an ELF file" ++ [10]);; leave 1.
Definition nospace {A} (name : list Z) : M A :=
  fprintf (bs "sorry, I can't find space in " ++ name ++ bs " to put the note" ++ [10]);; leave 1.

(** the headers there are, none of which may be a note; leaves [ph] behind them *)
Fixpoint scan_headers (name : list Z) (np : nat) (ps ph : Z) : M Z :=
  match np with
  | O => mret ph
  | S np' =>
      t ← GET_32BE (s32 (ph + PH_TYPE));
      if t =? PT_NOTE then fprintf (name ++ bs " already has a note entry" ++ [10]);; leave 0
      else scan_headers name np' ps (s32 (ph + ps))
  end.

(** the area to use is zero *)
Fixpoint check_zero (name : list Z) (n : nat) (off : Z) : M unit :=
  match n with
  | O => mret tt
  | S n' => b ← get off; if negb (b =? 0) then nospace name else check_zero name n' (s32 (off + 1))
  end.

(** a program header of a note *)
Definition put_header (ph ns size : Z) : M unit :=
  PUT_32BE (s32 (ph + PH_TYPE)) PT_NOTE;;
  PUT_32BE (s32 (ph + PH_OFFSET)) ns;;
  PUT_32BE (s32 (ph + PH_FILESZ)) size.

(** the first words of a note and its name *)
Definition put_note (ns : Z) (name : list Z) (size type : Z) : M unit :=
  PUT_32BE ns (Z.of_nat (length name) + 1);;
  PUT_32BE (ns + 4) size;;
  PUT_32BE (ns + 8) type;;
  strcpy (ns + 12) name.

Definition put_notes (ph ps : Z) : M unit :=
  let ns := s32 (ph + 2 * ps) in
  put_header ph ns nnote;;
  put_note ns arch (N_DESCR * 4) 4725;;
  ns ← put_words (s32 (ns + (12 + Z.of_nat (length arch) + 1))) descr;
  put_header (s32 (ph + ps)) ns nnote2;;
  put_note ns rpaname (N_RPA_DESCR * 4) 309696921;;
  put_words (s32 (ns + (12 + ROUNDUP (Z.of_nat (length rpaname) + 1)))) rpanote;;
  mret tt.

Definition write_back (name : list Z) (n : Z) : M Z :=
  lseek 0;;
  i ← write n;
  if i <? 0 then perror (bs "write");; mret 1
  else if i <? n then fprintf (name ++ bs ": write truncated" ++ [10]);; mret 1
  else mret 0.

Definition add_notes (name : list Z) (n : Z) : M Z :=
  m0 ← get (E_IDENT + EI_MAGIC);
  m1 ← get (E_IDENT + EI_MAGIC + 1);
  m2 ← get (E_IDENT + EI_MAGIC + 2);
  m3 ← get (E_IDENT + EI_MAGIC + 3);
  if (n <? E_HSIZE) || negb (bool_decide ([m0; m1; m2; m3] = elf_magic)) then notelf name
  else
    class ← get (E_IDENT + EI_CLASS);
    data ← get (E_IDENT + EI_DATA);
    if negb (class =? ELFCLASS32) || negb (data =? ELFDATA2MSB) then
      fprintf (name ++ bs " is not a big-endian 32-bit ELF image" ++ [10]);; leave 1
    else
      ph ← GET_32BE E_PHOFF;
      ps ← GET_16BE E_PHENTSIZE;
      np ← GET_16BE E_PHNUM;
      if (ph <? E_HSIZE) || (ps <? PH_HSIZE) || (np <? 1) then notelf name
      else if n <? s32 (ph + (np + 2) * ps + nnote + nnote2) then nospace name
      else
        ph ← scan_headers name (Z.to_nat np) ps ph;
        check_zero name (Z.to_nat (2 * ps + nnote + nnote2)) ph;;
        put_notes ph ps;;
        PUT_16BE E_PHNUM (np + 2);;
        write_back name n.

Definition run (av : list (list Z)) : M Z :=
  let name := nth 1 av [] in
  if negb (Z.of_nat (length av) =? 2) then
    fprintf (bs "Usage: " ++ nth 0 av [] ++ bs " elf-file" ++ [10]);; leave 1
  else
    fd ← open;
    if fd <? 0 then perror name;; leave 1
    else
      n ← read sizeof_buf;
      if n <? 0 then perror (bs "read");; leave 1
      else add_notes name n.

(** [main]: the code it returns *)
Definition main (av : list (list Z)) (s : host) : result fault Z * host :=
  match run av s with
  | (Ok c, s') => (Ok c, s')
  | (Err (Leave c), s') => (Ok c, s')
  | (Err (Undefined f), s') => (Err f, s')
  | (Fuel, s') => (Fuel, s')
  end.

(** ** Buffers *)



Lemma put_be32_are_bytes v : are_bytes (put_be32 v).
Proof. unfold put_be32. repeat constructor; apply u8_range. Qed.

(** ** The operations on the buffer *)

(** [buf] holds [b] *)
Definition holds (b : list Z) (s : host) : Prop := h_buf s = b ∧ length b = 512%nat.

Lemma in_buf_true i : 0 <= i < 512 → in_buf i = true.
Proof. unfold in_buf, sizeof_buf. intros. by rewrite (proj2 (Z.leb_le _ _)), (proj2 (Z.ltb_lt _ _)) by lia. Qed.

Lemma s32_int i : 0 <= i < 65536 → s32 i = i.
Proof. intros. apply s32_small. unfold INT_MIN, INT_MAX. lia. Qed.

Lemma get_ok i s : 0 <= i < 512 → get i s = (Ok (byte_at (h_buf s) i), s).
Proof. intros. unfold get. by rewrite in_buf_true. Qed.

Lemma put_ok i v b s : holds b s → 0 <= i < 512 → put i v s = (Ok tt, with_buf (store b i [u8 v]) s).
Proof. intros [<- _] Hi. unfold put. by rewrite in_buf_true. Qed.

Lemma holds_store b s i v : holds b s → 0 <= i → i + Z.of_nat (length v) <= 512 →
  holds (store b i v) (with_buf (store b i v) s).
Proof. intros [<- Hl] ??. split; [done|]. rewrite length_store; lia. Qed.

Lemma GET_16BE_ok i s : 0 <= i <= 510 → GET_16BE i s = (Ok (be16 (h_buf s) i), s).
Proof.
  intros Hi. unfold GET_16BE. rewrite (bind_ok _ _ _ _ _ (get_ok i s ltac:(lia))), s32_int by lia.
  rewrite (bind_ok _ _ _ _ _ (get_ok (i + 1) s ltac:(lia))). unfold be16. by rewrite Z.shiftl_mul_pow2 by lia.
Qed.

Lemma GET_32BE_ok i s : 0 <= i <= 508 → GET_32BE i s = (Ok (s32 (be32 (h_buf s) i)), s).
Proof.
  intros Hi. unfold GET_32BE. rewrite (bind_ok _ _ _ _ _ (GET_16BE_ok i s ltac:(lia))), s32_int by lia.
  rewrite (bind_ok _ _ _ _ _ (GET_16BE_ok (i + 2) s ltac:(lia))). unfold mret, stm_ret. do 3 f_equal.
  rewrite Z.shiftl_mul_pow2 by lia. unfold be32, be16. change (2 ^ 16) with 65536.
  replace (i + 2 + 1) with (i + 3) by lia. lia.
Qed.

Lemma u8_land v : u8 (Z.land v 255) = u8 v.
Proof. rewrite land_255. words. by rewrite Z.mod_mod. Qed.

Lemma PUT_16BE_ok i v b s : holds b s → 0 <= i <= 510 →
  PUT_16BE i v s = (Ok tt, with_buf (store b i (put_be16 v)) s).
Proof.
  intros Hb Hi. unfold PUT_16BE. rewrite (bind_ok _ _ _ _ _ (put_ok i _ _ _ Hb ltac:(lia))), s32_int by lia.
  rewrite (put_ok (i + 1) _ _ _ (holds_store _ _ i [_] Hb ltac:(lia) ltac:(simpl; lia))) by lia.
  change (i + 1) with (i + Z.of_nat (length [u8 (Z.land (Z.shiftr v 8) 255)])).
  destruct Hb as [_ Hl]. rewrite store_store by (simpl; lia). rewrite !u8_land, Z.shiftr_div_pow2 by lia. done.
Qed.

Lemma PUT_32BE_ok i v b s : holds b s → 0 <= i <= 508 →
  PUT_32BE i v s = (Ok tt, with_buf (store b i (put_be32 v)) s).
Proof.
  intros Hb Hi. unfold PUT_32BE. rewrite (bind_ok _ _ _ _ _ (PUT_16BE_ok i _ _ _ Hb ltac:(lia))), s32_int by lia.
  rewrite (PUT_16BE_ok (i + 2) _ _ _ (holds_store _ _ i (put_be16 _) Hb ltac:(lia) ltac:(simpl; lia))) by lia.
  change (i + 2) with (i + Z.of_nat (length (put_be16 (Z.shiftr v 16)))).
  destruct Hb as [_ Hl]. rewrite store_store by (simpl; lia). rewrite Z.shiftr_div_pow2 by lia.
  unfold put_be16, put_be32. cbn [app]. change (2 ^ 16) with 65536. by rewrite Z.div_div by lia.
Qed.

Definition words (l : list Z) : list Z := concat (map put_be32 l).

Lemma length_words l : Z.of_nat (length (words l)) = 4 * Z.of_nat (length l).
Proof. unfold words. induction l as [|v l IH]; [done|]. cbn [map concat]. rewrite length_app. simpl length in *. lia. Qed.

Lemma put_words_ok l : ∀ i b s, holds b s → 0 <= i → i + 4 * Z.of_nat (length l) <= 512 →
  put_words i l s = (Ok (i + 4 * Z.of_nat (length l)), with_buf (store b i (words l)) s).
Proof.
  induction l as [|v l IH]; intros i b s Hb Hi Hl; cbn [put_words].
  - destruct Hb as [<- _]. cbn [words map concat]. rewrite store_nil. simpl length.
    unfold mret, stm_ret. destruct s. do 2 f_equal. lia.
  - cbn [length] in Hl. rewrite (bind_ok _ _ _ _ _ (PUT_32BE_ok i v _ _ Hb ltac:(lia))).
    rewrite (IH (i + 4) _ _ (holds_store _ _ i (put_be32 v) Hb ltac:(lia) ltac:(simpl; lia))) by lia.
    change (i + 4) with (i + Z.of_nat (length (put_be32 v))) at 2.
    destruct Hb as [_ Hb]. rewrite store_store by (simpl; lia). 
    cbn [length]. by replace (i + 4 + 4 * Z.of_nat (length l)) with (i + 4 * Z.of_nat (S (length l))) by lia.
Qed.

Lemma copy_stores l : ∀ i b s, are_bytes l → holds b s → 0 <= i → i + Z.of_nat (length l) <= 512 →
  copy i l s = (Ok tt, with_buf (store b i l) s).
Proof.
  induction l as [|v l IH]; intros i b s Hv Hb Hi Hl; cbn [copy].
  - destruct Hb as [<- _]. rewrite store_nil. by destruct s.
  - cbn [length] in Hl. apply Forall_cons in Hv as [Hv Hr].
    rewrite (bind_ok _ _ _ _ _ (put_ok i v _ _ Hb ltac:(lia))), u8_small by exact Hv.
    rewrite (IH (i + 1) _ _ Hr (holds_store _ _ i [v] Hb ltac:(lia) ltac:(simpl; lia))) by lia.
    change (i + 1) with (i + Z.of_nat (length [v])). destruct Hb as [_ Hb]. rewrite store_store by (simpl; lia). done.
Qed.

(** ** The specification

    The program headers of an image, and the reading of a note. *)

Definition phoff (b : list Z) : Z := be32 b E_PHOFF.
Definition phentsize (b : list Z) : Z := be16 b E_PHENTSIZE.
Definition phnum (b : list Z) : Z := be16 b E_PHNUM.
Definition header_at (b : list Z) (i : Z) : Z := phoff b + i * phentsize b.
Definition headers (b : list Z) : list (list Z) :=
  map (λ i, slice b (header_at b i) (phentsize b)) (seqZ 0 (phnum b)).

(** the header of a note of [n] bytes at [o] *)
Definition note_header (size o n : Z) : list Z :=
  put_be32 PT_NOTE ++ put_be32 o ++ replicate 8 0 ++ put_be32 n ++ replicate (Z.to_nat (size - 20)) 0.

(** the name, the type and the words of a note: the sizes of the name and of the words, the
    type, the name with its terminator up to a multiple of 4, and the words *)
Definition parse_note (b : list Z) : option (list Z * Z * list Z) :=
  let namesz := be32 b 0 in
  let descsz := be32 b 4 in
  let at_ := 12 + 4 * ((namesz + 3) / 4) in
  if bool_decide (Z.of_nat (length b) = at_ + descsz) && (byte_at b (12 + namesz - 1) =? 0) then
    Some (slice b 12 (namesz - 1), be32 b 8, map (λ i, be32 b (at_ + 4 * i)) (seqZ 0 (descsz / 4)))
  else None.

(** the bytes of [buf] that are read *)
Definition head_size (b : list Z) : Z := Z.min 512 (Z.of_nat (length b)).

(** an image that notes can be added to *)
Definition fits (b : list Z) : Prop :=
  are_bytes b ∧ slice b 0 6 = elf_magic ++ [ELFCLASS32; ELFDATA2MSB] ∧ E_HSIZE <= Z.of_nat (length b) ∧
  E_HSIZE <= phoff b ∧ PH_HSIZE <= phentsize b ∧ 1 <= phnum b ∧
  header_at b (phnum b + 2) + 112 <= head_size b ∧
  Forall (λ i, be32 b (header_at b i) ≠ PT_NOTE) (seqZ 0 (phnum b)) ∧
  slice b (header_at b (phnum b)) (2 * phentsize b + 112) = replicate (Z.to_nat (2 * phentsize b + 112)) 0.

#[export] Instance fits_dec b : Decision (fits b).
Proof. unfold fits. apply _. Defined.

(** the bytes that adding the notes changes *)
Definition touched (b : list Z) (i : Z) : Prop :=
  E_PHNUM <= i < E_PHNUM + 2 ∨
  header_at b (phnum b) <= i < header_at b (phnum b) + 2 * phentsize b + 112.

(** ** The steps of the program *)

Lemma scan_headers_ok name ps n : ∀ ph s, 0 <= ps → 0 <= ph → ph + Z.of_nat n * ps <= 508 →
  are_bytes (h_buf s) → (∀ i, 0 <= i < Z.of_nat n → be32 (h_buf s) (ph + i * ps) ≠ PT_NOTE) →
  ∀ k, scan_headers name (n + k) ps ph s = scan_headers name k ps (ph + Z.of_nat n * ps) s.
Proof.
  induction n as [|n IH]; intros ph s Hps Hph Hin Hb Hno k; [cbn [plus]; f_equal; lia|].
  cbn [plus scan_headers]. change PH_TYPE with 0. rewrite Z.add_0_r.
  assert (0 <= Z.of_nat n * ps) by (apply Z.mul_nonneg_nonneg; lia).
  assert (Z.of_nat (S n) * ps = Z.of_nat n * ps + ps) as Es by lia.
  rewrite !s32_int by lia. rewrite (bind_ok _ _ _ _ _ (GET_32BE_ok ph s ltac:(lia))).
  rewrite (proj2 (Z.eqb_neq _ PT_NOTE)).
  - rewrite IH; [f_equal; lia|lia..|done|]. intros i Hi. specialize (Hno (i + 1)).
    replace (ph + ps + i * ps) with (ph + (i + 1) * ps) by lia. apply Hno. lia.
  - specialize (Hno 0). rewrite Z.mul_0_l, Z.add_0_r in Hno. pose proof (be32_range (h_buf s) ph Hb).
    unfold PT_NOTE, s32 in *. rewrite u32_small by lia. destruct (Z.ltb_spec (be32 (h_buf s) ph) 2147483648); lia.
Qed.

Lemma check_zero_ok name n : ∀ off s, 0 <= off → off + Z.of_nat n <= 512 →
  slice (h_buf s) off (Z.of_nat n) = replicate n 0 → check_zero name n off s = (Ok tt, s).
Proof.
  induction n as [|n IH]; intros off s Ho Hin Hz; [done|]. cbn [check_zero].
  rewrite (bind_ok _ _ _ _ _ (get_ok off s ltac:(lia))), s32_int by lia.
  replace (Z.of_nat (S n)) with (1 + Z.of_nat n) in Hz by lia. rewrite slice_app in Hz by lia.
  assert (slice (h_buf s) off 1 = [0] ∧ slice (h_buf s) (off + 1) (Z.of_nat n) = replicate n 0) as [H0 Hr].
  { change (replicate (S n) 0) with ([0] ++ replicate n 0) in Hz. apply app_inj_2 in Hz; [done|].
    assert (length (slice (h_buf s) off 1 ++ slice (h_buf s) (off + 1) (Z.of_nat n)) = S n) as Hl
      by (rewrite Hz; cbn [app length]; by rewrite length_replicate).
    rewrite length_replicate. unfold slice. rewrite length_take, length_drop, Nat2Z.id.
    unfold slice in Hl. rewrite length_app, !length_take, !length_drop, Nat2Z.id in Hl. lia. }
  assert (byte_at (h_buf s) off = 0) as ->.
  { rewrite <- (Z.add_0_r off), <- (byte_at_slice (h_buf s) off 1) by lia. by rewrite H0. }
  apply IH; [lia..|done].
Qed.

(** the two stores of a header and the bytes of the notes *)
Definition header_put (b : list Z) (ph o n : Z) : list Z :=
  store (store (store b ph (put_be32 PT_NOTE)) (ph + 4) (put_be32 o)) (ph + 16) (put_be32 n).

Definition note1 : list Z :=
  put_be32 8 ++ put_be32 24 ++ put_be32 4725 ++ (arch ++ [0]) ++ words descr.
Definition note2_head : list Z := put_be32 22 ++ put_be32 32 ++ put_be32 309696921 ++ (rpaname ++ [0]).

Definition noted (b : list Z) (ph ps : Z) : list Z :=
  let b := header_put b ph (ph + 2 * ps) 44 in
  let b := store b (ph + 2 * ps) note1 in
  let b := header_put b (ph + ps) (ph + 2 * ps + 44) 68 in
  let b := store b (ph + 2 * ps + 44) note2_head in
  store b (ph + 2 * ps + 44 + 36) (words rpanote).

Lemma with_buf_twice b b' s : with_buf b (with_buf b' s) = with_buf b s.
Proof. done. Qed.

Lemma put_header_ok ph o n b s : holds b s → 0 <= ph → ph + 20 <= 512 →
  put_header ph o n s = (Ok tt, with_buf (header_put b ph o n) s) ∧ holds (header_put b ph o n) (with_buf (header_put b ph o n) s).
Proof.
  intros Hb Hph Hin. unfold put_header, PH_TYPE, PH_OFFSET, PH_FILESZ. rewrite !s32_int, Z.add_0_r by lia.
  pose proof (holds_store _ _ ph (put_be32 PT_NOTE) Hb ltac:(lia) ltac:(simpl; lia)) as H1.
  pose proof (holds_store _ _ (ph + 4) (put_be32 o) H1 ltac:(lia) ltac:(simpl; lia)) as H2.
  pose proof (holds_store _ _ (ph + 16) (put_be32 n) H2 ltac:(lia) ltac:(simpl; lia)) as H3.
  rewrite (bind_ok _ _ _ _ _ (PUT_32BE_ok ph _ _ _ Hb ltac:(lia))).
  rewrite (bind_ok _ _ _ _ _ (PUT_32BE_ok (ph + 4) _ _ _ H1 ltac:(lia))).
  rewrite (PUT_32BE_ok (ph + 16) _ _ _ H2 ltac:(lia)). split; [done|exact H3].
Qed.

Lemma put_note_ok ns name size type b s : are_bytes name → holds b s → 0 <= ns →
  ns + 12 + Z.of_nat (length name) + 1 <= 512 →
  let v := put_be32 (Z.of_nat (length name) + 1) ++ put_be32 size ++ put_be32 type ++ (name ++ [0]) in
  put_note ns name size type s = (Ok tt, with_buf (store b ns v) s) ∧ holds (store b ns v) (with_buf (store b ns v) s).
Proof.
  intros Hn Hb Hns Hin v. assert (Z.of_nat (length v) = 12 + Z.of_nat (length name) + 1) as Hv.
  { unfold v. rewrite !length_app. simpl length. lia. }
  split; [|apply holds_store; [done|lia..]].
  unfold put_note, strcpy. set (l := Z.of_nat (length name) + 1).
  pose proof (holds_store _ _ ns (put_be32 l) Hb ltac:(lia) ltac:(simpl; lia)) as H1.
  pose proof (holds_store _ _ (ns + 4) (put_be32 size) H1 ltac:(lia) ltac:(simpl; lia)) as H2.
  pose proof (holds_store _ _ (ns + 8) (put_be32 type) H2 ltac:(lia) ltac:(simpl; lia)) as H3.
  rewrite (bind_ok _ _ _ _ _ (PUT_32BE_ok ns _ _ _ Hb ltac:(lia))).
  rewrite (bind_ok _ _ _ _ _ (PUT_32BE_ok (ns + 4) _ _ _ H1 ltac:(lia))).
  rewrite (bind_ok _ _ _ _ _ (PUT_32BE_ok (ns + 8) _ _ _ H2 ltac:(lia))).
  rewrite (copy_stores (name ++ [0]) (ns + 12) _ _ ltac:(apply Forall_app_2; [done|repeat constructor; lia]) H3)
    by (rewrite ?length_app; simpl length; lia).
  destruct Hb as [_ Hb]. rewrite !with_buf_twice. do 2 f_equal. unfold v. fold l.
  change (ns + 4) with (ns + Z.of_nat (length (put_be32 l))). rewrite store_store by (simpl length; lia).
  change (ns + 8) with (ns + Z.of_nat (length (put_be32 l ++ put_be32 size))).
  rewrite store_store by (rewrite ?length_app; simpl length; lia).
  change (ns + 12) with (ns + Z.of_nat (length ((put_be32 l ++ put_be32 size) ++ put_be32 type))).
  rewrite store_store by (rewrite ?length_app; simpl length; lia). by rewrite <- !app_assoc.
Qed.

Lemma put_notes_ok ph ps b s : holds b s → 0 <= ph → 32 <= ps → ph + 2 * ps + 112 <= 512 →
  put_notes ph ps s = (Ok tt, with_buf (noted b ph ps) s).
Proof.
  intros Hb Hph Hps Hin. unfold put_notes, noted. cbv zeta. rewrite (s32_int (ph + 2 * ps)) by lia.
  set (ns := ph + 2 * ps). change nnote with 44. change nnote2 with 68. change (N_DESCR * 4) with 24.
  change (N_RPA_DESCR * 4) with 32. change (12 + Z.of_nat (length arch) + 1) with 20.
  change (12 + ROUNDUP (Z.of_nat (length rpaname) + 1)) with 36.
  destruct (put_header_ok ph ns 44 _ _ Hb Hph ltac:(lia)) as [E1 H1]. set (b1 := header_put b ph ns 44) in *.
  rewrite (bind_ok _ _ _ _ _ E1).
  destruct (put_note_ok ns arch 24 4725 _ _ ltac:(by_decision) H1 ltac:(lia) ltac:(simpl; lia)) as [E2 H2].
  rewrite (bind_ok _ _ _ _ _ E2), (s32_int (ns + 20)) by lia. clear E1 E2.
  rewrite (bind_ok _ _ _ _ _ (put_words_ok descr (ns + 20) _ _ H2 ltac:(lia) ltac:(simpl; lia))), !with_buf_twice.
  change (ns + 20 + 4 * Z.of_nat (length descr)) with (ns + 20 + 24).
  set (v := _ ++ _ ++ _ ++ _) in H2 |- *. change (ns + 20) with (ns + Z.of_nat (length v)).
  destruct H1 as [_ Hl1]. rewrite store_store by (rewrite ?Hl1; simpl length; lia).
  change (ns + Z.of_nat (length v) + 24) with (ns + 20 + 24). replace (ns + 20 + 24) with (ns + 44) by lia.
  assert (v ++ words descr = note1) as -> by reflexivity.
  assert (length (store b1 ns note1) = 512%nat) as Hl2 by (rewrite length_store; simpl length; lia).
  assert (holds (store b1 ns note1) (with_buf (store b1 ns note1) s)) as H3 by done. clear v H2.
  set (b2 := store b1 ns note1) in *. rewrite (s32_int (ph + ps)) by lia.
  destruct (put_header_ok (ph + ps) (ns + 44) 68 _ _ H3 ltac:(lia) ltac:(lia)) as [E1 H4]. rewrite (bind_ok _ _ _ _ _ E1).
  set (b3 := header_put b2 (ph + ps) (ns + 44) 68) in *.
  destruct (put_note_ok (ns + 44) rpaname 32 309696921 _ _ ltac:(by_decision) H4 ltac:(lia) ltac:(simpl; lia)) as [E2 H5].
  rewrite (bind_ok _ _ _ _ _ E2), (s32_int (ns + 44 + 36)) by lia.
  rewrite (bind_ok _ _ _ _ _ (put_words_ok rpanote (ns + 44 + 36) _ _ H5 ltac:(lia) ltac:(simpl; lia))). done.
Qed.

(** ** What the notes look like in the buffer *)

Lemma length_header_put b ph o n : length b = 512%nat → 0 <= ph → ph + 20 <= 512 → length (header_put b ph o n) = 512%nat.
Proof.
  intros Hb Hph Hin. unfold header_put.
  assert (length (store b ph (put_be32 PT_NOTE)) = 512%nat) as H1 by (rewrite length_store; simpl length; lia).
  assert (length (store (store b ph (put_be32 PT_NOTE)) (ph + 4) (put_be32 o)) = 512%nat) as H2
    by (rewrite length_store; simpl length; lia).
  rewrite length_store; simpl length; lia.
Qed.

Lemma header_put_other b ph o m i n : length b = 512%nat → 0 <= ph → ph + 20 <= 512 → 0 <= i → 0 <= n →
  i + n <= ph ∨ ph + 20 <= i → slice (header_put b ph o m) i n = slice b i n.
Proof.
  intros Hb Hph Hin Hi Hn Hd. unfold header_put.
  assert (length (store b ph (put_be32 PT_NOTE)) = 512%nat) as H1 by (rewrite length_store; simpl length; lia).
  assert (length (store (store b ph (put_be32 PT_NOTE)) (ph + 4) (put_be32 o)) = 512%nat) as H2
    by (rewrite length_store; simpl length; lia).
  by rewrite !slice_store_other by (simpl length; lia).
Qed.

(** a part of zeros *)
Lemma slice_zeros k i n : 0 <= i → 0 <= n → i + n <= Z.of_nat k → slice (replicate k 0) i n = replicate (Z.to_nat n) 0.
Proof.
  intros. unfold slice. rewrite drop_replicate, take_replicate. f_equal. lia.
Qed.

Lemma header_put_header b ph o m ps : length b = 512%nat → 0 <= ph → 32 <= ps → ph + ps <= 512 →
  slice b ph ps = replicate (Z.to_nat ps) 0 → slice (header_put b ph o m) ph ps = note_header ps o m.
Proof.
  intros Hb Hph Hps Hin Hz. unfold header_put.
  set (b1 := store b ph (put_be32 PT_NOTE)). set (b2 := store b1 (ph + 4) (put_be32 o)).
  assert (length b1 = 512%nat) as H1 by (unfold b1; rewrite length_store; simpl length; lia).
  assert (length b2 = 512%nat) as H2 by (unfold b2; rewrite length_store; simpl length; lia).
  assert (∀ i n, 0 <= i → 0 <= n → i + n <= ps → slice b (ph + i) n = replicate (Z.to_nat n) 0) as Hzero.
  { intros i n Hi Hn Hl. rewrite <- (slice_slice b ph ps i n), Hz, slice_zeros by lia. done. }
  set (b3 := store b2 (ph + 16) (put_be32 m)).
  assert (slice b3 ph 4 = put_be32 PT_NOTE) as P1.
  { unfold b3. rewrite slice_store_other by (simpl length; lia). unfold b2. rewrite slice_store_other by (simpl length; lia). by apply (slice_store_same b ph (put_be32 _)); simpl length; lia. }
  assert (slice b3 (ph + 4) 4 = put_be32 o) as P2.
  { unfold b3. rewrite slice_store_other by (simpl length; lia). by apply (slice_store_same b1 (ph + 4) (put_be32 _)); simpl length; lia. }
  assert (slice b3 (ph + 8) 8 = replicate 8 0) as P3.
  { unfold b3. rewrite slice_store_other by (simpl length; lia). unfold b2. rewrite slice_store_other by (simpl length; lia). unfold b1. rewrite slice_store_other by (simpl length; lia). by apply Hzero; lia. }
  assert (slice b3 (ph + 16) 4 = put_be32 m) as P4.
  { by apply (slice_store_same b2 (ph + 16) (put_be32 _)); simpl length; lia. }
  assert (slice b3 (ph + 20) (ps - 20) = replicate (Z.to_nat (ps - 20)) 0) as P5.
  { unfold b3. rewrite slice_store_other by (simpl length; lia). unfold b2. rewrite slice_store_other by (simpl length; lia). unfold b1. rewrite slice_store_other by (simpl length; lia). by apply Hzero; lia. }
  unfold note_header. rewrite <- P1, <- P2, <- P3, <- P4, <- P5.
  replace ps with (4 + (4 + (8 + (4 + (ps - 20))))) at 1 by lia. rewrite !slice_app by lia.
  by replace (ph + 20) with (ph + 4 + 4 + 8 + 4) by lia; replace (ph + 16) with (ph + 4 + 4 + 8) by lia;
    replace (ph + 8) with (ph + 4 + 4) by lia.
Qed.

Section noted.
Context (b : list Z) (ph ps : Z).
Hypotheses (Hb : length b = 512%nat) (Hph : 0 <= ph) (Hps : 32 <= ps) (Hin : ph + 2 * ps + 112 <= 512).
Hypothesis Hz : slice b ph (2 * ps + 112) = replicate (Z.to_nat (2 * ps + 112)) 0.

Lemma noted_zero i n : 0 <= i → 0 <= n → i + n <= 2 * ps + 112 → slice b (ph + i) n = replicate (Z.to_nat n) 0.
Proof using All. intros. by rewrite <- (slice_slice b ph (2 * ps + 112) i n), Hz, slice_zeros by lia. Qed.

Let ns := ph + 2 * ps.
Let b1 := header_put b ph ns 44.
Let b2 := store b1 ns note1.
Let b3 := header_put b2 (ph + ps) (ns + 44) 68.
Let b4 := store b3 (ns + 44) note2_head.

Lemma noted_lengths : length b1 = 512%nat ∧ length b2 = 512%nat ∧ length b3 = 512%nat ∧ length b4 = 512%nat.
Proof using Hb Hin Hph Hps.
  assert (length b1 = 512%nat) as H1 by (apply length_header_put; lia).
  assert (length b2 = 512%nat) as H2 by (unfold b2; rewrite length_store; simpl length; lia).
  assert (length b3 = 512%nat) as H3 by (apply length_header_put; lia).
  split_and!; [done..|]. unfold b4. rewrite length_store; simpl length; lia.
Qed.

Lemma length_noted : length (noted b ph ps) = 512%nat.
Proof using Hb Hin Hph Hps.
  destruct noted_lengths as (H1 & H2 & H3 & H4). unfold noted. fold ns b1 b2 b3 b4.
  rewrite length_store; simpl length; lia.
Qed.

Lemma noted_other i n : 0 <= i → 0 <= n → i + n <= ph ∨ ph + 2 * ps + 112 <= i → slice (noted b ph ps) i n = slice b i n.
Proof using Hb Hin Hph Hps.
  intros Hi Hn Hd. destruct noted_lengths as (H1 & H2 & H3 & H4). unfold noted. fold ns b1 b2 b3 b4.
  rewrite slice_store_other by (simpl length; lia). unfold b4. rewrite slice_store_other by (simpl length; lia).
  unfold b3. rewrite header_put_other by (simpl length; lia).
  unfold b2. rewrite slice_store_other by (simpl length; lia). by apply header_put_other; lia.
Qed.

Lemma noted_header1 : slice (noted b ph ps) ph ps = note_header ps ns 44.
Proof using All.
  destruct noted_lengths as (H1 & H2 & H3 & H4). unfold noted. fold ns b1 b2 b3 b4.
  rewrite slice_store_other by (simpl length; lia). unfold b4. rewrite slice_store_other by (simpl length; lia).
  unfold b3. rewrite header_put_other by (simpl length; lia).
  unfold b2. rewrite slice_store_other by (simpl length; lia). apply header_put_header; [lia..|].
  rewrite <- (Z.add_0_r ph). apply noted_zero; lia.
Qed.

Lemma noted_header2 : slice (noted b ph ps) (ph + ps) ps = note_header ps (ns + 44) 68.
Proof using All.
  destruct noted_lengths as (H1 & H2 & H3 & H4). unfold noted. fold ns b1 b2 b3 b4.
  rewrite slice_store_other by (simpl length; lia). unfold b4. rewrite slice_store_other by (simpl length; lia).
  apply header_put_header; [lia..|]. unfold b2. rewrite slice_store_other by (simpl length; lia).
  unfold b1. rewrite header_put_other by lia. apply noted_zero; lia.
Qed.

Lemma noted_note1 : slice (noted b ph ps) ns 44 = note1.
Proof using All.
  destruct noted_lengths as (H1 & H2 & H3 & H4). unfold noted. fold ns b1 b2 b3 b4.
  rewrite slice_store_other by (simpl length; lia). unfold b4. rewrite slice_store_other by (simpl length; lia).
  unfold b3. rewrite header_put_other by (simpl length; lia). by apply (slice_store_same b1 ns note1); simpl length; lia.
Qed.

Lemma noted_note2 : slice (noted b ph ps) (ns + 44) 68 = note2_head ++ [0; 0] ++ words rpanote.
Proof using All.
  destruct noted_lengths as (H1 & H2 & H3 & H4). unfold noted. fold ns b1 b2 b3 b4.
  set (b5 := store b4 _ _).
  assert (slice b5 (ns + 44) 34 = note2_head) as P1.
  { unfold b5. rewrite slice_store_other by (simpl length; lia).
    by apply (slice_store_same b3 (ns + 44) note2_head); simpl length; lia. }
  assert (slice b5 (ns + 44 + 34) 2 = [0; 0]) as P2.
  { unfold b5. rewrite slice_store_other by (simpl length; lia). unfold b4. rewrite slice_store_other by (simpl length; lia).
    unfold b3. rewrite header_put_other by (simpl length; lia). unfold b2. rewrite slice_store_other by (simpl length; lia).
    unfold b1. rewrite header_put_other by lia. unfold ns. rewrite <- !Z.add_assoc. by rewrite noted_zero by lia. }
  assert (slice b5 (ns + 44 + 36) 32 = words rpanote) as P3.
  { by apply (slice_store_same b4 (ns + 44 + 36) (words rpanote)); simpl length; lia. }
  rewrite <- P1, <- P2, <- P3. change 68 with (34 + (2 + 32)). rewrite !slice_app by lia.
  by replace (ns + 44 + 36) with (ns + 44 + 34 + 2) by lia.
Qed.
End noted.

Lemma parse_note1 : parse_note note1 = Some (arch, 4725, descr).
Proof. by vm_compute. Qed.
Lemma parse_note2 : parse_note (note2_head ++ [0; 0] ++ words rpanote) = Some (rpaname, 309696921, rpanote).
Proof. by vm_compute. Qed.

(** ** The image with the notes *)

Definition first_bytes (file : list Z) : list Z := store (replicate 512 0) 0 (slice file 0 512).
Definition notes_at (file : list Z) : Z := header_at file (phnum file).
Definition added_bytes (file : list Z) : list Z :=
  store (noted (first_bytes file) (notes_at file) (phentsize file)) E_PHNUM (put_be16 (phnum file + 2)).
Definition added (file : list Z) : list Z := store file 0 (slice (added_bytes file) 0 (head_size file)).

Lemma length_first_bytes file : length (first_bytes file) = 512%nat.
Proof.
  unfold first_bytes, slice. rewrite length_store; rewrite ?length_replicate, ?length_take, ?length_drop; lia.
Qed.

Lemma are_bytes_replicate n : are_bytes (replicate n 0).
Proof. apply Forall_replicate. unfold is_byte. lia. Qed.

Lemma first_bytes_bytes file : are_bytes file → are_bytes (first_bytes file).
Proof. intros. apply are_bytes_store; [apply are_bytes_replicate|by apply are_bytes_slice]. Qed.

Lemma head_size_length file : Z.of_nat (length (slice file 0 512)) = head_size file.
Proof. unfold head_size, slice. rewrite length_take, length_drop. lia. Qed.

Lemma first_slice file i n : 0 <= i → 0 <= n → i + n <= head_size file → slice (first_bytes file) i n = slice file i n.
Proof.
  intros. unfold first_bytes. rewrite slice_store by (rewrite ?head_size_length; lia).
  rewrite slice_slice by (unfold head_size in *; lia). f_equal.
Qed.

Lemma first_be32 file i : 0 <= i → i + 4 <= head_size file → be32 (first_bytes file) i = be32 file i.
Proof. intros. rewrite be32_slice, (be32_slice file), first_slice by lia. done. Qed.

Lemma first_be16 file i : 0 <= i → i + 2 <= head_size file → be16 (first_bytes file) i = be16 file i.
Proof. intros. rewrite be16_slice, (be16_slice file), first_slice by lia. done. Qed.

Lemma first_byte file i : 0 <= i → i + 1 <= head_size file → byte_at (first_bytes file) i = byte_at file i.
Proof.
  intros. pose proof (byte_at_slice file i 1 0) as E1. pose proof (byte_at_slice (first_bytes file) i 1 0) as E2.
  rewrite Z.add_0_r in E1, E2. rewrite <- E1, <- E2, first_slice by lia. done.
Qed.

(** the numbers of an image that fits are small *)
Record sizes (file : list Z) : Prop := Sizes {
  sz_ph : 52 <= phoff file;
  sz_ps : 32 <= phentsize file;
  sz_np : 1 <= phnum file;
  sz_table : 0 <= phnum file * phentsize file;
  sz_room : phoff file + phnum file * phentsize file + 2 * phentsize file + 112 <= head_size file;
  sz_small : phnum file <= 512;
  sz_head : 52 <= head_size file <= 512;
}.

Lemma fits_sizes file : fits file → sizes file.
Proof.
  intros (Hb & Hm & Hl & Hph & Hps & Hnp & Hroom & _). unfold header_at, E_HSIZE, PH_HSIZE in *.
  assert (head_size file <= 512) by (unfold head_size; lia). assert (52 <= head_size file) by (unfold head_size; lia).
  assert (phnum file * 1 <= phnum file * phentsize file) by (apply Z.mul_le_mono_nonneg_l; lia).
  split; lia.
Qed.

Lemma header_small file i : sizes file → 0 <= i <= phnum file → phoff file <= header_at file i <= notes_at file.
Proof.
  intros [] Hi. unfold notes_at, header_at.
  assert (0 <= i * phentsize file) by (apply Z.mul_nonneg_nonneg; lia).
  assert (i * phentsize file <= phnum file * phentsize file) by (apply Z.mul_le_mono_nonneg_r; lia). lia.
Qed.

(** a header of the table lies before the notes *)
Lemma header_room file i : sizes file → 0 <= i < phnum file →
  phoff file <= header_at file i ∧ header_at file i + phentsize file <= notes_at file.
Proof.
  intros Hs Hi. pose proof (header_small file (i + 1) Hs ltac:(lia)) as H1.
  pose proof (header_small file i Hs ltac:(lia)). unfold header_at in *. lia.
Qed.

Lemma notes_room file : sizes file → 52 <= notes_at file ∧ notes_at file + 2 * phentsize file + 112 <= head_size file.
Proof. intros []. unfold notes_at, header_at. lia. Qed.

(** ** Adding the notes *)

Lemma load_image tool name file takes err s : start (Some file) true takes err = s →
  run [tool; name] s =
    add_notes name (head_size file)
      (Host (Some file) true takes err (head_size file) [] (first_bytes file)).
Proof.
  intros <-. unfold run. cbn [length nth]. change (Z.of_nat 2 =? 2) with true. cbn [negb].
  unfold open, start. erewrite bind_ok by reflexivity. cbn [h_file]. change (3 <? 0) with false. cbn iota.
  erewrite bind_ok by (unfold read; cbn [h_reads negb with_pos]; reflexivity).
  cbn [h_pos with_pos contents h_file default h_buf with_buf h_reads h_takes h_strerror h_stderr].
  change (Z.to_nat sizeof_buf) with 512%nat. change sizeof_buf with 512. cbv zeta. unfold contents.
  cbn [h_file default]. rewrite head_size_length, Z.add_0_l.
  rewrite (proj2 (Z.ltb_ge _ _)) by (unfold head_size; lia). done.
Qed.

(** the checks of the header pass *)
Record elf_image (file : list Z) : Prop := ElfImage {
  ei_magic : slice file 0 6 = elf_magic ++ [ELFCLASS32; ELFDATA2MSB];
  ei_head : 52 <= head_size file;
  ei_ph : 52 <= phoff file <= 512;
  ei_ps : 32 <= phentsize file;
  ei_np : 1 <= phnum file;
}.

Lemma fits_image file : fits file → elf_image file.
Proof. intros Hf. destruct (fits_sizes file Hf). destruct Hf as (_ & Hm & _). by split; [|lia..]. Qed.

Lemma check_image name file s k : elf_image file → h_buf s = first_bytes file →
  (let ph := phoff file in let ps := phentsize file in let np := phnum file in
   (if head_size file <? s32 (ph + (np + 2) * ps + nnote + nnote2) then nospace name
    else
      ph ← scan_headers name (Z.to_nat np) ps ph;
      check_zero name (Z.to_nat (2 * ps + nnote + nnote2)) ph;;
      put_notes ph ps;;
      PUT_16BE E_PHNUM (np + 2);;
      write_back name (head_size file)) s) = k →
  add_notes name (head_size file) s = k.
Proof.
  intros [Hm Hhead Hph Hps Hnp] Hbuf <-.
  assert (∀ i c, 0 <= i < 6 → byte_at (elf_magic ++ [ELFCLASS32; ELFDATA2MSB]) i = c → byte_at (h_buf s) i = c) as Hbyte.
  { intros i c Hi <-. rewrite Hbuf, first_byte, <- Hm, byte_at_slice by lia. done. }
  unfold add_notes. change (E_IDENT + EI_MAGIC) with 0. change (0 + 1) with 1. change (0 + 2) with 2. change (0 + 3) with 3.
  change (E_IDENT + EI_CLASS) with 4. change (E_IDENT + EI_DATA) with 5.
  rewrite (bind_ok _ _ _ _ _ (get_ok 0 s ltac:(lia))), (bind_ok _ _ _ _ _ (get_ok 1 s ltac:(lia))),
    (bind_ok _ _ _ _ _ (get_ok 2 s ltac:(lia))), (bind_ok _ _ _ _ _ (get_ok 3 s ltac:(lia))).
  rewrite (Hbyte 0 127), (Hbyte 1 69), (Hbyte 2 76), (Hbyte 3 70) by (done || lia).
  rewrite (proj2 (Z.ltb_ge _ E_HSIZE)) by (unfold E_HSIZE; lia). change (bool_decide ([127; 69; 76; 70] = elf_magic)) with true.
  cbn [negb orb]. rewrite (bind_ok _ _ _ _ _ (get_ok 4 s ltac:(lia))), (bind_ok _ _ _ _ _ (get_ok 5 s ltac:(lia))).
  rewrite (Hbyte 4 1), (Hbyte 5 2) by (done || lia). change (1 =? ELFCLASS32) with true. change (2 =? ELFDATA2MSB) with true.
  cbn [negb orb]. change E_PHOFF with 28 in *. change E_PHENTSIZE with 42 in *. 
  rewrite (bind_ok _ _ _ _ _ (GET_32BE_ok 28 s ltac:(lia))), (bind_ok _ _ _ _ _ (GET_16BE_ok 42 s ltac:(lia))),
    (bind_ok _ _ _ _ _ (GET_16BE_ok E_PHNUM s ltac:(unfold E_PHNUM; lia))).
  rewrite Hbuf, first_be32, !first_be16 by (unfold E_PHNUM; lia).
  change (be32 file 28) with (phoff file). change (be16 file 42) with (phentsize file). change (be16 file E_PHNUM) with (phnum file).
  rewrite s32_int by lia. unfold E_HSIZE, PH_HSIZE.
  by rewrite (proj2 (Z.ltb_ge (phoff file) _)), (proj2 (Z.ltb_ge (phentsize file) _)), (proj2 (Z.ltb_ge (phnum file) _)) by lia.
Qed.

Lemma write_back_ok name n file s : h_file s = Some file → length (h_buf s) = 512%nat → 0 <= n <= 512 → n <= h_takes s →
  write_back name n s = (Ok 0, with_pos n (with_file (store file 0 (slice (h_buf s) 0 n)) s)).
Proof.
  intros Hf Hl Hn Ht. unfold write_back, lseek. erewrite bind_ok by reflexivity.
  assert (Z.of_nat (length (slice (h_buf s) 0 n)) = n) as Hs by (rewrite length_slice; lia).
  erewrite bind_ok; cycle 1.
  { unfold write. cbn [h_takes with_pos h_buf]. rewrite (proj2 (Z.ltb_ge _ 0)), Z.min_l by lia. rewrite Hs.
    unfold contents. cbn [h_file with_pos h_pos]. rewrite Hf. cbn [default]. reflexivity. }
  by rewrite (proj2 (Z.ltb_ge n 0)), (proj2 (Z.ltb_ge n n)) by lia.
Qed.

Lemma add_run tool name file takes err : fits file → head_size file <= takes →
  ∃ s', main [tool; name] (start (Some file) true takes err) = (Ok 0, s') ∧
    h_file s' = Some (added file) ∧ h_stderr s' = [].
Proof.
  intros Hf Ht. pose proof (fits_sizes file Hf) as Hs. pose proof Hs as [Hph Hps Hnp Htab Hroom Hsm Hhead].
  destruct (notes_room file Hs) as [Hna Hnr].
  pose proof Hf as (Hb & _ & _ & _ & _ & _ & _ & Hno & Hz).
  unfold main. rewrite (load_image _ _ file takes err _ eq_refl). set (s := Host _ _ _ _ _ _ _).
  erewrite check_image; [|by apply fits_image|done|reflexivity]. cbv zeta.
  change nnote with 44. change nnote2 with 68.
  rewrite s32_int, (proj2 (Z.ltb_ge _ _)) by lia.
  pose proof (scan_headers_ok name (phentsize file) (Z.to_nat (phnum file)) (phoff file) s ltac:(lia) ltac:(lia)) as Hscan.
  rewrite Z2Nat.id in Hscan by lia. specialize (Hscan ltac:(lia) (first_bytes_bytes file Hb)).
  rewrite <- (Nat.add_0_r (Z.to_nat (phnum file))). erewrite bind_ok; cycle 1.
  { rewrite Hscan; [reflexivity|]. intros i Hi. destruct (header_room file i Hs Hi).
    cbn [h_buf s]. unfold header_at, notes_at in *. rewrite first_be32 by lia.
    rewrite Forall_forall in Hno. apply (Hno i). apply elem_of_seqZ. lia. }
  change (phoff file + phnum file * phentsize file) with (notes_at file).
  cbn [scan_headers]. rewrite (bind_ok _ _ _ tt s); cycle 1.
  { apply check_zero_ok; [lia..|]. rewrite Z2Nat.id by lia. cbn [h_buf s]. rewrite first_slice by lia.
    rewrite <- Z.add_assoc. exact Hz. }
  assert (holds (first_bytes file) s) as Hh by (split; [done|apply length_first_bytes]).
  rewrite (bind_ok _ _ _ _ _ (put_notes_ok (notes_at file) (phentsize file) _ s Hh ltac:(lia) ltac:(lia) ltac:(lia))).
  assert (holds (noted (first_bytes file) (notes_at file) (phentsize file))
    (with_buf (noted (first_bytes file) (notes_at file) (phentsize file)) s)) as Hh'.
  { split; [done|]. apply length_noted; [apply length_first_bytes|lia..]. }
  rewrite (bind_ok _ _ _ _ _ (PUT_16BE_ok E_PHNUM (phnum file + 2) _ _ Hh' ltac:(unfold E_PHNUM; lia))), with_buf_twice.
  fold (added_bytes file).
  assert (length (added_bytes file) = 512%nat) as Hlen.
  { destruct Hh' as [_ Hl]. unfold added_bytes. rewrite length_store; unfold E_PHNUM; simpl length; lia. }
  erewrite write_back_ok; [|done|done|cbn [h_takes with_buf s]; lia..].
  eexists. split; [reflexivity|]. done.
Qed.

Lemma seqZ_two p : seqZ p 2 = [p; p + 1].
Proof. rewrite seqZ_cons by lia. change (Z.pred 2) with 1. rewrite seqZ_cons by lia. by rewrite seqZ_nil, <- !Z.add_1_r by lia. Qed.

Lemma be16_put z : 0 <= z < 65536 → be16 (put_be16 z) 0 = z.
Proof.
  intros Hz. unfold put_be16, be16, byte_at. cbn [Z.ltb Z.compare]. change (Z.to_nat (0 + 1)) with 1%nat.
  change (Z.to_nat 0) with O. change (0 + 1 <? 0) with false. cbn [nth]. words. Z.div_mod_to_equations. lia.
Qed.

Section added.
Context (file : list Z) (Hf : fits file).

Let ph := notes_at file.
Let ps := phentsize file.
Let b0 := first_bytes file.

Lemma added_sizes : length (added_bytes file) = 512%nat ∧ length (added file) = length file ∧ length (noted b0 ph ps) = 512%nat.
Proof using All.
  pose proof (fits_sizes file Hf) as [Hph Hps Hnp Htab Hroom Hsm Hhead]. destruct (notes_room file (fits_sizes file Hf)).
  assert (length (noted b0 ph ps) = 512%nat) as Hn.
  { apply length_noted; [apply length_first_bytes|unfold ph, ps; lia..]. }
  assert (length (added_bytes file) = 512%nat) as Ha.
  { unfold added_bytes. fold ph ps b0. rewrite length_store; unfold E_PHNUM; simpl length; lia. }
  split_and!; [done| |done]. unfold added. rewrite length_store; [done|lia|]. rewrite length_slice; [|lia..].
  unfold head_size in *. lia.
Qed.

Lemma added_slice i n : 0 <= i → 0 <= n → i + n <= head_size file → slice (added file) i n = slice (added_bytes file) i n.
Proof using All.
  intros. destruct added_sizes as (Ha & _). pose proof (fits_sizes file Hf) as [].
  unfold added. rewrite slice_store by (rewrite ?length_slice; lia). by apply slice_slice; lia.
Qed.

Lemma added_same i n : 0 <= i → 0 <= n → i + n <= head_size file →
  i + n <= E_PHNUM ∨ E_PHNUM + 2 <= i → i + n <= ph ∨ ph + 2 * ps + 112 <= i → slice (added file) i n = slice file i n.
Proof using All.
  intros Hi Hn Hin H1 H2. rewrite added_slice by done. destruct added_sizes as (_ & _ & Hl).
  pose proof (fits_sizes file Hf) as []. destruct (notes_room file (fits_sizes file Hf)).
  unfold added_bytes. fold ph ps b0. rewrite slice_store_other by (rewrite ?Hl; unfold E_PHNUM in *; simpl length; lia).
  rewrite noted_other by (try apply length_first_bytes; unfold ph, ps in *; lia). by apply first_slice.
Qed.

Lemma added_note i n : ph <= i → 0 <= n → i + n <= ph + 2 * ps + 112 → slice (added file) i n = slice (noted b0 ph ps) i n.
Proof using All.
  intros Hi Hn Hin. destruct added_sizes as (_ & _ & Hl). pose proof (fits_sizes file Hf) as [].
  destruct (notes_room file (fits_sizes file Hf)). rewrite added_slice by (unfold ph, ps in *; lia).
  unfold added_bytes. fold ph ps b0. by rewrite slice_store_other by (rewrite ?Hl; unfold ph, ps, E_PHNUM in *; simpl length; lia).
Qed.

Lemma added_phoff : phoff (added file) = phoff file.
Proof using All.
  pose proof (fits_sizes file Hf) as []. destruct (notes_room file (fits_sizes file Hf)).
  unfold phoff, E_PHOFF. rewrite be32_slice, (be32_slice file), added_same by (unfold E_PHNUM, ph in *; lia). done.
Qed.

Lemma added_phentsize : phentsize (added file) = phentsize file.
Proof using All.
  pose proof (fits_sizes file Hf) as []. destruct (notes_room file (fits_sizes file Hf)).
  unfold phentsize, E_PHENTSIZE. rewrite be16_slice, (be16_slice file), added_same by (unfold E_PHNUM, ph in *; lia). done.
Qed.

Lemma added_phnum : phnum (added file) = phnum file + 2.
Proof using All.
  pose proof (fits_sizes file Hf) as []. destruct (notes_room file (fits_sizes file Hf)). destruct added_sizes as (_ & _ & Hl).
  unfold phnum at 1. rewrite be16_slice, added_slice by (unfold E_PHNUM; lia).
  unfold added_bytes. fold ph ps b0.
  rewrite (slice_store_same _ E_PHNUM (put_be16 (phnum file + 2))) by (rewrite ?Hl; unfold E_PHNUM; simpl length; lia).
  apply be16_put. lia.
Qed.

(** the area of the notes is zero before *)
Lemma notes_zero : slice b0 ph (2 * ps + 112) = replicate (Z.to_nat (2 * ps + 112)) 0.
Proof using All.
  pose proof (fits_sizes file Hf) as []. destruct (notes_room file (fits_sizes file Hf)).
  unfold b0. rewrite first_slice by (unfold ph, ps; lia). by destruct Hf as (_ & _ & _ & _ & _ & _ & _ & _ & Hz).
Qed.

Let ns := ph + 2 * ps.

Lemma added_headers : headers (added file) = headers file ++ [note_header ps ns 44; note_header ps (ns + 44) 68].
Proof using All.
  pose proof (fits_sizes file Hf) as Hs. pose proof Hs as []. destruct (notes_room file Hs).
  unfold headers. rewrite added_phnum, added_phentsize. unfold header_at at 1. rewrite added_phoff, added_phentsize.
  change (λ i, slice (added file) (phoff file + i * phentsize file) (phentsize file)) with
    (λ i, slice (added file) (header_at file i) (phentsize file)).
  rewrite (seqZ_app 0 (phnum file) 2) by lia. rewrite map_app. f_equal.
  - apply map_ext_in. intros i Hi. apply list_elem_of_In, elem_of_seqZ in Hi.
    destruct (header_room file i Hs ltac:(lia)). apply added_same; unfold ph, E_PHNUM; lia.
  - rewrite Z.add_0_l, seqZ_two. cbn [map].
    replace (header_at file (phnum file)) with ph by done.
    replace (header_at file (phnum file + 1)) with (ph + ps) by (unfold ph, ps, notes_at, header_at; lia).
    fold ps. rewrite !added_note by (unfold ps; lia).
    rewrite noted_header1, noted_header2; [done|apply length_first_bytes|unfold ph, ps in *; lia|unfold ps; lia|unfold ph, ps in *; lia|apply notes_zero
      |apply length_first_bytes|unfold ph, ps in *; lia|unfold ps; lia|unfold ph, ps in *; lia|apply notes_zero].
Qed.

Lemma added_notes : parse_note (slice (added file) ns 44) = Some (arch, 4725, descr) ∧
  parse_note (slice (added file) (ns + 44) 68) = Some (rpaname, 309696921, rpanote).
Proof using All.
  pose proof (fits_sizes file Hf) as Hs. pose proof Hs as []. destruct (notes_room file Hs).
  rewrite !added_note by (unfold ns, ps; lia). unfold ns.
  rewrite noted_note1, noted_note2; [split; [apply parse_note1|apply parse_note2]|apply length_first_bytes|unfold ph, ps in *; lia|unfold ps; lia|unfold ph, ps in *; lia|apply notes_zero
      |apply length_first_bytes|unfold ph, ps in *; lia|unfold ps; lia|unfold ph, ps in *; lia|apply notes_zero].
Qed.

Lemma added_frame i : ¬ touched file i → byte_at (added file) i = byte_at file i.
Proof using All.
  intros Ht. pose proof (fits_sizes file Hf) as Hs. pose proof Hs as []. destruct (notes_room file Hs).
  destruct added_sizes as (Ha & Hl & _). unfold touched in Ht. fold (notes_at file) ph ps in Ht.
  destruct (decide (i < 0)) as [Hi|Hi]; [unfold byte_at; by rewrite (proj2 (Z.ltb_lt i 0)) by lia|].
  destruct (decide (i < head_size file)) as [Hin|Hout].
  - pose proof (byte_at_slice (added file) i 1 0) as E1. pose proof (byte_at_slice file i 1 0) as E2.
    rewrite Z.add_0_r in E1, E2. rewrite <- E1, <- E2, added_same by lia. done.
  - unfold added. apply byte_at_store_after; rewrite ?length_slice; unfold head_size in *; lia.
Qed.
End added.

Lemma header_put_bytes b p o n : are_bytes b → are_bytes (header_put b p o n).
Proof. intros. unfold header_put. repeat (apply are_bytes_store; [|apply put_be32_are_bytes]). done. Qed.

Lemma noted_bytes b p q : are_bytes b → are_bytes (noted b p q).
Proof.
  intros. unfold noted. cbv zeta. apply are_bytes_store; [|by_decision]. apply are_bytes_store; [|by_decision].
  apply header_put_bytes, are_bytes_store; [|by_decision]. by apply header_put_bytes.
Qed.

Lemma added_are_bytes file : are_bytes file → are_bytes (added file).
Proof.
  intros. unfold added, added_bytes. apply are_bytes_store; [done|]. apply are_bytes_slice, are_bytes_store.
  - by apply noted_bytes, first_bytes_bytes.
  - unfold put_be16. repeat constructor; apply u8_range.
Qed.

(** ** A second run *)

Lemma added_image file : fits file → elf_image (added file) ∧ head_size (added file) = head_size file.
Proof.
  intros Hf. pose proof (fits_sizes file Hf) as Hs. pose proof Hs as []. destruct (notes_room file Hs).
  destruct (added_sizes file Hf) as (_ & Hl & _). assert (head_size (added file) = head_size file) as Eh.
  { unfold head_size. by rewrite Hl. }
  split; [|done]. split.
  - rewrite added_same by (done || (unfold E_PHNUM; lia)). by destruct Hf as (_ & Hm & _).
  - lia.
  - rewrite added_phoff by done. lia.
  - rewrite added_phentsize by done. lia.
  - rewrite added_phnum by done. lia.
Qed.

(** the header of the first note has its type *)
Lemma added_type file : fits file → be32 (added file) (notes_at file) = PT_NOTE.
Proof.
  intros Hf. pose proof (fits_sizes file Hf) as Hs. pose proof Hs as []. destruct (notes_room file Hs).
  rewrite be32_slice, added_note by (done || lia).
  rewrite <- (Z.add_0_r (notes_at file)), <- (slice_slice _ (notes_at file) (phentsize file) 0 4) by lia.
  rewrite Z.add_0_r, noted_header1; [done|apply length_first_bytes|lia..|]. by apply notes_zero.
Qed.

Lemma second_run tool name file takes err : fits file →
  ∃ s', main [tool; name] (start (Some (added file)) true takes err) =
      (Ok (if head_size file <? header_at file (phnum file + 4) + 112 then 1 else 0), s') ∧
    h_file s' = Some (added file).
Proof.
  intros Hf. pose proof (fits_sizes file Hf) as Hs. pose proof Hs as []. destruct (notes_room file Hs) as [Hna Hnr].
  destruct (added_image file Hf) as [Hi Eh]. pose proof Hf as (Hb & _ & _ & _ & _ & _ & _ & Hno & _).
  unfold main. rewrite (load_image _ _ (added file) takes err _ eq_refl). set (s := Host _ _ _ _ _ _ _).
  erewrite check_image; [|done|done|reflexivity]. cbv zeta. rewrite Eh, added_phoff, added_phentsize, added_phnum by done.
  change nnote with 44. change nnote2 with 68.
  replace (phnum file + 2 + 2) with (phnum file + 4) by lia.
  replace (phoff file + (phnum file + 4) * phentsize file + 44 + 68) with (header_at file (phnum file + 4) + 112)
    by (unfold header_at; lia).
  rewrite s32_int by (unfold header_at; lia). destruct (Z.ltb_spec (head_size file) (header_at file (phnum file + 4) + 112)) as [|Hroom].
  - eexists. split; [reflexivity|]. done.
  - pose proof (scan_headers_ok name (phentsize file) (Z.to_nat (phnum file)) (phoff file) s ltac:(lia) ltac:(lia)) as Hscan.
    rewrite Z2Nat.id in Hscan by lia. specialize (Hscan ltac:(lia) (first_bytes_bytes _ (added_are_bytes file Hb))).
    rewrite (Z2Nat.inj_add (phnum file) 2) by lia. cbv zeta in Hscan. cbn [h_buf s] in Hscan.
    unfold mbind at 1, stm_bind at 1. rewrite Hscan.
    + change (phoff file + phnum file * phentsize file) with (notes_at file). change (Z.to_nat 2) with 2%nat.
      cbn [scan_headers]. change PH_TYPE with 0. rewrite (Z.add_0_r (notes_at file)), (s32_int (notes_at file)) by lia.
      rewrite (bind_ok _ _ _ _ _ (GET_32BE_ok (notes_at file) s ltac:(lia))). cbn [h_buf s].
      rewrite first_be32, added_type by (done || lia). change (s32 PT_NOTE =? PT_NOTE) with true. cbn iota.
      eexists. split; [reflexivity|]. done.
    + intros i Hin. destruct (header_room file i Hs Hin). unfold notes_at, header_at in *.
      rewrite first_be32 by lia.
      rewrite be32_slice, added_same by (done || (unfold E_PHNUM, notes_at, header_at; lia)). rewrite <- be32_slice by lia.
      rewrite Forall_forall in Hno. apply (Hno i). apply elem_of_seqZ. lia.
Qed.

(** ** The property *)

(** C28: an image with room behind its program headers gets two headers, which describe the
    two notes that follow them; a reader of notes finds the names, types and words of the
    tables in the two; every other byte but the number of headers stays, and so does the
    length.  A second run leaves the image as it is; it reports the note that is there,
    or, when there is no room for a third and a fourth header, that there is no space. *)
Theorem notes_added tool name file takes takes' err : fits file → head_size file <= takes →
  let ns := header_at file (phnum file + 2) in
  ∃ file' s', main [tool; name] (start (Some file) true takes err) = (Ok 0, s') ∧
    h_file s' = Some file' ∧ h_stderr s' = [] ∧ length file' = length file ∧
    headers file' = headers file ++ [note_header (phentsize file) ns 44; note_header (phentsize file) (ns + 44) 68] ∧
    parse_note (slice file' ns 44) = Some (arch, 4725, descr) ∧
    parse_note (slice file' (ns + 44) 68) = Some (rpaname, 309696921, rpanote) ∧
    (∀ i, ¬ touched file i → byte_at file' i = byte_at file i) ∧
    ∃ s2, main [tool; name] (start (Some file') true takes' err) =
        (Ok (if head_size file <? header_at file (phnum file + 4) + 112 then 1 else 0), s2) ∧
      h_file s2 = Some file'.
Proof.
  intros Hf Ht ns. destruct (add_run tool name file takes err Hf Ht) as (s' & E & Hs' & He).
  assert (ns = notes_at file + 2 * phentsize file) as -> by (unfold ns, notes_at, header_at; lia).
  exists (added file), s'. split_and!; [done..|by apply added_sizes|by apply added_headers|by apply added_notes|by apply added_notes
    |by apply added_frame|by apply second_run].
Qed.

(** an image of one header with room for the notes *)
Definition example_image : list Z :=
  [127; 69; 76; 70; 1; 2; 1] ++ replicate 21 0 ++ put_be32 52 ++ replicate 10 0 ++ put_be16 32 ++ put_be16 1 ++
  replicate 6 0 ++ put_be32 1 ++ put_be32 4096 ++ replicate 24 0 ++ replicate 176 0 ++ bs "text".

Lemma notes_added_witness :
  fits example_image ∧ head_size example_image = 264 ∧
  ∃ file' s', main [bs "addnote"; bs "zImage"] (start (Some example_image) true 512 []) = (Ok 0, s') ∧
    h_file s' = Some file' ∧ h_stderr s' = [] ∧ length file' = 264%nat ∧
    parse_note (slice file' 148 44) = Some (arch, 4725, descr) ∧
    ∃ s2, main [bs "addnote"; bs "zImage"] (start (Some file') true 512 []) = (Ok 1, s2) ∧ h_file s2 = Some file'.
Proof.
  assert (fits example_image) as Hf by by_decision. split; [exact Hf|]. split; [reflexivity|].
  destruct (notes_added (bs "addnote") (bs "zImage") example_image 512 512 [] Hf ltac:(by_decision))
    as (file' & s' & E & H1 & H2 & H3 & _ & H4 & _ & _ & s2 & H5 & H6).
  exists file', s'. exact (conj E (conj H1 (conj H2 (conj H3 (conj H4 (ex_intro _ s2 (conj H5 H6))))))).
Defined.

(** the image above has no room for more headers: the second run does not get as far as
    the note it has *)
Example second_run_complains :
  let s := (main [bs "addnote"; bs "zImage"] (start (Some example_image) true 512 [])).2 in
  h_stderr (main [bs "addnote"; bs "zImage"] (start (h_file s) true 512 [])).2 =
    bs "sorry, I can't find space in zImage to put the note" ++ [10].
Proof. by vm_compute. Qed.

(** the sum that bounds the table is an [int]: with a large offset it is negative, and the
    headers are read from behind [buf] *)
Example offset_overflows :
  (main [bs "addnote"; bs "zImage"] (start (Some (store example_image 28 (put_be32 2147483600))) true 512 [])).1 = Err Overrun.
Proof. by vm_compute. Qed.

(** other files are refused *)
Example not_an_image :
  let r := main [bs "addnote"; bs "zImage"] (start (Some (bs "#!/bin/sh")) true 512 []) in
  r.1 = Ok 1 ∧ h_stderr r.2 = bs "zImage does not appear to be an ELF file" ++ [10] ∧ h_file r.2 = Some (bs "#!/bin/sh").
Proof. by vm_compute. Qed.
