(* ===== verification/Elfextract.v ===== *)
(** The host tool [util/elfextract.c], which writes the bytes of the loadable segments of an
    ELF file to another file: [rd] and [main].

    The streams of the C library are their bytes and positions; the tool is run on a machine
    of the byte order of the file, where [long] has 32 bits.  [exit] ends the program with
    its code ([Err]). *)
From S2P Require Import Prelude.

Definition EI_NIDENT : Z := 16.
Definition ELFMAG0 : Z := 127.
Definition ELFMAG1 : Z := 69.
Definition ELFMAG2 : Z := 76.
Definition ELFMAG3 : Z := 70.
Definition PT_LOAD : Z := 1.

(** [Elf32_Ehdr] and [Elf32_Phdr] *)
Definition sizeof_ehdr : Z := 52.
Definition sizeof_phdr : Z := 32.
Definition e_ident (eh : list Z) (i : Z) : Z := byte_at eh i.
Definition e_phoff (eh : list Z) : Z := be32 eh 28.
Definition e_phnum (eh : list Z) : Z := be16 eh 44.

Record phdr := Phdr {
  p_type : Z;
  p_offset : Z;
  p_vaddr : Z;
  p_filesz : Z;
}.

Definition get_phdr (b : list Z) : phdr := Phdr (be32 b 0) (be32 b 4) (be32 b 8) (be32 b 16).

(** ** The state *)

(** a stream to read: its bytes, the position, whether it can be positioned, and whether
    reading past what it has is an error rather than its end *)
Record stream := Stream {
  st_bytes : list Z;
  st_pos : Z;
  st_seeks : bool;
  st_ferror : bool;
}.

(** what the tool can be given: the standard input, the file of the first argument and
    whether the file of the second can be created, the bytes it takes, and the text of an
    error; then the stream [fi], what was written to [fo] and to the standard error *)
Record host := Host {
  h_stdin : stream;
  h_file : option stream;
  h_creates : bool;
  h_room : Z;
  h_strerror : list Z;
  fi : stream;
  h_written : list Z;
  h_stderr : list Z;
}.

Definition start (stdin : stream) (file : option stream) (creates : bool) (room : Z) (err : list Z) : host :=
  Host stdin file creates room err stdin [] [].

Definition with_fi (f : stream) (s : host) : host :=
  Host (h_stdin s) (h_file s) (h_creates s) (h_room s) (h_strerror s) f (h_written s) (h_stderr s).
Definition with_written (w : list Z) (s : host) : host :=
  Host (h_stdin s) (h_file s) (h_creates s) (h_room s) (h_strerror s) (fi s) w (h_stderr s).
Definition with_stderr (t : list Z) (s : host) : host :=
  Host (h_stdin s) (h_file s) (h_creates s) (h_room s) (h_strerror s) (fi s) (h_written s) t.
Definition with_pos (p : Z) (s : host) : host :=
  with_fi (Stream (st_bytes (fi s)) p (st_seeks (fi s)) (st_ferror (fi s))) s.

Notation M := (stm host Z).

Definition exit {A} (code : Z) : M A := fail code.
Definition fprintf (t : list Z) : M unit := modify (λ s, with_stderr (h_stderr s ++ t) s).
Definition perror (t : list Z) : M unit :=
  modify (λ s, with_stderr (h_stderr s ++ t ++ bs ": " ++ h_strerror s ++ [10]) s).

(** [fseek] from the start; it fails, which the tool does not look at, on a stream that
    cannot be positioned and before the start *)
Definition fseek (p : Z) : M unit :=
  modify (λ s, if st_seeks (fi s) && (0 <=? s32 p) then with_pos (s32 p) s else s).

Definition fread (len : Z) : M (list Z) := λ s,
  let b := slice (st_bytes (fi s)) (st_pos (fi s)) len in
  (Ok b, with_pos (st_pos (fi s) + Z.of_nat (length b)) s).

Definition fwrite (b : list Z) : M Z := λ s,
  let n := Z.min (Z.of_nat (length b)) (h_room s - Z.of_nat (length (h_written s))) in
  (Ok n, with_written (h_written s ++ take (Z.to_nat n) b) s).

(** ** The program *)

Definition rd (ni : list Z) (len : Z) : M (list Z) :=
  b ← fread len;
  if Z.of_nat (length b) =? len then mret b
  else
    e ← gets (λ s, st_ferror (fi s));
    fprintf (ni ++ (if e : bool then bs ": read error" else bs ": short file") ++ [10]);;
    exit 1.

(** the segments seen so far *)
Record extent := Extent {
  phoffset : Z;
  phsize : Z;
  prevaddr : Z;
}.

Definition add_segment (x : extent) (ph : phdr) : extent :=
  if negb (p_type ph =? PT_LOAD) then x
  else if (phsize x =? 0) || (prevaddr x =? 0) then Extent (p_offset ph) (p_filesz ph) (p_vaddr ph)
  else Extent (phoffset x) (u32 (p_offset ph + p_filesz ph - phoffset x)) (p_vaddr ph).

Fixpoint scan (ni : list Z) (n : nat) (x : extent) : M extent :=
  match n with
  | O => mret x
  | S n' => b ← rd ni sizeof_phdr; scan ni n' (add_segment x (get_phdr b))
  end.

Definition sizeof_buf : Z := 65536.

Fixpoint copy (fuel : nat) (ni no : list Z) (len : Z) : M unit :=
  match fuel with
  | O => out_of_fuel
  | S fuel' =>
      if len =? 0 then mret tt
      else
        let nb := if sizeof_buf <? len then sizeof_buf else len in
        b ← rd ni nb;
        w ← fwrite b;
        if negb (w =? nb) then fprintf (no ++ bs ": write error" ++ [10]);; exit 1
        else copy fuel' ni no (len - nb)
  end.

(** one pass for each 64 KB, and the last test *)
Definition copy_fuel (len : Z) : nat := Z.to_nat (len / sizeof_buf) + 2.

Definition is_elf (eh : list Z) : bool :=
  (e_ident eh 0 =? ELFMAG0) && (e_ident eh 1 =? ELFMAG1) && (e_ident eh 2 =? ELFMAG2) && (e_ident eh 3 =? ELFMAG3).

Definition open_input (av : list (list Z)) : M (list Z) :=
  if 1 <? Z.of_nat (length av) then
    f ← gets h_file;
    match f with
    | None => perror (nth 1 av []);; exit 1
    | Some f => modify (with_fi f);; mret (nth 1 av [])
    end
  else mret (bs "(stdin)").

Definition open_output (av : list (list Z)) : M (list Z) :=
  if 2 <? Z.of_nat (length av) then
    c ← gets h_creates;
    if negb c then perror (nth 2 av []);; exit 1 else mret (nth 2 av [])
  else mret (bs "(stdout)").

Definition main (av : list (list Z)) : M unit :=
  if (3 <? Z.of_nat (length av)) || ((1 <? Z.of_nat (length av)) && (deref (nth 1 av []) =? 45)) then
    fprintf (bs "Usage: " ++ nth 0 av [] ++ bs " [elf-file [image-file]]" ++ [10]);; exit 0
  else
    ni ← open_input av;
    eh ← rd ni sizeof_ehdr;
    if negb (is_elf eh) then fprintf (ni ++ bs ": not an ELF file" ++ [10]);; exit 1
    else
      fseek (e_phoff eh);;
      x ← scan ni (Z.to_nat (e_phnum eh)) (Extent 0 0 0);
      if phsize x =? 0 then fprintf (ni ++ bs ": doesn't have a loadable segment" ++ [10]);; exit 1
      else
        no ← open_output av;
        fseek (phoffset x);;
        copy (copy_fuel (phsize x)) ni no (phsize x);;
        exit 0.

(** ** The specification

    The loadable segments of a file, in the order of its headers. *)

Definition table (data : list Z) : list phdr :=
  map (λ i, get_phdr (slice data (e_phoff data + sizeof_phdr * i) sizeof_phdr)) (seqZ 0 (e_phnum data)).

Definition loadable (p : phdr) : bool := p_type p =? PT_LOAD.
Definition segments (data : list Z) : list phdr := List.filter loadable (table data).

Definition end_of (p : phdr) : Z := p_offset p + p_filesz p.

(** the end of the last of the segments *)
Definition stop_of (ps : list phdr) : Z := from_option end_of 0 (last ps).

(** a segment that lies in [data], behind the start of the first one, and that is not loaded
    at address 0 *)
Definition segment_ok (data : list Z) (first p : phdr) : Prop :=
  p_vaddr p ≠ 0 ∧ p_offset first < end_of p <= Z.of_nat (length data).

(** an ELF file whose segments are [first :: rest] *)
Definition image_of (data : list Z) (first : phdr) (rest : list phdr) : Prop :=
  are_bytes data ∧ sizeof_ehdr <= Z.of_nat (length data) <= INT_MAX ∧ is_elf data = true ∧
  e_phoff data + sizeof_phdr * e_phnum data <= Z.of_nat (length data) ∧
  segments data = first :: rest ∧ Forall (segment_ok data first) (first :: rest).

#[export] Instance phdr_eq_dec : EqDecision phdr.
Proof. solve_decision. Defined.
#[export] Instance segment_ok_dec data first p : Decision (segment_ok data first p).
Proof. unfold segment_ok. apply _. Defined.
#[export] Instance image_of_dec data first rest : Decision (image_of data first rest).
Proof. unfold image_of. apply _. Defined.

(** ** The segments that [main] counts *)

Lemma add_segments_filter ps : ∀ x, foldl add_segment x ps = foldl add_segment x (List.filter loadable ps).
Proof.
  induction ps as [|p ps IH]; intros x; [done|]. cbn [foldl List.filter]. rewrite IH.
  
  destruct (loadable p) eqn:E; [done|]. f_equal. unfold add_segment, loadable in *. by rewrite E.
Qed.

(** once a segment is known, the others only extend it *)
Lemma add_segments_rest data first ps : ∀ x,
  Z.of_nat (length data) <= INT_MAX → Forall (λ p, loadable p = true) ps → Forall (segment_ok data first) ps →
  0 <= p_offset first → phoffset x = p_offset first → phsize x ≠ 0 → prevaddr x ≠ 0 →
  let x' := foldl add_segment x ps in
  phoffset x' = p_offset first ∧
  phsize x' = match ps with [] => phsize x | _ => stop_of ps - p_offset first end.
Proof.
  intros x Hl. revert x. induction ps as [|p r IH]; intros x Hload Hok H0 Ho Hs Hv; [done|]. cbn [foldl].
  apply Forall_cons in Hload as [Hp Hload]. apply Forall_cons in Hok as [(Hpv & Hpe) Hok].
  assert (add_segment x p = Extent (p_offset first) (end_of p - p_offset first) (p_vaddr p)) as ->.
  { unfold add_segment, loadable in *. rewrite Hp, (proj2 (Z.eqb_neq _ _) Hs), (proj2 (Z.eqb_neq _ _) Hv), Ho.
    cbn [negb orb]. unfold end_of in *. by rewrite u32_small by (unfold INT_MAX in *; lia). }
  destruct (IH (Extent (p_offset first) (end_of p - p_offset first) (p_vaddr p)) Hload Hok H0 eq_refl) as [E1 E2];
    [cbn; lia|done|]. split; [exact E1|]. rewrite E2. by destruct r.
Qed.

Lemma get_phdr_range data o : are_bytes data → 0 <= p_offset (get_phdr (slice data o 32)) ∧ 0 <= p_filesz (get_phdr (slice data o 32)).
Proof.
  intros Hb. pose proof (are_bytes_slice data o 32 Hb) as Hs.
  split; apply be32_range; exact Hs.
Qed.

Lemma segments_count data first rest : image_of data first rest →
  0 <= p_offset first ∧
  let x := foldl add_segment (Extent 0 0 0) (table data) in
  phoffset x = p_offset first ∧ phsize x = stop_of (first :: rest) - p_offset first.
Proof.
  intros (Hb & Hl & _ & _ & Hseg & Hok). pose proof Hok as Hall. apply Forall_cons in Hok as [(Hv & He) Hok].
  assert (Forall (λ p, loadable p = true) (first :: rest)) as Hload.
  { rewrite <- Hseg. apply Forall_forall. intros p Hp. apply list_elem_of_In, List.filter_In in Hp. tauto. }
  assert (0 <= p_offset first) as H0.
  { assert (In first (table data)) as Hin.
    { assert (In first (segments data)) as Hi by (rewrite Hseg; by left). by apply List.filter_In in Hi as [? _]. }
    unfold table in Hin. apply in_map_iff in Hin as (i & <- & _). by apply get_phdr_range. }
  split; [done|]. rewrite add_segments_filter. fold (segments data). rewrite Hseg. cbn [foldl].
  apply Forall_cons in Hload as [Hf Hload].
  assert (add_segment (Extent 0 0 0) first = Extent (p_offset first) (p_filesz first) (p_vaddr first)) as ->.
  { unfold add_segment, loadable in *. by rewrite Hf. }
  destruct (add_segments_rest data first rest (Extent (p_offset first) (p_filesz first) (p_vaddr first)))
    as [E1 E2]; [lia|done|done|done|done|unfold end_of in *; cbn; lia|done|].
  cbv zeta. split; [exact E1|]. rewrite E2. destruct rest; [|done]. cbn [phsize]. unfold stop_of, end_of. cbn [last from_option]. lia.
Qed.

Lemma stop_in data first rest : image_of data first rest → p_offset first < stop_of (first :: rest) <= Z.of_nat (length data).
Proof.
  intros (_ & _ & _ & _ & _ & Hok). unfold stop_of. destruct (last (first :: rest)) as [p|] eqn:E.
  - rewrite Forall_forall in Hok. apply last_Some_elem_of in E. by destruct (Hok _ E).
  - by apply last_None in E.
Qed.

(** ** The steps of the program *)

(** [s] reads [data] at [p] *)
Definition reading (data : list Z) (p : Z) (s : host) : Prop :=
  st_bytes (fi s) = data ∧ st_pos (fi s) = p ∧ st_seeks (fi s) = true.

(** what stays while the tool only reads *)
Definition same_output (s s' : host) : Prop :=
  h_written s' = h_written s ∧ h_stderr s' = h_stderr s ∧ h_room s' = h_room s ∧ h_creates s' = h_creates s.

#[export] Instance same_output_refl : Reflexive same_output.
Proof. by intros s. Qed.
#[export] Instance same_output_trans : Transitive same_output.
Proof. intros a b c (? & ? & ? & ?) (? & ? & ? & ?). split_and!; congruence. Qed.

Lemma rd_ok ni data p n s : reading data p s → 0 <= p → 0 <= n → p + n <= Z.of_nat (length data) →
  ∃ s', rd ni n s = (Ok (slice data p n), s') ∧ reading data (p + n) s' ∧ same_output s s'.
Proof.
  intros (Hd & Hp & Hs) H0 Hn Hin. unfold rd. erewrite bind_ok by reflexivity. rewrite Hd, Hp.
  assert (Z.of_nat (length (slice data p n)) = n) as Hl by (rewrite length_slice; lia).
  rewrite Hl, Z.eqb_refl. eexists. split; [reflexivity|]. by repeat split.
Qed.

Lemma fseek_ok data p q s : reading data q s → 0 <= p <= INT_MAX →
  ∃ s', fseek p s = (Ok tt, s') ∧ reading data p s' ∧ same_output s s'.
Proof.
  intros (Hd & Hq & Hs) Hp. unfold fseek, modify. rewrite Hs, s32_small by (unfold INT_MIN; lia).
  rewrite (proj2 (Z.leb_le 0 p)) by lia. cbn [andb]. eexists. split; [reflexivity|]. by repeat split.
Qed.

Lemma scan_ok ni data n : ∀ p x s, reading data p s → 0 <= p → p + sizeof_phdr * Z.of_nat n <= Z.of_nat (length data) →
  ∃ s' q, scan ni n x s =
      (Ok (foldl add_segment x (map (λ i, get_phdr (slice data (p + sizeof_phdr * i) sizeof_phdr)) (seqZ 0 (Z.of_nat n)))), s') ∧
    reading data q s' ∧ same_output s s'.
Proof.
  unfold sizeof_phdr. induction n as [|n IH]; intros p x s Hr Hp Hin; [by exists s, p|]. cbn [scan].
  destruct (rd_ok ni data p 32 s Hr Hp ltac:(lia) ltac:(lia)) as (s1 & E & Hr1 & Hs1).
  change sizeof_phdr with 32. rewrite (bind_ok _ _ _ _ _ E).
  destruct (IH (p + 32) (add_segment x (get_phdr (slice data p 32))) s1 Hr1 ltac:(lia) ltac:(lia)) as (s2 & q & -> & Hr2 & Hs2).
  exists s2, q. split; [|split; [done|by etrans]]. do 2 f_equal.
  rewrite (seqZ_cons 0 (Z.of_nat (S n))) by lia. cbn [map foldl]. rewrite Z.mul_0_r, Z.add_0_r.
  replace (Z.pred (Z.of_nat (S n))) with (Z.of_nat n) by lia. f_equal.
  change (Z.succ 0) with (1 + 0). rewrite <- (fmap_add_seqZ 1 0). change (Z.add 1 <$> seqZ 0 (Z.of_nat n)) with (map (Z.add 1) (seqZ 0 (Z.of_nat n))). rewrite map_map. apply map_ext. intros i. do 2 f_equal. lia.
Qed.

Lemma copy_slices ni no data fuel : ∀ p len s, reading data p s → 0 <= p → 0 <= len <= sizeof_buf * (Z.of_nat fuel - 1) →
  p + len <= Z.of_nat (length data) → Z.of_nat (length (h_written s)) + len <= h_room s →
  ∃ s', copy fuel ni no len s = (Ok tt, s') ∧ h_written s' = h_written s ++ slice data p len ∧ h_stderr s' = h_stderr s.
Proof.
  unfold sizeof_buf. induction fuel as [|fuel IH]; intros p len s Hr Hp Hlen Hin Hroom; [lia|]. cbn [copy].
  destruct (Z.eqb_spec len 0) as [->|Hne].
  { exists s. split; [done|]. unfold slice. change (Z.to_nat 0) with O. by rewrite take_0, app_nil_r. }
  change sizeof_buf with 65536. set (nb := if 65536 <? len then 65536 else len).
  assert (0 < nb <= len ∧ nb <= 65536 ∧ (nb = len ∨ nb = 65536)) as Hnb by (unfold nb; destruct (Z.ltb_spec 65536 len); lia).
  cbv zeta. clearbody nb.
  destruct (rd_ok ni data p nb s Hr Hp ltac:(lia) ltac:(lia)) as (s1 & E & Hr1 & Hw1 & He1 & Hro1 & _).
  rewrite (bind_ok _ _ _ _ _ E). set (b := slice data p nb).
  assert (Z.of_nat (length b) = nb) as Hb by (unfold b; rewrite length_slice; lia).
  rewrite (bind_ok _ _ _ nb (with_written (h_written s ++ b) s1)); cycle 1.
  { unfold fwrite. rewrite Hb, Hro1, Hw1, Z.min_l by lia. by rewrite take_ge by lia. }
  rewrite Z.eqb_refl. cbn [negb].
  destruct (IH (p + nb) (len - nb) (with_written (h_written s ++ b) s1)) as (s2 & -> & Hw2 & He2);
    [exact Hr1|lia..|cbn [h_written h_room with_written]; rewrite length_app; lia|].
  exists s2. split; [done|]. rewrite Hw2, He2. split; [|done]. cbn [h_written with_written].
  rewrite <- app_assoc. f_equal. unfold b. rewrite <- slice_app by lia. f_equal. lia.
Qed.

Lemma extract_ok tool name out data first rest stdin err room :
  image_of data first rest → deref name ≠ 45 → stop_of (first :: rest) - p_offset first <= room →
  ∃ s', main [tool; name; out] (start stdin (Some (Stream data 0 true false)) true room err) = (Err 0, s') ∧
    h_written s' = slice data (p_offset first) (stop_of (first :: rest) - p_offset first) ∧ h_stderr s' = [].
Proof.
  intros Him Hname Hroom. destruct (segments_count _ _ _ Him) as (H0 & Hx1 & Hx2). pose proof (stop_in _ _ _ Him) as Hstop.
  destruct Him as (Hb & Hl & Helf & Hph & _). cbv zeta in Hx1, Hx2.
  unfold main. cbn [length nth]. change (3 <? Z.of_nat 3) with false. rewrite (proj2 (Z.eqb_neq _ _) Hname).
  rewrite andb_false_r. cbn [orb]. erewrite bind_ok by reflexivity. cbn [nth].
  set (s1 := with_fi _ _).
  assert (reading data 0 s1) as Hr1 by done.
  destruct (rd_ok name data 0 sizeof_ehdr s1 Hr1 ltac:(lia) ltac:(done) ltac:(lia)) as (s2 & E2 & Hr2 & Hs2).
  rewrite (bind_ok _ _ _ _ _ E2). clear E2.
  assert (∀ i, 0 <= i < 52 → byte_at (slice data 0 sizeof_ehdr) i = byte_at data i) as Hbyte.
  { intros i Hi. by rewrite byte_at_slice by (unfold sizeof_ehdr; lia). }
  assert (is_elf (slice data 0 sizeof_ehdr) = is_elf data) as -> by (unfold is_elf, e_ident; by rewrite !Hbyte by lia).
  assert (e_phoff (slice data 0 sizeof_ehdr) = e_phoff data) as -> by (unfold e_phoff, be32; by rewrite !Hbyte by lia).
  assert (e_phnum (slice data 0 sizeof_ehdr) = e_phnum data) as -> by (unfold e_phnum, be16; by rewrite !Hbyte by lia).
  rewrite Helf. cbn [negb]. pose proof (be32_range data 28 Hb). pose proof (be16_range data 44 Hb).
  unfold sizeof_ehdr, sizeof_phdr in *. fold (e_phoff data) (e_phnum data) in *.
  destruct (fseek_ok data (e_phoff data) _ s2 Hr2 ltac:(lia)) as (s3 & E3 & Hr3 & Hs3).
  rewrite (bind_ok _ _ _ _ _ E3). clear E3.
  destruct (scan_ok name data (Z.to_nat (e_phnum data)) (e_phoff data) (Extent 0 0 0) s3 Hr3) as (s4 & q & E4 & Hr4 & Hs4);
    [lia|unfold sizeof_phdr; lia|].
  rewrite (bind_ok _ _ _ _ _ E4). clear E4. rewrite Z2Nat.id by lia. fold (table data).
  set (x := foldl add_segment _ _) in *. clearbody x. rewrite Hx2, (proj2 (Z.eqb_neq _ 0)) by lia.
  assert (same_output s1 s4) as Hs by (etrans; [exact Hs2|etrans; [exact Hs3|exact Hs4]]).
  destruct Hs as (Hw & He & Hro & Hc).
  rewrite (bind_ok _ _ _ out s4); cycle 1.
  { unfold open_output. cbn [length nth]. change (2 <? Z.of_nat 3) with true. cbn iota. rewrite gets_bind, Hc. done. }
  rewrite Hx1. destruct (fseek_ok data (p_offset first) _ s4 Hr4 ltac:(lia)) as (s5 & E5 & Hr5 & Hw5 & He5 & Hro5 & _).
  rewrite (bind_ok _ _ _ _ _ E5). clear E5. set (len := stop_of (first :: rest) - p_offset first) in *.
  destruct (copy_slices name out data (copy_fuel len) (p_offset first) len s5 Hr5) as (s6 & E6 & Hw6 & He6);
    [lia| |unfold len; lia| |].
  - unfold copy_fuel, sizeof_buf. assert (0 <= len / 65536) by (apply Z.div_pos; lia).
    pose proof (Z.div_mod len 65536). pose proof (Z.mod_pos_bound len 65536). lia.
  - rewrite Hw5, Hw, Hro5, Hro. cbn. lia.
  - rewrite (bind_ok _ _ _ _ _ E6). eexists. split; [reflexivity|]. by rewrite Hw6, He6, Hw5, He5, Hw, He.
Qed.

(** ** The property *)

(** C29: from an image whose segments [first] to the last lie behind the start of [first],
    none of them loaded at address 0, the tool writes the bytes of the file from the start
    of [first] to the end of the last segment, in pieces of 64 KB, and ends with success. *)
Theorem segments_extracted tool name out data first rest stdin err room :
  image_of data first rest → deref name ≠ 45 → stop_of (first :: rest) - p_offset first <= room →
  ∃ s', main [tool; name; out] (start stdin (Some (Stream data 0 true false)) true room err) = (Err 0, s') ∧
    h_written s' = slice data (p_offset first) (stop_of (first :: rest) - p_offset first) ∧ h_stderr s' = [].
Proof. apply extract_ok. Qed.

(** a file of two loadable segments *)
Definition example_phdr (type off vaddr size : Z) : list Z :=
  put_be32 type ++ put_be32 off ++ put_be32 vaddr ++ put_be32 vaddr ++ put_be32 size ++ put_be32 size ++ replicate 8 0.

Definition example_file (vaddr : Z) : list Z :=
  [127; 69; 76; 70; 1; 2; 1] ++ replicate 21 0 ++ put_be32 52 ++ replicate 10 0 ++ put_be16 32 ++ put_be16 3 ++
  replicate 6 0 ++ example_phdr 1 150 vaddr 4 ++ example_phdr 4 0 0 0 ++ example_phdr 1 156 4096 6 ++
  bs "::textpadata::debug".

Lemma segments_extracted_witness :
  image_of (example_file 2048) (Phdr 1 150 2048 4) [Phdr 1 156 4096 6] ∧
  ∃ s', main [bs "elfextract"; bs "vmlinux"; bs "out"]
      (start (Stream [] 0 false false) (Some (Stream (example_file 2048) 0 true false)) true 100 []) = (Err 0, s') ∧
    h_written s' = bs "textpadata::" ∧ h_stderr s' = [].
Proof.
  assert (image_of (example_file 2048) (Phdr 1 150 2048 4) [Phdr 1 156 4096 6]) as Him by by_decision.
  split; [exact Him|].
  destruct (segments_extracted (bs "elfextract") (bs "vmlinux") (bs "out") _ _ _ (Stream [] 0 false false) [] 100 Him
    ltac:(by_decision) ltac:(by_decision)) as (s' & E & Hw & He).
  exists s'. exact (conj E (conj Hw He)).
Defined.

(** a segment loaded at address 0, as that of a kernel that is not relocated may be, counts as
    no segment: the next one starts over, and the first is left out *)
Example segment_at_zero_lost :
  let r := main [bs "elfextract"; bs "vmlinux"; bs "out"]
    (start (Stream [] 0 false false) (Some (Stream (example_file 0) 0 true false)) true 100 []) in
  r.1 = Err 0 ∧ h_written r.2 = bs "data::".
Proof. by vm_compute. Qed.
